(** * HostNote: the per-user encrypted file store of the server

    A shallow embedding of the Express server of HostNote (the encrypted file
    store, its metadata sidecars and the in-memory registry of public links)
    and the properties of its specification, stated on that embedding.

    JavaScript strings are sequences of UTF-16 code units, kept here as
    [list Z]; buffers are sequences of bytes, also [list Z].  The services of
    the platform that the server calls but does not define (SHA-256, PBKDF2,
    AES-256-GCM, the JSON codec) are operations of a class, and what is
    assumed of them is a record of laws.  What a sidecar holds is whatever
    [JSON.parse] makes of its text: any JSON value, not only a record.  The file system, the registry, the
    random source and the console are fields of an explicit world that every
    handler threads. *)

From Stdlib Require Import ZArith List Bool Lia String Ascii.
From Stdlib Require SpecFloat.
From stdpp Require Import gmap.
Import ListNotations.

(** ** JavaScript strings *)

Module Js.

(** A string is its sequence of UTF-16 code units. *)
Abbreviation jsstring := (list Z).

(** The code units of an ASCII literal. *)
Definition lit (s : string) : jsstring :=
  map (fun a => Z.of_N (N_of_ascii a)) (list_ascii_of_string s).

Definition unit_eqb (a b : Z) : bool := Z.eqb a b.

Fixpoint str_eqb (s t : jsstring) : bool :=
  match s, t with
  | [], [] => true
  | a :: s', b :: t' => unit_eqb a b && str_eqb s' t'
  | _, _ => false
  end.

(** [s.startsWith(p)] *)
Fixpoint startsWith (s p : jsstring) {struct p} : bool :=
  match p with
  | [] => true
  | b :: p' =>
      match s with
      | [] => false
      | a :: s' => unit_eqb a b && startsWith s' p'
      end
  end.

(** [s.includes(sub)]: [sub] starts at some position of [s]. *)
Fixpoint includes (s sub : jsstring) : bool :=
  startsWith s sub ||
  match s with
  | [] => false
  | _ :: s' => includes s' sub
  end.

(** [s.endsWith(p)] *)
Definition endsWith (s p : jsstring) : bool :=
  (length p <=? length s)%nat &&
  str_eqb (skipn (length s - length p) s) p.

(** [s.slice(from, -back)] for [0 <= from] and [0 < back], the one shape of
    [slice] the server uses. *)
Definition slice_from_to_end_minus (from back : nat) (s : jsstring) : jsstring :=
  skipn from (firstn (length s - back) s).

(** [s.substring(0, n)] *)
Definition substring0 (n : nat) (s : jsstring) : jsstring := firstn n s.

(** The values a request parameter or a field of a parsed body can hold; the
    server only ever asks whether one is a string. *)
Inductive value : Type :=
| VUndefined
| VNull
| VBool (b : bool)
| VNumber (n : Z)
| VString (s : jsstring)
| VObject.

(** Truthiness of a string: the empty string is falsy. *)
Definition truthy_string (s : jsstring) : bool :=
  match s with [] => false | _ => true end.

(** Truthiness of an optional string ([null] or a string). *)
Definition truthy_opt (o : option jsstring) : bool :=
  match o with Some s => truthy_string s | None => false end.

End Js.
Import Js.

(** ** Regular expressions of the server *)

Module Regex.

(** The fragment the two patterns of the server are written in: a character
    class, a sequence, a star and a bounded repetition.  A pattern is
    matched against the whole string, which is what its [^] and [$] ask. *)
Inductive re : Type :=
| Class (p : Z -> bool)
| Seq (r1 r2 : re)
| Star (r : re)
| Times (n : nat) (r : re).

Inductive matches : re -> jsstring -> Prop :=
| m_class p c : p c = true -> matches (Class p) [c]
| m_seq r1 r2 s1 s2 : matches r1 s1 -> matches r2 s2 -> matches (Seq r1 r2) (s1 ++ s2)
| m_star_nil r : matches (Star r) []
| m_star_cons r s1 s2 : matches r s1 -> matches (Star r) s2 -> matches (Star r) (s1 ++ s2)
| m_times_O r : matches (Times 0 r) []
| m_times_S n r s1 s2 : matches r s1 -> matches (Times n r) s2 -> matches (Times (S n) r) (s1 ++ s2).

Definition in_range (lo hi c : Z) : bool := (lo <=? c)%Z && (c <=? hi)%Z.

(** [a-zA-Z0-9] *)
Definition alnum (c : Z) : bool :=
  in_range 97 122 c || in_range 65 90 c || in_range 48 57 c.

(** [a-zA-Z0-9._-] *)
Definition name_char (c : Z) : bool :=
  alnum c || Z.eqb c 46 || Z.eqb c 95 || Z.eqb c 45.

(** [a-f0-9] *)
Definition lower_hex (c : Z) : bool :=
  in_range 97 102 c || in_range 48 57 c.

End Regex.

(** ** Constants of the server *)

Definition IV_LENGTH : nat := 16.
Definition SALT_LENGTH : nat := 64.
Definition TAG_LENGTH : nat := 16.
Definition TAG_POSITION : nat := SALT_LENGTH + IV_LENGTH.
Definition ENCRYPTED_POSITION : nat := TAG_POSITION + TAG_LENGTH.
Definition MAX_FILE_SIZE : Z := 5 * 1024 * 1024.
Definition MAX_FILENAME_LENGTH : nat := 255.

(** [/^[a-zA-Z0-9][a-zA-Z0-9._-]*$/] *)
Definition FILENAME_REGEX : Regex.re :=
  Regex.Seq (Regex.Class Regex.alnum) (Regex.Star (Regex.Class Regex.name_char)).

(** [FILENAME_REGEX.test(s)] *)
Definition FILENAME_REGEX_test (s : jsstring) : bool :=
  match s with
  | [] => false
  | c :: rest => Regex.alnum c && forallb Regex.name_char rest
  end.

(** [/^[a-f0-9]{32}$/] *)
Definition PUBLIC_ID_REGEX : Regex.re :=
  Regex.Times 32 (Regex.Class Regex.lower_hex).

Definition PUBLIC_ID_REGEX_test (s : jsstring) : bool :=
  Nat.eqb (length s) 32 && forallb Regex.lower_hex s.

(** ** Filename validation *)

Definition isValidFilename (filename : Js.value) : bool :=
  match filename with
  | VString s =>
      if negb (truthy_string s) then false
      else if (MAX_FILENAME_LENGTH <? length s)%nat then false
      else if includes s (lit "..") || includes s (lit "/") || includes s (lit "\") then false
      else if negb (FILENAME_REGEX_test s) then false
      else if startsWith s (lit ".") || str_eqb s (lit ".") || str_eqb s (lit "..") then false
      else true
  | _ => false
  end.

(** [sub] occurs in [s]: the reading of "contains an occurrence of". *)
Definition occurs (sub s : jsstring) : Prop :=
  exists pre post, s = pre ++ sub ++ post.

(** ** Buffers and their encodings

    What [Buffer] and [crypto] do between strings and bytes: hexadecimal and
    base64 text of a buffer, and UTF-8 bytes of a string. *)

Module Codec.

Local Open Scope Z_scope.

Abbreviation bytes := (list Z).

Definition is_byte (b : Z) : bool := Regex.in_range 0 255 b.

(** *** [buf.toString('hex')] *)

Definition hex_digit (n : Z) : Z := if n <? 10 then 48 + n else 87 + n.

Definition hex_encode (bs : bytes) : jsstring :=
  flat_map (fun b => [hex_digit (b / 16); hex_digit (b mod 16)]) bs.

(** *** [buf.toString('base64')] and [Buffer.from(s, 'base64')] *)

(** The six-bit groups of a buffer, three bytes to four groups; a last
    group of one or two bytes is completed with zero bits. *)
Fixpoint sextets (bs : bytes) : list Z :=
  match bs with
  | [] => []
  | [a] => [a / 4; (a mod 4) * 16]
  | [a; b] => [a / 4; (a mod 4) * 16 + b / 16; (b mod 16) * 4]
  | a :: b :: c :: rest =>
      a / 4 :: (a mod 4) * 16 + b / 16 :: (b mod 16) * 4 + c / 64 :: c mod 64
        :: sextets rest
  end.

(** The alphabet [A-Z a-z 0-9 + /]. *)
Definition base64_char (n : Z) : Z :=
  if n <? 26 then 65 + n
  else if n <? 52 then 71 + n
  else if n <? 62 then n - 4
  else if n =? 62 then 43
  else 47.

Definition base64_pad : Z := 61.

Definition base64_encode (bs : bytes) : jsstring :=
  map base64_char (sextets bs)
    ++ repeat base64_pad ((3 - length bs mod 3) mod 3)%nat.

(** The six-bit value of a character of the alphabet, or of [-] and [_],
    which stand for [+] and [/]; no other character carries data. *)
Definition unbase64 (c : Z) : option Z :=
  if Regex.in_range 65 90 c then Some (c - 65)
  else if Regex.in_range 97 122 c then Some (c - 71)
  else if Regex.in_range 48 57 c then Some (c + 4)
  else if (c =? 43) || (c =? 45) then Some 62
  else if (c =? 47) || (c =? 95) then Some 63
  else None.

(** The groups a text carries: decoding ends at the first padding
    character, and a character that carries no data is passed over. *)
Fixpoint base64_values (s : jsstring) : list Z :=
  match s with
  | [] => []
  | c :: rest =>
      if c =? base64_pad then []
      else
        match unbase64 c with
        | Some v => v :: base64_values rest
        | None => base64_values rest
        end
  end.

(** Four groups back to three bytes; two or three trailing groups give one
    or two bytes, a single trailing group gives none. *)
Fixpoint octets (vs : list Z) : bytes :=
  match vs with
  | v0 :: v1 :: v2 :: v3 :: rest =>
      v0 * 4 + v1 / 16 :: (v1 mod 16) * 16 + v2 / 4 :: (v2 mod 4) * 64 + v3
        :: octets rest
  | [v0; v1; v2] => [v0 * 4 + v1 / 16; (v1 mod 16) * 16 + v2 / 4]
  | [v0; v1] => [v0 * 4 + v1 / 16]
  | _ => []
  end.

Definition base64_decode (s : jsstring) : bytes := octets (base64_values s).

(** *** UTF-8 *)

Definition is_high_surrogate (c : Z) : bool := Regex.in_range 55296 56319 c.
Definition is_low_surrogate (c : Z) : bool := Regex.in_range 56320 57343 c.

(** U+FFFD, which stands for whatever cannot be converted, and its
    UTF-8 bytes [EF BF BD]. *)
Definition REPLACEMENT : Z := 65533.
Definition REPLACEMENT_UTF8 : bytes := [239; 191; 189].

Definition utf8_of_code_point (cp : Z) : bytes :=
  if cp <? 128 then [cp]
  else if cp <? 2048 then [192 + cp / 64; 128 + cp mod 64]
  else if cp <? 65536 then
    [224 + cp / 4096; 128 + (cp / 64) mod 64; 128 + cp mod 64]
  else
    [240 + cp / 262144; 128 + (cp / 4096) mod 64; 128 + (cp / 64) mod 64;
     128 + cp mod 64].

Definition code_point_of_pair (hi lo : Z) : Z :=
  65536 + (hi - 55296) * 1024 + (lo - 56320).

(** The bytes a string is written as: a surrogate pair is one code point
    of four bytes, and a surrogate without its partner is written as
    U+FFFD. *)
Fixpoint utf8_encode (s : jsstring) : bytes :=
  match s with
  | [] => []
  | c :: rest =>
      if is_high_surrogate c then
        match rest with
        | d :: rest' =>
            if is_low_surrogate d
            then utf8_of_code_point (code_point_of_pair c d) ++ utf8_encode rest'
            else REPLACEMENT_UTF8 ++ utf8_encode rest
        | [] => REPLACEMENT_UTF8
        end
      else if is_low_surrogate c then REPLACEMENT_UTF8 ++ utf8_encode rest
      else utf8_of_code_point c ++ utf8_encode rest
  end.

Definition utf16_of_code_point (cp : Z) : jsstring :=
  if cp <? 65536 then [cp]
  else [55296 + (cp - 65536) / 1024; 56320 + (cp - 65536) mod 1024].

Definition is_continuation (b : Z) : bool := Regex.in_range 128 191 b.

(** The range of the second byte after a lead byte of a three-byte and of a
    four-byte sequence: it excludes overlong forms, surrogates and code
    points above U+10FFFF. *)
Definition second_of_three (b0 b1 : Z) : bool :=
  if b0 =? 224 then Regex.in_range 160 191 b1
  else if b0 =? 237 then Regex.in_range 128 159 b1
  else is_continuation b1.

Definition second_of_four (b0 b1 : Z) : bool :=
  if b0 =? 240 then Regex.in_range 144 191 b1
  else if b0 =? 244 then Regex.in_range 128 143 b1
  else is_continuation b1.

(** The string a buffer is read as: every maximal ill-formed part becomes
    one U+FFFD and reading resumes at the byte that broke the sequence. *)
Fixpoint utf8_decode (bs : bytes) : jsstring :=
  match bs with
  | [] => []
  | b0 :: r0 =>
      if b0 <? 128 then b0 :: utf8_decode r0
      else if Regex.in_range 194 223 b0 then
        match r0 with
        | [] => [REPLACEMENT]
        | b1 :: r1 =>
            if is_continuation b1
            then (b0 - 192) * 64 + (b1 - 128) :: utf8_decode r1
            else REPLACEMENT :: utf8_decode r0
        end
      else if Regex.in_range 224 239 b0 then
        match r0 with
        | [] => [REPLACEMENT]
        | b1 :: r1 =>
            if second_of_three b0 b1 then
              match r1 with
              | [] => [REPLACEMENT]
              | b2 :: r2 =>
                  if is_continuation b2
                  then (b0 - 224) * 4096 + (b1 - 128) * 64 + (b2 - 128)
                         :: utf8_decode r2
                  else REPLACEMENT :: utf8_decode r1
              end
            else REPLACEMENT :: utf8_decode r0
        end
      else if Regex.in_range 240 244 b0 then
        match r0 with
        | [] => [REPLACEMENT]
        | b1 :: r1 =>
            if second_of_four b0 b1 then
              match r1 with
              | [] => [REPLACEMENT]
              | b2 :: r2 =>
                  if is_continuation b2 then
                    match r2 with
                    | [] => [REPLACEMENT]
                    | b3 :: r3 =>
                        if is_continuation b3
                        then utf16_of_code_point
                               ((b0 - 240) * 262144 + (b1 - 128) * 4096
                                + (b2 - 128) * 64 + (b3 - 128))
                               ++ utf8_decode r3
                        else REPLACEMENT :: utf8_decode r2
                    end
                  else REPLACEMENT :: utf8_decode r1
              end
            else REPLACEMENT :: utf8_decode r0
        end
      else REPLACEMENT :: utf8_decode r0
  end.

(** A string is well formed when its code units are 16-bit values and
    every surrogate is half of a pair. *)
Fixpoint well_formed (s : jsstring) : bool :=
  match s with
  | [] => true
  | c :: rest =>
      Regex.in_range 0 65535 c &&
      (if is_high_surrogate c then
         match rest with
         | d :: rest' => is_low_surrogate d && well_formed rest'
         | [] => false
         end
       else negb (is_low_surrogate c) && well_formed rest)
  end.

(** A code point that is not a surrogate. *)
Definition scalar_value (cp : Z) : Prop :=
  (0 <= cp < 1114112)%Z /\ ~ (55296 <= cp <= 57343)%Z.

Definition is_ascii (c : Z) : bool := Regex.in_range 0 127 c.

(** [buf.subarray(from, to)] and [buf.subarray(from)] *)
Definition subarray (from to : nat) (b : bytes) : bytes :=
  skipn from (firstn to b).
Definition subarray_from (from : nat) (b : bytes) : bytes := skipn from b.

End Codec.
Import Codec.

(** ** Errors and outcomes *)

(** What a call can throw: the errors of the file system, the failure of the
    authentication tag, a text that is not JSON, a value of the wrong type. *)
Inductive Error : Type :=
| ENOENT
| EEXIST
| EISDIR
| ENOTDIR
| EIO
| AuthenticationError
| SyntaxError
| TypeError.

Inductive Outcome (A : Type) : Type :=
| Return (a : A)
| Throw (e : Error).
Arguments Return {A} a.
Arguments Throw {A} e.

(** ** Association lists

    The entries of a directory and the fields of an object, by name. *)

Fixpoint dir_lookup {V : Type} (name : jsstring) (d : list (jsstring * V)) : option V :=
  match d with
  | [] => None
  | (n, v) :: rest => if str_eqb n name then Some v else dir_lookup name rest
  end.

(** A new entry goes last; an entry that exists keeps its place. *)
Fixpoint dir_put {V : Type} (name : jsstring) (v : V) (d : list (jsstring * V))
  : list (jsstring * V) :=
  match d with
  | [] => [(name, v)]
  | (n, v0) :: rest =>
      if str_eqb n name then (n, v) :: rest else (n, v0) :: dir_put name v rest
  end.

Fixpoint dir_remove {V : Type} (name : jsstring) (d : list (jsstring * V))
  : list (jsstring * V) :=
  match d with
  | [] => []
  | (n, v) :: rest =>
      if str_eqb n name then dir_remove name rest else (n, v) :: dir_remove name rest
  end.

(** ** JSON values

    What [JSON.parse] returns and [JSON.stringify] takes.  A number is a
    double.  The fields of an object are its own properties in the order in
    which they are enumerated: the keys that are array indices first, in
    ascending order, then the other keys in the order of their creation. *)

#[warnings="-register-all"]
Inductive json_value : Type :=
| JNull
| JBool (b : bool)
| JNumber (n : SpecFloat.spec_float)
| JString (s : jsstring)
| JArray (items : list json_value)
| JObject (fields : list (jsstring * json_value)).

(** Truthiness of a value that may be [undefined] ([None]). *)
Definition truthy (v : option json_value) : bool :=
  match v with
  | None => false
  | Some JNull => false
  | Some (JBool b) => b
  | Some (JNumber n) =>
      match n with
      | SpecFloat.S754_zero _ => false
      | SpecFloat.S754_nan => false
      | _ => true
      end
  | Some (JString s) => truthy_string s
  | Some (JArray _) => true
  | Some (JObject _) => true
  end.

(** [v.key] for a key that is no array index and that no prototype
    defines, as [isPublic], [publicId] and [userId] are: a [TypeError] on
    [null], the field of an object that has it, [undefined] otherwise. *)
Definition property (v : json_value) (key : jsstring) : Outcome (option json_value) :=
  match v with
  | JNull => Throw TypeError
  | JObject fields => Return (dir_lookup key fields)
  | _ => Return None
  end.

(** [v.key = x] for such a key, in the strict mode of a module: an object
    gets the field, or has it changed in its place; an array gets a property
    that is no element, which [JSON.stringify] does not write and the server
    does not read again; [null], a boolean, a number and a string throw a
    [TypeError]. *)
Definition assign (v : json_value) (key : jsstring) (x : json_value) : Outcome json_value :=
  match v with
  | JObject fields => Return (JObject (dir_put key x fields))
  | JArray items => Return (JArray items)
  | _ => Throw TypeError
  end.

(** Whether two keys of a [Map] are the same key: numbers as numbers, with
    [0] and [-0] the same; an array or an object is the same as itself
    only, and every one that the server uses as a key is new. *)
Definition same_value_zero (a b : json_value) : bool :=
  match a, b with
  | JNull, JNull => true
  | JBool x, JBool y => Bool.eqb x y
  | JNumber SpecFloat.S754_nan, JNumber SpecFloat.S754_nan => true
  | JNumber x, JNumber y => SpecFloat.SFeqb x y
  | JString x, JString y => str_eqb x y
  | _, _ => false
  end.

Fixpoint decimal_value (acc : Z) (digits : jsstring) : option Z :=
  match digits with
  | [] => Some acc
  | c :: rest =>
      if Regex.in_range 48 57 c then decimal_value (acc * 10 + (c - 48))%Z rest else None
  end.

(** The array index a key stands for: the decimal numeral, without a
    leading zero, of a number below [2^32 - 1]. *)
Definition array_index (key : jsstring) : option Z :=
  match key with
  | [] => None
  | [c] => decimal_value 0 [c]
  | c :: _ =>
      if (c =? 48)%Z || (10 <? length key)%nat then None
      else
        match decimal_value 0 key with
        | Some n => if (n <? 4294967295)%Z then Some n else None
        | None => None
        end
  end.

(** The keys are in the order of enumeration, every key once: the array
    indices first and ascending from above [last], then the names; [named]
    says that a name has come. *)
Fixpoint keys_in_order (last : Z) (named : bool) (keys : list jsstring) : bool :=
  match keys with
  | [] => true
  | key :: rest =>
      match array_index key with
      | Some n => negb named && (last <? n)%Z && keys_in_order n false rest
      | None => negb (existsb (str_eqb key) rest) && keys_in_order last true rest
      end
  end.

(** A value as [JSON.parse] can return it: no number is [NaN], and the keys
    of every object are in the order of enumeration. *)
Fixpoint json_wf (v : json_value) : bool :=
  match v with
  | JNumber n =>
      match n with
      | SpecFloat.S754_nan => false
      | _ => SpecFloat.valid_binary 53 1024 n
      end
  | JArray items => forallb json_wf items
  | JObject fields =>
      keys_in_order (-1) false (map fst fields)
      && forallb (fun field => json_wf (snd field)) fields
  | _ => true
  end.

(** What is left of a value when it is written and read again:
    [JSON.stringify] writes [-0] as [0] and an infinite number as [null]. *)
Fixpoint json_normal (v : json_value) : json_value :=
  match v with
  | JNumber n =>
      match n with
      | SpecFloat.S754_zero _ => JNumber (SpecFloat.S754_zero false)
      | SpecFloat.S754_infinity _ => JNull
      | SpecFloat.S754_nan => JNull
      | _ => v
      end
  | JArray items => JArray (map json_normal items)
  | JObject fields => JObject (map (fun field => (fst field, json_normal (snd field))) fields)
  | _ => v
  end.

(** ** Services of the platform

    The server calls these and does not define them.  A key derivation takes
    the password, the salt, the number of iterations and the length of the
    key (the digest is always SHA-512); the cipher is AES-256-GCM, whose
    encryption gives the ciphertext and the authentication tag, and whose
    decryption gives the plaintext or throws: an [AuthenticationError] when
    the tag does not verify, a [TypeError] when the cipher refuses the nonce
    or the tag. *)

Class Platform : Type := {
  (** [process.env.ENCRYPTION_KEY] *)
  ENCRYPTION_KEY : jsstring;
  (** [crypto.createHash('sha256').update(s).digest('hex')] *)
  sha256_hex : jsstring -> jsstring;
  (** [crypto.pbkdf2Sync(password, salt, iterations, keylen, 'sha512')] *)
  pbkdf2Sync : bytes -> bytes -> Z -> nat -> bytes;
  (** [createCipheriv('aes-256-gcm', key, iv)]: ciphertext and tag *)
  aes256gcm_encrypt : bytes -> bytes -> bytes -> bytes * bytes;
  (** [createDecipheriv('aes-256-gcm', key, iv)] with [setAuthTag(tag)] *)
  aes256gcm_decrypt : bytes -> bytes -> bytes -> bytes -> Outcome bytes;
  (** [JSON.stringify] and [JSON.parse]; [None] is its [SyntaxError] *)
  JSON_stringify : json_value -> jsstring;
  JSON_parse : jsstring -> option json_value;
  (** [String(n)] of a number *)
  Number_toString : SpecFloat.spec_float -> jsstring
}.

(** What is assumed of the platform: decryption with the key, nonce and tag
    of an encryption gives the plaintext back, and an empty nonce is refused;
    the ciphertext is as long as the plaintext and the tag is 16 bytes; a
    derived key has the length asked for; what [JSON.parse] returns is a
    value in the sense above, and the text [JSON.stringify] writes of such a
    value is well formed and parses back to what is left of the value. *)
Record PlatformLaws (P : Platform) : Prop := {
  pbkdf2_length : forall password salt iterations keylen,
    length (pbkdf2Sync password salt iterations keylen) = keylen;
  gcm_decrypt_encrypt : forall key iv plaintext,
    length key = 32%nat -> length iv = IV_LENGTH -> forallb is_byte plaintext = true ->
    aes256gcm_decrypt key iv (snd (aes256gcm_encrypt key iv plaintext))
      (fst (aes256gcm_encrypt key iv plaintext)) = Return plaintext;
  gcm_empty_iv : forall key tag ciphertext,
    aes256gcm_decrypt key [] tag ciphertext = Throw TypeError;
  gcm_ciphertext_length : forall key iv plaintext,
    length (fst (aes256gcm_encrypt key iv plaintext)) = length plaintext;
  gcm_tag_length : forall key iv plaintext,
    length (snd (aes256gcm_encrypt key iv plaintext)) = TAG_LENGTH;
  gcm_output_bytes : forall key iv plaintext,
    forallb is_byte (fst (aes256gcm_encrypt key iv plaintext)) = true /\
    forallb is_byte (snd (aes256gcm_encrypt key iv plaintext)) = true;
  json_parse_wf : forall text v, JSON_parse text = Some v -> json_wf v = true;
  json_parse_stringify : forall v,
    json_wf v = true -> JSON_parse (JSON_stringify v) = Some (json_normal v);
  json_stringify_well_formed : forall v,
    json_wf v = true -> well_formed (JSON_stringify v) = true
}.

(** ** Responses *)

(** An entry of the listing; a field that is [undefined] is [None]. *)
Record FileDetails : Type := {
  fd_name : jsstring;
  fd_size : nat;
  fd_modified : Z;
  fd_isPublic : option json_value;
  fd_publicId : option json_value
}.

(** The JSON bodies the handlers send. *)
Inductive Body : Type :=
| BError (error : string)
| BFiles (files : list FileDetails)
| BFile (name content : jsstring)
| BSaved (name : jsstring)
| BSuccess
| BRenamed (newName : jsstring)
| BShared (publicId : json_value) (publicUrl : jsstring)
| BUnshared
| BPublicFile (name content : jsstring).

Record Response : Type := { status : Z; body : Body }.

Definition json (b : Body) : Response := {| status := 200; body := b |}.
Definition status_json (code : Z) (b : Body) : Response := {| status := code; body := b |}.

(** ** The world

    The storage root holds one directory per namespace; a namespace holds files
    (their bytes and time of modification) and possibly directories.  A
    directory lists its entries in the order [readdir] gives them. *)

Inductive Node : Type :=
| NFile (data : bytes) (mtime : Z)
| NDir.

Abbreviation Directory := (list (jsstring * Node)).

Inductive RootEntry : Type :=
| RDir (entries : Directory)
| RFile.

(** A path below the storage root: [path.join(DATA_DIR, dir, name)]. *)
Record Path : Type := { path_dir : jsstring; path_name : jsstring }.

(** A value of the registry, [{ userId, filename }]; a [userId] that is
    [undefined] is [None]. *)
Record PublicEntry : Type := {
  entry_userId : option json_value;
  entry_filename : jsstring
}.

(** What a handler does to the world, in the order it does it. *)
Inductive Event : Type :=
| RegistrySet (publicId : json_value) (entry : PublicEntry)
| RegistryDelete (publicId : json_value)
| FsMkdir (dir : jsstring)
| FsWrite (p : Path)
| FsUnlink (p : Path)
| FsRename (src dst : Path)
| ConsoleLog (line : jsstring)
| ConsoleError (line : jsstring) (err : Error).

(** No entry is removed from the registry after a file was written: in a
    list of events, every [RegistryDelete] comes before every [FsWrite]. *)
Definition is_registry_delete (e : Event) : bool :=
  match e with RegistryDelete _ => true | _ => false end.

Fixpoint deletes_precede_writes (events : list Event) : bool :=
  match events with
  | [] => true
  | FsWrite _ :: rest => forallb (fun e => negb (is_registry_delete e)) rest
  | _ :: rest => deletes_precede_writes rest
  end.

(** The state a handler runs in.  The registry is a [Map] whose keys are
    whatever the sidecars gave as [publicId]: [publicFilesRegistry] holds its
    entries under the keys that are strings, the only keys the public route
    asks for, and [otherKeys] holds its entries under keys of other types.
    [entropy] is the tape [crypto.randomBytes] reads; [faults] says, for each
    coming call of the file system, whether the device fails it; [clock]
    counts those calls and dates the files. *)
Record World : Type := {
  disk : list (jsstring * RootEntry);
  publicFilesRegistry : gmap jsstring PublicEntry;
  otherKeys : list (json_value * PublicEntry);
  entropy : list Z;
  faults : list bool;
  clock : Z;
  trace : list Event
}.

Definition set_disk (d : list (jsstring * RootEntry)) (w : World) : World :=
  {| disk := d; publicFilesRegistry := publicFilesRegistry w; otherKeys := otherKeys w;
     entropy := entropy w; faults := faults w; clock := clock w; trace := trace w |}.
Definition set_registry (r : gmap jsstring PublicEntry) (w : World) : World :=
  {| disk := disk w; publicFilesRegistry := r; otherKeys := otherKeys w;
     entropy := entropy w; faults := faults w; clock := clock w; trace := trace w |}.
Definition set_otherKeys (l : list (json_value * PublicEntry)) (w : World) : World :=
  {| disk := disk w; publicFilesRegistry := publicFilesRegistry w; otherKeys := l;
     entropy := entropy w; faults := faults w; clock := clock w; trace := trace w |}.
Definition set_entropy (e : list Z) (w : World) : World :=
  {| disk := disk w; publicFilesRegistry := publicFilesRegistry w; otherKeys := otherKeys w;
     entropy := e; faults := faults w; clock := clock w; trace := trace w |}.
Definition next_call (f : list bool) (w : World) : World :=
  {| disk := disk w; publicFilesRegistry := publicFilesRegistry w; otherKeys := otherKeys w;
     entropy := entropy w; faults := f; clock := (clock w + 1)%Z; trace := trace w |}.
Definition set_faults (f : list bool) (w : World) : World :=
  {| disk := disk w; publicFilesRegistry := publicFilesRegistry w; otherKeys := otherKeys w;
     entropy := entropy w; faults := f; clock := clock w; trace := trace w |}.
Definition emit (e : Event) (w : World) : World :=
  {| disk := disk w; publicFilesRegistry := publicFilesRegistry w; otherKeys := otherKeys w;
     entropy := entropy w; faults := faults w; clock := clock w; trace := trace w ++ [e] |}.

(** The node at a path, when its namespace directory and the node exist. *)
Definition node_at (p : Path) (w : World) : option Node :=
  match dir_lookup (path_dir p) (disk w) with
  | Some (RDir d) => dir_lookup (path_name p) d
  | _ => None
  end.

(** ** The monad of handlers: state and exceptions *)

Definition M (A : Type) : Type := World -> Outcome A * World.

Definition ret {A : Type} (a : A) : M A := fun w => (Return a, w).
Definition throw {A : Type} (e : Error) : M A := fun w => (Throw e, w).
Definition bind {A B : Type} (m : M A) (k : A -> M B) : M B :=
  fun w => match m w with
           | (Return a, w') => k a w'
           | (Throw e, w') => (Throw e, w')
           end.
(** [try { body } catch (err) { handler }] *)
Definition try_catch {A : Type} (body : M A) (handler : Error -> M A) : M A :=
  fun w => match body w with
           | (Return a, w') => (Return a, w')
           | (Throw e, w') => handler e w'
           end.
Definition lift {A : Type} (o : Outcome A) : M A := fun w => (o, w).
Definition get_world : M World := fun w => (Return w, w).
Definition modify (f : World -> World) : M unit := fun w => (Return tt, f w).

Notation "'let*' x ':=' m 'in' k" := (bind m (fun x => k))
  (at level 10, x name, m at level 100, k at level 200).
Notation "m1 ';;' m2" := (bind m1 (fun _ => m2))
  (at level 100, m2 at level 200, right associativity).

(** [for (const x of xs) { f(x) }] *)
Fixpoint for_of {A : Type} (xs : list A) (f : A -> M unit) : M unit :=
  match xs with
  | [] => ret tt
  | x :: rest => f x ;; for_of rest f
  end.

(** [await Promise.all(xs.map(f))], the calls taken one after the other. *)
Fixpoint map_all {A B : Type} (f : A -> M B) (xs : list A) : M (list B) :=
  match xs with
  | [] => ret []
  | x :: rest =>
      let* y := f x in
      let* ys := map_all f rest in
      ret (y :: ys)
  end.

(** *** Console, registry and random bytes *)

Definition console_log (line : jsstring) : M unit := modify (emit (ConsoleLog line)).
Definition console_error (line : jsstring) (err : Error) : M unit :=
  modify (emit (ConsoleError line err)).

(** The entries under keys that are not strings: [set] replaces the entry
    of the same key or adds one, [delete] removes it. *)
Fixpoint others_put (key : json_value) (entry : PublicEntry)
    (others : list (json_value * PublicEntry)) : list (json_value * PublicEntry) :=
  match others with
  | [] => [(key, entry)]
  | (k, e) :: rest =>
      if same_value_zero k key then (k, entry) :: rest
      else (k, e) :: others_put key entry rest
  end.

Definition others_remove (key : json_value) (others : list (json_value * PublicEntry))
  : list (json_value * PublicEntry) :=
  List.filter (fun ke => negb (same_value_zero (fst ke) key)) others.

Definition registry_put (publicId : json_value) (entry : PublicEntry) (w : World) : World :=
  match publicId with
  | JString key => set_registry (<[key := entry]> (publicFilesRegistry w)) w
  | _ => set_otherKeys (others_put publicId entry (otherKeys w)) w
  end.

Definition registry_remove (publicId : json_value) (w : World) : World :=
  match publicId with
  | JString key => set_registry (delete key (publicFilesRegistry w)) w
  | _ => set_otherKeys (others_remove publicId (otherKeys w)) w
  end.

(** [publicFilesRegistry.get(k)] for a string, [.set(k, e)], [.delete(k)] and
    [.size] *)
Definition registry_get (k : jsstring) : M (option PublicEntry) :=
  fun w => (Return (publicFilesRegistry w !! k), w).
Definition registry_set (publicId : json_value) (e : PublicEntry) : M unit :=
  modify (fun w => emit (RegistrySet publicId e) (registry_put publicId e w)).
Definition registry_delete (publicId : json_value) : M unit :=
  modify (fun w => emit (RegistryDelete publicId) (registry_remove publicId w)).
Definition registry_size (w : World) : nat :=
  size (publicFilesRegistry w) + length (otherKeys w).

(** The first [n] bytes of the tape; a tape that runs out reads as zeros. *)
Fixpoint take_bytes (n : nat) (tape : list Z) : bytes :=
  match n with
  | O => []
  | S n' =>
      match tape with
      | [] => 0%Z :: take_bytes n' []
      | b :: rest => (b mod 256)%Z :: take_bytes n' rest
      end
  end.

(** The decimal digits of a number, as [console.log] prints it. *)
Fixpoint decimal_digits (fuel : nat) (n : Z) (acc : jsstring) : jsstring :=
  match fuel with
  | O => acc
  | S fuel' =>
      let acc' := (48 + n mod 10)%Z :: acc in
      if (n / 10 =? 0)%Z then acc' else decimal_digits fuel' (n / 10)%Z acc'
  end.
Definition decimal (n : nat) : jsstring := decimal_digits (S n) (Z.of_nat n) [].

(** [crypto.randomBytes(n)] *)
Definition randomBytes (n : nat) : M bytes :=
  fun w => (Return (take_bytes n (entropy w)), set_entropy (skipn n (entropy w)) w).

(** *** The file system

    Every call first asks the device: a fault throws [EIO] whatever the
    state of the disk. *)

Definition io {A : Type} (op : M A) : M A :=
  fun w => match faults w with
           | [] => op (next_call [] w)
           | false :: rest => op (next_call rest w)
           | true :: rest => (Throw EIO, next_call rest w)
           end.

(** [fs.mkdir(dir, { recursive: true })] for a namespace directory *)
Definition fs_mkdir_recursive (dir : jsstring) : M unit :=
  io (fun w =>
        match dir_lookup dir (disk w) with
        | None => (Return tt, emit (FsMkdir dir) (set_disk (dir_put dir (RDir []) (disk w)) w))
        | Some (RDir _) => (Return tt, w)
        | Some RFile => (Throw EEXIST, w)
        end).

(** [fs.readdir(DATA_DIR)] *)
Definition fs_readdir_root : M (list jsstring) :=
  io (fun w => (Return (map fst (disk w)), w)).

(** [fs.readdir(path.join(DATA_DIR, dir))] *)
Definition fs_readdir (dir : jsstring) : M (list jsstring) :=
  io (fun w =>
        match dir_lookup dir (disk w) with
        | None => (Throw ENOENT, w)
        | Some RFile => (Throw ENOTDIR, w)
        | Some (RDir d) => (Return (map fst d), w)
        end).

Record Stats : Type := { st_isFile : bool; st_size : nat; st_mtime : Z }.

(** [fs.stat(p)] *)
Definition fs_stat (p : Path) : M Stats :=
  io (fun w =>
        match node_at p w with
        | None => (Throw ENOENT, w)
        | Some (NFile data t) =>
            (Return {| st_isFile := true; st_size := length data; st_mtime := t |}, w)
        | Some NDir => (Return {| st_isFile := false; st_size := 0; st_mtime := 0 |}, w)
        end).

(** [fs.access(p)] *)
Definition fs_access (p : Path) : M unit :=
  io (fun w =>
        match node_at p w with
        | None => (Throw ENOENT, w)
        | Some _ => (Return tt, w)
        end).

(** [fs.readFile(p, 'utf-8')]: the bytes of the file read as a string *)
Definition fs_readFile (p : Path) : M jsstring :=
  io (fun w =>
        match node_at p w with
        | None => (Throw ENOENT, w)
        | Some NDir => (Throw EISDIR, w)
        | Some (NFile data _) => (Return (utf8_decode data), w)
        end).

Definition put_node (p : Path) (n : Node) (w : World) : World :=
  set_disk
    (match dir_lookup (path_dir p) (disk w) with
     | Some (RDir d) => dir_put (path_dir p) (RDir (dir_put (path_name p) n d)) (disk w)
     | _ => disk w
     end) w.

Definition remove_node (p : Path) (w : World) : World :=
  set_disk
    (match dir_lookup (path_dir p) (disk w) with
     | Some (RDir d) => dir_put (path_dir p) (RDir (dir_remove (path_name p) d)) (disk w)
     | _ => disk w
     end) w.

(** [fs.writeFile(p, text, 'utf-8')]: the namespace directory must exist, and
    the file is created or replaced whole. *)
Definition fs_writeFile (p : Path) (text : jsstring) : M unit :=
  io (fun w =>
        match dir_lookup (path_dir p) (disk w) with
        | Some (RDir d) =>
            match dir_lookup (path_name p) d with
            | Some NDir => (Throw EISDIR, w)
            | _ => (Return tt, emit (FsWrite p) (put_node p (NFile (utf8_encode text) (clock w)) w))
            end
        | Some RFile => (Throw ENOTDIR, w)
        | None => (Throw ENOENT, w)
        end).

(** [fs.unlink(p)] *)
Definition fs_unlink (p : Path) : M unit :=
  io (fun w =>
        match node_at p w with
        | None => (Throw ENOENT, w)
        | Some NDir => (Throw EISDIR, w)
        | Some (NFile _ _) => (Return tt, emit (FsUnlink p) (remove_node p w))
        end).

Definition same_kind (a b : Node) : bool :=
  match a, b with
  | NFile _ _, NFile _ _ => true
  | NDir, NDir => true
  | _, _ => false
  end.

(** [fs.rename(src, dst)] inside one namespace directory: the source must
    exist; a destination of the same kind is replaced. *)
Definition fs_rename (src dst : Path) : M unit :=
  io (fun w =>
        match node_at src w with
        | None => (Throw ENOENT, w)
        | Some n =>
            if str_eqb (path_name src) (path_name dst) then (Return tt, w)
            else
              match node_at dst w with
              | Some n' =>
                  if same_kind n n'
                  then (Return tt, emit (FsRename src dst) (put_node dst n (remove_node src w)))
                  else (Throw (match n with NDir => ENOTDIR | _ => EISDIR end), w)
              | None => (Return tt, emit (FsRename src dst) (put_node dst n (remove_node src w)))
              end
        end).

(** ** The server *)

Section Server.

Context {P : Platform}.

(** *** Identity and paths *)

(** The headers the authenticating proxy sets. *)
Record Headers : Type := {
  x_auth_request_email : option jsstring;
  x_auth_request_user : option jsstring
}.

(** [email || user || null] *)
Definition getUserId (h : Headers) : option jsstring :=
  if truthy_opt (x_auth_request_email h) then x_auth_request_email h
  else if truthy_opt (x_auth_request_user h) then x_auth_request_user h
  else None.

Definition requireAuth (h : Headers) (next : jsstring -> M Response) : M Response :=
  match getUserId h with
  | Some userId => next userId
  | None => ret (status_json 401 (BError "Authentication required"))
  end.

(** The namespace directory of a user, below [DATA_DIR]. *)
Definition getUserDataDir (userId : jsstring) : jsstring :=
  substring0 16 (sha256_hex userId).

Definition file_path (userId filename : jsstring) : Path :=
  {| path_dir := getUserDataDir userId; path_name := filename |}.

Definition sidecar_name (filename : jsstring) : jsstring :=
  lit "." ++ filename ++ lit ".meta.json".

Definition getMetadataPath (userId filename : jsstring) : Path :=
  {| path_dir := getUserDataDir userId; path_name := sidecar_name filename |}.


(** *** Metadata *)

(** [{ isPublic: false, publicId: null }] *)
Definition default_metadata : json_value :=
  JObject [(lit "isPublic", JBool false); (lit "publicId", JNull)].

Definition parse_json (data : jsstring) : M json_value :=
  match JSON_parse data with
  | Some v => ret v
  | None => throw SyntaxError
  end.

(** The value in the sidecar, whatever it is, or the default when the read
    or the parse throws. *)
Definition getFileMetadata (userId filename : jsstring) : M json_value :=
  try_catch
    (let metaPath := getMetadataPath userId filename in
     let* data := fs_readFile metaPath in
     parse_json data)
    (fun _ => ret default_metadata).

(** What [getFileMetadata] finds when the device does not fail: the value in
    the sidecar, or the default when there is no sidecar or no JSON in it. *)
Definition stored_metadata (userId filename : jsstring) (w : World) : json_value :=
  match node_at (getMetadataPath userId filename) w with
  | Some (NFile data _) =>
      match JSON_parse (utf8_decode data) with
      | Some v => v
      | None => default_metadata
      end
  | _ => default_metadata
  end.

(** The file is there, the device works, and the sidecar can be written. *)
Definition ready (userId filename : jsstring) (w : World) : Prop :=
  faults w = [] /\
  (exists n, node_at (file_path userId filename) w = Some n) /\
  node_at (getMetadataPath userId filename) w <> Some NDir.

Definition saveFileMetadata (userId filename : jsstring) (metadata : json_value) : M unit :=
  let metaPath := getMetadataPath userId filename in
  fs_writeFile metaPath (JSON_stringify metadata).

Definition generatePublicId : M jsstring :=
  let* b := randomBytes 16 in
  ret (hex_encode b).

(** [metadata.isPublic && metadata.publicId]: the [publicId] when the test
    holds, nothing when it does not, the [TypeError] when [metadata] is
    [null]. *)
Definition public_token (metadata : json_value) : Outcome (option json_value) :=
  match property metadata (lit "isPublic") with
  | Throw e => Throw e
  | Return isPublic =>
      if truthy isPublic then
        match property metadata (lit "publicId") with
        | Throw e => Throw e
        | Return publicId => Return (if truthy publicId then publicId else None)
        end
      else Return None
  end.

(** What the three assignments of [share] make of a value, and what the two
    of [unshare] make of it. *)
Definition made_public (metadata : json_value) (publicId userId : jsstring)
  : Outcome json_value :=
  match assign metadata (lit "isPublic") (JBool true) with
  | Throw e => Throw e
  | Return metadata =>
      match assign metadata (lit "publicId") (JString publicId) with
      | Throw e => Throw e
      | Return metadata => assign metadata (lit "userId") (JString userId)
      end
  end.

Definition made_private (metadata : json_value) : Outcome json_value :=
  match assign metadata (lit "isPublic") (JBool false) with
  | Throw e => Throw e
  | Return metadata => assign metadata (lit "publicId") JNull
  end.

(** [String(v)], by which a template literal takes a value in: an array is
    its elements joined by commas, with nothing for [null]; an object is
    [[object Object]], unless it has a field [toString] of its own, which is
    not a function, and then there is no conversion. *)
Fixpoint to_string (v : json_value) : Outcome jsstring :=
  match v with
  | JNull => Return (lit "null")
  | JBool b => Return (if b then lit "true" else lit "false")
  | JNumber n => Return (Number_toString n)
  | JString s => Return s
  | JArray items =>
      (fix join (items : list json_value) : Outcome jsstring :=
         match items with
         | [] => Return []
         | item :: rest =>
             match
               match item with
               | JNull => Return []
               | _ => to_string item
               end
             with
             | Throw e => Throw e
             | Return first =>
                 match rest with
                 | [] => Return first
                 | _ =>
                     match join rest with
                     | Throw e => Throw e
                     | Return others => Return (first ++ lit "," ++ others)
                     end
                 end
             end
         end) items
  | JObject fields =>
      match dir_lookup (lit "toString") fields with
      | Some _ => Throw TypeError
      | None => Return (lit "[object Object]")
      end
  end.

(** *** The registry at startup *)

(** The body of the inner loop: one entry of a namespace directory. *)
Definition load_file (userHash file : jsstring) : M unit :=
  if endsWith file (lit ".meta.json") then
    let metaPath := {| path_dir := userHash; path_name := file |} in
    let* data := fs_readFile metaPath in
    let* meta := parse_json data in
    let* shared := lift (public_token meta) in
    match shared with
    | Some publicId =>
        let filename := slice_from_to_end_minus 1 10 file in
        let* userId := lift (property meta (lit "userId")) in
        registry_set publicId {| entry_userId := userId; entry_filename := filename |}
    | None => ret tt
    end
  else ret tt.

(** The body of the outer loop: one entry of the storage root. *)
Definition load_user (userHash : jsstring) : M unit :=
  let* files := fs_readdir userHash in
  for_of files (load_file userHash).

Definition loadPublicFilesRegistry : M unit :=
  try_catch
    (let* users := fs_readdir_root in
     for_of users load_user ;;
     let* w := get_world in
     console_log (lit "Loaded " ++ decimal (registry_size w) ++ lit " public files"))
    (fun err => console_error (lit "Error loading public files registry:") err).

(** What the scan makes of one name of a namespace directory when the device
    works: the key and the entry of a sidecar that is public, nothing for
    any other name. *)
Definition scanned_entry (userHash file : jsstring) (w : World)
  : option (json_value * PublicEntry) :=
  if endsWith file (lit ".meta.json") then
    match node_at {| path_dir := userHash; path_name := file |} w with
    | Some (NFile data _) =>
        match JSON_parse (utf8_decode data) with
        | Some meta =>
            match public_token meta, property meta (lit "userId") with
            | Return (Some publicId), Return userId =>
                Some (publicId, {| entry_userId := userId;
                                   entry_filename := slice_from_to_end_minus 1 10 file |})
            | _, _ => None
            end
        | None => None
        end
    | _ => None
    end
  else None.

Definition scan_names (userHash : jsstring) (w : World) (files : list jsstring)
  : list (json_value * PublicEntry) :=
  flat_map (fun file => match scanned_entry userHash file w with
                        | Some found => [found]
                        | None => []
                        end) files.

Definition scan_user (w : World) (userHash : jsstring) : list (json_value * PublicEntry) :=
  match dir_lookup userHash (disk w) with
  | Some (RDir d) => scan_names userHash w (map fst d)
  | _ => []
  end.

(** All public sidecars of the disk, in the order of the scan. *)
Definition scan_disk (w : World) : list (json_value * PublicEntry) :=
  flat_map (scan_user w) (map fst (disk w)).

(** The entries under keys that are strings after [found] was registered,
    and the entries under the other keys. *)
Definition register_all (found : list (json_value * PublicEntry))
    (registry : gmap jsstring PublicEntry) : gmap jsstring PublicEntry :=
  fold_left (fun r te => match fst te with
                         | JString publicId => <[publicId := snd te]> r
                         | _ => r
                         end) found registry.

Definition register_others (found : list (json_value * PublicEntry))
    (others : list (json_value * PublicEntry)) : list (json_value * PublicEntry) :=
  fold_left (fun l te => match fst te with
                         | JString _ => l
                         | key => others_put key (snd te) l
                         end) found others.

(** Every entry of the storage root is a directory, and every name in it
    that ends in [.meta.json] is a file that holds JSON other than [null]. *)
Definition readable_entry (userHash file : jsstring) (w : World) : Prop :=
  endsWith file (lit ".meta.json") = true ->
  exists data t meta,
    node_at {| path_dir := userHash; path_name := file |} w = Some (NFile data t) /\
    JSON_parse (utf8_decode data) = Some meta /\ meta <> JNull.

Definition scannable (w : World) : Prop :=
  forall userHash,
    In userHash (map fst (disk w)) ->
    exists d,
      dir_lookup userHash (disk w) = Some (RDir d) /\
      forall file, In file (map fst d) -> readable_entry userHash file w.

(** Between two worlds the scan has registered the entries [found], one
    after the other, and done nothing else. *)
Definition registered (found : list (json_value * PublicEntry)) (w w' : World) : Prop :=
  disk w' = disk w /\
  publicFilesRegistry w' = register_all found (publicFilesRegistry w) /\
  otherKeys w' = register_others found (otherKeys w) /\
  trace w' = trace w ++ map (fun te => RegistrySet (fst te) (snd te)) found.

(** *** Encryption *)

Definition getUserEncryptionKey (userId : jsstring) : bytes :=
  pbkdf2Sync (utf8_encode ENCRYPTION_KEY) (utf8_encode (lit "user:" ++ userId)) 100000 32.

Definition getKey (userKey salt : bytes) : bytes :=
  pbkdf2Sync userKey salt 100000 32.

(** The buffer [encrypt] encodes, for a salt and a nonce. *)
Definition sealed (userId : jsstring) (salt iv : bytes) (text : jsstring) : bytes :=
  let userKey := getUserEncryptionKey userId in
  let key := getKey userKey salt in
  let encrypted := fst (aes256gcm_encrypt key iv (utf8_encode text)) in
  let tag := snd (aes256gcm_encrypt key iv (utf8_encode text)) in
  salt ++ iv ++ tag ++ encrypted.

(** The salt and the nonce the next [encrypt] draws. *)
Definition next_salt (w : World) : bytes := take_bytes SALT_LENGTH (entropy w).
Definition next_iv (w : World) : bytes :=
  take_bytes IV_LENGTH (skipn SALT_LENGTH (entropy w)).

Definition encrypt (text userId : jsstring) : M jsstring :=
  let* salt := randomBytes SALT_LENGTH in
  let* iv := randomBytes IV_LENGTH in
  ret (base64_encode (sealed userId salt iv text)).

Definition decrypt (encryptedData userId : jsstring) : Outcome jsstring :=
  let userKey := getUserEncryptionKey userId in
  let buffer := base64_decode encryptedData in
  let salt := subarray 0 SALT_LENGTH buffer in
  let iv := subarray SALT_LENGTH TAG_POSITION buffer in
  let tag := subarray TAG_POSITION ENCRYPTED_POSITION buffer in
  let encrypted := subarray_from ENCRYPTED_POSITION buffer in
  let key := getKey userKey salt in
  match aes256gcm_decrypt key iv tag encrypted with
  | Return plaintext => Return (utf8_decode plaintext)
  | Throw e => Throw e
  end.

(** *** The handlers, after [requireAuth] has found the user *)

(** The entry of one name of the listing, or [null]. *)
Definition list_entry (userId name : jsstring) : M (option FileDetails) :=
  if startsWith name (lit ".") && endsWith name (lit ".meta.json") then ret None
  else
    let filePath := file_path userId name in
    let* stats := fs_stat filePath in
    if st_isFile stats then
      let* metadata := getFileMetadata userId name in
      let* isPublic := lift (property metadata (lit "isPublic")) in
      let* publicId := lift (property metadata (lit "publicId")) in
      ret (Some {| fd_name := name; fd_size := st_size stats; fd_modified := st_mtime stats;
                   fd_isPublic := isPublic; fd_publicId := publicId |})
    else ret None.

(** An entry of the listing stands for a regular file of the namespace whose
    name is not that of a sidecar, with its size and time of modification. *)
Definition listed (userId : jsstring) (w : World) (fd : FileDetails) : Prop :=
  startsWith (fd_name fd) (lit ".") && endsWith (fd_name fd) (lit ".meta.json") = false /\
  exists data t,
    node_at (file_path userId (fd_name fd)) w = Some (NFile data t) /\
    fd_size fd = length data /\ fd_modified fd = t.

(** [fileDetails.filter(Boolean)] *)
Definition filter_Boolean {A : Type} (l : list (option A)) : list A :=
  flat_map (fun o => match o with Some a => [a] | None => [] end) l.

(** [GET /api/files] *)
Definition list_files (userId : jsstring) : M Response :=
  try_catch
    (let userDataDir := getUserDataDir userId in
     fs_mkdir_recursive userDataDir ;;
     let* files := fs_readdir userDataDir in
     let* fileDetails := map_all (list_entry userId) files in
     ret (json (BFiles (filter_Boolean fileDetails))))
    (fun _ => ret (json (BFiles []))).

(** [GET /api/files/:filename] *)
Definition read_file (userId filename : jsstring) : M Response :=
  try_catch
    (if negb (isValidFilename (VString filename))
     then ret (status_json 400 (BError "Invalid filename"))
     else
       let filePath := file_path userId filename in
       let* encryptedContent := fs_readFile filePath in
       let* content := lift (decrypt encryptedContent userId) in
       ret (json (BFile filename content)))
    (fun _ => ret (status_json 404 (BError "File not found"))).

(** [POST /api/files/:filename] *)
Definition save_file (userId filename : jsstring) (content : Js.value) : M Response :=
  try_catch
    (if negb (isValidFilename (VString filename))
     then ret (status_json 400 (BError "Invalid filename"))
     else
       match content with
       | VString text =>
           if (MAX_FILE_SIZE <? Z.of_nat (length text))%Z
           then ret (status_json 413 (BError "File too large (max 5MB)"))
           else
             let userDataDir := getUserDataDir userId in
             fs_mkdir_recursive userDataDir ;;
             let* encryptedContent := encrypt text userId in
             let filePath := file_path userId filename in
             fs_writeFile filePath encryptedContent ;;
             console_log (lit "ACTION: User " ++ userId ++ lit " saved file - " ++ filename) ;;
             ret (json (BSaved filename))
       | _ => ret (status_json 400 (BError "Invalid content"))
       end)
    (fun _ => ret (status_json 500 (BError "Failed to save file"))).

(** [if (metadata.isPublic && metadata.publicId) { step(metadata.publicId) }] *)
Definition when_public (metadata : json_value) (step : json_value -> M unit) : M unit :=
  let* shared := lift (public_token metadata) in
  match shared with
  | Some publicId => step publicId
  | None => ret tt
  end.

(** [DELETE /api/files/:filename] *)
Definition delete_file (userId filename : jsstring) : M Response :=
  try_catch
    (if negb (isValidFilename (VString filename))
     then ret (status_json 400 (BError "Invalid filename"))
     else
       let filePath := file_path userId filename in
       let* metadata := getFileMetadata userId filename in
       when_public metadata registry_delete ;;
       fs_unlink filePath ;;
       try_catch
         (let metaPath := getMetadataPath userId filename in
          fs_unlink metaPath)
         (fun _ => ret tt) ;;
       console_log (lit "ACTION: User " ++ userId ++ lit " deleted file - " ++ filename) ;;
       ret (json BSuccess))
    (fun _ => ret (status_json 500 (BError "Failed to delete file"))).

(** [PUT /api/files/:filename/rename] *)
Definition rename_file (userId oldFilename : jsstring) (newName : Js.value) : M Response :=
  try_catch
    (if negb (isValidFilename (VString oldFilename)) || negb (isValidFilename newName)
     then ret (status_json 400 (BError "Invalid filename"))
     else
       match newName with
       | VString newName =>
           let oldPath := file_path userId oldFilename in
           let newPath := file_path userId newName in
           let* taken :=
             try_catch (fs_access newPath ;; ret true) (fun _ => ret false) in
           if taken then ret (status_json 409 (BError "File already exists"))
           else
             fs_rename oldPath newPath ;;
             try_catch
               (let oldMetaPath := getMetadataPath userId oldFilename in
                let newMetaPath := getMetadataPath userId newName in
                let* metadata := getFileMetadata userId oldFilename in
                when_public metadata
                  (fun publicId =>
                     registry_set publicId
                       {| entry_userId := Some (JString userId);
                          entry_filename := newName |}) ;;
                fs_rename oldMetaPath newMetaPath)
               (fun _ => ret tt) ;;
             console_log (lit "ACTION: User " ++ userId ++ lit " renamed file - "
                            ++ oldFilename ++ lit " -> " ++ newName) ;;
             ret (json (BRenamed newName))
       | _ => throw TypeError
       end)
    (fun _ => ret (status_json 500 (BError "Failed to rename file"))).

Definition publicUrl (publicId : jsstring) : jsstring := lit "/public/" ++ publicId.

(** [POST /api/files/:filename/share] *)
Definition share_file (userId filename : jsstring) : M Response :=
  try_catch
    (if negb (isValidFilename (VString filename))
     then ret (status_json 400 (BError "Invalid filename"))
     else
       let filePath := file_path userId filename in
       let* found := try_catch (fs_access filePath ;; ret true) (fun _ => ret false) in
       if negb found then ret (status_json 404 (BError "File not found"))
       else
         let* metadata := getFileMetadata userId filename in
         let* shared := lift (public_token metadata) in
         match shared with
         | Some publicId =>
             let* text := lift (to_string publicId) in
             ret (json (BShared publicId (publicUrl text)))
         | None =>
             let* publicId := generatePublicId in
             let* metadata := lift (assign metadata (lit "isPublic") (JBool true)) in
             let* metadata := lift (assign metadata (lit "publicId") (JString publicId)) in
             let* metadata := lift (assign metadata (lit "userId") (JString userId)) in
             saveFileMetadata userId filename metadata ;;
             registry_set (JString publicId)
               {| entry_userId := Some (JString userId); entry_filename := filename |} ;;
             console_log (lit "ACTION: User " ++ userId ++ lit " made file public - "
                            ++ filename ++ lit " (" ++ publicId ++ lit ")") ;;
             ret (json (BShared (JString publicId) (publicUrl publicId)))
         end)
    (fun err =>
       console_error (lit "Error sharing file:") err ;;
       ret (status_json 500 (BError "Failed to share file"))).

(** [POST /api/files/:filename/unshare] *)
Definition unshare_file (userId filename : jsstring) : M Response :=
  try_catch
    (if negb (isValidFilename (VString filename))
     then ret (status_json 400 (BError "Invalid filename"))
     else
       let filePath := file_path userId filename in
       let* found := try_catch (fs_access filePath ;; ret true) (fun _ => ret false) in
       if negb found then ret (status_json 404 (BError "File not found"))
       else
         let* metadata := getFileMetadata userId filename in
         when_public metadata registry_delete ;;
         let* metadata := lift (assign metadata (lit "isPublic") (JBool false)) in
         let* metadata := lift (assign metadata (lit "publicId") JNull) in
         saveFileMetadata userId filename metadata ;;
         console_log (lit "ACTION: User " ++ userId ++ lit " made file private - " ++ filename) ;;
         ret (json BUnshared))
    (fun err =>
       console_error (lit "Error unsharing file:") err ;;
       ret (status_json 500 (BError "Failed to unshare file"))).

(** The lookup of a public link: the format of the token, then the
    registry. *)
Inductive Resolution : Type :=
| InvalidFormat
| PublicNotFound
| Resolved (fileInfo : PublicEntry).

Definition resolvePublic (publicId : jsstring) : M Resolution :=
  if negb (PUBLIC_ID_REGEX_test publicId) then ret InvalidFormat
  else
    let* fileInfo := registry_get publicId in
    match fileInfo with
    | None => ret PublicNotFound
    | Some info => ret (Resolved info)
    end.

(** [GET /api/public/:publicId]; [getUserDataDir] throws a [TypeError] on a
    [userId] that is no string, which the hash does not take. *)
Definition public_file (publicId : jsstring) : M Response :=
  try_catch
    (let* r := resolvePublic publicId in
     match r with
     | InvalidFormat => ret (status_json 400 (BError "Invalid public ID format"))
     | PublicNotFound => ret (status_json 404 (BError "Public file not found"))
     | Resolved fileInfo =>
         match entry_userId fileInfo with
         | Some (JString userId) =>
             let filename := entry_filename fileInfo in
             let filePath := file_path userId filename in
             let* encryptedContent := fs_readFile filePath in
             let* content := lift (decrypt encryptedContent userId) in
             ret (json (BPublicFile filename content))
         | _ => throw TypeError
         end
     end)
    (fun err =>
       console_error (lit "Error accessing public file:") err ;;
       ret (status_json 404 (BError "Public file not found or no longer available"))).

End Server.


(** ** The routes together *)

Section Routes.

Context {P : Platform}.

(** A request to one of the routes of the store: the headers the proxy set,
    and what the route takes from the URL and from the parsed body. *)
Inductive Request : Type :=
| GetFiles (h : Headers)
| GetFile (h : Headers) (filename : jsstring)
| PostFile (h : Headers) (filename : jsstring) (content : Js.value)
| DeleteFile (h : Headers) (filename : jsstring)
| PutRename (h : Headers) (filename : jsstring) (newName : Js.value)
| PostShare (h : Headers) (filename : jsstring)
| PostUnshare (h : Headers) (filename : jsstring)
| GetPublic (publicId : jsstring).

(** The table of routes: every route of the store but the public one is
    behind [requireAuth]. *)
Definition handle (r : Request) : M Response :=
  match r with
  | GetFiles h => requireAuth h list_files
  | GetFile h filename => requireAuth h (fun userId => read_file userId filename)
  | PostFile h filename content =>
      requireAuth h (fun userId => save_file userId filename content)
  | DeleteFile h filename => requireAuth h (fun userId => delete_file userId filename)
  | PutRename h filename newName =>
      requireAuth h (fun userId => rename_file userId filename newName)
  | PostShare h filename => requireAuth h (fun userId => share_file userId filename)
  | PostUnshare h filename => requireAuth h (fun userId => unshare_file userId filename)
  | GetPublic publicId => public_file publicId
  end.

(** The user a request is served for: the one [requireAuth] finds, and
    nobody for the public route or when the headers name nobody. *)
Definition requester (r : Request) : option jsstring :=
  match r with
  | GetFiles h | GetFile h _ | PostFile h _ _ | DeleteFile h _ | PutRename h _ _
  | PostShare h _ | PostUnshare h _ => getUserId h
  | GetPublic _ => None
  end.

(** Requests that do not overlap, served one after the other. *)
Definition serve (rs : list Request) : M (list Response) := map_all handle rs.

(** *** What a route answers *)

(** Every run of the route returns a response, with one of the statuses
    [codes]. *)
Definition answers (codes : list Z) (m : M Response) : Prop :=
  forall w, exists r w', m w = (Return r, w') /\ In (status r) codes.

(** Every run that returns, returns a response with one of the statuses
    [codes]. *)
Definition yields (codes : list Z) (m : M Response) : Prop :=
  forall w r w', m w = (Return r, w') -> In (status r) codes.

(** *** What a handler may touch *)

(** A relation between the world before and the world after that holds of
    every run of a computation, whatever the world and the device. *)
Definition keeps {A : Type} (R : World -> World -> Prop) (m : M A) : Prop :=
  forall w, R w (snd (m w)).

Definition same_disk (w w' : World) : Prop := disk w' = disk w.

Definition same_registry (w w' : World) : Prop :=
  publicFilesRegistry w' = publicFilesRegistry w /\ otherKeys w' = otherKeys w.

(** Between two worlds, nothing of the storage root has changed outside the
    namespace [dir], and inside it nothing but the entries called [names]. *)
Definition touches_only (dir : jsstring) (names : list jsstring) (w w' : World) : Prop :=
  (forall d, d <> dir -> dir_lookup d (disk w') = dir_lookup d (disk w)) /\
  (forall name, ~ In name names ->
                node_at {| path_dir := dir; path_name := name |} w'
                = node_at {| path_dir := dir; path_name := name |} w).

(** Every entry of the second registry is an entry of the first. *)
Definition registry_shrinks (w w' : World) : Prop :=
  forall token entry,
    publicFilesRegistry w' !! token = Some entry ->
    publicFilesRegistry w !! token = Some entry.

(** Every entry of the second registry is an entry of the first or names
    [userId] as the owner of a file with a valid name. *)
Definition registry_grows_for (userId : jsstring) (w w' : World) : Prop :=
  forall token entry,
    publicFilesRegistry w' !! token = Some entry ->
    publicFilesRegistry w !! token = Some entry \/
    (entry_userId entry = Some (JString userId) /\
     isValidFilename (VString (entry_filename entry)) = true).

(** A directory inside a namespace after the run was one before it. *)
Definition no_new_dirs (w w' : World) : Prop :=
  forall p, node_at p w' = Some NDir -> exists q, node_at q w = Some NDir.

(** A device that works before the run works after it. *)
Definition calm (w w' : World) : Prop := faults w = [] -> faults w' = [].

(** A file in the place of a namespace directory after the run was one
    before it. *)
Definition no_new_root_files (w w' : World) : Prop :=
  forall dir, dir_lookup dir (disk w') = Some RFile -> dir_lookup dir (disk w) = Some RFile.

(** *** The listing on a device that works *)

(** What the listing says of one entry of the namespace directory: nothing
    of a sidecar or of a directory; of a file its name, its size, its time
    and the two fields of what its sidecar holds, or the [TypeError] when the
    sidecar holds [null]. *)
Definition listing_of (userId : jsstring) (w : World) (entry : jsstring * Node)
  : Outcome (option FileDetails) :=
  if startsWith (fst entry) (lit ".") && endsWith (fst entry) (lit ".meta.json")
  then Return None
  else
    match snd entry with
    | NFile data t =>
        let metadata := stored_metadata userId (fst entry) w in
        match property metadata (lit "isPublic"), property metadata (lit "publicId") with
        | Return isPublic, Return publicId =>
            Return (Some {| fd_name := fst entry; fd_size := length data; fd_modified := t;
                            fd_isPublic := isPublic; fd_publicId := publicId |})
        | Throw e, _ => Throw e
        | _, Throw e => Throw e
        end
    | NDir => Return None
    end.

(** All the results, or the first error. *)
Fixpoint all_outcomes {A : Type} (l : list (Outcome A)) : Outcome (list A) :=
  match l with
  | [] => Return []
  | Throw e :: _ => Throw e
  | Return a :: rest =>
      match all_outcomes rest with
      | Return others => Return (a :: others)
      | Throw e => Throw e
      end
  end.

(** The listing of a namespace directory: what it says of every entry, or
    nothing at all when one entry throws. *)
Definition listing (userId : jsstring) (w : World) (d : Directory) : list FileDetails :=
  match all_outcomes (map (listing_of userId w) d) with
  | Return details => filter_Boolean details
  | Throw _ => []
  end.

(** *** Links and sidecars *)

(** What the sidecars of the disk hold is what the server writes: every
    sidecar that holds JSON holds an object. *)
Definition sidecars_are_records (w : World) : Prop :=
  forall dir filename data t v,
    node_at {| path_dir := dir; path_name := sidecar_name filename |} w = Some (NFile data t) ->
    JSON_parse (utf8_decode data) = Some v ->
    exists fields, v = JObject fields.

(** No namespace holds a directory, the sidecars are records, and every
    link of the registry that names an owner is backed by the disk: the
    filename is valid, the file is there, and its sidecar declares the file
    public under that token. *)
Definition backed (w : World) : Prop :=
  (forall p, node_at p w <> Some NDir) /\
  sidecars_are_records w /\
  forall token userId filename,
    publicFilesRegistry w !! token
    = Some {| entry_userId := Some (JString userId); entry_filename := filename |} ->
    isValidFilename (VString filename) = true /\
    (exists n, node_at (file_path userId filename) w = Some n) /\
    public_token (stored_metadata userId filename w) = Return (Some (JString token)).

(** A property of worlds that a run hands on. *)
Definition hands_on (I : World -> Prop) (w w' : World) : Prop := I w -> I w'.

(** The device works and the links are backed. *)
Definition sound (w : World) : Prop := faults w = [] /\ backed w.

End Routes.

(** ** The rate limiter *)

Definition RATE_LIMIT_WINDOW : Z := 60 * 1000.
Definition RATE_LIMIT_MAX_REQUESTS : Z := 100.

(** What the limiter reads of a request: two headers of the proxy and the
    address of the connection. *)
Record Connection : Type := {
  x_forwarded_for : option jsstring;
  x_real_ip : option jsstring;
  remoteAddress : option jsstring
}.

(** [s.split(',')[0]] *)
Fixpoint before_comma (s : jsstring) : jsstring :=
  match s with
  | [] => []
  | c :: rest => if (c =? 44)%Z then [] else c :: before_comma rest
  end.

(** The white space and the line terminators of the language, which
    [trim] removes. *)
Definition is_white_space (c : Z) : bool :=
  Regex.in_range 9 13 c || (c =? 32)%Z || (c =? 160)%Z || (c =? 5760)%Z
  || Regex.in_range 8192 8202 c || (c =? 8232)%Z || (c =? 8233)%Z || (c =? 8239)%Z
  || (c =? 8287)%Z || (c =? 12288)%Z || (c =? 65279)%Z.

Fixpoint trimStart (s : jsstring) : jsstring :=
  match s with
  | [] => []
  | c :: rest => if is_white_space c then trimStart rest else s
  end.

Definition trim (s : jsstring) : jsstring := rev (trimStart (rev (trimStart s))).

(** [a || b] on optional strings *)
Definition or_else (a b : option jsstring) : option jsstring :=
  if truthy_opt a then a else b.

Definition clientIp (req : Connection) : jsstring :=
  let forwarded := option_map (fun s => trim (before_comma s)) (x_forwarded_for req) in
  match or_else (or_else forwarded (x_real_ip req)) (remoteAddress req) with
  | Some ip => if truthy_string ip then ip else lit "unknown"
  | None => lit "unknown"
  end.

(** An entry of [rateLimitMap]. *)
Record ClientData : Type := { count : Z; resetTime : Z }.

(** What one run of the limiter reads of the clock and of the random
    source: [Date.now()] and [Math.random()]. *)
Record Stamp : Type := { now : Z; random : QArith_base.Q }.

(** [Math.random() < 0.01]; the number is the double nearest to 0.01. *)
Definition cleanup_due (r : QArith_base.Q) : bool :=
  negb (QArith_base.Qle_bool
          (QArith_base.Qmake 5764607523034235 576460752303423488) r).

Definition too_many : Response :=
  status_json 429 (BError "Too many requests. Please try again later.").

(** The limiter: the map after the run, and the response when it does not
    call [next]. *)
Definition rateLimit (req : Connection) (s : Stamp) (rateLimitMap : gmap jsstring ClientData)
  : gmap jsstring ClientData * option Response :=
  let ip := clientIp req in
  let clientData :=
    default {| count := 0; resetTime := now s + RATE_LIMIT_WINDOW |} (rateLimitMap !! ip) in
  let clientData :=
    if (resetTime clientData <? now s)%Z
    then {| count := 1; resetTime := now s + RATE_LIMIT_WINDOW |}
    else {| count := count clientData + 1; resetTime := resetTime clientData |} in
  let rateLimitMap := <[ip := clientData]> rateLimitMap in
  let rateLimitMap :=
    if cleanup_due (random s)
    then filter (fun entry => ~ (resetTime (snd entry) < now s)%Z) rateLimitMap
    else rateLimitMap in
  if (RATE_LIMIT_MAX_REQUESTS <? count clientData)%Z
  then (rateLimitMap, Some too_many)
  else (rateLimitMap, None).

(** The limiter on requests that come one after the other: its answers. *)
Fixpoint rateLimit_all (hits : list (Connection * Stamp))
    (rateLimitMap : gmap jsstring ClientData) : list (option Response) :=
  match hits with
  | [] => []
  | (req, s) :: rest =>
      let (rateLimitMap', answer) := rateLimit req s rateLimitMap in
      answer :: rateLimit_all rest rateLimitMap'
  end.

(** The requests of one client among the first of a list. *)
Definition requests_of {A : Type} (from : A -> Connection) (ip : jsstring) (l : list A) : Z :=
  Z.of_nat (length (List.filter (fun a => str_eqb (clientIp (from a)) ip) l)).

(** The client has no entry, or one that has run out at [t0]. *)
Definition idle (t0 : Z) (rateLimitMap : gmap jsstring ClientData) (ip : jsstring) : Prop :=
  match rateLimitMap !! ip with
  | None => True
  | Some data => (resetTime data < t0)%Z
  end.

(** In the window that began at [t0] the client has made [c] requests: none
    and it is idle, or its entry counts [c] and runs out after the window. *)
Definition counted (t0 : Z) (ip : jsstring) (c : Z)
    (rateLimitMap : gmap jsstring ClientData) : Prop :=
  (c = 0%Z /\ idle t0 rateLimitMap ip) \/
  ((0 < c)%Z /\
   exists r, rateLimitMap !! ip = Some {| count := c; resetTime := r |} /\
             (t0 + RATE_LIMIT_WINDOW <= r)%Z).

(** The entry of a client as the limiter reads it at time [t]: one that has
    run out is as good as none. *)
Definition live (t : Z) (o : option ClientData) : option ClientData :=
  match o with
  | Some data => if (resetTime data <? t)%Z then None else Some data
  | None => None
  end.

(** Two maps that the limiter cannot tell apart from time [t] on. *)
Definition alike (t : Z) (m1 m2 : gmap jsstring ClientData) : Prop :=
  forall ip, live t (m1 !! ip) = live t (m2 !! ip).

(** [Date.now()] never goes back: the runs come at times that do not
    decrease, from [t] on. *)
Fixpoint clock_runs_on (t : Z) (hits : list (Connection * Stamp)) : Prop :=
  match hits with
  | [] => True
  | (_, s) :: rest => (t <= now s)%Z /\ clock_runs_on (now s) rest
  end.

(** The same requests at the same times, whatever the random draws. *)
Definition same_requests (hits1 hits2 : list (Connection * Stamp)) : Prop :=
  Forall2 (fun h1 h2 => fst h1 = fst h2 /\ now (snd h1) = now (snd h2)) hits1 hits2.

(** ** Who is signed in *)

(** The body of the answer of [/api/user]. *)
Record UserInfo : Type := {
  username : option jsstring;
  email : option jsstring;
  displayName : option jsstring;
  avatarUrl : option jsstring
}.

Inductive UserAnswer : Type :=
| NotAuthenticated
| SignedIn (info : UserInfo).

(** [GET /api/user]: [NotAuthenticated] stands for the answer 401 with the
    error "Not authenticated".  The third header is
    [x-auth-request-preferred-username]. *)
Definition get_user (h : Headers) (preferred_username : option jsstring) : UserAnswer :=
  let user := or_else (x_auth_request_user h) None in
  let email := or_else (x_auth_request_email h) None in
  let preferredUsername := or_else preferred_username user in
  if negb (truthy_opt user) && negb (truthy_opt email) then NotAuthenticated
  else
    SignedIn
      {| username := user;
         email := email;
         displayName := or_else preferredUsername user;
         avatarUrl :=
           match user with
           | Some name =>
               if truthy_string name
               then Some (lit "https://github.com/" ++ name ++ lit ".png?size=80")
               else None
           | None => None
           end |}.

(** A field of the answer is [null] or a string that is not empty. *)
Definition null_or_filled (o : option jsstring) : Prop :=
  match o with
  | None => True
  | Some s => s <> []
  end.

(** *** The limiter before the routes *)

Section Limited.

Context {P : Platform}.

(** A request for a path below [/api]: who sends it, the request, and the
    stamps of the runs of the limiter. *)
Record Arrival : Type := {
  arrival_from : Connection;
  arrival_request : Request;
  arrival_first : Stamp;
  arrival_second : Stamp
}.

(** [app.use('/api', rateLimit)] comes before every route, and the public
    route names [rateLimit] once more before its handler. *)
Definition api (a : Arrival) (server : gmap jsstring ClientData * World)
  : Outcome Response * (gmap jsstring ClientData * World) :=
  let (rateLimitMap, w) := server in
  match rateLimit (arrival_from a) (arrival_first a) rateLimitMap with
  | (rateLimitMap, Some answer) => (Return answer, (rateLimitMap, w))
  | (rateLimitMap, None) =>
      match arrival_request a with
      | GetPublic publicId =>
          match rateLimit (arrival_from a) (arrival_second a) rateLimitMap with
          | (rateLimitMap, Some answer) => (Return answer, (rateLimitMap, w))
          | (rateLimitMap, None) =>
              let (answer, w') := public_file publicId w in (answer, (rateLimitMap, w'))
          end
      | r => let (answer, w') := handle r w in (answer, (rateLimitMap, w'))
      end
  end.

Fixpoint api_all (arrivals : list Arrival) (server : gmap jsstring ClientData * World)
  : list (Outcome Response) :=
  match arrivals with
  | [] => []
  | a :: rest => let (answer, server') := api a server in answer :: api_all rest server'
  end.

End Limited.

(** ** The client: where a path of the browser leads

    The entry point of the client looks at the path of the page:
    [path.match(/^\/public\/([a-zA-Z0-9]+)$/)]. *)

(** The pattern of the id, [[a-zA-Z0-9]+]. *)
Definition PUBLIC_PATH_ID : Regex.re :=
  Regex.Seq (Regex.Class Regex.alnum) (Regex.Star (Regex.Class Regex.alnum)).

(** The group that the match captures, when the path matches. *)
Definition publicMatch (path : jsstring) : option jsstring :=
  if startsWith path (lit "/public/") then
    let id := skipn 8 path in
    if truthy_string id && forallb Regex.alnum id then Some id else None
  else None.

(** [path.startsWith('/public') && !publicMatch] *)
Definition isInvalidPublicPath (path : jsstring) : bool :=
  startsWith path (lit "/public") &&
  match publicMatch path with Some _ => false | None => true end.

(** What the entry point renders. *)
Inductive View : Type :=
| InvalidPublicUrl
| PublicViewer (publicId : jsstring)
| App.

Definition render (path : jsstring) : View :=
  if isInvalidPublicPath path then InvalidPublicUrl
  else
    match publicMatch path with
    | Some publicId => PublicViewer publicId
    | None => App
    end.

(** The URL the viewer of a public file fetches. *)
Definition fetchPublicFile (publicId : jsstring) : jsstring := lit "/api/public/" ++ publicId.


(** ** A small platform

    An instance of the services, simple enough to compute with: it shows that
    the laws can be met and runs the server on concrete requests.  Its cipher
    adds a number drawn from the key and the nonce to every byte and tags the
    result with a checksum; its JSON codec writes a value in ASCII, each part
    behind a letter for its kind. *)

Module Toy.

Local Open Scope Z_scope.

Definition sum_bytes (bs : bytes) : Z := fold_right Z.add 0 bs.

Definition shift_of (key iv : bytes) : Z := sum_bytes key + sum_bytes iv.

Definition tag_of (key iv ciphertext : bytes) : bytes :=
  take_bytes TAG_LENGTH (sum_bytes ciphertext + shift_of key iv :: key ++ iv).

Definition gcm_encrypt (key iv plaintext : bytes) : bytes * bytes :=
  let ciphertext := map (fun b => (b + shift_of key iv) mod 256) plaintext in
  (ciphertext, tag_of key iv ciphertext).

Definition gcm_decrypt (key iv tag ciphertext : bytes) : Outcome bytes :=
  match iv with
  | [] => Throw TypeError
  | _ =>
      if str_eqb tag (tag_of key iv ciphertext)
      then Return (map (fun b => (b - shift_of key iv) mod 256) ciphertext)
      else Throw AuthenticationError
  end.

Definition digest_hex (s : jsstring) : jsstring :=
  hex_encode (take_bytes 32 (Z.of_nat (length s) :: s)).

(** Every byte of the key depends on every byte of the password and of the
    salt. *)
Definition derive (password salt : bytes) (iterations : Z) (keylen : nat) : bytes :=
  let s := sum_bytes password + 3 * sum_bytes salt + iterations in
  take_bytes keylen (map (fun i => s + Z.of_nat i) (seq 0 keylen)).

(** Numbers in binary, lowest bit first, closed by a comma. *)
Fixpoint write_positive (p : positive) : jsstring :=
  match p with
  | xH => [44]
  | xO q => 48 :: write_positive q
  | xI q => 49 :: write_positive q
  end.

Definition write_Z (z : Z) : jsstring :=
  match z with
  | Z0 => [122]
  | Zpos p => 112 :: write_positive p
  | Zneg p => 110 :: write_positive p
  end.

Fixpoint read_positive (s : jsstring) : option (positive * jsstring) :=
  match s with
  | [] => None
  | c :: rest =>
      if c =? 44 then Some (xH, rest)
      else if c =? 48 then
        match read_positive rest with
        | Some (q, rest') => Some (xO q, rest')
        | None => None
        end
      else if c =? 49 then
        match read_positive rest with
        | Some (q, rest') => Some (xI q, rest')
        | None => None
        end
      else None
  end.

Definition read_Z (s : jsstring) : option (Z * jsstring) :=
  match s with
  | [] => None
  | c :: rest =>
      if c =? 122 then Some (0, rest)
      else if c =? 112 then
        match read_positive rest with
        | Some (p, rest') => Some (Zpos p, rest')
        | None => None
        end
      else if c =? 110 then
        match read_positive rest with
        | Some (p, rest') => Some (Zneg p, rest')
        | None => None
        end
      else None
  end.

Definition write_units (s : jsstring) : jsstring := flat_map write_Z s.

Fixpoint read_units (n : nat) (s : jsstring) : option (jsstring * jsstring) :=
  match n with
  | O => Some ([], s)
  | S n' =>
      match read_Z s with
      | Some (c, rest) =>
          match read_units n' rest with
          | Some (cs, rest') => Some (c :: cs, rest')
          | None => None
          end
      | None => None
      end
  end.

(** A string: its length and its code units. *)
Definition write_string (s : jsstring) : jsstring :=
  write_Z (Z.of_nat (length s)) ++ write_units s.

Definition read_string (s : jsstring) : option (jsstring * jsstring) :=
  match read_Z s with
  | Some (n, rest) => read_units (Z.to_nat n) rest
  | None => None
  end.

(** A number: [0], or the sign, the mantissa and the exponent. *)
Definition write_number (n : SpecFloat.spec_float) : jsstring :=
  match n with
  | SpecFloat.S754_finite s m e => (if s then 45 else 43) :: write_positive m ++ write_Z e
  | _ => [48]
  end.

Definition read_number (s : jsstring) : option (SpecFloat.spec_float * jsstring) :=
  match s with
  | [] => None
  | c :: rest =>
      if c =? 48 then Some (SpecFloat.S754_zero false, rest)
      else if (c =? 43) || (c =? 45) then
        match read_positive rest with
        | Some (m, rest1) =>
            match read_Z rest1 with
            | Some (e, rest2) => Some (SpecFloat.S754_finite (c =? 45) m e, rest2)
            | None => None
            end
        | None => None
        end
      else None
  end.

(** A value: a letter for its kind, then its content; an array and an
    object give the number of their parts first. *)
Fixpoint write (v : json_value) : jsstring :=
  match v with
  | JNull => [110]
  | JBool b => [if b then 116 else 102]
  | JNumber n => 35 :: write_number n
  | JString s => 83 :: write_string s
  | JArray items => 91 :: write_Z (Z.of_nat (length items)) ++ flat_map write items
  | JObject fields =>
      123 :: write_Z (Z.of_nat (length fields))
        ++ flat_map (fun field => write_string (fst field) ++ write (snd field)) fields
  end.

Fixpoint read_many {A : Type} (rd : jsstring -> option (A * jsstring)) (n : nat)
    (s : jsstring) : option (list A * jsstring) :=
  match n with
  | O => Some ([], s)
  | S n' =>
      match rd s with
      | Some (a, rest) =>
          match read_many rd n' rest with
          | Some (l, rest1) => Some (a :: l, rest1)
          | None => None
          end
      | None => None
      end
  end.

(** A field: its key, then its value. *)
Definition read_field (rd : jsstring -> option (json_value * jsstring)) (s : jsstring)
  : option ((jsstring * json_value) * jsstring) :=
  match read_string s with
  | Some (key, rest) =>
      match rd rest with
      | Some (v, rest1) => Some ((key, v), rest1)
      | None => None
      end
  | None => None
  end.

Fixpoint read (fuel : nat) (s : jsstring) : option (json_value * jsstring) :=
  match fuel with
  | O => None
  | S fuel' =>
      match s with
      | [] => None
      | c :: rest =>
          if c =? 110 then Some (JNull, rest)
          else if c =? 116 then Some (JBool true, rest)
          else if c =? 102 then Some (JBool false, rest)
          else if c =? 35 then
            match read_number rest with
            | Some (n, rest1) => Some (JNumber n, rest1)
            | None => None
            end
          else if c =? 83 then
            match read_string rest with
            | Some (text, rest1) => Some (JString text, rest1)
            | None => None
            end
          else if c =? 91 then
            match read_Z rest with
            | Some (n, rest1) =>
                match read_many (read fuel') (Z.to_nat n) rest1 with
                | Some (items, rest2) => Some (JArray items, rest2)
                | None => None
                end
            | None => None
            end
          else if c =? 123 then
            match read_Z rest with
            | Some (n, rest1) =>
                match read_many (read_field (read fuel')) (Z.to_nat n) rest1 with
                | Some (fields, rest2) => Some (JObject fields, rest2)
                | None => None
                end
            | None => None
            end
          else None
      end
  end.

Definition stringify (v : json_value) : jsstring := write (json_normal v).

Definition parse (s : jsstring) : option json_value :=
  match read (S (length s)) s with
  | Some (v, []) => if json_wf v then Some v else None
  | _ => None
  end.

Definition platform : Platform := {|
  ENCRYPTION_KEY := lit "0123456789abcdef0123456789abcdef";
  sha256_hex := digest_hex;
  pbkdf2Sync := derive;
  aes256gcm_encrypt := gcm_encrypt;
  aes256gcm_decrypt := gcm_decrypt;
  JSON_stringify := stringify;
  JSON_parse := parse;
  Number_toString := write_number
|}.

End Toy.

(** ** Worlds and requests to compute with *)

Module Example.

Definition empty_world : World :=
  {| disk := []; publicFilesRegistry := ∅; otherKeys := []; entropy := []; faults := [];
     clock := 0; trace := [] |}.

Definition alice : jsstring := lit "alice".
Definition hello_txt : jsstring := lit "hello.txt".

(** The world after alice has saved [hello.txt] with content [hi]. *)
Definition saved_world : World :=
  snd (save_file (P := Toy.platform) alice hello_txt (VString (lit "hi")) empty_world).

Definition bob : jsstring := lit "bob".

(** A blob that was encrypted for bob. *)
Definition blob_of_bob : jsstring :=
  match fst (encrypt (P := Toy.platform) (lit "hi") bob empty_world) with
  | Return blob => blob
  | Throw _ => []
  end.

(** The world in which the file of alice holds the blob of bob: what is
    stored no longer verifies under the key of alice. *)
Definition tampered_world : World :=
  put_node (file_path (P := Toy.platform) alice hello_txt)
    (NFile (utf8_encode blob_of_bob) 0) saved_world.

Definition not_found : Response := status_json 404 (BError "File not found").

(** The world after alice has shared [hello.txt], and the token she got. *)
Definition shared_world : World :=
  snd (share_file (P := Toy.platform) alice hello_txt saved_world).

Definition token : jsstring :=
  match fst (share_file (P := Toy.platform) alice hello_txt saved_world) with
  | Return {| body := BShared (JString publicId) _ |} => publicId
  | _ => []
  end.

Definition nothing_txt : jsstring := lit "nothing.txt".

(** The server starts again on the disk of the shared world: the registry
    is empty. *)
Definition restart_world : World := set_registry ∅ shared_world.

(** The same start when the storage root has, before the namespace of alice,
    a namespace whose one sidecar is an empty file. *)
Definition corrupt_sidecar : jsstring := lit ".a.txt.meta.json".

Definition corrupt_restart_world : World :=
  set_disk ((lit "0000000000000000", RDir [(corrupt_sidecar, NFile [] 0)])
              :: disk shared_world) restart_world.

(** The shared world on a device that fails the fourth call it gets. *)
Definition failing_world : World :=
  set_faults [false; false; false; true] shared_world.

(** That world when three calls have been made. *)
Definition failing_world_after_three : World :=
  next_call [true] (next_call [false; true] (next_call [false; false; true] failing_world)).
Definition renamed_txt : jsstring := lit "renamed.txt".

(** A start of the server after these requests, in this order: bob saves a
    file he names [notes.meta.json], alice saves [hello.txt], alice shares
    it. *)
Definition notes_meta_json : jsstring := lit "notes.meta.json".

Definition api_restart_world : World :=
  let w1 := snd (save_file (P := Toy.platform) bob notes_meta_json (VString (lit "hi"))
                   empty_world) in
  let w2 := snd (save_file (P := Toy.platform) alice hello_txt (VString (lit "hi")) w1) in
  let w3 := snd (share_file (P := Toy.platform) alice hello_txt w2) in
  set_registry ∅ w3.

(** The server after that start: the scan has stopped at the file of bob. *)
Definition stopped_world : World :=
  snd (loadPublicFilesRegistry (P := Toy.platform) api_restart_world).

(** The saved world when the sidecar of [hello.txt] holds the text of a
    value, and the random source gives a 7 and then zeros. *)
Definition sidecar_world (v : json_value) : World :=
  set_entropy [7%Z]
    (put_node (getMetadataPath (P := Toy.platform) alice hello_txt)
       (NFile (utf8_encode (Toy.stringify v)) 0) saved_world).

Definition null_sidecar_world : World := sidecar_world JNull.
Definition array_sidecar_world : World := sidecar_world (JArray []).

(** Requests of alice, as the proxy passes them on: she saves [hello.txt],
    shares it, renames it, and the link she got is opened. *)
Definition alice_headers : Headers :=
  {| x_auth_request_email := Some alice; x_auth_request_user := None |}.

Definition session : list Request :=
  [PostFile alice_headers hello_txt (VString (lit "hi"));
   PostShare alice_headers hello_txt;
   PutRename alice_headers hello_txt (VString renamed_txt);
   GetPublic token].

(** A client behind the proxy, a run of the limiter that draws no cleanup,
    and a request of that client for the link of alice. *)
Definition client : Connection :=
  {| x_forwarded_for := Some (lit "203.0.113.7, 10.0.0.1");
     x_real_ip := None;
     remoteAddress := Some (lit "10.0.0.1") |}.

Definition noon : Stamp := {| now := 1000; random := QArith_base.Qmake 1 2 |}.

(** The same run when it draws the cleanup. *)
Definition noon_cleanup : Stamp := {| now := 1000; random := QArith_base.Qmake 0 1 |}.

Definition visit : Arrival :=
  {| arrival_from := client; arrival_request := GetPublic token;
     arrival_first := noon; arrival_second := noon |}.

End Example.
(** * Properties *)

(** ** Strings and patterns *)

Lemma str_eqb_eq (s t : jsstring) : str_eqb s t = true <-> s = t.
Proof.
  revert t; induction s as [|a s IH]; intros [|b t]; simpl; try (split; congruence).
  unfold unit_eqb. rewrite andb_true_iff, Z.eqb_eq, IH. split.
  - intros [-> ->]; reflexivity.
  - intros E; injection E; auto.
Qed.

Lemma startsWith_prefix (s p : jsstring) :
  startsWith s p = true <-> exists post, s = p ++ post.
Proof.
  revert s; induction p as [|b p IH]; intros s; simpl.
  - split; [intros _; exists s; reflexivity | reflexivity].
  - destruct s as [|a s].
    + split; [discriminate | intros [post E]; discriminate E].
    + unfold unit_eqb. rewrite andb_true_iff, Z.eqb_eq, IH. split.
      * intros [-> [post ->]]. exists post; reflexivity.
      * intros [post E]. injection E as -> ->. split; [reflexivity | exists post; reflexivity].
Qed.

Lemma includes_occurs (s sub : jsstring) :
  includes s sub = true <-> occurs sub s.
Proof.
  unfold occurs. induction s as [|a s IH].
  - cbn [includes]. rewrite orb_false_r, startsWith_prefix. split.
    + intros [post E]. exists [], post. exact E.
    + intros [pre [post E]]. destruct pre; [exists post; exact E | discriminate E].
  - cbn [includes]. rewrite orb_true_iff, startsWith_prefix, IH. split.
    + intros [[post E] | [pre [post E]]].
      * exists [], post. exact E.
      * exists (a :: pre), post. rewrite E. reflexivity.
    + intros [[|b pre] [post E]].
      * left. exists post. exact E.
      * right. injection E as -> E. exists pre, post. exact E.
Qed.

Lemma star_class_forallb (p : Z -> bool) (s : jsstring) :
  forallb p s = true <-> Regex.matches (Regex.Star (Regex.Class p)) s.
Proof.
  split.
  - induction s as [|c s IH]; simpl; intros H.
    + constructor.
    + apply andb_true_iff in H as [Hc Hs].
      change (c :: s) with ([c] ++ s). constructor; [constructor; exact Hc | auto].
  - intros H. remember (Regex.Star (Regex.Class p)) as r eqn:Er.
    induction H as [| | |r0 s1 s2 H1 _ H2 IH2| |]; try discriminate Er.
    + reflexivity.
    + injection Er as ->. inversion H1; subst. simpl.
      rewrite IH2 by reflexivity. rewrite andb_true_r. assumption.
Qed.

Lemma times_class_forallb (p : Z -> bool) (n : nat) (s : jsstring) :
  Nat.eqb (length s) n && forallb p s = true <->
  Regex.matches (Regex.Times n (Regex.Class p)) s.
Proof.
  revert s; induction n as [|n IH]; intros s.
  - split.
    + destruct s; simpl; [constructor | discriminate].
    + intros H; inversion H; reflexivity.
  - split.
    + destruct s as [|c s]; simpl; [discriminate|].
      intros H. apply andb_true_iff in H as [Hl H]. apply andb_true_iff in H as [Hc Hs].
      change (c :: s) with ([c] ++ s). constructor; [constructor; exact Hc|].
      apply IH. rewrite Hl, Hs. reflexivity.
    + intros H; inversion H as [| | | | |n0 r0 s1 s2 H1 H2]; subst.
      inversion H1; subst. apply IH in H2. simpl.
      apply andb_true_iff in H2 as [Hl Hs]. rewrite Hl, Hs.
      rewrite andb_true_r. simpl. assumption.
Qed.

Lemma FILENAME_REGEX_test_matches (s : jsstring) :
  FILENAME_REGEX_test s = true <-> Regex.matches FILENAME_REGEX s.
Proof.
  unfold FILENAME_REGEX, FILENAME_REGEX_test. split.
  - destruct s as [|c rest]; [discriminate|]. intros H.
    apply andb_true_iff in H as [Hc Hr].
    change (c :: rest) with ([c] ++ rest).
    constructor; [constructor; exact Hc | apply star_class_forallb; exact Hr].
  - intros H; inversion H as [|r1 r2 s1 s2 H1 H2| | | |]; subst.
    inversion H1; subst. simpl.
    apply star_class_forallb in H2. rewrite H2, andb_true_r. assumption.
Qed.

Lemma PUBLIC_ID_REGEX_test_matches (s : jsstring) :
  PUBLIC_ID_REGEX_test s = true <-> Regex.matches PUBLIC_ID_REGEX s.
Proof. apply times_class_forallb. Qed.

(** A name the pattern accepts does not start with a dot, so the last test of
    [isValidFilename] never fires on its own. *)
Lemma regex_no_leading_dot (s : jsstring) :
  FILENAME_REGEX_test s = true ->
  startsWith s (lit ".") || str_eqb s (lit ".") || str_eqb s (lit "..") = false.
Proof.
  destruct s as [|c rest]; [discriminate|]. intros H.
  cbn [FILENAME_REGEX_test] in H. apply andb_true_iff in H as [Hc _].
  change (lit ".") with [46%Z]. change (lit "..") with [46%Z; 46%Z].
  cbn [startsWith str_eqb]. unfold unit_eqb.
  destruct (Z.eqb_spec c 46) as [->|Hne]; [discriminate Hc | reflexivity].
Qed.

(** ** Encodings *)

Ltac bool_cases :=
  repeat match goal with
    | |- context [Z.ltb ?a ?b] => destruct (Z.ltb_spec a b); try lia
    | |- context [Z.leb ?a ?b] => destruct (Z.leb_spec a b); try lia
    | |- context [Z.eqb ?a ?b] => destruct (Z.eqb_spec a b); try lia
    end.

Lemma list_ind3 {A : Type} (P : list A -> Prop) :
  P [] -> (forall a, P [a]) -> (forall a b, P [a; b]) ->
  (forall a b c rest, P rest -> P (a :: b :: c :: rest)) ->
  forall l, P l.
Proof.
  intros H0 H1 H2 H3.
  fix IH 1. intros [|a [|b [|c rest]]].
  - exact H0.
  - apply H1.
  - apply H2.
  - apply H3. apply IH.
Qed.

Lemma all_bytes_cons (b : Z) (bs : bytes) :
  forallb is_byte (b :: bs) = true <-> (0 <= b <= 255)%Z /\ forallb is_byte bs = true.
Proof.
  simpl. unfold is_byte at 1, Regex.in_range.
  rewrite !andb_true_iff, !Z.leb_le. tauto.
Qed.

Lemma unbase64_base64_char (n : Z) :
  (0 <= n < 64)%Z -> unbase64 (base64_char n) = Some n.
Proof.
  intros Hn. unfold base64_char, unbase64, Regex.in_range.
  bool_cases; simpl; bool_cases; simpl; f_equal; lia.
Qed.

Lemma base64_char_not_pad (n : Z) :
  (0 <= n < 64)%Z -> (base64_char n =? base64_pad)%Z = false.
Proof.
  intros Hn. apply Z.eqb_neq. unfold base64_char, base64_pad.
  repeat match goal with |- context [if ?b then _ else _] => destruct b end; lia.
Qed.

Lemma base64_values_chars (vs : list Z) (tail : jsstring) :
  Forall (fun v => 0 <= v < 64)%Z vs ->
  base64_values (map base64_char vs ++ tail) = vs ++ base64_values tail.
Proof.
  induction 1 as [|v vs Hv _ IH]; simpl; [reflexivity|].
  rewrite (base64_char_not_pad v Hv), (unbase64_base64_char v Hv), IH. reflexivity.
Qed.

Lemma base64_values_pad (k : nat) : base64_values (repeat base64_pad k) = [].
Proof. induction k; simpl; auto. Qed.

Lemma sextets_range (bs : bytes) :
  forallb is_byte bs = true -> Forall (fun v => 0 <= v < 64)%Z (sextets bs).
Proof.
  induction bs as [|a|a b|a b c rest IH] using list_ind3; intros H.
  - constructor.
  - apply all_bytes_cons in H as [Ha _]. simpl.
    repeat constructor; try (Z.div_mod_to_equations; lia).
  - apply all_bytes_cons in H as [Ha H]. apply all_bytes_cons in H as [Hb _]. simpl.
    repeat constructor; try (Z.div_mod_to_equations; lia).
  - apply all_bytes_cons in H as [Ha H]. apply all_bytes_cons in H as [Hb H].
    apply all_bytes_cons in H as [Hc H]. cbn [sextets].
    repeat (constructor; [Z.div_mod_to_equations; lia|]). auto.
Qed.

Lemma octets_sextets (bs : bytes) :
  forallb is_byte bs = true -> octets (sextets bs) = bs.
Proof.
  induction bs as [|a|a b|a b c rest IH] using list_ind3; intros H.
  - reflexivity.
  - apply all_bytes_cons in H as [Ha _]. simpl.
    f_equal. Z.div_mod_to_equations; lia.
  - apply all_bytes_cons in H as [Ha H]. apply all_bytes_cons in H as [Hb _]. simpl.
    f_equal; [|f_equal]; Z.div_mod_to_equations; lia.
  - apply all_bytes_cons in H as [Ha H]. apply all_bytes_cons in H as [Hb H].
    apply all_bytes_cons in H as [Hc H]. cbn [sextets octets].
    rewrite (IH H). f_equal; [|f_equal; [|f_equal]]; Z.div_mod_to_equations; lia.
Qed.

(** Decoding the base64 text of a buffer gives the buffer back. *)
Lemma base64_decode_encode (bs : bytes) :
  forallb is_byte bs = true -> base64_decode (base64_encode bs) = bs.
Proof.
  intros H. unfold base64_decode, base64_encode.
  rewrite base64_values_chars by (apply sextets_range; exact H).
  rewrite base64_values_pad, app_nil_r. apply octets_sextets; exact H.
Qed.

Ltac settle_tests :=
  unfold second_of_three, second_of_four, is_continuation, Regex.in_range;
  bool_cases; cbv beta iota; cbn [andb].

Lemma utf8_decode_1 (b0 : Z) (tail : bytes) :
  (b0 < 128)%Z -> utf8_decode (b0 :: tail) = b0 :: utf8_decode tail.
Proof.
  intros H. remember tail as r0. cbn [utf8_decode]. settle_tests. reflexivity.
Qed.

Lemma utf8_decode_2 (b0 b1 : Z) (tail : bytes) :
  (194 <= b0 <= 223)%Z -> (128 <= b1 <= 191)%Z ->
  utf8_decode (b0 :: b1 :: tail) = ((b0 - 192) * 64 + (b1 - 128))%Z :: utf8_decode tail.
Proof.
  intros H0 H1. remember (b1 :: tail) as r0 eqn:E0.
  cbn [utf8_decode]; settle_tests; subst r0; settle_tests; reflexivity.
Qed.

Lemma utf8_decode_3 (b0 b1 b2 : Z) (tail : bytes) :
  (224 <= b0 <= 239)%Z -> (128 <= b1 <= 191)%Z -> (128 <= b2 <= 191)%Z ->
  (b0 = 224 -> 160 <= b1)%Z -> (b0 = 237 -> b1 <= 159)%Z ->
  utf8_decode (b0 :: b1 :: b2 :: tail) =
  ((b0 - 224) * 4096 + (b1 - 128) * 64 + (b2 - 128))%Z :: utf8_decode tail.
Proof.
  intros H0 H1 H2 Hlo Hhi.
  remember (b2 :: tail) as r1 eqn:E1. remember (b1 :: r1) as r0 eqn:E0.
  cbn [utf8_decode]; settle_tests; subst r0; settle_tests; subst r1; settle_tests; reflexivity.
Qed.

Lemma utf8_decode_4 (b0 b1 b2 b3 : Z) (tail : bytes) :
  (240 <= b0 <= 244)%Z -> (128 <= b1 <= 191)%Z -> (128 <= b2 <= 191)%Z ->
  (128 <= b3 <= 191)%Z -> (b0 = 240 -> 144 <= b1)%Z -> (b0 = 244 -> b1 <= 143)%Z ->
  utf8_decode (b0 :: b1 :: b2 :: b3 :: tail) =
  utf16_of_code_point
    ((b0 - 240) * 262144 + (b1 - 128) * 4096 + (b2 - 128) * 64 + (b3 - 128))%Z
    ++ utf8_decode tail.
Proof.
  intros H0 H1 H2 H3 Hlo Hhi.
  remember (b3 :: tail) as r2 eqn:E2. remember (b2 :: r2) as r1 eqn:E1.
  remember (b1 :: r1) as r0 eqn:E0.
  cbn [utf8_decode]; settle_tests; subst r0; settle_tests; subst r1; settle_tests;
    subst r2; settle_tests; reflexivity.
Qed.

Lemma utf8_decode_code_point (cp : Z) (tail : bytes) :
  scalar_value cp ->
  utf8_decode (utf8_of_code_point cp ++ tail) = utf16_of_code_point cp ++ utf8_decode tail.
Proof.
  intros [Hr Hs]. unfold utf8_of_code_point.
  replace (cp / 262144)%Z with (cp / 64 / 64 / 64)%Z by (rewrite !Z.div_div by lia; reflexivity).
  replace (cp / 4096)%Z with (cp / 64 / 64)%Z by (rewrite !Z.div_div by lia; reflexivity).
  pose proof (Z.div_mod cp 64 ltac:(lia)) as E0.
  pose proof (Z.mod_pos_bound cp 64 ltac:(lia)) as B0.
  pose proof (Z.div_mod (cp / 64) 64 ltac:(lia)) as E1.
  pose proof (Z.mod_pos_bound (cp / 64) 64 ltac:(lia)) as B1.
  pose proof (Z.div_mod (cp / 64 / 64) 64 ltac:(lia)) as E2.
  pose proof (Z.mod_pos_bound (cp / 64 / 64) 64 ltac:(lia)) as B2.
  set (q1 := (cp / 64)%Z) in *. set (r0 := (cp mod 64)%Z) in *.
  set (q2 := (q1 / 64)%Z) in *. set (r1 := (q1 mod 64)%Z) in *.
  set (q3 := (q2 / 64)%Z) in *. set (r2 := (q2 mod 64)%Z) in *.
  clearbody q1 r0 q2 r1 q3 r2.
  destruct (Z.ltb_spec cp 128) as [H1|H1];
    [|destruct (Z.ltb_spec cp 2048) as [H2|H2];
      [|destruct (Z.ltb_spec cp 65536) as [H3|H3]]]; cbn [app].
  - rewrite utf8_decode_1 by lia. unfold utf16_of_code_point.
    destruct (Z.ltb_spec cp 65536); [reflexivity | lia].
  - rewrite utf8_decode_2 by lia. unfold utf16_of_code_point.
    destruct (Z.ltb_spec cp 65536); [|lia]. cbn [app]. do 2 f_equal. lia.
  - rewrite utf8_decode_3 by lia. unfold utf16_of_code_point.
    destruct (Z.ltb_spec cp 65536); [|lia]. cbn [app]. do 2 f_equal. lia.
  - rewrite utf8_decode_4 by lia. do 2 f_equal. lia.
Qed.

Lemma utf16_of_pair (hi lo : Z) :
  is_high_surrogate hi = true -> is_low_surrogate lo = true ->
  scalar_value (code_point_of_pair hi lo) /\
  utf16_of_code_point (code_point_of_pair hi lo) = [hi; lo].
Proof.
  unfold is_high_surrogate, is_low_surrogate, Regex.in_range, code_point_of_pair.
  rewrite !andb_true_iff, !Z.leb_le. intros [H1 H2] [H3 H4]. split.
  - unfold scalar_value. lia.
  - unfold utf16_of_code_point. bool_cases.
    f_equal; [|f_equal]; Z.div_mod_to_equations; lia.
Qed.

Lemma utf8_roundtrip_bounded (n : nat) (s : jsstring) :
  (length s <= n)%nat -> well_formed s = true -> utf8_decode (utf8_encode s) = s.
Proof.
  revert s; induction n as [|n IH]; intros s Hlen Hwf.
  - destruct s; [reflexivity | simpl in Hlen; lia].
  - destruct s as [|c rest]; [reflexivity|].
    cbn [well_formed] in Hwf. apply andb_true_iff in Hwf as [Hc Hwf].
    unfold Regex.in_range in Hc. apply andb_true_iff in Hc as [Hc0 Hc1].
    apply Z.leb_le in Hc0, Hc1. cbn [utf8_encode].
    destruct (is_high_surrogate c) eqn:Hhi.
    + destruct rest as [|d rest']; [discriminate Hwf|].
      apply andb_true_iff in Hwf as [Hlo Hwf]. rewrite Hlo.
      destruct (utf16_of_pair c d Hhi Hlo) as [Hsc E].
      rewrite (utf8_decode_code_point _ _ Hsc), E. cbn [app].
      rewrite IH; [reflexivity | simpl in Hlen |- *; lia | exact Hwf].
    + apply andb_true_iff in Hwf as [Hlo Hwf].
      apply negb_true_iff in Hlo. rewrite Hlo.
      assert (scalar_value c) as Hsc.
      { unfold is_high_surrogate, is_low_surrogate, Regex.in_range in Hhi, Hlo.
        apply andb_false_iff in Hhi, Hlo. rewrite !Z.leb_gt in Hhi, Hlo.
        unfold scalar_value. lia. }
      rewrite (utf8_decode_code_point _ _ Hsc).
      unfold utf16_of_code_point. destruct (Z.ltb_spec c 65536); [|lia]. cbn [app].
      rewrite IH; [reflexivity | simpl in Hlen; lia | exact Hwf].
Qed.

(** Reading back the UTF-8 bytes of a well-formed string gives the string. *)
Lemma utf8_decode_encode (s : jsstring) :
  well_formed s = true -> utf8_decode (utf8_encode s) = s.
Proof. apply (utf8_roundtrip_bounded (length s)). lia. Qed.

(** An unpaired surrogate is written as U+FFFD and read back as U+FFFD. *)
Lemma utf8_lone_surrogate :
  utf8_encode [55296%Z] = REPLACEMENT_UTF8 /\ utf8_decode REPLACEMENT_UTF8 = [REPLACEMENT].
Proof. split; reflexivity. Qed.

Lemma hex_digit_lower_hex (n : Z) :
  (0 <= n < 16)%Z -> Regex.lower_hex (hex_digit n) = true.
Proof.
  intros H. unfold hex_digit, Regex.lower_hex, Regex.in_range.
  bool_cases; reflexivity.
Qed.

Lemma hex_encode_length (bs : bytes) : length (hex_encode bs) = (2 * length bs)%nat.
Proof. induction bs as [|b bs IH]; simpl; lia. Qed.

Lemma hex_encode_lower_hex (bs : bytes) :
  forallb is_byte bs = true -> forallb Regex.lower_hex (hex_encode bs) = true.
Proof.
  induction bs as [|b bs IH]; intros H; [reflexivity|].
  apply all_bytes_cons in H as [Hb H]. cbn [hex_encode flat_map app forallb].
  rewrite !hex_digit_lower_hex by (Z.div_mod_to_equations; lia).
  apply IH; exact H.
Qed.

(** ** Bytes *)

Lemma all_bytes_app (a b : bytes) :
  forallb is_byte (a ++ b) = true <-> forallb is_byte a = true /\ forallb is_byte b = true.
Proof. rewrite forallb_app, andb_true_iff. tauto. Qed.

Lemma take_bytes_length (n : nat) (tape : list Z) : length (take_bytes n tape) = n.
Proof.
  revert tape; induction n as [|n IH]; intros tape; [reflexivity|].
  destruct tape; simpl; rewrite IH; reflexivity.
Qed.

Lemma take_bytes_bytes (n : nat) (tape : list Z) : forallb is_byte (take_bytes n tape) = true.
Proof.
  revert tape; induction n as [|n IH]; intros tape; [reflexivity|].
  destruct tape as [|b tape]; cbn [take_bytes]; apply all_bytes_cons; split; auto.
  - lia.
  - pose proof (Z.mod_pos_bound b 256 ltac:(lia)). lia.
Qed.

Lemma utf8_of_code_point_bytes (cp : Z) :
  (0 <= cp < 1114112)%Z -> forallb is_byte (utf8_of_code_point cp) = true.
Proof.
  intros H. unfold utf8_of_code_point.
  destruct (Z.ltb_spec cp 128); [|destruct (Z.ltb_spec cp 2048); [|destruct (Z.ltb_spec cp 65536)]];
    cbn [forallb]; unfold is_byte, Regex.in_range;
    repeat (apply andb_true_iff; split); try reflexivity;
    apply Z.leb_le; Z.div_mod_to_equations; lia.
Qed.

(** The UTF-8 bytes of a well-formed string are bytes. *)
Lemma utf8_encode_bytes_bounded (n : nat) (s : jsstring) :
  (length s <= n)%nat -> well_formed s = true -> forallb is_byte (utf8_encode s) = true.
Proof.
  revert s; induction n as [|n IH]; intros s Hlen Hwf.
  - destruct s; [reflexivity | simpl in Hlen; lia].
  - destruct s as [|c rest]; [reflexivity|].
    cbn [well_formed] in Hwf. apply andb_true_iff in Hwf as [Hc Hwf].
    unfold Regex.in_range in Hc. apply andb_true_iff in Hc as [Hc0 Hc1].
    apply Z.leb_le in Hc0, Hc1. cbn [utf8_encode].
    destruct (is_high_surrogate c) eqn:Hhi.
    + destruct rest as [|d rest']; [discriminate Hwf|].
      apply andb_true_iff in Hwf as [Hlo Hwf]. rewrite Hlo.
      destruct (utf16_of_pair c d Hhi Hlo) as [[Hsc _] _].
      apply all_bytes_app; split; [apply utf8_of_code_point_bytes; exact Hsc|].
      apply IH; [simpl in Hlen; lia | exact Hwf].
    + apply andb_true_iff in Hwf as [Hlo Hwf].
      apply negb_true_iff in Hlo. rewrite Hlo.
      apply all_bytes_app; split; [apply utf8_of_code_point_bytes; lia|].
      apply IH; [simpl in Hlen; lia | exact Hwf].
Qed.

Lemma utf8_encode_bytes (s : jsstring) :
  well_formed s = true -> forallb is_byte (utf8_encode s) = true.
Proof. apply (utf8_encode_bytes_bounded (length s)). lia. Qed.

Lemma ascii_well_formed (s : jsstring) :
  forallb is_ascii s = true -> well_formed s = true.
Proof.
  induction s as [|c s IH]; [reflexivity|]. cbn [forallb well_formed].
  intros H. apply andb_true_iff in H as [Hc Hs].
  unfold is_ascii, Regex.in_range in Hc. apply andb_true_iff in Hc as [H0 H1].
  apply Z.leb_le in H0, H1.
  unfold is_high_surrogate, is_low_surrogate, Regex.in_range.
  rewrite (IH Hs). bool_cases; reflexivity.
Qed.

Lemma base64_char_ascii (n : Z) : (0 <= n < 64)%Z -> is_ascii (base64_char n) = true.
Proof.
  intros H. unfold base64_char, is_ascii, Regex.in_range.
  destruct (Z.ltb_spec n 26); [|destruct (Z.ltb_spec n 52); [|destruct (Z.ltb_spec n 62);
    [|destruct (Z.eqb_spec n 62)]]]; bool_cases; reflexivity.
Qed.

Lemma base64_encode_ascii (bs : bytes) :
  forallb is_byte bs = true -> forallb is_ascii (base64_encode bs) = true.
Proof.
  intros H. unfold base64_encode. rewrite forallb_app. apply andb_true_iff; split.
  - apply sextets_range in H. induction H as [|v vs Hv _ IH]; [reflexivity|].
    cbn [map forallb]. rewrite (base64_char_ascii v Hv). exact IH.
  - generalize ((3 - length bs mod 3) mod 3)%nat. intros k.
    induction k; [reflexivity | exact IHk].
Qed.

(** Text in base64 survives being written to a file and read back. *)
Lemma base64_text_utf8 (bs : bytes) :
  forallb is_byte bs = true ->
  utf8_decode (utf8_encode (base64_encode bs)) = base64_encode bs.
Proof.
  intros H. apply utf8_decode_encode, ascii_well_formed, base64_encode_ascii, H.
Qed.

(** ** Filename validation *)

(** C3.  [isValidFilename] accepts exactly the strings that are non-empty, at
    most 255 code units long, without an occurrence of [..], [/] or [\], and
    that match [^[A-Za-z0-9][A-Za-z0-9._-]*$]; it accepts [notes.md] and
    [report_v2.txt] and rejects [../etc/passwd], [.hidden], [a/b.txt], the
    empty string and every name of 300 characters. *)
Theorem isValidFilename_exact :
  (forall s : jsstring,
      isValidFilename (VString s) = true <->
      s <> [] /\ (length s <= 255)%nat /\
      ~ occurs (lit "..") s /\ ~ occurs (lit "/") s /\ ~ occurs (lit "\") s /\
      Regex.matches FILENAME_REGEX s) /\
  isValidFilename (VString (lit "notes.md")) = true /\
  isValidFilename (VString (lit "report_v2.txt")) = true /\
  isValidFilename (VString (lit "../etc/passwd")) = false /\
  isValidFilename (VString (lit ".hidden")) = false /\
  isValidFilename (VString (lit "a/b.txt")) = false /\
  isValidFilename (VString (lit "")) = false /\
  (forall s : jsstring, length s = 300%nat -> isValidFilename (VString s) = false).
Proof.
  split; [|repeat split; try reflexivity].
  - intros s. unfold isValidFilename, MAX_FILENAME_LENGTH.
    rewrite <- !includes_occurs, <- FILENAME_REGEX_test_matches.
    destruct s as [|c rest] eqn:Es; [simpl; split; [discriminate | intros [H _]; congruence]|].
    rewrite <- Es. replace (truthy_string s) with true by (subst s; reflexivity).
    cbn [negb]. destruct (Nat.ltb_spec 255 (length s)) as [Hl|Hl].
    { split; [discriminate | intros (_ & H & _); lia]. }
    destruct (includes s (lit "..")); cbn [orb].
    { split; [discriminate | intros (_ & _ & H & _); exfalso; apply H; reflexivity]. }
    destruct (includes s (lit "/")); cbn [orb].
    { split; [discriminate | intros (_ & _ & _ & H & _); exfalso; apply H; reflexivity]. }
    destruct (includes s (lit "\")); cbn [orb].
    { split; [discriminate | intros (_ & _ & _ & _ & H & _); exfalso; apply H; reflexivity]. }
    destruct (FILENAME_REGEX_test s) eqn:Hre; cbn [negb].
    + rewrite (regex_no_leading_dot s Hre).
      split; [intros _|reflexivity].
      repeat split; try congruence; try lia.
    + split; [discriminate | intros (_ & _ & _ & _ & _ & H); discriminate H].
  - intros s Hlen. unfold isValidFilename, MAX_FILENAME_LENGTH.
    destruct s as [|c rest]; [discriminate Hlen|].
    cbn [truthy_string negb]. rewrite Hlen. reflexivity.
Qed.

(** ** JSON values *)

Lemma json_value_nested_ind (Q : json_value -> Prop) :
  Q JNull -> (forall b, Q (JBool b)) -> (forall n, Q (JNumber n)) ->
  (forall s, Q (JString s)) ->
  (forall items, List.Forall Q items -> Q (JArray items)) ->
  (forall fields, List.Forall (fun field => Q (snd field)) fields -> Q (JObject fields)) ->
  forall v, Q v.
Proof.
  intros Hnull Hbool Hnumber Hstring Harray Hobject.
  fix IH 1. intros [|b|n|s|items|fields].
  - exact Hnull.
  - apply Hbool.
  - apply Hnumber.
  - apply Hstring.
  - apply Harray. induction items as [|item items IHitems]; constructor; [apply IH | exact IHitems].
  - apply Hobject. induction fields as [|[key v] fields IHfields]; constructor;
      [apply IH | exact IHfields].
Qed.

Lemma map_fst_normal (fields : list (jsstring * json_value)) :
  map fst (map (fun field => (fst field, json_normal (snd field))) fields) = map fst fields.
Proof. rewrite map_map. apply map_ext. reflexivity. Qed.

(** What is left of a value that [JSON.parse] can return is such a value. *)
Lemma json_wf_normal (v : json_value) : json_wf v = true -> json_wf (json_normal v) = true.
Proof.
  induction v as [|b|n|s|items IH|fields IH] using json_value_nested_ind; intros Hwf;
    try exact Hwf.
  - destruct n; try reflexivity; try discriminate Hwf. exact Hwf.
  - cbn [json_normal json_wf] in *. induction IH as [|item items Hitem _ IHitems];
      [reflexivity|].
    cbn [map forallb] in *. apply andb_true_iff in Hwf as [H1 H2].
    rewrite (Hitem H1), (IHitems H2). reflexivity.
  - cbn [json_normal json_wf] in *. apply andb_true_iff in Hwf as [Hkeys Hwf].
    rewrite map_fst_normal, Hkeys. cbn [andb]. clear Hkeys.
    induction IH as [|field fields Hfield _ IHfields]; [reflexivity|].
    cbn [map forallb snd] in *. apply andb_true_iff in Hwf as [H1 H2].
    rewrite (Hfield H1), (IHfields H2). reflexivity.
Qed.

Lemma json_normal_idempotent (v : json_value) : json_normal (json_normal v) = json_normal v.
Proof.
  induction v as [|b|n|s|items IH|fields IH] using json_value_nested_ind; try reflexivity.
  - destruct n; reflexivity.
  - cbn [json_normal]. f_equal.
    induction IH as [|item items Hitem _ IHitems]; [reflexivity|].
    cbn [map]. rewrite Hitem, IHitems. reflexivity.
  - cbn [json_normal]. f_equal.
    induction IH as [|field fields Hfield _ IHfields]; [reflexivity|].
    cbn [map fst snd]. rewrite Hfield, IHfields. reflexivity.
Qed.

(** A name that is no array index goes last among the keys, or is there. *)
Lemma keys_in_order_put {V : Type} (key : jsstring) (x : V) (fields : list (jsstring * V))
    (last : Z) (named : bool) :
  array_index key = None ->
  keys_in_order last named (map fst fields) = true ->
  keys_in_order last named (map fst (dir_put key x fields)) = true.
Proof.
  intros Hkey. revert last named.
  induction fields as [|[k v] fields IH]; intros last named Hord.
  - cbn [dir_put map fst keys_in_order]. rewrite Hkey. reflexivity.
  - cbn [dir_put]. destruct (str_eqb k key) eqn:E; [exact Hord|].
    cbn [map fst keys_in_order] in *.
    destruct (array_index k) as [n|].
    + apply andb_true_iff in Hord as [H1 H2]. rewrite H1. cbn [andb]. apply IH, H2.
    + apply andb_true_iff in Hord as [H1 H2]. rewrite (IH _ _ H2), andb_true_r.
      apply negb_true_iff. apply negb_true_iff in H1.
      clear IH H2. induction fields as [|[k' v'] fields IH].
      * cbn [dir_put map fst existsb]. rewrite E. reflexivity.
      * cbn [dir_put]. cbn [map fst existsb] in H1. apply orb_false_iff in H1 as [Hk Hrest].
        destruct (str_eqb k' key); cbn [map fst existsb]; rewrite Hk; cbn [orb];
          [exact Hrest | apply IH, Hrest].
Qed.


(** ** The small platform meets the laws *)

Lemma toy_read_positive (p : positive) (tail : jsstring) :
  Toy.read_positive (Toy.write_positive p ++ tail) = Some (p, tail).
Proof. induction p as [q IH|q IH|]; simpl; try rewrite IH; reflexivity. Qed.

Lemma toy_read_Z (z : Z) (tail : jsstring) :
  Toy.read_Z (Toy.write_Z z ++ tail) = Some (z, tail).
Proof. destruct z; simpl; try rewrite toy_read_positive; reflexivity. Qed.

Lemma toy_read_units (s tail : jsstring) :
  Toy.read_units (length s) (Toy.write_units s ++ tail) = Some (s, tail).
Proof.
  induction s as [|c s IH]; [reflexivity|].
  cbn [length Toy.read_units Toy.write_units flat_map].
  rewrite <- app_assoc, toy_read_Z. fold (Toy.write_units s). rewrite IH. reflexivity.
Qed.

Lemma toy_read_string (s tail : jsstring) :
  Toy.read_string (Toy.write_string s ++ tail) = Some (s, tail).
Proof.
  unfold Toy.read_string, Toy.write_string.
  rewrite <- app_assoc, toy_read_Z, Nat2Z.id. apply toy_read_units.
Qed.

Lemma toy_read_many {A : Type} (rd : jsstring -> option (A * jsstring))
    (wr : A -> jsstring) (l : list A) (tail : jsstring) :
  List.Forall (fun a => forall rest, rd (wr a ++ rest) = Some (a, rest)) l ->
  Toy.read_many rd (length l) (flat_map wr l ++ tail) = Some (l, tail).
Proof.
  induction 1 as [|a l Ha _ IH]; [reflexivity|].
  cbn [length Toy.read_many flat_map]. rewrite <- app_assoc, Ha, IH. reflexivity.
Qed.

Lemma length_flat_map_le {A : Type} (wr : A -> jsstring) (l : list A) (a : A) :
  In a l -> (length (wr a) <= length (flat_map wr l))%nat.
Proof.
  induction l as [|b l IH]; intros Hin; [destruct Hin|].
  cbn [flat_map]. rewrite length_app. destruct Hin as [->|Hin]; [lia|].
  specialize (IH Hin). lia.
Qed.

(** With fuel for its text, what was written of what is left of a value is
    read back. *)
Lemma toy_read_write (fuel : nat) :
  forall (v : json_value) (tail : jsstring),
    (length (Toy.write (json_normal v)) <= fuel)%nat ->
    Toy.read fuel (Toy.write (json_normal v) ++ tail) = Some (json_normal v, tail).
Proof.
  induction fuel as [|fuel IH]; intros v tail Hlen.
  { destruct v as [|b|n|s|items|fields]; try (cbn in Hlen; lia).
    destruct n; cbn in Hlen; lia. }
  destruct v as [|b|n|s|items|fields].
  - reflexivity.
  - destruct b; reflexivity.
  - destruct n as [sign|sign| |sign m e]; try reflexivity.
    cbn [json_normal Toy.write Toy.write_number app Toy.read Z.eqb Pos.eqb].
    unfold Toy.read_number.
    destruct sign; cbn [Z.eqb Pos.eqb orb]; rewrite <- app_assoc, toy_read_positive, toy_read_Z;
      reflexivity.
  - cbn [json_normal Toy.write app Toy.read Z.eqb Pos.eqb].
    rewrite toy_read_string. reflexivity.
  - cbn [json_normal Toy.write app Toy.read Z.eqb Pos.eqb length] in *.
    rewrite <- app_assoc, toy_read_Z, Nat2Z.id.
    rewrite length_app in Hlen.
    assert (length (flat_map Toy.write (map json_normal items)) <= fuel)%nat as Hfit by lia.
    rewrite (toy_read_many (Toy.read fuel) Toy.write); [reflexivity|].
    apply List.Forall_forall. intros x Hin rest.
    pose proof (length_flat_map_le Toy.write _ x Hin) as Hx.
    apply in_map_iff in Hin as (item & <- & _).
    apply IH. lia.
  - cbn [json_normal Toy.write app Toy.read Z.eqb Pos.eqb length] in *.
    rewrite <- app_assoc, toy_read_Z, Nat2Z.id.
    rewrite length_app in Hlen.
    set (wr := fun field : jsstring * json_value =>
                 Toy.write_string (fst field) ++ Toy.write (snd field)) in *.
    assert (length (flat_map wr (map (fun field => (fst field, json_normal (snd field)))
                                   fields)) <= fuel)%nat as Hfit by lia.
    rewrite (toy_read_many (Toy.read_field (Toy.read fuel)) wr); [reflexivity|].
    apply List.Forall_forall. intros x Hin rest.
    pose proof (length_flat_map_le wr _ x Hin) as Hx.
    apply in_map_iff in Hin as ([key item] & <- & _). cbn [fst snd] in *.
    change (wr (key, json_normal item))
      with (Toy.write_string key ++ Toy.write (json_normal item)) in Hx |- *.
    unfold Toy.read_field.
    rewrite <- app_assoc, toy_read_string. rewrite length_app in Hx.
    rewrite IH by lia. reflexivity.
Qed.

Lemma toy_write_positive_ascii (p : positive) :
  forallb is_ascii (Toy.write_positive p) = true.
Proof. induction p; simpl; auto. Qed.

Lemma toy_write_Z_ascii (z : Z) : forallb is_ascii (Toy.write_Z z) = true.
Proof. destruct z; simpl; auto using toy_write_positive_ascii. Qed.

Lemma toy_write_string_ascii (s : jsstring) : forallb is_ascii (Toy.write_string s) = true.
Proof.
  unfold Toy.write_string. rewrite forallb_app, toy_write_Z_ascii. cbn [andb].
  induction s as [|c s IH]; [reflexivity|].
  cbn [Toy.write_units flat_map]. rewrite forallb_app, toy_write_Z_ascii. exact IH.
Qed.

Lemma forallb_flat_map {A : Type} (test : Z -> bool) (wr : A -> jsstring) (l : list A) :
  List.Forall (fun a => forallb test (wr a) = true) l ->
  forallb test (flat_map wr l) = true.
Proof.
  induction 1 as [|a l Ha _ IH]; [reflexivity|].
  cbn [flat_map]. rewrite forallb_app, Ha, IH. reflexivity.
Qed.

Lemma toy_write_ascii (v : json_value) : forallb is_ascii (Toy.write v) = true.
Proof.
  induction v as [|b|n|s|items IH|fields IH] using json_value_nested_ind.
  - reflexivity.
  - destruct b; reflexivity.
  - destruct n as [sign|sign| |sign m e]; try reflexivity.
    cbn [Toy.write Toy.write_number forallb].
    rewrite forallb_app, toy_write_positive_ascii, toy_write_Z_ascii.
    destruct sign; reflexivity.
  - cbn [Toy.write forallb]. rewrite toy_write_string_ascii. reflexivity.
  - cbn [Toy.write forallb]. rewrite forallb_app, toy_write_Z_ascii.
    rewrite (forallb_flat_map _ _ _ IH). reflexivity.
  - cbn [Toy.write forallb]. rewrite forallb_app, toy_write_Z_ascii.
    rewrite forallb_flat_map; [reflexivity|].
    apply List.Forall_forall. intros [key item] Hin. cbn [fst snd].
    rewrite forallb_app, toy_write_string_ascii.
    apply (proj1 (List.Forall_forall _ _) IH (key, item) Hin).
Qed.

Lemma toy_parse_stringify (v : json_value) :
  json_wf v = true -> Toy.parse (Toy.stringify v) = Some (json_normal v).
Proof.
  intros Hwf. unfold Toy.parse, Toy.stringify.
  rewrite <- (app_nil_r (Toy.write (json_normal v))) at 2.
  rewrite toy_read_write by lia. rewrite (json_wf_normal v Hwf). reflexivity.
Qed.

Lemma toy_shift_back (s b : Z) :
  (0 <= b <= 255)%Z -> (((b + s) mod 256 - s) mod 256 = b)%Z.
Proof.
  intros H. rewrite Zminus_mod_idemp_l.
  replace (b + s - s)%Z with b by lia. apply Z.mod_small. lia.
Qed.

Lemma toy_laws : PlatformLaws Toy.platform.
Proof.
  split; cbn [pbkdf2Sync aes256gcm_encrypt aes256gcm_decrypt JSON_stringify JSON_parse
              Toy.platform].
  - intros. apply take_bytes_length.
  - intros key iv plaintext _ Hiv Hb. unfold Toy.gcm_encrypt, Toy.gcm_decrypt. cbn [fst snd].
    destruct iv as [|b0 iv]; [discriminate Hiv|].
    rewrite (proj2 (str_eqb_eq _ _) eq_refl). f_equal.
    rewrite map_map. induction plaintext as [|b bs IH]; [reflexivity|].
    apply all_bytes_cons in Hb as [Hb Hbs]. cbn [map].
    rewrite (toy_shift_back _ _ Hb), (IH Hbs). reflexivity.
  - reflexivity.
  - intros. unfold Toy.gcm_encrypt. cbn [fst]. apply length_map.
  - intros. unfold Toy.gcm_encrypt, Toy.tag_of. cbn [snd]. apply take_bytes_length.
  - intros key iv plaintext. unfold Toy.gcm_encrypt, Toy.tag_of. cbn [fst snd]. split.
    + induction plaintext as [|b bs IH]; [reflexivity|]. cbn [map].
      apply all_bytes_cons. split; [|exact IH].
      pose proof (Z.mod_pos_bound (b + Toy.shift_of key iv) 256 ltac:(lia)). lia.
    + apply take_bytes_bytes.
  - intros text v. unfold Toy.parse.
    destruct (Toy.read (S (length text)) text) as [[v0 [|c rest]]|]; try discriminate.
    destruct (json_wf v0) eqn:Hwf; [|discriminate]. intros H. injection H as <-. exact Hwf.
  - apply toy_parse_stringify.
  - intros v _. apply ascii_well_formed. apply toy_write_ascii.
Qed.

(** ** Encryption *)

Lemma subarray_first (n : nat) (a rest : bytes) :
  length a = n -> subarray 0 n (a ++ rest) = a.
Proof.
  intros <-. unfold subarray. rewrite firstn_app, Nat.sub_diag, firstn_all. simpl.
  apply app_nil_r.
Qed.

Lemma subarray_after (n m : nat) (a b rest : bytes) :
  length a = n -> length b = (m - n)%nat -> (n <= m)%nat ->
  subarray n m (a ++ b ++ rest) = b.
Proof.
  intros Ha Hb Hnm. unfold subarray.
  rewrite firstn_app, Ha, firstn_all2 by lia.
  rewrite skipn_app, Ha, Nat.sub_diag, skipn_all2 by lia. simpl.
  rewrite firstn_app, Hb, Nat.sub_diag, firstn_all2 by lia. simpl. apply app_nil_r.
Qed.

Lemma subarray_from_after (n : nat) (a rest : bytes) :
  length a = n -> subarray_from n (a ++ rest) = rest.
Proof.
  intros <-. unfold subarray_from. rewrite skipn_app, Nat.sub_diag, skipn_all. reflexivity.
Qed.

Section Encryption.

Context {P : Platform} (L : PlatformLaws P).

Lemma encrypt_run (text userId : jsstring) (w : World) :
  encrypt text userId w =
  (Return (base64_encode (sealed userId (next_salt w) (next_iv w) text)),
   set_entropy (skipn IV_LENGTH (skipn SALT_LENGTH (entropy w)))
     (set_entropy (skipn SALT_LENGTH (entropy w)) w)).
Proof. reflexivity. Qed.

Lemma sealed_bytes (userId : jsstring) (salt iv : bytes) (text : jsstring) :
  forallb is_byte salt = true -> forallb is_byte iv = true ->
  forallb is_byte (sealed userId salt iv text) = true.
Proof.
  intros Hs Hi. unfold sealed.
  destruct (gcm_output_bytes P L (getKey (getUserEncryptionKey userId) salt) iv
              (utf8_encode text)) as [Hc Ht].
  repeat (apply all_bytes_app; split); assumption.
Qed.

(** What [decrypt] does with a sealed buffer: it hands the cipher the key
    derived from the first 64 bytes, the next 16 bytes as nonce, the next 16
    as tag and the rest as ciphertext. *)
Lemma decrypt_sealed (userId : jsstring) (salt iv tag ciphertext : bytes) :
  length salt = SALT_LENGTH -> length iv = IV_LENGTH -> length tag = TAG_LENGTH ->
  forallb is_byte (salt ++ iv ++ tag ++ ciphertext) = true ->
  decrypt (base64_encode (salt ++ iv ++ tag ++ ciphertext)) userId =
  match aes256gcm_decrypt (getKey (getUserEncryptionKey userId) salt) iv tag ciphertext with
  | Return plaintext => Return (utf8_decode plaintext)
  | Throw e => Throw e
  end.
Proof.
  intros Hs Hi Ht Hb. unfold decrypt. rewrite (base64_decode_encode _ Hb).
  assert (length (salt ++ iv) = TAG_POSITION) as Hsi
    by (rewrite length_app, Hs, Hi; reflexivity).
  assert (length ((salt ++ iv) ++ tag) = ENCRYPTED_POSITION) as Hsit
    by (rewrite length_app, Hsi, Ht; reflexivity).
  rewrite (subarray_first SALT_LENGTH salt _ Hs).
  rewrite (subarray_after SALT_LENGTH TAG_POSITION salt iv _ Hs Hi) by (cbv; lia).
  rewrite (app_assoc salt iv).
  rewrite (subarray_after TAG_POSITION ENCRYPTED_POSITION (salt ++ iv) tag _ Hsi Ht)
    by (cbv; lia).
  rewrite (app_assoc (salt ++ iv) tag).
  rewrite (subarray_from_after ENCRYPTED_POSITION _ _ Hsit).
  reflexivity.
Qed.

Lemma decrypt_sealed_text (userId : jsstring) (salt iv : bytes) (text : jsstring) :
  length salt = SALT_LENGTH -> length iv = IV_LENGTH ->
  forallb is_byte salt = true -> forallb is_byte iv = true ->
  forallb is_byte (utf8_encode text) = true ->
  decrypt (base64_encode (sealed userId salt iv text)) userId =
  Return (utf8_decode (utf8_encode text)).
Proof.
  intros Hs Hi Hbs Hbi Hbt. pose proof (sealed_bytes userId salt iv text Hbs Hbi) as Hb.
  unfold sealed in *. cbv zeta in *.
  rewrite decrypt_sealed; [|assumption|assumption|apply (gcm_tag_length P L)|exact Hb].
  rewrite (gcm_decrypt_encrypt P L); [reflexivity| |assumption|assumption].
  apply (pbkdf2_length P L).
Qed.

(** Whatever the text, [decrypt] gives back what the UTF-8 bytes of the text
    read as. *)
Lemma decrypt_encrypt_utf8 (text userId : jsstring) (w : World) :
  forallb is_byte (utf8_encode text) = true ->
  exists blob,
    fst (encrypt text userId w) = Return blob /\
    decrypt blob userId = Return (utf8_decode (utf8_encode text)).
Proof.
  intros Hb. rewrite encrypt_run. eexists; split; [reflexivity|].
  apply decrypt_sealed_text;
    [apply take_bytes_length | apply take_bytes_length
    |apply take_bytes_bytes | apply take_bytes_bytes | exact Hb].
Qed.

End Encryption.

(** C4.  The output of [encrypt] is the base64 text of
    [salt || nonce || tag || ciphertext] with a salt of 64 bytes, a nonce of 16,
    a tag of 16 and a ciphertext as long as the UTF-8 plaintext; decoding
    gives that buffer back, [decrypt] cuts it at the offsets 0, 64, 80 and 96
    and hands exactly these four fields to the cipher. *)
Theorem encrypt_wire_format {P : Platform} (L : PlatformLaws P)
    (text userId : jsstring) (w : World) :
  let salt := next_salt w in
  let iv := next_iv w in
  let key := getKey (getUserEncryptionKey userId) salt in
  let ciphertext := fst (aes256gcm_encrypt key iv (utf8_encode text)) in
  let tag := snd (aes256gcm_encrypt key iv (utf8_encode text)) in
  let buffer := salt ++ iv ++ tag ++ ciphertext in
  fst (encrypt text userId w) = Return (base64_encode buffer) /\
  length salt = 64%nat /\ length iv = 16%nat /\ length tag = 16%nat /\
  length ciphertext = length (utf8_encode text) /\
  base64_decode (base64_encode buffer) = buffer /\
  subarray 0 SALT_LENGTH buffer = salt /\
  subarray SALT_LENGTH TAG_POSITION buffer = iv /\
  subarray TAG_POSITION ENCRYPTED_POSITION buffer = tag /\
  subarray_from ENCRYPTED_POSITION buffer = ciphertext /\
  decrypt (base64_encode buffer) userId =
    match aes256gcm_decrypt key iv tag ciphertext with
    | Return plaintext => Return (utf8_decode plaintext)
    | Throw e => Throw e
    end.
Proof.
  intros salt iv key ciphertext tag buffer.
  assert (length salt = SALT_LENGTH) as Hs by apply take_bytes_length.
  assert (length iv = IV_LENGTH) as Hi by apply take_bytes_length.
  assert (length tag = TAG_LENGTH) as Ht by apply (gcm_tag_length P L).
  assert (forallb is_byte buffer = true) as Hb
    by (apply (sealed_bytes L userId salt iv text); apply take_bytes_bytes).
  assert (length (salt ++ iv) = TAG_POSITION) as Hsi
    by (rewrite length_app, Hs, Hi; reflexivity).
  assert (length ((salt ++ iv) ++ tag) = ENCRYPTED_POSITION) as Hsit
    by (rewrite length_app, Hsi, Ht; reflexivity).
  repeat split; try assumption.
  - apply (gcm_ciphertext_length P L).
  - apply base64_decode_encode; exact Hb.
  - apply subarray_first; exact Hs.
  - apply subarray_after; [exact Hs | exact Hi | cbv; lia].
  - unfold buffer. rewrite (app_assoc salt iv).
    apply subarray_after; [exact Hsi | exact Ht | cbv; lia].
  - unfold buffer. rewrite (app_assoc salt iv), (app_assoc (salt ++ iv) tag).
    apply subarray_from_after; exact Hsit.
  - apply (decrypt_sealed userId salt iv tag ciphertext Hs Hi Ht Hb).
Qed.

Lemma encrypt_wire_format_toy :
  let P := Toy.platform in
  let text := lit "hi" in
  let userId := Example.alice in
  let w := Example.empty_world in
  let salt := next_salt w in
  let iv := next_iv w in
  let key := getKey (getUserEncryptionKey userId) salt in
  let ciphertext := fst (aes256gcm_encrypt key iv (utf8_encode text)) in
  let tag := snd (aes256gcm_encrypt key iv (utf8_encode text)) in
  let buffer := salt ++ iv ++ tag ++ ciphertext in
  fst (encrypt text userId w) = Return (base64_encode buffer) /\
  length salt = 64%nat /\ length iv = 16%nat /\ length tag = 16%nat /\
  length ciphertext = length (utf8_encode text) /\
  base64_decode (base64_encode buffer) = buffer /\
  subarray 0 SALT_LENGTH buffer = salt /\
  subarray SALT_LENGTH TAG_POSITION buffer = iv /\
  subarray TAG_POSITION ENCRYPTED_POSITION buffer = tag /\
  subarray_from ENCRYPTED_POSITION buffer = ciphertext /\
  decrypt (base64_encode buffer) userId =
    match aes256gcm_decrypt key iv tag ciphertext with
    | Return plaintext => Return (utf8_decode plaintext)
    | Throw e => Throw e
    end.
Proof.
  exact (encrypt_wire_format toy_laws (lit "hi") Example.alice Example.empty_world).
Defined.

(** C1, as the server has it.  For every well-formed plaintext string (one
    with no unpaired surrogate) and every identity, decrypting the blob that
    [encrypt] produced, with the same identity, returns the plaintext. *)
Theorem decrypt_encrypt_well_formed {P : Platform} (L : PlatformLaws P)
    (text userId : jsstring) (w : World) :
  well_formed text = true ->
  exists blob,
    fst (encrypt text userId w) = Return blob /\ decrypt blob userId = Return text.
Proof.
  intros Hwf.
  destruct (decrypt_encrypt_utf8 L text userId w (utf8_encode_bytes text Hwf))
    as (blob & He & Hd).
  exists blob. split; [exact He|]. rewrite Hd, (utf8_decode_encode text Hwf). reflexivity.
Qed.

Lemma decrypt_encrypt_well_formed_toy :
  well_formed (lit "hi") = true /\
  exists blob,
    fst (encrypt (P := Toy.platform) (lit "hi") Example.alice Example.empty_world)
      = Return blob /\
    decrypt (P := Toy.platform) blob Example.alice = Return (lit "hi").
Proof.
  split; [reflexivity|].
  exact (decrypt_encrypt_well_formed toy_laws (lit "hi") Example.alice Example.empty_world
           eq_refl).
Defined.

(** On every platform that meets the laws, a plaintext that is one unpaired
    surrogate comes back as U+FFFD. *)
Lemma decrypt_encrypt_unpaired {P : Platform} (L : PlatformLaws P)
    (userId : jsstring) (w : World) :
  exists blob,
    fst (encrypt [55296%Z] userId w) = Return blob /\
    decrypt blob userId = Return [REPLACEMENT].
Proof. exact (decrypt_encrypt_utf8 L [55296%Z] userId w eq_refl). Qed.

(** C1 fails as stated: the one-unit string [\uD800], within the size limit,
    encrypted and decrypted for the non-empty identity [alice], is not
    returned; U+FFFD is. *)
Lemma decrypt_encrypt_loses_unpaired_surrogate :
  (Z.of_nat (length [55296%Z]) <= MAX_FILE_SIZE)%Z /\
  truthy_string Example.alice = true /\
  exists blob,
    fst (encrypt (P := Toy.platform) [55296%Z] Example.alice Example.empty_world)
      = Return blob /\
    decrypt (P := Toy.platform) blob Example.alice = Return [65533%Z] /\
    [65533%Z] <> [55296%Z].
Proof.
  split; [discriminate|]. split; [reflexivity|].
  destruct (decrypt_encrypt_unpaired toy_laws Example.alice Example.empty_world)
    as (blob & He & Hd).
  exists blob. repeat split; [exact He | exact Hd | discriminate].
Qed.

(** ** Directories and the disk *)

Lemma str_eqb_refl (s : jsstring) : str_eqb s s = true.
Proof. apply str_eqb_eq. reflexivity. Qed.

Lemma str_eqb_neq (s t : jsstring) : str_eqb s t = false <-> s <> t.
Proof.
  split.
  - intros H E. apply str_eqb_eq in E. congruence.
  - intros H. destruct (str_eqb s t) eqn:E; [|reflexivity].
    apply str_eqb_eq in E. contradiction.
Qed.

Section Directories.

Context {V : Type}.
Implicit Types (d : list (jsstring * V)) (k : jsstring) (v : V).

Lemma dir_lookup_put_eq k v d : dir_lookup k (dir_put k v d) = Some v.
Proof.
  induction d as [|[n v0] d IH]; simpl.
  - rewrite str_eqb_refl. reflexivity.
  - destruct (str_eqb n k) eqn:E; simpl; rewrite E; auto.
Qed.

Lemma dir_lookup_put_ne k k' v d :
  k <> k' -> dir_lookup k' (dir_put k v d) = dir_lookup k' d.
Proof.
  intros Hne. induction d as [|[n v0] d IH]; simpl.
  - apply str_eqb_neq in Hne. rewrite Hne. reflexivity.
  - destruct (str_eqb n k) eqn:E; simpl.
    + apply str_eqb_eq in E. subst n. apply str_eqb_neq in Hne. rewrite Hne. reflexivity.
    + rewrite IH. reflexivity.
Qed.

Lemma dir_lookup_remove_eq k d : dir_lookup k (dir_remove k d) = None.
Proof.
  induction d as [|[n v0] d IH]; simpl; [reflexivity|].
  destruct (str_eqb n k) eqn:E; simpl; [|rewrite E]; exact IH.
Qed.

Lemma dir_lookup_remove_ne k k' d :
  k <> k' -> dir_lookup k' (dir_remove k d) = dir_lookup k' d.
Proof.
  intros Hne. induction d as [|[n v0] d IH]; simpl; [reflexivity|].
  destruct (str_eqb n k) eqn:E; simpl.
  - apply str_eqb_eq in E. subst n. apply str_eqb_neq in Hne. rewrite Hne. exact IH.
  - rewrite IH. reflexivity.
Qed.

Lemma dir_lookup_In k v d : dir_lookup k d = Some v -> In k (map fst d).
Proof.
  induction d as [|[n v0] d IH]; simpl; [discriminate|].
  destruct (str_eqb n k) eqn:E; [apply str_eqb_eq in E; auto | auto].
Qed.

End Directories.

Lemma node_at_put_eq (p : Path) (n : Node) (w : World) (d : Directory) :
  dir_lookup (path_dir p) (disk w) = Some (RDir d) ->
  node_at p (put_node p n w) = Some n.
Proof.
  intros H. unfold node_at, put_node. cbn [disk set_disk]. rewrite H.
  rewrite dir_lookup_put_eq. apply dir_lookup_put_eq.
Qed.

Lemma node_at_put_ne (p q : Path) (n : Node) (w : World) :
  path_dir q <> path_dir p \/ path_name q <> path_name p ->
  node_at q (put_node p n w) = node_at q w.
Proof.
  intros Hne. unfold node_at, put_node. cbn [disk set_disk].
  destruct (dir_lookup (path_dir p) (disk w)) as [[d|]|] eqn:Hd; try reflexivity.
  destruct (str_eqb (path_dir p) (path_dir q)) eqn:E.
  - apply str_eqb_eq in E. rewrite <- E, dir_lookup_put_eq, Hd.
    destruct Hne as [Hne|Hne]; [congruence|].
    apply dir_lookup_put_ne. congruence.
  - apply str_eqb_neq in E. rewrite dir_lookup_put_ne by exact E. reflexivity.
Qed.

Lemma node_at_remove_eq (p : Path) (w : World) : node_at p (remove_node p w) = None.
Proof.
  unfold node_at, remove_node. cbn [disk set_disk].
  destruct (dir_lookup (path_dir p) (disk w)) as [[d|]|] eqn:Hd; rewrite ?Hd; try reflexivity.
  rewrite dir_lookup_put_eq. apply dir_lookup_remove_eq.
Qed.

Lemma node_at_remove_ne (p q : Path) (w : World) :
  path_dir q <> path_dir p \/ path_name q <> path_name p ->
  node_at q (remove_node p w) = node_at q w.
Proof.
  intros Hne. unfold node_at, remove_node. cbn [disk set_disk].
  destruct (dir_lookup (path_dir p) (disk w)) as [[d|]|] eqn:Hd; try reflexivity.
  destruct (str_eqb (path_dir p) (path_dir q)) eqn:E.
  - apply str_eqb_eq in E. rewrite <- E, dir_lookup_put_eq, Hd.
    destruct Hne as [Hne|Hne]; [congruence|].
    apply dir_lookup_remove_ne. congruence.
  - apply str_eqb_neq in E. rewrite dir_lookup_put_ne by exact E. reflexivity.
Qed.

Lemma node_at_dir (p : Path) (w : World) (n : Node) :
  node_at p w = Some n -> exists d, dir_lookup (path_dir p) (disk w) = Some (RDir d).
Proof.
  unfold node_at. destruct (dir_lookup (path_dir p) (disk w)) as [[d|]|]; try discriminate.
  eauto.
Qed.

(** The directory of a path survives what is done to the nodes of the disk. *)
Lemma dir_after_put (p : Path) (n : Node) (w : World) (dir : jsstring) :
  (exists d, dir_lookup dir (disk w) = Some (RDir d)) ->
  exists d, dir_lookup dir (disk (put_node p n w)) = Some (RDir d).
Proof.
  intros [d Hd]. unfold put_node. cbn [disk set_disk].
  destruct (dir_lookup (path_dir p) (disk w)) as [[d0|]|] eqn:H0; eauto.
  destruct (str_eqb (path_dir p) dir) eqn:E.
  - apply str_eqb_eq in E. subst dir. rewrite dir_lookup_put_eq. eauto.
  - apply str_eqb_neq in E. rewrite dir_lookup_put_ne by exact E. eauto.
Qed.

Lemma dir_after_remove (p : Path) (w : World) (dir : jsstring) :
  (exists d, dir_lookup dir (disk w) = Some (RDir d)) ->
  exists d, dir_lookup dir (disk (remove_node p w)) = Some (RDir d).
Proof.
  intros [d Hd]. unfold remove_node. cbn [disk set_disk].
  destruct (dir_lookup (path_dir p) (disk w)) as [[d0|]|] eqn:H0; eauto.
  destruct (str_eqb (path_dir p) dir) eqn:E.
  - apply str_eqb_eq in E. subst dir. rewrite dir_lookup_put_eq. eauto.
  - apply str_eqb_neq in E. rewrite dir_lookup_put_ne by exact E. eauto.
Qed.

(** ** Running the calls of the file system *)

Lemma node_at_next_call (p : Path) (f : list bool) (w : World) :
  node_at p (next_call f w) = node_at p w.
Proof. reflexivity. Qed.

Lemma node_at_emit (p : Path) (e : Event) (w : World) : node_at p (emit e w) = node_at p w.
Proof. reflexivity. Qed.

Lemma node_at_set_registry (p : Path) (r : gmap jsstring PublicEntry) (w : World) :
  node_at p (set_registry r w) = node_at p w.
Proof. reflexivity. Qed.

Lemma node_at_set_entropy (p : Path) (e : list Z) (w : World) :
  node_at p (set_entropy e w) = node_at p w.
Proof. reflexivity. Qed.

Create Rewrite HintDb world_db.
#[global] Hint Rewrite node_at_next_call node_at_emit node_at_set_registry
  node_at_set_entropy : world_db.

Ltac world_fields :=
  cbn [faults entropy clock trace publicFilesRegistry
       next_call emit set_registry set_entropy set_disk put_node remove_node].

Ltac solve_world :=
  world_fields; autorewrite with world_db;
  first [assumption | reflexivity | eassumption].

(** A run lemma is used, then the [match] on its result is taken. *)
Ltac run_with lem :=
  rewrite lem by solve_world; cbv beta iota.

Lemma io_run {A : Type} (op : M A) (w : World) :
  faults w = [] -> io op w = op (next_call [] w).
Proof. intros H. unfold io. rewrite H. reflexivity. Qed.

Lemma io_fault {A : Type} (op : M A) (w : World) (rest : list bool) :
  faults w = true :: rest -> io op w = (Throw EIO, next_call rest w).
Proof. intros H. unfold io. rewrite H. reflexivity. Qed.

Lemma fs_access_found (p : Path) (w : World) (n : Node) :
  faults w = [] -> node_at p w = Some n ->
  fs_access p w = (Return tt, next_call [] w).
Proof.
  intros Hf Hn. unfold fs_access. rewrite (io_run _ _ Hf), node_at_next_call, Hn. reflexivity.
Qed.

Lemma fs_access_missing (p : Path) (w : World) :
  faults w = [] -> node_at p w = None ->
  fs_access p w = (Throw ENOENT, next_call [] w).
Proof.
  intros Hf Hn. unfold fs_access. rewrite (io_run _ _ Hf), node_at_next_call, Hn. reflexivity.
Qed.

Lemma fs_unlink_file (p : Path) (w : World) (data : bytes) (t : Z) :
  faults w = [] -> node_at p w = Some (NFile data t) ->
  fs_unlink p w = (Return tt, emit (FsUnlink p) (remove_node p (next_call [] w))).
Proof.
  intros Hf Hn. unfold fs_unlink. rewrite (io_run _ _ Hf), node_at_next_call, Hn. reflexivity.
Qed.

Lemma fs_unlink_missing (p : Path) (w : World) :
  faults w = [] -> node_at p w = None ->
  fs_unlink p w = (Throw ENOENT, next_call [] w).
Proof.
  intros Hf Hn. unfold fs_unlink. rewrite (io_run _ _ Hf), node_at_next_call, Hn. reflexivity.
Qed.

Lemma fs_unlink_directory (p : Path) (w : World) :
  faults w = [] -> node_at p w = Some NDir ->
  fs_unlink p w = (Throw EISDIR, next_call [] w).
Proof.
  intros Hf Hn. unfold fs_unlink. rewrite (io_run _ _ Hf), node_at_next_call, Hn. reflexivity.
Qed.

Lemma fs_writeFile_run (p : Path) (text : jsstring) (w : World) :
  faults w = [] ->
  (exists d, dir_lookup (path_dir p) (disk w) = Some (RDir d)) ->
  node_at p w <> Some NDir ->
  fs_writeFile p text w =
  (Return tt,
   emit (FsWrite p) (put_node p (NFile (utf8_encode text) (clock w + 1)) (next_call [] w))).
Proof.
  intros Hf [d Hd] Hn. unfold fs_writeFile. rewrite (io_run _ _ Hf).
  cbn [disk next_call clock]. rewrite Hd.
  unfold node_at in Hn. rewrite Hd in Hn.
  destruct (dir_lookup (path_name p) d) as [[data t|]|]; try reflexivity.
  contradiction.
Qed.

Lemma isValidFilename_regex (s : jsstring) :
  isValidFilename (VString s) = true -> FILENAME_REGEX_test s = true.
Proof.
  unfold isValidFilename.
  destruct (negb (truthy_string s)); [discriminate|].
  destruct (MAX_FILENAME_LENGTH <? length s)%nat; [discriminate|].
  destruct (includes s (lit "..") || includes s (lit "/") || includes s (lit "\")); [discriminate|].
  destruct (FILENAME_REGEX_test s); [reflexivity | discriminate].
Qed.

Section Metadata.

Context {P : Platform}.

Lemma getFileMetadata_run (userId filename : jsstring) (w : World) :
  faults w = [] ->
  getFileMetadata userId filename w = (Return (stored_metadata userId filename w), next_call [] w).
Proof.
  intros Hf. unfold getFileMetadata, fs_readFile, parse_json, stored_metadata.
  unfold try_catch, bind. rewrite (io_run _ _ Hf), node_at_next_call.
  destruct (node_at (getMetadataPath userId filename) w) as [[data t|]|]; try reflexivity.
  destruct (JSON_parse (utf8_decode data)); reflexivity.
Qed.

(** Whatever the device does, [getFileMetadata] returns a record and leaves
    the disk, the registry and the trace as they are. *)
Lemma getFileMetadata_total (userId filename : jsstring) (w : World) :
  exists m w',
    getFileMetadata userId filename w = (Return m, w') /\
    disk w' = disk w /\ publicFilesRegistry w' = publicFilesRegistry w /\
    trace w' = trace w /\ entropy w' = entropy w /\ faults w' = tl (faults w).
Proof.
  unfold getFileMetadata, fs_readFile, parse_json, try_catch, bind, io, ret, throw.
  destruct (faults w) as [|[|] rest] eqn:Hf.
  - rewrite node_at_next_call.
    destruct (node_at (getMetadataPath userId filename) w) as [[data t|]|];
      try (eexists _, _; split; [reflexivity|auto]).
    destruct (JSON_parse (utf8_decode data)); eexists _, _; (split; [reflexivity|auto]).
  - eexists _, _; split; [reflexivity|auto].
  - rewrite node_at_next_call.
    destruct (node_at (getMetadataPath userId filename) w) as [[data t|]|];
      try (eexists _, _; split; [reflexivity|auto]).
    destruct (JSON_parse (utf8_decode data)); eexists _, _; (split; [reflexivity|auto]).
Qed.

(** A sidecar is never the name of a file a user can ask for. *)
Lemma sidecar_name_not_valid (filename other : jsstring) :
  isValidFilename (VString other) = true -> sidecar_name filename <> other.
Proof.
  intros Hv <-. apply isValidFilename_regex in Hv. discriminate Hv.
Qed.

Lemma sidecar_name_injective (a b : jsstring) : sidecar_name a = sidecar_name b -> a = b.
Proof.
  unfold sidecar_name. intros H. apply app_inv_head in H. apply app_inv_tail in H. exact H.
Qed.

End Metadata.

(** ** What a sidecar holds *)

Lemma dir_lookup_map {V W : Type} (g : V -> W) (key : jsstring) (fields : list (jsstring * V)) :
  dir_lookup key (map (fun field => (fst field, g (snd field))) fields)
  = option_map g (dir_lookup key fields).
Proof.
  induction fields as [|[k v] fields IH]; [reflexivity|].
  cbn [map dir_lookup fst snd]. destruct (str_eqb k key); [reflexivity | exact IH].
Qed.

(** A field of what is left of an object is what is left of the field. *)
Lemma property_normal (fields : list (jsstring * json_value)) (key : jsstring) :
  property (json_normal (JObject fields)) key
  = Return (option_map json_normal (dir_lookup key fields)).
Proof. cbn [json_normal property]. rewrite dir_lookup_map. reflexivity. Qed.

Lemma assign_wf (v v' x : json_value) (key : jsstring) :
  json_wf v = true -> json_wf x = true -> array_index key = None ->
  assign v key x = Return v' -> json_wf v' = true.
Proof.
  intros Hv Hx Hkey. destruct v as [|b|n|s|items|fields]; try discriminate.
  - intros H. injection H as <-. exact Hv.
  - intros H. injection H as <-. cbn [json_wf] in *.
    apply andb_true_iff in Hv as [Hkeys Hall].
    rewrite (keys_in_order_put key x fields _ _ Hkey Hkeys). cbn [andb].
    clear Hkeys. induction fields as [|[k v] fields IH]; cbn [dir_put forallb snd].
    + rewrite Hx. reflexivity.
    + cbn [forallb snd] in Hall. apply andb_true_iff in Hall as [H1 H2].
      destruct (str_eqb k key); cbn [forallb snd].
      * rewrite Hx, H2. reflexivity.
      * rewrite H1, (IH H2). reflexivity.
Qed.

(** [metadata.isPublic && metadata.publicId] throws on [null] and on nothing
    else. *)
Lemma public_token_throws (metadata : json_value) (e : Error) :
  public_token metadata = Throw e -> metadata = JNull /\ e = TypeError.
Proof.
  unfold public_token. destruct metadata as [|b|n|s|items|fields]; cbn [property truthy];
    try discriminate.
  - intros H. injection H as <-. split; reflexivity.
  - destruct (truthy (dir_lookup (lit "isPublic") fields)); discriminate.
Qed.

Lemma public_token_returns (metadata : json_value) :
  metadata <> JNull -> exists shared, public_token metadata = Return shared.
Proof.
  intros Hne. destruct (public_token metadata) as [shared|e] eqn:E; [eauto|].
  apply public_token_throws in E as [-> _]. contradiction.
Qed.

(** When the test holds, the value is an object whose two fields are
    truthy, and what is handed on is its [publicId]. *)
Lemma public_token_object (metadata publicId : json_value) :
  public_token metadata = Return (Some publicId) ->
  exists fields,
    metadata = JObject fields /\
    truthy (dir_lookup (lit "isPublic") fields) = true /\
    dir_lookup (lit "publicId") fields = Some publicId /\
    truthy (Some publicId) = true.
Proof.
  unfold public_token. destruct metadata as [|b|n|s|items|fields]; cbn [property truthy];
    try discriminate.
  destruct (truthy (dir_lookup (lit "isPublic") fields)) eqn:Hpub; [|discriminate].
  destruct (truthy (dir_lookup (lit "publicId") fields)) eqn:Hid; [|discriminate].
  intros H. injection H as H. exists fields. rewrite H in *. auto.
Qed.

Lemma public_token_of_object (fields : list (jsstring * json_value)) (publicId : json_value) :
  truthy (dir_lookup (lit "isPublic") fields) = true ->
  dir_lookup (lit "publicId") fields = Some publicId ->
  truthy (Some publicId) = true ->
  public_token (JObject fields) = Return (Some publicId).
Proof.
  intros Hpub Hid Ht. unfold public_token. cbn [property]. rewrite Hpub, Hid, Ht. reflexivity.
Qed.

Lemma made_public_object (fields : list (jsstring * json_value)) (publicId userId : jsstring) :
  made_public (JObject fields) publicId userId
  = Return (JObject (dir_put (lit "userId") (JString userId)
                       (dir_put (lit "publicId") (JString publicId)
                          (dir_put (lit "isPublic") (JBool true) fields)))).
Proof. reflexivity. Qed.

Lemma made_private_object (fields : list (jsstring * json_value)) :
  made_private (JObject fields)
  = Return (JObject (dir_put (lit "publicId") JNull
                       (dir_put (lit "isPublic") (JBool false) fields))).
Proof. reflexivity. Qed.

Lemma made_public_wf (metadata metadata' : json_value) (publicId userId : jsstring) :
  json_wf metadata = true -> made_public metadata publicId userId = Return metadata' ->
  json_wf metadata' = true.
Proof.
  intros Hwf. unfold made_public.
  destruct (assign metadata (lit "isPublic") (JBool true)) as [m1|] eqn:E1; [|discriminate].
  destruct (assign m1 (lit "publicId") (JString publicId)) as [m2|] eqn:E2; [|discriminate].
  intros E3.
  apply (assign_wf m2 _ (JString userId) (lit "userId")); [|reflexivity|reflexivity|exact E3].
  apply (assign_wf m1 _ (JString publicId) (lit "publicId")); [|reflexivity|reflexivity|exact E2].
  apply (assign_wf metadata _ (JBool true) (lit "isPublic")); [exact Hwf|reflexivity|reflexivity|exact E1].
Qed.

Lemma made_private_wf (metadata metadata' : json_value) :
  json_wf metadata = true -> made_private metadata = Return metadata' ->
  json_wf metadata' = true.
Proof.
  intros Hwf. unfold made_private.
  destruct (assign metadata (lit "isPublic") (JBool false)) as [m1|] eqn:E1; [|discriminate].
  intros E2.
  apply (assign_wf m1 _ JNull (lit "publicId")); [|reflexivity|reflexivity|exact E2].
  apply (assign_wf metadata _ (JBool false) (lit "isPublic")); [exact Hwf|reflexivity|reflexivity|exact E1].
Qed.

(** What is read back of an object that [share] has written declares the
    token, and names the user. *)
Lemma public_token_made_public (fields : list (jsstring * json_value))
    (metadata' : json_value) (publicId userId : jsstring) :
  truthy_string publicId = true ->
  made_public (JObject fields) publicId userId = Return metadata' ->
  public_token (json_normal metadata') = Return (Some (JString publicId)) /\
  property (json_normal metadata') (lit "userId") = Return (Some (JString userId)).
Proof.
  intros Ht. rewrite made_public_object. intros H. injection H as <-.
  unfold public_token. rewrite !property_normal.
  rewrite dir_lookup_put_eq.
  rewrite (dir_lookup_put_ne (lit "userId") (lit "publicId")) by discriminate.
  rewrite dir_lookup_put_eq.
  rewrite (dir_lookup_put_ne (lit "userId") (lit "isPublic")) by discriminate.
  rewrite (dir_lookup_put_ne (lit "publicId") (lit "isPublic")) by discriminate.
  rewrite dir_lookup_put_eq. cbn [option_map json_normal truthy]. rewrite Ht. auto.
Qed.

(** What is read back of an object that [unshare] has written is not
    public. *)
Lemma public_token_made_private (fields : list (jsstring * json_value))
    (metadata' : json_value) :
  made_private (JObject fields) = Return metadata' ->
  public_token (json_normal metadata') = Return None /\
  property (json_normal metadata') (lit "isPublic") = Return (Some (JBool false)) /\
  property (json_normal metadata') (lit "publicId") = Return (Some JNull).
Proof.
  rewrite made_private_object. intros H. injection H as <-.
  unfold public_token. rewrite !property_normal.
  rewrite dir_lookup_put_eq.
  rewrite (dir_lookup_put_ne (lit "publicId") (lit "isPublic")) by discriminate.
  rewrite dir_lookup_put_eq. cbn [option_map json_normal truthy]. auto.
Qed.

Lemma json_normal_object (v : json_value) (fields : list (jsstring * json_value)) :
  v = JObject fields -> exists fields', json_normal v = JObject fields'.
Proof. intros ->. eexists. reflexivity. Qed.

(** ** Reading a file *)

Ltac unfold_monad :=
  unfold try_catch, bind, ret, throw, lift, modify, get_world, io in *.

(** A blob too short to hold a nonce is refused by the cipher with a
    [TypeError], before any tag is looked at. *)
Lemma decrypt_short_blob {P : Platform} (L : PlatformLaws P) (blob userId : jsstring) :
  (length (base64_decode blob) <= SALT_LENGTH)%nat -> decrypt blob userId = Throw TypeError.
Proof.
  intros Hlen. unfold decrypt.
  replace (subarray SALT_LENGTH TAG_POSITION (base64_decode blob)) with (@nil Z).
  - rewrite (gcm_empty_iv P L). reflexivity.
  - unfold subarray. symmetry. apply skipn_all2. rewrite length_firstn. lia.
Qed.

Lemma read_file_run {P : Platform} (userId filename : jsstring) (w : World) :
  faults w = [] -> isValidFilename (VString filename) = true ->
  fst (read_file userId filename w) =
  Return match node_at (file_path userId filename) w with
         | Some (NFile data _) =>
             match decrypt (utf8_decode data) userId with
             | Return content => json (BFile filename content)
             | Throw _ => status_json 404 (BError "File not found")
             end
         | _ => status_json 404 (BError "File not found")
         end.
Proof.
  intros Hf Hv. unfold read_file, fs_readFile. rewrite Hv. cbn [negb].
  unfold_monad. cbv beta. rewrite Hf.
  change (node_at (file_path userId filename) (next_call [] w))
    with (node_at (file_path userId filename) w).
  destruct (node_at (file_path userId filename) w) as [[data t|]|]; try reflexivity.
  destruct (decrypt (utf8_decode data) userId); reflexivity.
Qed.

(** C2, as the server has it.  [read] answers NotFound (404, "File not
    found") when the file is absent, where the read of the file throws
    [ENOENT]; and it answers the same NotFound when the tag does not verify,
    where [decrypt] throws the distinct AuthenticationError: the handler
    reports that error to the caller as NotFound. *)
Theorem read_file_failures {P : Platform} (userId filename : jsstring) (w : World) :
  faults w = [] -> isValidFilename (VString filename) = true ->
  (node_at (file_path userId filename) w = None ->
   fst (fs_readFile (file_path userId filename) w) = Throw ENOENT /\
   fst (read_file userId filename w) = Return (status_json 404 (BError "File not found"))) /\
  (forall data t,
      node_at (file_path userId filename) w = Some (NFile data t) ->
      decrypt (utf8_decode data) userId = Throw AuthenticationError ->
      fst (fs_readFile (file_path userId filename) w) = Return (utf8_decode data) /\
      fst (read_file userId filename w) = Return (status_json 404 (BError "File not found"))) /\
  (forall data t content,
      node_at (file_path userId filename) w = Some (NFile data t) ->
      decrypt (utf8_decode data) userId = Return content ->
      fst (read_file userId filename w) = Return (json (BFile filename content))).
Proof.
  intros Hf Hv. pose proof (read_file_run userId filename w Hf Hv) as Hrun.
  assert (forall o, node_at (file_path userId filename) w = o ->
                    fst (fs_readFile (file_path userId filename) w)
                    = match o with
                      | Some (NFile data _) => Return (utf8_decode data)
                      | Some NDir => Throw EISDIR
                      | None => Throw ENOENT
                      end) as Hread.
  { intros o <-. unfold fs_readFile. rewrite (io_run _ _ Hf), node_at_next_call.
    destruct (node_at (file_path userId filename) w) as [[? ?|]|]; reflexivity. }
  split; [|split].
  - intros Hn. split; [apply (Hread None Hn)|]. rewrite Hrun, Hn. reflexivity.
  - intros data t Hn Hd. split; [apply (Hread _ Hn)|]. rewrite Hrun, Hn, Hd. reflexivity.
  - intros data t content Hn Hd. rewrite Hrun, Hn, Hd. reflexivity.
Qed.

Lemma read_file_failures_toy :
  faults Example.tampered_world = [] /\
  isValidFilename (VString Example.hello_txt) = true /\
  (exists data t,
      node_at (file_path (P := Toy.platform) Example.alice Example.hello_txt)
        Example.tampered_world = Some (NFile data t) /\
      decrypt (P := Toy.platform) (utf8_decode data) Example.alice = Throw AuthenticationError /\
      fst (read_file (P := Toy.platform) Example.alice Example.hello_txt Example.tampered_world)
        = Return (status_json 404 (BError "File not found"))).
Proof.
  split; [reflexivity|]. split; [reflexivity|].
  eexists _, _. split; [vm_compute; reflexivity|]. split; [vm_compute; reflexivity|].
  refine (proj2 (proj1 (proj2 (read_file_failures (P := Toy.platform) Example.alice
                                 Example.hello_txt Example.tampered_world eq_refl eq_refl))
                   _ _ _ _)).
  - vm_compute. reflexivity.
  - vm_compute. reflexivity.
Defined.

(** C2 fails as stated: the file of alice is present but holds a blob whose
    tag does not verify under her key; [decrypt] throws AuthenticationError,
    and the caller gets the very answer given for a file that is absent. *)
Lemma read_file_reports_tampering_as_not_found :
  (exists data t,
      node_at (file_path (P := Toy.platform) Example.alice Example.hello_txt)
        Example.tampered_world = Some (NFile data t) /\
      decrypt (P := Toy.platform) (utf8_decode data) Example.alice = Throw AuthenticationError) /\
  fst (read_file (P := Toy.platform) Example.alice Example.hello_txt Example.tampered_world)
    = Return Example.not_found /\
  node_at (file_path (P := Toy.platform) Example.alice Example.hello_txt)
    Example.empty_world = None /\
  fst (read_file (P := Toy.platform) Example.alice Example.hello_txt Example.empty_world)
    = Return Example.not_found.
Proof.
  split.
  - eexists _, _. split; [vm_compute; reflexivity | vm_compute; reflexivity].
  - split; [vm_compute; reflexivity|]. split; vm_compute; reflexivity.
Qed.

(** ** Deleting a file *)

(** The step that is taken when the sidecar is public. *)
Lemma when_public_run (metadata : json_value) (step : json_value -> M unit) (w : World) :
  when_public metadata step w
  = match public_token metadata with
    | Return (Some publicId) => step publicId w
    | Return None => (Return tt, w)
    | Throw e => (Throw e, w)
    end.
Proof.
  unfold when_public, bind, lift. destruct (public_token metadata) as [[publicId|]|e]; reflexivity.
Qed.

Lemma node_at_registry_remove (p : Path) (publicId : json_value) (w : World) :
  node_at p (registry_remove publicId w) = node_at p w.
Proof. destruct publicId; reflexivity. Qed.

Lemma node_at_registry_put (p : Path) (publicId : json_value) (entry : PublicEntry) (w : World) :
  node_at p (registry_put publicId entry w) = node_at p w.
Proof. destruct publicId; reflexivity. Qed.

Lemma faults_registry_remove (publicId : json_value) (w : World) :
  faults (registry_remove publicId w) = faults w.
Proof. destruct publicId; reflexivity. Qed.

Lemma faults_registry_put (publicId : json_value) (entry : PublicEntry) (w : World) :
  faults (registry_put publicId entry w) = faults w.
Proof. destruct publicId; reflexivity. Qed.

Lemma disk_registry_remove (publicId : json_value) (w : World) :
  disk (registry_remove publicId w) = disk w.
Proof. destruct publicId; reflexivity. Qed.

Lemma disk_registry_put (publicId : json_value) (entry : PublicEntry) (w : World) :
  disk (registry_put publicId entry w) = disk w.
Proof. destruct publicId; reflexivity. Qed.

Lemma clock_registry_remove (publicId : json_value) (w : World) :
  clock (registry_remove publicId w) = clock w.
Proof. destruct publicId; reflexivity. Qed.

Lemma clock_registry_put (publicId : json_value) (entry : PublicEntry) (w : World) :
  clock (registry_put publicId entry w) = clock w.
Proof. destruct publicId; reflexivity. Qed.

Lemma trace_registry_remove (publicId : json_value) (w : World) :
  trace (registry_remove publicId w) = trace w.
Proof. destruct publicId; reflexivity. Qed.

Lemma trace_registry_put (publicId : json_value) (entry : PublicEntry) (w : World) :
  trace (registry_put publicId entry w) = trace w.
Proof. destruct publicId; reflexivity. Qed.

Lemma entropy_registry_remove (publicId : json_value) (w : World) :
  entropy (registry_remove publicId w) = entropy w.
Proof. destruct publicId; reflexivity. Qed.

Lemma entropy_registry_put (publicId : json_value) (entry : PublicEntry) (w : World) :
  entropy (registry_put publicId entry w) = entropy w.
Proof. destruct publicId; reflexivity. Qed.

#[global] Hint Rewrite node_at_registry_remove node_at_registry_put : world_db.

(** Removing a key that is a string leaves no entry under that key; removing
    any other key leaves the entries under strings as they were. *)
Lemma registry_remove_lookup (publicId : json_value) (token : jsstring) (w : World) :
  publicFilesRegistry (registry_remove publicId w) !! token
  = match publicId with
    | JString key => if decide (key = token) then None else publicFilesRegistry w !! token
    | _ => publicFilesRegistry w !! token
    end.
Proof.
  destruct publicId as [|b|n|key|items|fields]; try reflexivity.
  cbn [registry_remove publicFilesRegistry set_registry].
  destruct (decide (key = token)) as [->|Hne].
  - apply lookup_delete_eq.
  - apply lookup_delete_ne. exact Hne.
Qed.

Lemma registry_put_lookup (publicId : json_value) (entry : PublicEntry) (token : jsstring)
    (w : World) :
  publicFilesRegistry (registry_put publicId entry w) !! token
  = match publicId with
    | JString key => if decide (key = token) then Some entry else publicFilesRegistry w !! token
    | _ => publicFilesRegistry w !! token
    end.
Proof.
  destruct publicId as [|b|n|key|items|fields]; try reflexivity.
  cbn [registry_put publicFilesRegistry set_registry].
  destruct (decide (key = token)) as [->|Hne].
  - apply lookup_insert_eq.
  - apply lookup_insert_ne. exact Hne.
Qed.

Lemma node_at_same_disk (p : Path) (w w' : World) :
  disk w' = disk w -> node_at p w' = node_at p w.
Proof. intros H. unfold node_at. rewrite H. reflexivity. Qed.

(** The removal that [delete] and [unshare] make when the sidecar is
    public. *)
Lemma when_public_delete (metadata : json_value) (shared : option json_value) (w : World) :
  public_token metadata = Return shared ->
  exists w1,
    when_public metadata registry_delete w = (Return tt, w1) /\
    faults w1 = faults w /\ (forall p, node_at p w1 = node_at p w) /\
    disk w1 = disk w /\ clock w1 = clock w /\ entropy w1 = entropy w /\
    publicFilesRegistry w1 =
      publicFilesRegistry (match shared with
                           | Some publicId => registry_remove publicId w
                           | None => w
                           end) /\
    trace w1 = trace w ++ match shared with
                          | Some publicId => [RegistryDelete publicId]
                          | None => []
                          end.
Proof.
  intros Hshared. rewrite when_public_run, Hshared.
  destruct shared as [publicId|]; eexists; (split; [reflexivity|]).
  - cbn [faults disk clock entropy trace publicFilesRegistry emit].
    rewrite faults_registry_remove, disk_registry_remove, clock_registry_remove,
      entropy_registry_remove, trace_registry_remove.
    repeat split. intros p. rewrite node_at_emit, node_at_registry_remove. reflexivity.
  - rewrite app_nil_r. repeat split.
Qed.

Lemma fs_unlink_missing_any (p : Path) (w : World) :
  node_at p w = None -> exists e w', fs_unlink p w = (Throw e, w') /\ disk w' = disk w.
Proof.
  intros Hn. unfold fs_unlink, io.
  destruct (faults w) as [|[|] rest]; try rewrite node_at_next_call, Hn; eauto.
Qed.

Section Delete.

Context {P : Platform}.

Lemma meta_path_ne_file (userId filename other : jsstring) :
  isValidFilename (VString other) = true ->
  path_dir (getMetadataPath userId filename) <> path_dir (file_path userId other) \/
  path_name (getMetadataPath userId filename) <> path_name (file_path userId other).
Proof. intros Hv. right. apply sidecar_name_not_valid. exact Hv. Qed.

Lemma file_path_ne_meta (userId filename other : jsstring) :
  isValidFilename (VString other) = true ->
  path_dir (file_path userId other) <> path_dir (getMetadataPath userId filename) \/
  path_name (file_path userId other) <> path_name (getMetadataPath userId filename).
Proof.
  intros Hv. right. intros E. symmetry in E. revert E. apply sidecar_name_not_valid. exact Hv.
Qed.

(** Without the file, whatever the device and the sidecar, the handler
    answers 500: [unlink] throws, if nothing has thrown before it. *)
Lemma delete_file_missing (userId filename : jsstring) (w : World) :
  isValidFilename (VString filename) = true ->
  node_at (file_path userId filename) w = None ->
  fst (delete_file userId filename w) = Return (status_json 500 (BError "Failed to delete file")).
Proof.
  intros Hv Hn. unfold delete_file. rewrite Hv. cbn [negb].
  unfold try_catch at 1. unfold bind at 1.
  destruct (getFileMetadata_total userId filename w) as (m & w1 & Hm & Hd1 & _).
  rewrite Hm. cbv beta iota. unfold bind at 1. rewrite when_public_run.
  assert (forall w2, disk w2 = disk w ->
            exists e w3, fs_unlink (file_path userId filename) w2 = (Throw e, w3)) as Hunlink.
  { intros w2 Hd2. destruct (fs_unlink_missing_any (file_path userId filename) w2)
      as (e & w3 & H & _); [rewrite (node_at_same_disk _ _ _ Hd2); exact Hn | eauto]. }
  destruct (public_token m) as [[publicId|]|e].
  - unfold registry_delete, modify. cbv beta iota. unfold bind at 1.
    destruct (Hunlink (emit (RegistryDelete publicId) (registry_remove publicId w1)))
      as (e & w3 & ->); [cbn [disk emit]; rewrite disk_registry_remove; exact Hd1|].
    reflexivity.
  - unfold bind at 1. destruct (Hunlink w1 Hd1) as (e & w3 & ->). reflexivity.
  - reflexivity.
Qed.

Lemma delete_file_present (userId filename : jsstring) (w : World) (data : bytes) (t : Z) :
  faults w = [] -> isValidFilename (VString filename) = true ->
  node_at (file_path userId filename) w = Some (NFile data t) ->
  stored_metadata userId filename w <> JNull ->
  exists shared w',
    public_token (stored_metadata userId filename w) = Return shared /\
    delete_file userId filename w = (Return (json BSuccess), w') /\
    node_at (file_path userId filename) w' = None /\
    (node_at (getMetadataPath userId filename) w <> Some NDir ->
     node_at (getMetadataPath userId filename) w' = None) /\
    publicFilesRegistry w' =
      publicFilesRegistry (match shared with
                           | Some publicId => registry_remove publicId w
                           | None => w
                           end).
Proof.
  intros Hf Hv Hn Hnull.
  destruct (public_token_returns _ Hnull) as [shared Hshared]. exists shared.
  unfold delete_file. rewrite Hv. cbn [negb].
  unfold try_catch at 1. unfold bind at 1. run_with getFileMetadata_run.
  unfold bind at 1.
  destruct (when_public_delete _ shared (next_call [] w) Hshared)
    as (w1 & Hrun & Hf1 & Hn1 & _ & _ & _ & Hr1 & _).
  assert (publicFilesRegistry w1 =
            publicFilesRegistry (match shared with
                                 | Some publicId => registry_remove publicId w
                                 | None => w
                                 end)) as Hr1'
    by (rewrite Hr1; destruct shared as [[]|]; reflexivity).
  clear Hr1. rename Hr1' into Hr1. cbn [faults next_call] in Hf1.
  rewrite Hrun. cbv beta iota.
  unfold bind at 1.
  rewrite (fs_unlink_file _ w1 data t Hf1) by (rewrite Hn1, node_at_next_call; exact Hn).
  cbv beta iota.
  set (w2 := emit (FsUnlink (file_path userId filename))
               (remove_node (file_path userId filename) (next_call [] w1))).
  assert (faults w2 = []) as Hf2 by reflexivity.
  assert (node_at (file_path userId filename) w2 = None) as Hgone
    by (unfold w2; rewrite node_at_emit; apply node_at_remove_eq).
  assert (node_at (getMetadataPath userId filename) w2
          = node_at (getMetadataPath userId filename) w) as Hmeta.
  { unfold w2. rewrite node_at_emit, node_at_remove_ne by (apply meta_path_ne_file; exact Hv).
    rewrite node_at_next_call, Hn1. apply node_at_next_call. }
  assert (publicFilesRegistry w2 = publicFilesRegistry w1) as Hr2 by reflexivity.
  clearbody w2. unfold bind at 1. unfold try_catch at 1.
  destruct (node_at (getMetadataPath userId filename) w) as [[mdata mt|]|] eqn:Hside.
  - rewrite (fs_unlink_file _ w2 mdata mt Hf2 Hmeta). cbv beta iota.
    unfold bind, console_log, modify, ret. cbv beta iota.
    eexists; split; [exact Hshared|]. split; [reflexivity|]. repeat split.
    + rewrite !node_at_emit, node_at_remove_ne by (apply file_path_ne_meta; exact Hv).
      rewrite node_at_next_call. exact Hgone.
    + intros _. rewrite !node_at_emit. apply node_at_remove_eq.
    + world_fields. rewrite Hr2, Hr1. reflexivity.
  - rewrite (fs_unlink_directory _ w2 Hf2 Hmeta). cbv beta iota.
    unfold bind, console_log, modify, ret. cbv beta iota.
    eexists; split; [exact Hshared|]. split; [reflexivity|]. repeat split.
    + rewrite !node_at_emit, node_at_next_call. exact Hgone.
    + intros H; contradiction.
    + world_fields. rewrite Hr2, Hr1. reflexivity.
  - rewrite (fs_unlink_missing _ w2 Hf2 Hmeta). cbv beta iota.
    unfold bind, console_log, modify, ret. cbv beta iota.
    eexists; split; [exact Hshared|]. split; [reflexivity|]. repeat split.
    + rewrite !node_at_emit, node_at_next_call. exact Hgone.
    + intros _. rewrite !node_at_emit, node_at_next_call. exact Hmeta.
    + world_fields. rewrite Hr2, Hr1. reflexivity.
Qed.

(** A sidecar that holds [null] stops the handler before anything is
    deleted. *)
Lemma delete_file_null_sidecar (userId filename : jsstring) (w : World) :
  faults w = [] -> isValidFilename (VString filename) = true ->
  stored_metadata userId filename w = JNull ->
  delete_file userId filename w
  = (Return (status_json 500 (BError "Failed to delete file")), next_call [] w).
Proof.
  intros Hf Hv Hnull. unfold delete_file. rewrite Hv. cbn [negb].
  unfold try_catch at 1. unfold bind at 1. run_with getFileMetadata_run.
  unfold bind at 1. rewrite when_public_run, Hnull. reflexivity.
Qed.

Lemma found_missing (p : Path) (w : World) :
  faults w = [] -> node_at p w = None ->
  try_catch (fs_access p ;; ret true) (fun _ => ret false) w = (Return false, next_call [] w).
Proof.
  intros Hf Hn. unfold try_catch, bind. rewrite (fs_access_missing _ _ Hf Hn). reflexivity.
Qed.

Lemma share_file_missing (userId filename : jsstring) (w : World) :
  faults w = [] -> isValidFilename (VString filename) = true ->
  node_at (file_path userId filename) w = None ->
  share_file userId filename w
  = (Return (status_json 404 (BError "File not found")), next_call [] w).
Proof.
  intros Hf Hv Hn. unfold share_file. rewrite Hv. cbn [negb].
  unfold try_catch at 1. unfold bind at 1. rewrite (found_missing _ _ Hf Hn). reflexivity.
Qed.

Lemma unshare_file_missing (userId filename : jsstring) (w : World) :
  faults w = [] -> isValidFilename (VString filename) = true ->
  node_at (file_path userId filename) w = None ->
  unshare_file userId filename w
  = (Return (status_json 404 (BError "File not found")), next_call [] w).
Proof.
  intros Hf Hv Hn. unfold unshare_file. rewrite Hv. cbn [negb].
  unfold try_catch at 1. unfold bind at 1. rewrite (found_missing _ _ Hf Hn). reflexivity.
Qed.

End Delete.

(** C7.  [delete] does not look whether the file is there.  Deleting a file
    that does not exist is answered with status 500 ("Failed to delete
    file"), whatever the device does and whatever the sidecar holds: [unlink]
    throws and the catch of the handler answers.  For the same file [read],
    [share] and [unshare] answer 404 ("File not found").  Deleting a file
    that exists, with a sidecar that does not hold [null] or with none,
    succeeds: the file is gone, the sidecar (when it was a file) is gone, and
    when the sidecar named a public token the registry has no entry for it,
    so the token no longer resolves. *)
Theorem delete_file_outcomes {P : Platform} (userId filename : jsstring) (w : World) :
  isValidFilename (VString filename) = true ->
  (node_at (file_path userId filename) w = None ->
   fst (delete_file userId filename w)
   = Return (status_json 500 (BError "Failed to delete file")) /\
   (faults w = [] ->
    fst (read_file userId filename w) = Return (status_json 404 (BError "File not found")) /\
    fst (share_file userId filename w) = Return (status_json 404 (BError "File not found")) /\
    fst (unshare_file userId filename w)
    = Return (status_json 404 (BError "File not found")))) /\
  (faults w = [] ->
   forall data t,
     node_at (file_path userId filename) w = Some (NFile data t) ->
     stored_metadata userId filename w <> JNull ->
     exists w',
       delete_file userId filename w = (Return (json BSuccess), w') /\
       node_at (file_path userId filename) w' = None /\
       (node_at (getMetadataPath userId filename) w <> Some NDir ->
        node_at (getMetadataPath userId filename) w' = None) /\
       (forall token,
           public_token (stored_metadata userId filename w) = Return (Some (JString token)) ->
           publicFilesRegistry w' !! token = None /\
           forall info, fst (resolvePublic token w') <> Return (Resolved info))).
Proof.
  intros Hv. split.
  - intros Hn. split; [apply delete_file_missing; assumption|]. intros Hf. split; [|split].
    + rewrite (read_file_run userId filename w Hf Hv), Hn. reflexivity.
    + rewrite (share_file_missing userId filename w Hf Hv Hn). reflexivity.
    + rewrite (unshare_file_missing userId filename w Hf Hv Hn). reflexivity.
  - intros Hf data t Hn Hnull.
    destruct (delete_file_present userId filename w data t Hf Hv Hn Hnull)
      as (shared & w' & Hshared & Hrun & Hgone & Hmeta & Hreg).
    exists w'. repeat split; try assumption.
    + rewrite H in Hshared. injection Hshared as <-.
      rewrite Hreg. cbn [registry_remove publicFilesRegistry set_registry].
      apply lookup_delete_eq.
    + intros info. unfold resolvePublic, registry_get, bind, ret.
      destruct (negb (PUBLIC_ID_REGEX_test token)); [discriminate|].
      rewrite H in Hshared. injection Hshared as <-.
      rewrite Hreg. cbn [registry_remove publicFilesRegistry set_registry fst].
      rewrite lookup_delete_eq. discriminate.
Qed.

Lemma delete_file_outcomes_toy :
  isValidFilename (VString Example.nothing_txt) = true /\
  node_at (file_path (P := Toy.platform) Example.alice Example.nothing_txt)
    Example.saved_world = None /\
  fst (delete_file (P := Toy.platform) Example.alice Example.nothing_txt Example.saved_world)
  = Return (status_json 500 (BError "Failed to delete file")) /\
  fst (share_file (P := Toy.platform) Example.alice Example.nothing_txt Example.saved_world)
  = Return (status_json 404 (BError "File not found")) /\
  exists w',
    delete_file (P := Toy.platform) Example.alice Example.hello_txt Example.shared_world
    = (Return (json BSuccess), w') /\
    node_at (file_path (P := Toy.platform) Example.alice Example.hello_txt) w' = None /\
    node_at (getMetadataPath (P := Toy.platform) Example.alice Example.hello_txt) w' = None /\
    publicFilesRegistry w' !! Example.token = None.
Proof.
  split; [reflexivity|].
  assert (node_at (file_path (P := Toy.platform) Example.alice Example.nothing_txt)
            Example.saved_world = None) as Hmissing by (vm_compute; reflexivity).
  split; [exact Hmissing|].
  destruct (proj1 (delete_file_outcomes (P := Toy.platform) Example.alice Example.nothing_txt
                     Example.saved_world eq_refl) Hmissing) as [Hdelete Hothers].
  split; [exact Hdelete|]. split; [apply (Hothers eq_refl)|].
  assert (exists data t,
             node_at (file_path (P := Toy.platform) Example.alice Example.hello_txt)
               Example.shared_world = Some (NFile data t)) as (data & t & Hn)
    by (eexists _, _; vm_compute; reflexivity).
  assert (stored_metadata (P := Toy.platform) Example.alice Example.hello_txt
            Example.shared_world <> JNull) as Hnull by (vm_compute; discriminate).
  destruct (proj2 (delete_file_outcomes (P := Toy.platform) Example.alice Example.hello_txt
                     Example.shared_world eq_refl) eq_refl data t Hn Hnull)
    as (w' & Hrun & Hgone & Hmeta & Hreg).
  exists w'. split; [exact Hrun|]. split; [exact Hgone|]. split.
  - apply Hmeta. vm_compute. discriminate.
  - apply (Hreg Example.token). vm_compute. reflexivity.
Defined.

(** Deleting [nothing.txt], which alice does not have, is answered with
    status 500, and 500 is not the NotFound status. *)
Lemma delete_missing_file_is_not_not_found :
  node_at (file_path (P := Toy.platform) Example.alice Example.nothing_txt)
    Example.saved_world = None /\
  fst (delete_file (P := Toy.platform) Example.alice Example.nothing_txt Example.saved_world)
  = Return (status_json 500 (BError "Failed to delete file")) /\
  (500 =? 404)%Z = false.
Proof. split; [vm_compute; reflexivity|]. split; vm_compute; reflexivity. Qed.

(** ** Sharing and unsharing *)

Lemma generated_token (tape : list Z) :
  PUBLIC_ID_REGEX_test (hex_encode (take_bytes 16 tape)) = true /\
  truthy_string (hex_encode (take_bytes 16 tape)) = true.
Proof.
  assert (length (hex_encode (take_bytes 16 tape)) = 32%nat) as Hlen
    by (rewrite hex_encode_length, take_bytes_length; reflexivity).
  split.
  - unfold PUBLIC_ID_REGEX_test. rewrite Hlen.
    rewrite hex_encode_lower_hex by apply take_bytes_bytes. reflexivity.
  - destruct (hex_encode (take_bytes 16 tape)); [discriminate Hlen | reflexivity].
Qed.

Section Sharing.

Context {P : Platform} (L : PlatformLaws P).

(** What a sidecar holds is a value in the sense of [JSON.parse]. *)
Lemma stored_metadata_wf (userId filename : jsstring) (w : World) :
  json_wf (stored_metadata userId filename w) = true.
Proof.
  unfold stored_metadata.
  destruct (node_at (getMetadataPath userId filename) w) as [[data t|]|]; try reflexivity.
  destruct (JSON_parse (utf8_decode data)) as [v|] eqn:E; [|reflexivity].
  apply (json_parse_wf P L _ _ E).
Qed.

Lemma stored_metadata_written (userId filename : jsstring) (w : World)
    (m : json_value) (t : Z) :
  json_wf m = true ->
  node_at (getMetadataPath userId filename) w
  = Some (NFile (utf8_encode (JSON_stringify m)) t) ->
  stored_metadata userId filename w = json_normal m.
Proof.
  intros Hwf H. unfold stored_metadata. rewrite H.
  rewrite utf8_decode_encode by apply (json_stringify_well_formed P L _ Hwf).
  rewrite (json_parse_stringify P L _ Hwf). reflexivity.
Qed.

Lemma found_run (userId filename : jsstring) (w : World) :
  ready userId filename w ->
  try_catch (fs_access (file_path userId filename) ;; ret true) (fun _ => ret false) w
  = (Return true, next_call [] w).
Proof.
  intros (Hf & [n Hn] & _). unfold try_catch, bind.
  rewrite (fs_access_found _ w n Hf Hn). reflexivity.
Qed.

(** A sidecar that is public: [share] returns its [publicId] and changes
    nothing, or answers 500 when the [publicId] has no text. *)
Lemma share_file_public (userId filename : jsstring) (w : World) (publicId : json_value) :
  ready userId filename w -> isValidFilename (VString filename) = true ->
  public_token (stored_metadata userId filename w) = Return (Some publicId) ->
  share_file userId filename w
  = match to_string publicId with
    | Return text =>
        (Return (json (BShared publicId (publicUrl text))), next_call [] (next_call [] w))
    | Throw e =>
        (Return (status_json 500 (BError "Failed to share file")),
         emit (ConsoleError (lit "Error sharing file:") e) (next_call [] (next_call [] w)))
    end.
Proof.
  intros Hr Hv Ht. unfold share_file. rewrite Hv. cbn [negb].
  unfold try_catch at 1. unfold bind at 1. rewrite (found_run userId filename w Hr).
  cbv beta iota. cbn [negb]. unfold bind at 1.
  run_with getFileMetadata_run.
  change (stored_metadata userId filename (next_call [] w))
    with (stored_metadata userId filename w).
  unfold bind at 1. unfold lift at 1. rewrite Ht. cbv beta iota.
  unfold bind at 1. unfold lift at 1. destruct (to_string publicId); reflexivity.
Qed.

Lemma share_file_mint (userId filename : jsstring) (w : World)
    (fields : list (jsstring * json_value)) :
  ready userId filename w -> isValidFilename (VString filename) = true ->
  stored_metadata userId filename w = JObject fields ->
  public_token (JObject fields) = Return None ->
  let token := hex_encode (take_bytes 16 (entropy w)) in
  let entry := {| entry_userId := Some (JString userId); entry_filename := filename |} in
  exists w' metadata',
    share_file userId filename w
    = (Return (json (BShared (JString token) (publicUrl token))), w') /\
    ready userId filename w' /\
    made_public (JObject fields) token userId = Return metadata' /\
    stored_metadata userId filename w' = json_normal metadata' /\
    public_token (stored_metadata userId filename w') = Return (Some (JString token)) /\
    publicFilesRegistry w' = <[token := entry]> (publicFilesRegistry w) /\
    otherKeys w' = otherKeys w.
Proof.
  intros Hr Hv Hobj Ht token entry. pose proof Hr as (Hf & [n Hn] & Hside).
  pose proof (stored_metadata_wf userId filename w) as Hwf. rewrite Hobj in Hwf.
  unfold share_file. rewrite Hv. cbn [negb].
  unfold try_catch at 1. unfold bind at 1. rewrite (found_run userId filename w Hr).
  cbv beta iota. cbn [negb]. unfold bind at 1.
  run_with getFileMetadata_run.
  change (stored_metadata userId filename (next_call [] w))
    with (stored_metadata userId filename w).
  rewrite Hobj. unfold bind at 1. unfold lift at 1. rewrite Ht. cbv beta iota.
  unfold generatePublicId, randomBytes, saveFileMetadata.
  unfold bind at 1. unfold bind at 1. unfold ret at 1. cbv beta iota.
  world_fields. fold token.
  set (w0 := set_entropy (skipn 16 (entropy w)) (next_call [] (next_call [] w))).
  unfold bind at 1. unfold lift at 1. cbn [assign]. cbv beta iota.
  unfold bind at 1. unfold lift at 1. cbn [assign]. cbv beta iota.
  unfold bind at 1. unfold lift at 1. cbn [assign]. cbv beta iota.
  set (m := JObject (dir_put (lit "userId") (JString userId)
                       (dir_put (lit "publicId") (JString token)
                          (dir_put (lit "isPublic") (JBool true) fields)))).
  assert (made_public (JObject fields) token userId = Return m) as Hm by reflexivity.
  assert (json_wf m = true) as Hwfm by (apply (made_public_wf _ _ _ _ Hwf Hm)).
  assert (faults w0 = []) as Hf0 by reflexivity.
  destruct (node_at_dir _ _ _ Hn) as [d Hd].
  unfold bind at 1.
  rewrite (fs_writeFile_run (getMetadataPath userId filename) (JSON_stringify m) w0 Hf0)
    by (first [exists d; exact Hd | exact Hside]).
  cbv beta iota. unfold registry_set, console_log, modify, bind, ret. cbv beta iota.
  eexists. exists m. split; [reflexivity|].
  assert (node_at (getMetadataPath userId filename)
            (put_node (getMetadataPath userId filename)
               (NFile (utf8_encode (JSON_stringify m)) (clock w0 + 1)) (next_call [] w0))
          = Some (NFile (utf8_encode (JSON_stringify m)) (clock w0 + 1))) as Hwritten
    by (apply (node_at_put_eq _ _ _ d); exact Hd).
  match goal with
  | |- ready _ _ ?w' /\ _ =>
      assert (stored_metadata userId filename w' = json_normal m) as Hstored
  end.
  { apply (stored_metadata_written userId filename _ m (clock w0 + 1) Hwfm).
    rewrite !node_at_emit, node_at_registry_put, node_at_emit. exact Hwritten. }
  split; [|split; [exact Hm|split; [exact Hstored|split; [|split; reflexivity]]]].
  - split; [reflexivity|]. split.
    + exists n. rewrite !node_at_emit, node_at_registry_put, node_at_emit.
      rewrite node_at_put_ne by (apply file_path_ne_meta; exact Hv). exact Hn.
    + rewrite !node_at_emit, node_at_registry_put, node_at_emit, Hwritten. discriminate.
  - rewrite Hstored.
    apply (public_token_made_public fields m token userId); [|exact Hm].
    apply generated_token.
Qed.

Lemma unshare_file_run (userId filename : jsstring) (w : World)
    (shared : option json_value) (metadata' : json_value) :
  ready userId filename w -> isValidFilename (VString filename) = true ->
  public_token (stored_metadata userId filename w) = Return shared ->
  made_private (stored_metadata userId filename w) = Return metadata' ->
  exists w',
    unshare_file userId filename w = (Return (json BUnshared), w') /\
    ready userId filename w' /\
    stored_metadata userId filename w' = json_normal metadata' /\
    publicFilesRegistry w' =
      publicFilesRegistry (match shared with
                           | Some publicId => registry_remove publicId w
                           | None => w
                           end) /\
    trace w' = trace w ++ match shared with
                          | Some publicId => [RegistryDelete publicId]
                          | None => []
                          end
                 ++ [FsWrite (getMetadataPath userId filename);
                     ConsoleLog (lit "ACTION: User " ++ userId
                                   ++ lit " made file private - " ++ filename)].
Proof.
  intros Hr Hv Hshared Hprivate. pose proof Hr as (Hf & [n Hn] & Hside).
  pose proof (stored_metadata_wf userId filename w) as Hwf.
  pose proof (made_private_wf _ _ Hwf Hprivate) as Hwf'.
  unfold unshare_file. rewrite Hv. cbn [negb].
  unfold try_catch at 1. unfold bind at 1. rewrite (found_run userId filename w Hr).
  cbv beta iota. cbn [negb]. unfold bind at 1.
  run_with getFileMetadata_run.
  change (stored_metadata userId filename (next_call [] w))
    with (stored_metadata userId filename w).
  set (m := stored_metadata userId filename w) in *.
  destruct (when_public_delete m shared (next_call [] (next_call [] w)) Hshared)
    as (w1 & Hrun & Hf1 & Hn1 & Hd1 & Hc1 & _ & Hr1 & Ht1).
  unfold bind at 1. rewrite Hrun. cbv beta iota.
  unfold made_private in Hprivate.
  destruct (assign m (lit "isPublic") (JBool false)) as [m1|] eqn:E1; [|discriminate].
  unfold bind at 1. unfold lift at 1. cbv beta iota.
  unfold bind at 1. unfold lift at 1. rewrite Hprivate. cbv beta iota.
  unfold saveFileMetadata. unfold bind at 1.
  destruct (node_at_dir _ _ _ Hn) as [d Hd].
  cbn [faults next_call] in Hf1. cbn [disk next_call] in Hd1.
  rewrite (fs_writeFile_run (getMetadataPath userId filename) (JSON_stringify metadata') w1 Hf1)
    by (first [exists d; rewrite Hd1; exact Hd
              | rewrite Hn1, !node_at_next_call; exact Hside]).
  cbv beta iota. unfold console_log, modify, bind, ret. cbv beta iota.
  eexists. split; [reflexivity|].
  assert (node_at (getMetadataPath userId filename)
            (put_node (getMetadataPath userId filename)
               (NFile (utf8_encode (JSON_stringify metadata')) (clock w1 + 1))
               (next_call [] w1))
          = Some (NFile (utf8_encode (JSON_stringify metadata')) (clock w1 + 1))) as Hwritten
    by (apply (node_at_put_eq _ _ _ d); cbn [disk next_call]; rewrite Hd1; exact Hd).
  split; [|split; [|split]].
  - split; [reflexivity|]. split.
    + exists n. rewrite !node_at_emit.
      rewrite node_at_put_ne by (apply file_path_ne_meta; exact Hv).
      rewrite node_at_next_call, Hn1, !node_at_next_call. exact Hn.
    + rewrite !node_at_emit, Hwritten. discriminate.
  - apply (stored_metadata_written userId filename _ metadata' (clock w1 + 1) Hwf').
    rewrite !node_at_emit. exact Hwritten.
  - world_fields. rewrite Hr1. destruct shared as [[]|]; reflexivity.
  - world_fields. rewrite Ht1, <- !app_assoc. reflexivity.
Qed.

Lemma ready_next_call (userId filename : jsstring) (w : World) :
  ready userId filename w -> ready userId filename (next_call [] w).
Proof. intros (Hf & Hn & Hs). repeat split; assumption. Qed.

Lemma resolvePublic_registered (token : jsstring) (entry : PublicEntry) (w : World) :
  PUBLIC_ID_REGEX_test token = true -> publicFilesRegistry w !! token = Some entry ->
  fst (resolvePublic token w) = Return (Resolved entry).
Proof.
  intros Hre Hreg. unfold resolvePublic, registry_get, bind, ret. rewrite Hre. cbn [negb fst].
  rewrite Hreg. reflexivity.
Qed.

Lemma resolvePublic_unregistered (token : jsstring) (w : World) :
  PUBLIC_ID_REGEX_test token = true -> publicFilesRegistry w !! token = None ->
  fst (resolvePublic token w) = Return PublicNotFound.
Proof.
  intros Hre Hreg. unfold resolvePublic, registry_get, bind, ret. rewrite Hre. cbn [negb fst].
  rewrite Hreg. reflexivity.
Qed.

(** A token that the registry does not hold does not resolve. *)
Lemma resolvePublic_unresolved (token : jsstring) (w : World) :
  publicFilesRegistry w !! token = None ->
  forall info, fst (resolvePublic token w) <> Return (Resolved info).
Proof.
  intros Hreg info. unfold resolvePublic, registry_get, bind, ret.
  destruct (negb (PUBLIC_ID_REGEX_test token)); [discriminate|].
  cbn [fst]. rewrite Hreg. discriminate.
Qed.

(** Whether a token resolves is a matter of the registry alone. *)
Lemma resolvePublic_same_registry (token : jsstring) (w w' : World) :
  publicFilesRegistry w' = publicFilesRegistry w ->
  fst (resolvePublic token w') = fst (resolvePublic token w).
Proof.
  intros H. unfold resolvePublic, registry_get, bind, ret.
  destruct (negb (PUBLIC_ID_REGEX_test token)); [reflexivity|].
  cbn [fst]. rewrite H. destruct (publicFilesRegistry w !! token); reflexivity.
Qed.

End Sharing.




(** ** The order of effects in [unshare] *)

Lemma found_total (p : Path) (w : World) :
  exists b w',
    try_catch (fs_access p ;; ret true) (fun _ => ret false) w = (Return b, w') /\
    disk w' = disk w /\ publicFilesRegistry w' = publicFilesRegistry w /\
    trace w' = trace w.
Proof.
  unfold try_catch, bind, fs_access, io, ret.
  destruct (faults w) as [|[|] rest]; try rewrite node_at_next_call;
    try destruct (node_at p w); eexists _, _; (split; [reflexivity|auto]).
Qed.

Lemma fs_writeFile_total (p : Path) (text : jsstring) (w : World) :
  exists o w',
    fs_writeFile p text w = (o, w') /\
    publicFilesRegistry w' = publicFilesRegistry w /\
    ((o = Return tt /\ trace w' = trace w ++ [FsWrite p]) \/
     (exists e, o = Throw e /\ trace w' = trace w /\ disk w' = disk w)).
Proof.
  unfold fs_writeFile, io.
  destruct (faults w) as [|[|] rest]; cbn [disk next_call];
    try (eexists _, _; split; [reflexivity|]; split; [reflexivity|]; right; eauto; fail);
    destruct (dir_lookup (path_dir p) (disk w)) as [[d|]|];
    try (eexists _, _; split; [reflexivity|]; split; [reflexivity|]; right; eauto; fail);
    destruct (dir_lookup (path_name p) d) as [[data t|]|];
    eexists _, _; (split; [reflexivity|]); (split; [reflexivity|]);
    first [left; split; reflexivity | right; eauto].
Qed.

Section UnshareOrder.

Context {P : Platform}.

(** What [unshare] adds to the trace, whatever the device does and whatever
    the sidecar holds: nothing, or the removal of the key it read and then
    either the write of the sidecar and the log line, or the report of the
    error that stopped it. *)
Lemma unshare_file_events (userId filename : jsstring) (w : World) :
  exists events,
    trace (snd (unshare_file userId filename w)) = trace w ++ events /\
    deletes_precede_writes events = true.
Proof.
  unfold unshare_file.
  destruct (isValidFilename (VString filename)); cbn [negb];
    [|exists []; rewrite app_nil_r; split; reflexivity].
  unfold try_catch at 1. unfold bind at 1.
  destruct (found_total (file_path userId filename) w) as (b & wa & Ha & _ & _ & Hta).
  rewrite Ha. cbv beta iota.
  destruct b; cbn [negb]; [|exists []; rewrite app_nil_r; split; [exact Hta | reflexivity]].
  unfold bind at 1.
  destruct (getFileMetadata_total userId filename wa) as (m & wb & Hb & _ & _ & Htb & _).
  rewrite Hb. cbv beta iota. unfold bind at 1. rewrite when_public_run.
  assert (exists cleanup wc,
             (forall e', is_registry_delete e' = false ->
                         deletes_precede_writes (cleanup ++ [e']) = true) /\
             deletes_precede_writes
               (cleanup ++ [FsWrite (getMetadataPath userId filename);
                            ConsoleLog (lit "ACTION: User " ++ userId
                                          ++ lit " made file private - " ++ filename)])
             = true /\
             trace wc = trace w ++ cleanup /\
             (match public_token m with
              | Return (Some publicId) => registry_delete publicId wb
              | Return None => (Return tt, wb)
              | Throw e => (Throw e, wb)
              end = (Return tt, wc) \/
              exists e, match public_token m with
                        | Return (Some publicId) => registry_delete publicId wb
                        | Return None => (Return tt, wb)
                        | Throw e => (Throw e, wb)
                        end = (Throw e, wc) /\ cleanup = []))
    as (cleanup & wc & Hok2 & Hok1 & Htc & Hstep).
  { destruct (public_token m) as [[publicId|]|e].
    - exists [RegistryDelete publicId]. eexists.
      split; [intros e' He'; cbn; destruct e'; try reflexivity; discriminate He'|].
      split; [reflexivity|]. split; [|left; reflexivity].
      cbn [trace emit]. rewrite trace_registry_remove, Htb, Hta. reflexivity.
    - exists [], wb. split; [intros e' He'; destruct e'; reflexivity|].
      split; [reflexivity|]. split; [rewrite app_nil_r, Htb, Hta; reflexivity|].
      left. reflexivity.
    - exists [], wb. split; [intros e' He'; destruct e'; reflexivity|].
      split; [reflexivity|]. split; [rewrite app_nil_r, Htb, Hta; reflexivity|].
      right. exists e. split; reflexivity. }
  destruct Hstep as [Hstep | (e & Hstep & ->)]; rewrite Hstep; cbv beta iota.
  2: { unfold bind, console_error, modify, ret. cbv beta iota. cbn [snd trace emit].
       eexists. split; [rewrite Htc, <- !app_assoc; reflexivity | reflexivity]. }
  unfold bind at 1. unfold lift at 1.
  destruct (assign m (lit "isPublic") (JBool false)) as [m1|e1]; cbv beta iota.
  2: { unfold bind, console_error, modify, ret. cbv beta iota. cbn [snd trace emit].
       eexists. split; [rewrite Htc, <- !app_assoc; reflexivity | apply Hok2; reflexivity]. }
  unfold bind at 1. unfold lift at 1.
  destruct (assign m1 (lit "publicId") JNull) as [m2|e2]; cbv beta iota.
  2: { unfold bind, console_error, modify, ret. cbv beta iota. cbn [snd trace emit].
       eexists. split; [rewrite Htc, <- !app_assoc; reflexivity | apply Hok2; reflexivity]. }
  unfold saveFileMetadata. unfold bind at 1.
  set (text := JSON_stringify _).
  destruct (fs_writeFile_total (getMetadataPath userId filename) text wc)
    as (o & wd & Hd & _ & [[-> Htd] | (e & -> & Htd & _)]); rewrite Hd; cbv beta iota.
  - unfold bind, console_log, modify, ret. cbv beta iota. cbn [snd trace emit].
    eexists. split; [rewrite Htd, Htc, <- !app_assoc; reflexivity | exact Hok1].
  - unfold bind, console_error, modify, ret. cbv beta iota. cbn [snd trace emit].
    eexists. split; [rewrite Htd, Htc, <- !app_assoc; reflexivity | apply Hok2; reflexivity].
Qed.

(** The device fails the write of the sidecar: the entry is out of the
    registry and the sidecar is as it was. *)
Lemma unshare_file_interrupted (userId filename : jsstring) (w : World)
    (n : Node) (publicId : json_value) (rest : list bool) :
  faults w = false :: false :: true :: rest ->
  isValidFilename (VString filename) = true ->
  node_at (file_path userId filename) w = Some n ->
  public_token (stored_metadata userId filename w) = Return (Some publicId) ->
  exists w',
    unshare_file userId filename w
    = (Return (status_json 500 (BError "Failed to unshare file")), w') /\
    publicFilesRegistry w' = publicFilesRegistry (registry_remove publicId w) /\
    otherKeys w' = otherKeys (registry_remove publicId w) /\
    disk w' = disk w.
Proof.
  intros Hf Hv Hn Ht. unfold unshare_file. rewrite Hv. cbn [negb].
  unfold try_catch at 1. unfold bind at 1.
  unfold try_catch at 1. unfold bind at 1. unfold fs_access, io at 1. rewrite Hf.
  rewrite node_at_next_call, Hn. unfold ret at 1. cbv beta iota. cbn [negb].
  unfold bind at 1. unfold getFileMetadata, try_catch at 1, bind at 1, fs_readFile, io at 1.
  cbn [faults next_call]. cbv beta iota.
  rewrite !node_at_next_call.
  destruct (public_token_object _ _ Ht) as (fields & Hobj & _).
  unfold stored_metadata in Ht, Hobj.
  destruct (node_at (getMetadataPath userId filename) w) as [[data t|]|].
  - cbv beta iota. unfold parse_json.
    destruct (JSON_parse (utf8_decode data)) as [m|].
    + subst m. unfold ret at 1. cbv beta iota. unfold bind at 1. rewrite when_public_run, Ht.
      unfold registry_delete, modify. cbv beta iota.
      unfold bind at 1. unfold lift at 1. cbn [assign]. cbv beta iota.
      unfold bind at 1. unfold lift at 1. cbn [assign]. cbv beta iota.
      unfold saveFileMetadata. unfold bind at 1. unfold fs_writeFile, io.
      cbn [faults next_call emit]. rewrite faults_registry_remove. cbn [faults next_call].
      cbv beta iota. unfold bind, console_error, modify, ret. cbv beta iota.
      eexists. split; [reflexivity|]. destruct publicId; repeat split; reflexivity.
    + cbv in Ht. discriminate Ht.
  - cbv in Ht. discriminate Ht.
  - cbv in Ht. discriminate Ht.
Qed.

End UnshareOrder.

(** C9.  [unshare] takes the token out of the registry before it writes the
    sidecar.  In every run, whatever the device does and whatever the sidecar
    holds, no removal from the registry follows a write.  When the device
    works and the sidecar names a public token, the run is exactly: remove
    the token, write the sidecar with [isPublic = false] and
    [publicId = null], log.  When the device fails that write, the token is
    already out of the registry and the disk is untouched. *)
Theorem unshare_removes_before_persisting {P : Platform} (L : PlatformLaws P)
    (userId filename : jsstring) (w : World) :
  (exists events,
      trace (snd (unshare_file userId filename w)) = trace w ++ events /\
      deletes_precede_writes events = true) /\
  (ready userId filename w -> isValidFilename (VString filename) = true ->
   forall token,
     public_token (stored_metadata userId filename w) = Return (Some (JString token)) ->
     exists w' metadata',
       unshare_file userId filename w = (Return (json BUnshared), w') /\
       trace w' = trace w ++ [RegistryDelete (JString token);
                              FsWrite (getMetadataPath userId filename);
                              ConsoleLog (lit "ACTION: User " ++ userId
                                            ++ lit " made file private - " ++ filename)] /\
       publicFilesRegistry w' = delete token (publicFilesRegistry w) /\
       made_private (stored_metadata userId filename w) = Return metadata' /\
       stored_metadata userId filename w' = json_normal metadata' /\
       property (stored_metadata userId filename w') (lit "isPublic")
       = Return (Some (JBool false)) /\
       property (stored_metadata userId filename w') (lit "publicId") = Return (Some JNull)) /\
  (forall n token rest,
      faults w = false :: false :: true :: rest ->
      isValidFilename (VString filename) = true ->
      node_at (file_path userId filename) w = Some n ->
      public_token (stored_metadata userId filename w) = Return (Some (JString token)) ->
      exists w',
        unshare_file userId filename w
        = (Return (status_json 500 (BError "Failed to unshare file")), w') /\
        publicFilesRegistry w' = delete token (publicFilesRegistry w) /\
        disk w' = disk w).
Proof.
  split; [apply unshare_file_events|]. split.
  - intros Hr Hv token Ht.
    destruct (public_token_object _ _ Ht) as (fields & Hobj & _).
    assert (made_private (stored_metadata userId filename w)
            = Return (JObject (dir_put (lit "publicId") JNull
                                 (dir_put (lit "isPublic") (JBool false) fields)))) as Hprivate
      by (rewrite Hobj; reflexivity).
    destruct (unshare_file_run L userId filename w _ _ Hr Hv Ht Hprivate)
      as (w' & Hrun & _ & Hm & Hreg & Htr).
    exists w'. eexists. split; [exact Hrun|]. split; [exact Htr|]. split; [exact Hreg|].
    split; [exact Hprivate|]. split; [exact Hm|]. rewrite Hm.
    destruct (public_token_made_private fields _ (made_private_object fields))
      as (_ & Hpublic & Hid).
    split; assumption.
  - intros n token rest Hf Hv Hn Ht.
    destruct (unshare_file_interrupted userId filename w n _ rest Hf Hv Hn Ht)
      as (w' & Hrun & Hreg & _ & Hd).
    exists w'. split; [exact Hrun|]. split; [exact Hreg | exact Hd].
Qed.

Lemma unshare_removes_before_persisting_toy :
  ready (P := Toy.platform) Example.alice Example.hello_txt Example.shared_world /\
  isValidFilename (VString Example.hello_txt) = true /\
  public_token (stored_metadata (P := Toy.platform) Example.alice Example.hello_txt
                  Example.shared_world) = Return (Some (JString Example.token)) /\
  exists w',
    unshare_file (P := Toy.platform) Example.alice Example.hello_txt Example.shared_world
    = (Return (json BUnshared), w') /\
    trace w' = trace Example.shared_world
                 ++ [RegistryDelete (JString Example.token);
                     FsWrite (getMetadataPath (P := Toy.platform) Example.alice
                                Example.hello_txt);
                     ConsoleLog (lit "ACTION: User " ++ Example.alice
                                   ++ lit " made file private - " ++ Example.hello_txt)] /\
    publicFilesRegistry w' = delete Example.token (publicFilesRegistry Example.shared_world).
Proof.
  assert (ready (P := Toy.platform) Example.alice Example.hello_txt Example.shared_world)
    as Hr.
  { split; [reflexivity|]. split.
    - eexists. vm_compute. reflexivity.
    - vm_compute. discriminate. }
  assert (public_token (stored_metadata (P := Toy.platform) Example.alice Example.hello_txt
                          Example.shared_world) = Return (Some (JString Example.token))) as Ht
    by (vm_compute; reflexivity).
  split; [exact Hr|]. split; [reflexivity|]. split; [exact Ht|].
  destruct (proj1 (proj2 (unshare_removes_before_persisting toy_laws Example.alice
                            Example.hello_txt Example.shared_world))
              Hr eq_refl Example.token Ht) as (w' & m' & Hrun & Htr & Hreg & _).
  exists w'. split; [exact Hrun|]. split; [exact Htr | exact Hreg].
Defined.

(** ** Renaming a file *)

Lemma fs_rename_run (src dst : Path) (w : World) (n : Node) :
  faults w = [] -> node_at src w = Some n -> path_name src <> path_name dst ->
  (node_at dst w = None \/ exists n', node_at dst w = Some n' /\ same_kind n n' = true) ->
  fs_rename src dst w
  = (Return tt, emit (FsRename src dst) (put_node dst n (remove_node src (next_call [] w)))).
Proof.
  intros Hf Hn Hne Hdst. unfold fs_rename. rewrite (io_run _ _ Hf), !node_at_next_call, Hn.
  apply str_eqb_neq in Hne. rewrite Hne.
  destruct Hdst as [->|(n' & -> & ->)]; reflexivity.
Qed.

Lemma fs_rename_missing (src dst : Path) (w : World) :
  faults w = [] -> node_at src w = None ->
  fs_rename src dst w = (Throw ENOENT, next_call [] w).
Proof.
  intros Hf Hn. unfold fs_rename. rewrite (io_run _ _ Hf), !node_at_next_call, Hn. reflexivity.
Qed.

(** The entry that [rename] sets when the sidecar is public. *)
Lemma when_public_set (metadata : json_value) (shared : option json_value)
    (entry : PublicEntry) (w : World) :
  public_token metadata = Return shared ->
  exists w1,
    when_public metadata (fun publicId => registry_set publicId entry) w = (Return tt, w1) /\
    faults w1 = faults w /\ (forall p, node_at p w1 = node_at p w) /\
    disk w1 = disk w /\
    publicFilesRegistry w1 =
      publicFilesRegistry (match shared with
                           | Some publicId => registry_put publicId entry w
                           | None => w
                           end).
Proof.
  intros Hshared. rewrite when_public_run, Hshared.
  destruct shared as [publicId|]; eexists; (split; [reflexivity|]).
  - cbn [faults disk publicFilesRegistry emit].
    rewrite faults_registry_put, disk_registry_put.
    repeat split. intros p. rewrite node_at_emit, node_at_registry_put. reflexivity.
  - repeat split.
Qed.

Section Rename.

Context {P : Platform}.

Lemma rename_file_invalid (userId oldFilename : jsstring) (newName : Js.value) (w : World) :
  isValidFilename (VString oldFilename) = false \/ isValidFilename newName = false ->
  rename_file userId oldFilename newName w
  = (Return (status_json 400 (BError "Invalid filename")), w).
Proof.
  intros H. unfold rename_file.
  replace (negb (isValidFilename (VString oldFilename)) || negb (isValidFilename newName))
    with true; [reflexivity|].
  destruct H as [-> | ->]; [reflexivity | apply eq_sym, orb_true_r].
Qed.

Lemma rename_file_conflict (userId oldFilename newName : jsstring) (w : World) (n' : Node) :
  faults w = [] ->
  isValidFilename (VString oldFilename) = true -> isValidFilename (VString newName) = true ->
  node_at (file_path userId newName) w = Some n' ->
  rename_file userId oldFilename (VString newName) w
  = (Return (status_json 409 (BError "File already exists")), next_call [] w).
Proof.
  intros Hf Hvo Hvn Hn. unfold rename_file. rewrite Hvo, Hvn. cbn [negb orb].
  unfold try_catch at 1. unfold bind at 1. unfold try_catch at 1. unfold bind at 1.
  rewrite (fs_access_found _ w n' Hf Hn). reflexivity.
Qed.

Lemma sidecar_paths_differ (userId a b : jsstring) :
  a <> b ->
  path_dir (getMetadataPath userId a) <> path_dir (getMetadataPath userId b) \/
  path_name (getMetadataPath userId a) <> path_name (getMetadataPath userId b).
Proof. intros Hne. right. intros E. apply Hne, sidecar_name_injective, E. Qed.

Lemma file_paths_differ (userId a b : jsstring) :
  a <> b ->
  path_dir (file_path userId a) <> path_dir (file_path userId b) \/
  path_name (file_path userId a) <> path_name (file_path userId b).
Proof. intros Hne. right. exact Hne. Qed.

Lemma rename_file_moves_run (userId oldFilename newName : jsstring) (w : World) (n : Node)
    (shared : option json_value) :
  faults w = [] ->
  isValidFilename (VString oldFilename) = true -> isValidFilename (VString newName) = true ->
  node_at (file_path userId newName) w = None ->
  node_at (file_path userId oldFilename) w = Some n ->
  node_at (getMetadataPath userId newName) w <> Some NDir ->
  public_token (stored_metadata userId oldFilename w) = Return shared ->
  exists w',
    rename_file userId oldFilename (VString newName) w = (Return (json (BRenamed newName)), w') /\
    node_at (file_path userId newName) w' = Some n /\
    node_at (file_path userId oldFilename) w' = None /\
    (forall data t,
        node_at (getMetadataPath userId oldFilename) w = Some (NFile data t) ->
        node_at (getMetadataPath userId newName) w' = Some (NFile data t) /\
        node_at (getMetadataPath userId oldFilename) w' = None) /\
    publicFilesRegistry w' =
      publicFilesRegistry
        (match shared with
         | Some publicId =>
             registry_put publicId
               {| entry_userId := Some (JString userId); entry_filename := newName |} w
         | None => w
         end).
Proof.
  intros Hf Hvo Hvn Hnew Hold Hside Hshared.
  assert (oldFilename <> newName) as Hne by (intros ->; congruence).
  unfold rename_file. rewrite Hvo, Hvn. cbn [negb orb].
  unfold try_catch at 1. unfold bind at 1. unfold try_catch at 1. unfold bind at 1.
  rewrite (fs_access_missing _ w Hf Hnew). unfold ret at 1. cbv beta iota.
  unfold bind at 1.
  rewrite (fs_rename_run (file_path userId oldFilename) (file_path userId newName)
             (next_call [] w) n) by (first [reflexivity | exact Hold | exact Hne | left; exact Hnew]).
  cbv beta iota.
  set (oldPath := file_path userId oldFilename). set (newPath := file_path userId newName).
  set (oldMeta := getMetadataPath userId oldFilename).
  set (newMeta := getMetadataPath userId newName).
  set (w2 := emit (FsRename oldPath newPath)
               (put_node newPath n (remove_node oldPath (next_call [] (next_call [] w))))).
  destruct (node_at_dir _ _ _ Hold) as [d Hd].
  assert (exists d', dir_lookup (path_dir newPath) (disk (remove_node oldPath
                       (next_call [] (next_call [] w)))) = Some (RDir d')) as [d' Hd']
    by (apply dir_after_remove; exists d; exact Hd).
  assert (node_at newPath w2 = Some n) as Hnew2
    by (unfold w2; rewrite node_at_emit; apply (node_at_put_eq _ _ _ d'), Hd').
  assert (node_at oldPath w2 = None) as Hold2.
  { unfold w2. rewrite node_at_emit, node_at_put_ne by (apply file_paths_differ, Hne).
    apply node_at_remove_eq. }
  assert (forall f, node_at (getMetadataPath userId f) w2 = node_at (getMetadataPath userId f) w)
    as Hmeta2.
  { intros f. unfold w2. rewrite node_at_emit.
    rewrite node_at_put_ne by (apply meta_path_ne_file; exact Hvn).
    rewrite node_at_remove_ne by (apply meta_path_ne_file; exact Hvo).
    reflexivity. }
  assert (faults w2 = []) as Hf2 by reflexivity.
  assert (publicFilesRegistry w2 = publicFilesRegistry w) as Hreg2 by reflexivity.
  assert (stored_metadata userId oldFilename w2 = stored_metadata userId oldFilename w) as Hst2
    by (unfold stored_metadata; rewrite (Hmeta2 oldFilename); reflexivity).
  clearbody w2.
  unfold bind at 1. unfold try_catch at 1. unfold bind at 1.
  rewrite (getFileMetadata_run userId oldFilename w2 Hf2). cbv beta iota. rewrite Hst2.
  destruct (when_public_set (stored_metadata userId oldFilename w) shared
              {| entry_userId := Some (JString userId); entry_filename := newName |}
              (next_call [] w2) Hshared) as (w3 & Hrun3 & Hf3 & Hn3 & _ & Hreg3).
  cbn [faults next_call] in Hf3.
  assert (publicFilesRegistry w3 =
            publicFilesRegistry
              (match shared with
               | Some publicId =>
                   registry_put publicId
                     {| entry_userId := Some (JString userId); entry_filename := newName |} w
               | None => w
               end)) as Hreg3'.
  { rewrite Hreg3. destruct shared as [[]|]; cbn [registry_put publicFilesRegistry set_registry
      set_otherKeys next_call]; rewrite ?Hreg2; reflexivity. }
  clear Hreg3. rename Hreg3' into Hreg3.
  assert (forall p, node_at p w3 = node_at p w2) as Hn3'
    by (intros p; rewrite Hn3; apply node_at_next_call).
  clear Hn3. rename Hn3' into Hn3.
  unfold bind at 1. rewrite Hrun3. cbv beta iota.
  destruct (node_at oldMeta w) as [[data t|]|] eqn:Hom.
  - (* the sidecar is a file: it moves *)
    rewrite (fs_rename_run oldMeta newMeta w3 (NFile data t) Hf3).
    2: { rewrite Hn3. unfold oldMeta. rewrite Hmeta2. exact Hom. }
    2: { intros E. apply Hne. apply sidecar_name_injective. exact E. }
    2: { rewrite Hn3. unfold newMeta. rewrite Hmeta2. fold newMeta.
         destruct (node_at newMeta w) as [[data' t'|]|] eqn:Hnm;
           [right; eexists; split; reflexivity | contradiction | left; reflexivity]. }
    cbv beta iota. unfold bind, console_log, modify, ret. cbv beta iota.
    eexists. split; [reflexivity|].
    assert (exists d3, dir_lookup (path_dir newMeta) (disk (remove_node oldMeta
                         (next_call [] w3))) = Some (RDir d3)) as [d3 Hd3].
    { apply dir_after_remove. cbn [disk next_call].
      assert (node_at newPath w3 = Some n) as H3 by (rewrite Hn3; exact Hnew2).
      apply (node_at_dir _ _ _ H3). }
    split; [|split; [|split]].
    + rewrite !node_at_emit.
      rewrite node_at_put_ne by (apply file_path_ne_meta; exact Hvn).
      rewrite node_at_remove_ne by (apply file_path_ne_meta; exact Hvn).
      rewrite node_at_next_call, Hn3. exact Hnew2.
    + rewrite !node_at_emit.
      rewrite node_at_put_ne by (apply file_path_ne_meta; exact Hvo).
      rewrite node_at_remove_ne by (apply file_path_ne_meta; exact Hvo).
      rewrite node_at_next_call, Hn3. exact Hold2.
    + intros data0 t0 E. injection E as <- <-. split.
      * rewrite !node_at_emit. apply (node_at_put_eq _ _ _ d3), Hd3.
      * rewrite !node_at_emit.
        rewrite node_at_put_ne by (apply sidecar_paths_differ, Hne).
        apply node_at_remove_eq.
    + cbn [publicFilesRegistry emit put_node remove_node set_disk next_call]. exact Hreg3.
  - (* the sidecar is a directory *)
    destruct (node_at newMeta w) as [[data' t'|]|] eqn:Hnm; [| contradiction |].
    + unfold fs_rename. rewrite (io_run _ _ Hf3), !node_at_next_call, !Hn3.
      unfold oldMeta, newMeta. rewrite !Hmeta2. fold oldMeta newMeta. rewrite Hom, Hnm.
      destruct (str_eqb (path_name oldMeta) (path_name newMeta)) eqn:E.
      { apply str_eqb_eq in E. exfalso. apply Hne, sidecar_name_injective, E. }
      cbn [same_kind]. cbv beta iota.
      unfold bind, console_log, modify, ret. cbv beta iota.
      eexists. split; [reflexivity|]. split; [|split; [|split]].
      * rewrite !node_at_emit, node_at_next_call, Hn3. exact Hnew2.
      * rewrite !node_at_emit, node_at_next_call, Hn3. exact Hold2.
      * intros ? ? E'. discriminate E'.
      * cbn [publicFilesRegistry emit next_call]. exact Hreg3.
    + rewrite (fs_rename_run oldMeta newMeta w3 NDir Hf3).
      2: { rewrite Hn3. unfold oldMeta. rewrite Hmeta2. exact Hom. }
      2: { intros E. apply Hne. apply sidecar_name_injective. exact E. }
      2: { left. rewrite Hn3. unfold newMeta. rewrite Hmeta2. exact Hnm. }
      cbv beta iota. unfold bind, console_log, modify, ret. cbv beta iota.
      eexists. split; [reflexivity|]. split; [|split; [|split]].
      * rewrite !node_at_emit.
        rewrite node_at_put_ne by (apply file_path_ne_meta; exact Hvn).
        rewrite node_at_remove_ne by (apply file_path_ne_meta; exact Hvn).
        rewrite node_at_next_call, Hn3. exact Hnew2.
      * rewrite !node_at_emit.
        rewrite node_at_put_ne by (apply file_path_ne_meta; exact Hvo).
        rewrite node_at_remove_ne by (apply file_path_ne_meta; exact Hvo).
        rewrite node_at_next_call, Hn3. exact Hold2.
      * intros ? ? E'. discriminate E'.
      * cbn [publicFilesRegistry emit put_node remove_node set_disk next_call]. exact Hreg3.
  - (* there is no sidecar *)
    rewrite (fs_rename_missing oldMeta newMeta w3 Hf3)
      by (rewrite Hn3; unfold oldMeta; rewrite Hmeta2; exact Hom).
    cbv beta iota. unfold bind, console_log, modify, ret. cbv beta iota.
    eexists. split; [reflexivity|]. split; [|split; [|split]].
    + rewrite !node_at_emit, node_at_next_call, Hn3. exact Hnew2.
    + rewrite !node_at_emit, node_at_next_call, Hn3. exact Hold2.
    + intros ? ? E'. discriminate E'.
    + cbn [publicFilesRegistry emit next_call]. exact Hreg3.
Qed.

End Rename.




(** ** Listing *)

Lemma fs_stat_disk (p : Path) (w : World) :
  disk (snd (fs_stat p w)) = disk w.
Proof.
  unfold fs_stat, io. destruct (faults w) as [|[|] rest]; try reflexivity;
    rewrite node_at_next_call; destruct (node_at p w) as [[? ?|]|]; reflexivity.
Qed.

Lemma fs_stat_result (p : Path) (w w' : World) (st : Stats) :
  fs_stat p w = (Return st, w') ->
  match node_at p w with
  | Some (NFile data t) => st = {| st_isFile := true; st_size := length data; st_mtime := t |}
  | Some NDir => st_isFile st = false
  | None => False
  end.
Proof.
  unfold fs_stat, io. destruct (faults w) as [|[|] rest]; try discriminate;
    rewrite node_at_next_call; destruct (node_at p w) as [[? ?|]|]; intros H;
    try discriminate H; injection H as <- _; reflexivity.
Qed.

Section Listing.

Context {P : Platform}.

Lemma list_entry_result (userId name : jsstring) (w : World) :
  disk (snd (list_entry userId name w)) = disk w /\
  (forall fd, fst (list_entry userId name w) = Return (Some fd) ->
              fd_name fd = name /\ listed userId w fd) /\
  (forall e, fst (list_entry userId name w) = Throw e ->
             fst (fs_stat (file_path userId name) w) = Throw e \/
             (e = TypeError /\
              exists stats w1 w2,
                fs_stat (file_path userId name) w = (Return stats, w1) /\
                getFileMetadata userId name w1 = (Return JNull, w2))).
Proof.
  unfold list_entry.
  destruct (startsWith name (lit ".") && endsWith name (lit ".meta.json")) eqn:Hside.
  - split; [reflexivity|]. split; intros ? H; discriminate H.
  - unfold bind, lift.
    pose proof (fs_stat_disk (file_path userId name) w) as Hd.
    pose proof (fs_stat_result (file_path userId name) w) as Hst.
    destruct (fs_stat (file_path userId name) w) as [[st|e] w1]; cbn [fst snd] in *.
    + destruct (st_isFile st) eqn:Hfile.
      * destruct (getFileMetadata_total userId name w1) as (m & w2 & Hm & Hd2 & _).
        rewrite Hm.
        assert (m = JNull \/ exists isPublic publicId,
                   property m (lit "isPublic") = Return isPublic /\
                   property m (lit "publicId") = Return publicId) as [->|(o1 & o2 & H1 & H2)]
          by (destruct m; [left; reflexivity|right; eexists _, _; split; reflexivity..]).
        -- cbn [property fst snd]. split; [congruence|].
           split; [intros fd H; discriminate H|].
           intros e H. injection H as <-. right. split; [reflexivity|]. eauto.
        -- rewrite H1, H2. unfold ret. cbn [fst snd]. split; [congruence|].
           split; [|intros e H; discriminate H].
           intros fd H. injection H as <-. cbn [fd_name fd_size fd_modified].
           split; [reflexivity|]. split; [exact Hside|].
           specialize (Hst w1 st eq_refl).
           destruct (node_at (file_path userId name) w) as [[data t|]|] eqn:Hn;
             [|rewrite Hst in Hfile; discriminate Hfile|contradiction].
           exists data, t. subst st. split; [exact Hn | split; reflexivity].
      * unfold ret. cbn [fst snd]. split; [exact Hd|]. split; intros ? H; discriminate H.
    + split; [exact Hd|]. split; [intros ? H; discriminate H|].
      intros ? H. injection H as <-. left. reflexivity.
Qed.

(** A failure to read the sidecar of an entry does not throw: the entry is
    listed with what the default holds. *)
Lemma list_entry_unread_sidecar (userId name : jsstring) (w w1 w2 : World)
    (stats : Stats) (e : Error) :
  startsWith name (lit ".") && endsWith name (lit ".meta.json") = false ->
  fs_stat (file_path userId name) w = (Return stats, w1) -> st_isFile stats = true ->
  fs_readFile (getMetadataPath userId name) w1 = (Throw e, w2) ->
  fst (list_entry userId name w)
  = Return (Some {| fd_name := name; fd_size := st_size stats; fd_modified := st_mtime stats;
                    fd_isPublic := Some (JBool false); fd_publicId := Some JNull |}).
Proof.
  intros Hside Hstat Hfile Hread. unfold list_entry. rewrite Hside.
  unfold bind at 1. rewrite Hstat. cbv beta iota. rewrite Hfile.
  unfold bind at 1. unfold getFileMetadata, try_catch. unfold bind at 1. rewrite Hread.
  reflexivity.
Qed.

Lemma map_all_list_entry (userId : jsstring) (names : list jsstring) (w : World) :
  disk (snd (map_all (list_entry userId) names w)) = disk w /\
  forall details,
    fst (map_all (list_entry userId) names w) = Return details ->
    forall fd, In fd (filter_Boolean details) -> In (fd_name fd) names /\ listed userId w fd.
Proof.
  revert w; induction names as [|name names IH]; intros w.
  - split; [reflexivity|]. intros details H. unfold map_all, ret in H. cbn [fst] in H.
    assert (details = []) as -> by congruence. intros fd [].
  - cbn [map_all]. unfold bind.
    destruct (list_entry_result userId name w) as (Hd & Hok & _).
    destruct (list_entry userId name w) as [[o|e] w1]; cbn [fst snd] in *.
    + destruct (IH w1) as (Hd1 & Hrest).
      destruct (map_all (list_entry userId) names w1) as [[ds|e] w2]; cbn [fst snd] in *.
      * unfold ret. cbv beta iota. cbn [fst snd]. split; [congruence|].
        intros details H. assert (details = o :: ds) as -> by congruence. intros fd Hin.
        unfold filter_Boolean in Hin. cbn [flat_map] in Hin. apply in_app_or in Hin.
        destruct Hin as [Hin|Hin].
        -- destruct o as [fd0|]; [|destruct Hin].
           destruct Hin as [<-|[]]. destruct (Hok fd0 eq_refl) as [Hname Hl].
           split; [left; symmetry; exact Hname | exact Hl].
        -- destruct (Hrest ds eq_refl fd Hin) as [Hin' (Hs & data & t & Hn & Hsz & Hmt)].
           split; [right; exact Hin'|]. split; [exact Hs|].
           exists data, t. rewrite <- (node_at_same_disk _ w w1 Hd). repeat split; assumption.
      * split; [congruence | intros ? H; discriminate H].
    + split; [exact Hd | intros ? H; discriminate H].
Qed.

Lemma fs_mkdir_result (dir : jsstring) (w w1 : World) :
  fs_mkdir_recursive dir w = (Return tt, w1) ->
  disk w1 = disk w \/
  (dir_lookup dir (disk w) = None /\ dir_lookup dir (disk w1) = Some (RDir [])).
Proof.
  unfold fs_mkdir_recursive, io.
  destruct (faults w) as [|[|] rest]; try discriminate; cbn [disk next_call];
    destruct (dir_lookup dir (disk w)) as [[d|]|] eqn:Hd; intros H;
    try discriminate H; injection H as <-; auto;
    right; (split; [reflexivity|]); cbn [disk emit set_disk]; apply dir_lookup_put_eq.
Qed.

Lemma fs_readdir_result (dir : jsstring) (w w2 : World) (names : list jsstring) :
  fs_readdir dir w = (Return names, w2) ->
  disk w2 = disk w /\
  exists d, dir_lookup dir (disk w) = Some (RDir d) /\ names = map fst d.
Proof.
  unfold fs_readdir, io.
  destruct (faults w) as [|[|] rest]; try discriminate; cbn [disk next_call];
    destruct (dir_lookup dir (disk w)) as [[d|]|] eqn:Hd; intros H;
    try discriminate H; injection H as <- <-; (split; [reflexivity|]); eauto.
Qed.

(** The answer of [list] is always a list; every entry of it is a regular
    file of the namespace whose name is not that of a sidecar. *)
Lemma list_files_answer (userId : jsstring) (w : World) :
  exists files w',
    list_files userId w = (Return (json (BFiles files)), w') /\
    forall fd, In fd files -> listed userId w fd.
Proof.
  unfold list_files, try_catch. unfold bind at 1.
  pose proof (fs_mkdir_result (getUserDataDir userId) w) as Hmk.
  destruct (fs_mkdir_recursive (getUserDataDir userId) w) as [[[]|e] w1];
    [|exists [], w1; split; [reflexivity | intros ? []]].
  specialize (Hmk w1 eq_refl). unfold bind at 1.
  pose proof (fs_readdir_result (getUserDataDir userId) w1) as Hrd.
  destruct (fs_readdir (getUserDataDir userId) w1) as [[names|e] w2];
    [|exists [], w2; split; [reflexivity | intros ? []]].
  destruct (Hrd w2 names eq_refl) as (Hd2 & d & Hd & Hnames). unfold bind at 1.
  destruct (map_all_list_entry userId names w2) as (_ & Hall).
  destruct (map_all (list_entry userId) names w2) as [[details|e] w3]; cbn [fst] in Hall;
    [|exists [], w3; split; [reflexivity | intros ? []]].
  unfold ret. eexists _, _. split; [reflexivity|].
  intros fd Hin. destruct (Hall details eq_refl fd Hin) as [Hin' (Hs & data & t & Hn & Hsz & Hmt)].
  destruct Hmk as [Hsame | [_ Hnew]].
  - split; [exact Hs|]. exists data, t.
    rewrite <- (node_at_same_disk _ w w2) by congruence. repeat split; assumption.
  - rewrite Hnew in Hd. injection Hd as <-. subst names. destruct Hin'.
Qed.

(** A call of [list] that throws, be it [mkdir], [readdir] or the [stat] of
    an entry, gives the empty list. *)
Lemma list_files_empty_on_failure (userId : jsstring) (w : World) :
  let dir := getUserDataDir userId in
  let empty := Return (json (BFiles [])) in
  (forall e w1, fs_mkdir_recursive dir w = (Throw e, w1) -> fst (list_files userId w) = empty) /\
  (forall w1 e w2,
      fs_mkdir_recursive dir w = (Return tt, w1) -> fs_readdir dir w1 = (Throw e, w2) ->
      fst (list_files userId w) = empty) /\
  (forall w1 names w2 e w3,
      fs_mkdir_recursive dir w = (Return tt, w1) -> fs_readdir dir w1 = (Return names, w2) ->
      map_all (list_entry userId) names w2 = (Throw e, w3) ->
      fst (list_files userId w) = empty).
Proof.
  intros dir empty. unfold list_files, try_catch, bind. fold dir. repeat split.
  - intros e w1 ->. reflexivity.
  - intros w1 e w2 -> ->. reflexivity.
  - intros w1 names w2 e w3 -> -> ->. reflexivity.
Qed.

Lemma list_files_empty_on_fault (userId : jsstring) (w : World) (rest : list bool) :
  faults w = true :: rest \/ faults w = false :: true :: rest ->
  fst (list_files userId w) = Return (json (BFiles [])).
Proof.
  intros [Hf|Hf]; unfold list_files, try_catch.
  - unfold bind at 1. unfold fs_mkdir_recursive. rewrite (io_fault _ _ _ Hf). reflexivity.
  - unfold bind at 1. unfold fs_mkdir_recursive, io at 1. rewrite Hf.
    destruct (dir_lookup (getUserDataDir userId) (disk (next_call (true :: rest) w)))
      as [[d|]|]; try reflexivity.
Qed.

End Listing.

(** C10, as the server has it.  [list] never reports an error: its answer is
    always a list, whose entries are regular files of the namespace with a
    name that is not a sidecar's.  When [mkdir], [readdir] or an entry
    throws, the answer is the empty list.  An entry throws when its [stat]
    throws, and otherwise only when [getFileMetadata] hands on a sidecar that
    holds [null]; [getFileMetadata] itself always returns, and a failure to
    read the sidecar of an entry is swallowed by it: the entry is listed
    with the fields of the default. *)
Theorem list_files_never_fails {P : Platform} (userId : jsstring) (w : World) :
  (exists files w',
      list_files userId w = (Return (json (BFiles files)), w') /\
      forall fd, In fd files -> listed userId w fd) /\
  (let dir := getUserDataDir userId in
   let empty := Return (json (BFiles [])) in
   (forall e w1,
       fs_mkdir_recursive dir w = (Throw e, w1) -> fst (list_files userId w) = empty) /\
   (forall w1 e w2,
       fs_mkdir_recursive dir w = (Return tt, w1) -> fs_readdir dir w1 = (Throw e, w2) ->
       fst (list_files userId w) = empty) /\
   (forall w1 names w2 e w3,
       fs_mkdir_recursive dir w = (Return tt, w1) ->
       fs_readdir dir w1 = (Return names, w2) ->
       map_all (list_entry userId) names w2 = (Throw e, w3) ->
       fst (list_files userId w) = empty)) /\
  (forall rest,
      faults w = true :: rest \/ faults w = false :: true :: rest ->
      fst (list_files userId w) = Return (json (BFiles []))) /\
  (forall name w0 e,
      fst (list_entry userId name w0) = Throw e ->
      fst (fs_stat (file_path userId name) w0) = Throw e \/
      (e = TypeError /\
       exists stats w1 w2,
         fs_stat (file_path userId name) w0 = (Return stats, w1) /\
         getFileMetadata userId name w1 = (Return JNull, w2))) /\
  (forall name w0, exists m w1, getFileMetadata userId name w0 = (Return m, w1)) /\
  (forall name w0 w1 w2 stats e,
      startsWith name (lit ".") && endsWith name (lit ".meta.json") = false ->
      fs_stat (file_path userId name) w0 = (Return stats, w1) -> st_isFile stats = true ->
      fs_readFile (getMetadataPath userId name) w1 = (Throw e, w2) ->
      fst (list_entry userId name w0)
      = Return (Some {| fd_name := name; fd_size := st_size stats;
                        fd_modified := st_mtime stats;
                        fd_isPublic := Some (JBool false); fd_publicId := Some JNull |})).
Proof.
  split; [apply list_files_answer|]. split; [apply list_files_empty_on_failure|].
  split; [intros rest; apply list_files_empty_on_fault|]. split; [|split].
  - intros name w0. apply (list_entry_result userId name w0).
  - intros name w0. destruct (getFileMetadata_total userId name w0) as (m & w1 & H & _).
    exists m, w1. exact H.
  - intros name w0 w1 w2 stats e. apply list_entry_unread_sidecar.
Qed.

Lemma list_files_never_fails_toy :
  exists entry w',
    list_files (P := Toy.platform) Example.alice Example.shared_world
    = (Return (json (BFiles [entry])), w') /\
    fd_name entry = Example.hello_txt /\
    fd_publicId entry = Some (JString Example.token) /\
    listed (P := Toy.platform) Example.alice Example.shared_world entry.
Proof.
  destruct (proj1 (list_files_never_fails (P := Toy.platform) Example.alice
                     Example.shared_world)) as (files & w' & Hrun & Hall).
  assert (exists entry,
             fst (list_files (P := Toy.platform) Example.alice Example.shared_world)
             = Return (json (BFiles [entry])) /\
             fd_name entry = Example.hello_txt /\
             fd_publicId entry = Some (JString Example.token))
    as (entry & Hfst & Hname & Htoken).
  { eexists. split; [vm_compute; reflexivity|]. split; vm_compute; reflexivity. }
  rewrite Hrun in Hfst. cbn [fst] in Hfst.
  assert (files = [entry]) as -> by (unfold json in Hfst; congruence).
  exists entry, w'. split; [exact Hrun|]. split; [exact Hname|]. split; [exact Htoken|].
  apply Hall. left. reflexivity.
Defined.

(** C10 fails as stated: on a device that fails the fourth call, the one that
    reads the sidecar of [hello.txt], the listing is not empty: the failure is
    swallowed and the file is listed as not public, although its sidecar says
    it is. *)
Lemma list_files_swallows_sidecar_failure :
  faults Example.failing_world = [false; false; false; true] /\
  fst (fs_readFile (getMetadataPath (P := Toy.platform) Example.alice Example.hello_txt)
         Example.failing_world_after_three) = Throw EIO /\
  fst (getFileMetadata (P := Toy.platform) Example.alice Example.hello_txt
         Example.failing_world_after_three) = Return default_metadata /\
  public_token (stored_metadata (P := Toy.platform) Example.alice Example.hello_txt
                  Example.failing_world) = Return (Some (JString Example.token)) /\
  faults (snd (list_files (P := Toy.platform) Example.alice Example.failing_world)) = [] /\
  exists entry,
    fst (list_files (P := Toy.platform) Example.alice Example.failing_world)
    = Return (json (BFiles [entry])) /\
    fd_name entry = Example.hello_txt /\ fd_isPublic entry = Some (JBool false).
Proof.
  split; [reflexivity|]. split; [vm_compute; reflexivity|].
  split; [vm_compute; reflexivity|]. split; [vm_compute; reflexivity|].
  split; [vm_compute; reflexivity|].
  eexists. split; [vm_compute; reflexivity|]. split; vm_compute; reflexivity.
Qed.

(** ** The registry at startup *)

Lemma for_of_throws_first {A : Type} (f : A -> M unit) (x : A) (xs : list A)
    (w w' : World) (e : Error) :
  f x w = (Throw e, w') -> for_of (x :: xs) f w = (Throw e, w').
Proof. intros H. cbn [for_of]. unfold bind. rewrite H. reflexivity. Qed.

Section Startup.

Context {P : Platform}.

Lemma load_file_corrupt (userHash file : jsstring) (w : World) (data : bytes) (t : Z) :
  faults w = [] ->
  node_at {| path_dir := userHash; path_name := file |} w = Some (NFile data t) ->
  endsWith file (lit ".meta.json") = true ->
  JSON_parse (utf8_decode data) = None ->
  load_file userHash file w = (Throw SyntaxError, next_call [] w).
Proof.
  intros Hf Hn Hends Hparse. unfold load_file. rewrite Hends.
  unfold bind at 1. unfold fs_readFile. rewrite (io_run _ _ Hf), node_at_next_call, Hn.
  unfold bind, parse_json. rewrite Hparse. reflexivity.
Qed.

Lemma load_user_corrupt (userHash file : jsstring) (w : World) (data : bytes) (t : Z)
    (rest : Directory) :
  faults w = [] ->
  dir_lookup userHash (disk w) = Some (RDir ((file, NFile data t) :: rest)) ->
  endsWith file (lit ".meta.json") = true ->
  JSON_parse (utf8_decode data) = None ->
  load_user userHash w = (Throw SyntaxError, next_call [] (next_call [] w)).
Proof.
  intros Hf Hd Hends Hparse. unfold load_user. unfold bind at 1.
  unfold fs_readdir. rewrite (io_run _ _ Hf). cbn [disk next_call]. rewrite Hd.
  cbn [map fst]. apply for_of_throws_first.
  apply (load_file_corrupt userHash file (next_call [] w) data t); try assumption.
  - reflexivity.
  - unfold node_at. cbn [disk next_call path_dir path_name]. rewrite Hd.
    cbn [dir_lookup]. rewrite str_eqb_refl. reflexivity.
Qed.

End Startup.

(** C8 against the code.  When the first sidecar that the scan reads is not
    JSON, the scan ends there: the exception leaves both loops, the one
    [catch] around the scan logs it, and the registry is left as it was, so
    no record that the scan had yet to reach is loaded. *)
Theorem load_stops_at_corrupt_sidecar {P : Platform} (w : World)
    (dir name : jsstring) (data : bytes) (t : Z) (rest : Directory)
    (others : list (jsstring * RootEntry)) :
  faults w = [] ->
  disk w = (dir, RDir ((name, NFile data t) :: rest)) :: others ->
  endsWith name (lit ".meta.json") = true ->
  JSON_parse (utf8_decode data) = None ->
  exists w',
    loadPublicFilesRegistry w = (Return tt, w') /\
    publicFilesRegistry w' = publicFilesRegistry w /\
    disk w' = disk w /\
    trace w' = trace w ++ [ConsoleError (lit "Error loading public files registry:")
                             SyntaxError].
Proof.
  intros Hf Hdisk Hends Hparse. unfold loadPublicFilesRegistry.
  unfold try_catch. unfold bind at 1. unfold bind at 1.
  unfold fs_readdir_root. rewrite (io_run _ _ Hf). cbn [disk next_call]. rewrite Hdisk.
  cbn [map fst].
  rewrite (for_of_throws_first load_user dir (map fst others) (next_call [] w)
             (next_call [] (next_call [] (next_call [] w))) SyntaxError).
  - unfold console_error, modify. eexists. split; [reflexivity|].
    split; [reflexivity|]. split; [cbn [disk emit next_call]; exact Hdisk | reflexivity].
  - apply (load_user_corrupt dir name (next_call [] w) data t rest); try assumption.
    + reflexivity.
    + cbn [disk next_call]. rewrite Hdisk. cbn [dir_lookup]. rewrite str_eqb_refl. reflexivity.
Qed.

Lemma load_stops_at_corrupt_sidecar_toy :
  faults Example.corrupt_restart_world = [] /\
  publicFilesRegistry Example.corrupt_restart_world = ∅ /\
  endsWith Example.corrupt_sidecar (lit ".meta.json") = true /\
  JSON_parse (Platform := Toy.platform) (utf8_decode []) = None /\
  public_token (stored_metadata (P := Toy.platform) Example.alice Example.hello_txt
                  Example.corrupt_restart_world) = Return (Some (JString Example.token)) /\
  (exists w',
      loadPublicFilesRegistry (P := Toy.platform) Example.corrupt_restart_world
      = (Return tt, w') /\
      publicFilesRegistry w' !! Example.token = None) /\
  publicFilesRegistry
    (snd (loadPublicFilesRegistry (P := Toy.platform) Example.restart_world))
    !! Example.token
  = Some {| entry_userId := Some (JString Example.alice); entry_filename := Example.hello_txt |}.
Proof.
  split; [reflexivity|]. split; [reflexivity|]. split; [reflexivity|].
  split; [reflexivity|]. split; [vm_compute; reflexivity|]. split.
  - destruct (load_stops_at_corrupt_sidecar (P := Toy.platform) Example.corrupt_restart_world
                (lit "0000000000000000") Example.corrupt_sidecar [] 0 []
                (disk Example.shared_world) eq_refl eq_refl eq_refl eq_refl)
      as (w' & Hrun & Hreg & _).
    exists w'. split; [exact Hrun|]. rewrite Hreg. reflexivity.
  - vm_compute. reflexivity.
Defined.

(** The scan takes every name that ends in [.meta.json] for a sidecar, also
    the file a user saved under such a name: its content is base64 text, and
    the scan ends there. *)
Lemma load_stops_at_user_file_named_like_sidecar :
  isValidFilename (VString Example.notes_meta_json) = true /\
  faults Example.api_restart_world = [] /\
  map fst (disk Example.api_restart_world)
  = [getUserDataDir (P := Toy.platform) Example.bob;
     getUserDataDir (P := Toy.platform) Example.alice] /\
  public_token (stored_metadata (P := Toy.platform) Example.alice Example.hello_txt
                  Example.api_restart_world) = Return (Some (JString Example.token)) /\
  publicFilesRegistry
    (snd (loadPublicFilesRegistry (P := Toy.platform) Example.api_restart_world))
    !! Example.token = None /\
  trace (snd (loadPublicFilesRegistry (P := Toy.platform) Example.api_restart_world))
  = trace Example.api_restart_world
      ++ [ConsoleError (lit "Error loading public files registry:") SyntaxError].
Proof.
  split; [reflexivity|]. split; [reflexivity|]. split; [vm_compute; reflexivity|].
  split; [vm_compute; reflexivity|]. split; vm_compute; reflexivity.
Qed.

(** ** Saving and reading back *)

Lemma fs_mkdir_run (dir : jsstring) (w : World) :
  faults w = [] -> dir_lookup dir (disk w) <> Some RFile ->
  exists w1,
    fs_mkdir_recursive dir w = (Return tt, w1) /\
    faults w1 = [] /\ entropy w1 = entropy w /\
    (exists d, dir_lookup dir (disk w1) = Some (RDir d)) /\
    (forall name, node_at {| path_dir := dir; path_name := name |} w1
                  = node_at {| path_dir := dir; path_name := name |} w).
Proof.
  intros Hf Hd. unfold fs_mkdir_recursive. rewrite (io_run _ _ Hf). cbn [disk next_call].
  destruct (dir_lookup dir (disk w)) as [[d|]|] eqn:E; [| contradiction |].
  - eexists. split; [reflexivity|]. split; [reflexivity|]. split; [reflexivity|].
    split; [exists d; exact E | reflexivity].
  - eexists. split; [reflexivity|]. split; [reflexivity|]. split; [reflexivity|]. split.
    + exists []. cbn [disk emit set_disk]. apply dir_lookup_put_eq.
    + intros name. unfold node_at. cbn [disk emit set_disk next_call path_dir path_name].
      rewrite dir_lookup_put_eq, E. reflexivity.
Qed.

Section SaveRead.

Context {P : Platform}.

Lemma save_file_run (userId filename text : jsstring) (w : World) :
  faults w = [] -> isValidFilename (VString filename) = true ->
  (Z.of_nat (length text) <= MAX_FILE_SIZE)%Z ->
  dir_lookup (getUserDataDir userId) (disk w) <> Some RFile ->
  node_at (file_path userId filename) w <> Some NDir ->
  exists w' t,
    save_file userId filename (VString text) w = (Return (json (BSaved filename)), w') /\
    faults w' = [] /\
    node_at (file_path userId filename) w'
    = Some (NFile (utf8_encode (base64_encode (sealed userId (next_salt w) (next_iv w) text))) t).
Proof.
  intros Hf Hv Hsize Hdir Hnode. unfold save_file. rewrite Hv. cbn [negb].
  destruct (Z.ltb_spec MAX_FILE_SIZE (Z.of_nat (length text))) as [Hbig|_]; [lia|].
  unfold try_catch. unfold bind at 1.
  destruct (fs_mkdir_run (getUserDataDir userId) w Hf Hdir)
    as (w1 & Hmk & Hf1 & He1 & Hd1 & Hn1).
  rewrite Hmk. cbv beta iota. unfold bind at 1. rewrite encrypt_run. cbv beta iota.
  unfold next_salt, next_iv. rewrite He1. fold (next_salt w) (next_iv w).
  set (blob := base64_encode (sealed userId (next_salt w) (next_iv w) text)).
  set (w2 := set_entropy _ _).
  assert (faults w2 = []) as Hf2 by exact Hf1.
  unfold bind at 1.
  rewrite (fs_writeFile_run (file_path userId filename) blob w2 Hf2).
  - cbv beta iota. unfold bind, console_log, modify, ret. cbv beta iota.
    eexists _, _. split; [reflexivity|]. split; [reflexivity|].
    rewrite !node_at_emit. destruct Hd1 as [d Hd1].
    apply (node_at_put_eq _ _ _ d). exact Hd1.
  - exact Hd1.
  - unfold w2. rewrite !node_at_set_entropy. unfold file_path. rewrite Hn1. exact Hnode.
Qed.

End SaveRead.

(** What was saved is what is read.  With a working device, a valid name and
    a well-formed content within the size limit, [save] answers with success
    and a [read] that follows returns the content. *)
Theorem save_then_read {P : Platform} (L : PlatformLaws P)
    (userId filename text : jsstring) (w : World) :
  faults w = [] -> isValidFilename (VString filename) = true ->
  well_formed text = true -> (Z.of_nat (length text) <= MAX_FILE_SIZE)%Z ->
  dir_lookup (getUserDataDir userId) (disk w) <> Some RFile ->
  node_at (file_path userId filename) w <> Some NDir ->
  exists w',
    save_file userId filename (VString text) w = (Return (json (BSaved filename)), w') /\
    fst (read_file userId filename w') = Return (json (BFile filename text)).
Proof.
  intros Hf Hv Hwf Hsize Hdir Hnode.
  destruct (save_file_run userId filename text w Hf Hv Hsize Hdir Hnode)
    as (w' & t & Hrun & Hf' & Hn').
  exists w'. split; [exact Hrun|].
  rewrite (read_file_run userId filename w' Hf' Hv), Hn'.
  rewrite base64_text_utf8
    by (apply (sealed_bytes L); apply take_bytes_bytes).
  rewrite (decrypt_sealed_text L)
    by (first [apply take_bytes_length | apply take_bytes_bytes
              | apply utf8_encode_bytes; exact Hwf]).
  rewrite (utf8_decode_encode text Hwf). reflexivity.
Qed.

Lemma save_then_read_toy :
  exists w',
    save_file (P := Toy.platform) Example.alice Example.hello_txt (VString (lit "hi"))
      Example.empty_world = (Return (json (BSaved Example.hello_txt)), w') /\
    fst (read_file (P := Toy.platform) Example.alice Example.hello_txt w')
    = Return (json (BFile Example.hello_txt (lit "hi"))).
Proof.
  apply (save_then_read toy_laws Example.alice Example.hello_txt (lit "hi")
           Example.empty_world eq_refl eq_refl eq_refl).
  - discriminate.
  - vm_compute. discriminate.
  - vm_compute. discriminate.
Defined.

(** ** Rebuilding the registry *)

Lemma register_all_lookup (found : list (json_value * PublicEntry))
    (registry : gmap jsstring PublicEntry) (token : jsstring) (entry : PublicEntry) :
  registry !! token = Some entry \/ In (JString token, entry) found ->
  (forall entry', In (JString token, entry') found -> entry' = entry) ->
  register_all found registry !! token = Some entry.
Proof.
  revert registry. induction found as [|[k1 e1] found IH]; intros registry Hin Hsame.
  - destruct Hin as [H|[]]. exact H.
  - cbn [register_all fold_left fst snd]. apply IH.
    + destruct Hin as [H|[H|H]]; [|injection H as -> ->; left; apply lookup_insert_eq
                                  |right; exact H].
      destruct k1 as [|b|x|t1|items|fields]; try (left; exact H).
      destruct (decide (t1 = token)) as [->|Hne].
      * left. rewrite (Hsame e1 (or_introl eq_refl)). apply lookup_insert_eq.
      * left. rewrite lookup_insert_ne by exact Hne. exact H.
    + intros entry' H. apply Hsame. right. exact H.
Qed.

Lemma register_all_app (a b : list (json_value * PublicEntry))
    (registry : gmap jsstring PublicEntry) :
  register_all (a ++ b) registry = register_all b (register_all a registry).
Proof. unfold register_all. apply fold_left_app. Qed.

Lemma register_others_app (a b : list (json_value * PublicEntry))
    (others : list (json_value * PublicEntry)) :
  register_others (a ++ b) others = register_others b (register_others a others).
Proof. unfold register_others. apply fold_left_app. Qed.

(** One entry registered: the two halves of the registry after [set]. *)
Lemma register_one (publicId : json_value) (entry : PublicEntry) (w : World) :
  publicFilesRegistry (registry_put publicId entry w)
  = register_all [(publicId, entry)] (publicFilesRegistry w) /\
  otherKeys (registry_put publicId entry w)
  = register_others [(publicId, entry)] (otherKeys w).
Proof. destruct publicId; split; reflexivity. Qed.

Section Rebuild.

Context {P : Platform}.

Lemma scanned_entry_same_disk (userHash file : jsstring) (w w' : World) :
  disk w' = disk w -> scanned_entry userHash file w' = scanned_entry userHash file w.
Proof.
  intros H. unfold scanned_entry. rewrite (node_at_same_disk _ w w' H). reflexivity.
Qed.

Lemma scan_names_same_disk (userHash : jsstring) (files : list jsstring) (w w' : World) :
  disk w' = disk w -> scan_names userHash w' files = scan_names userHash w files.
Proof.
  intros H. unfold scan_names. apply flat_map_ext. intros file.
  rewrite (scanned_entry_same_disk userHash file w w' H). reflexivity.
Qed.

Lemma scan_user_same_disk (userHash : jsstring) (w w' : World) :
  disk w' = disk w -> scan_user w' userHash = scan_user w userHash.
Proof.
  intros H. unfold scan_user. rewrite H.
  destruct (dir_lookup userHash (disk w)) as [[d|]|]; try reflexivity.
  apply scan_names_same_disk. exact H.
Qed.

Lemma load_file_run (userHash file : jsstring) (w : World) :
  faults w = [] -> readable_entry userHash file w ->
  exists w',
    load_file userHash file w = (Return tt, w') /\
    faults w' = [] /\ disk w' = disk w /\
    publicFilesRegistry w' =
      register_all (scan_names userHash w [file]) (publicFilesRegistry w) /\
    otherKeys w' = register_others (scan_names userHash w [file]) (otherKeys w).
Proof.
  intros Hf Hread. unfold load_file, readable_entry, scan_names, scanned_entry in *.
  cbn [flat_map]. rewrite app_nil_r.
  destruct (endsWith file (lit ".meta.json")).
  - destruct (Hread eq_refl) as (data & t & meta & Hn & Hparse & Hnull).
    unfold bind at 1. unfold fs_readFile. rewrite (io_run _ _ Hf), node_at_next_call, Hn.
    unfold bind at 1. unfold parse_json. rewrite Hparse. unfold ret at 1.
    destruct (public_token_returns meta Hnull) as [shared Hshared].
    unfold bind at 1. unfold lift at 1. rewrite Hshared. cbv beta iota.
    destruct shared as [publicId|].
    + destruct (public_token_object _ _ Hshared) as (fields & -> & _).
      cbn [property]. unfold bind, lift, registry_set, modify. cbv beta iota.
      eexists. split; [reflexivity|].
      cbn [faults disk publicFilesRegistry otherKeys emit].
      rewrite faults_registry_put, disk_registry_put.
      split; [reflexivity|]. split; [reflexivity|].
      exact (register_one publicId _ (next_call [] w)).
    + eexists. split; [reflexivity|]. repeat split.
  - eexists. split; [reflexivity|]. repeat split; assumption.
Qed.

Lemma load_files_run (userHash : jsstring) (files : list jsstring) (w : World) :
  faults w = [] -> (forall file, In file files -> readable_entry userHash file w) ->
  exists w',
    for_of files (load_file userHash) w = (Return tt, w') /\
    faults w' = [] /\ disk w' = disk w /\
    publicFilesRegistry w' =
      register_all (scan_names userHash w files) (publicFilesRegistry w) /\
    otherKeys w' = register_others (scan_names userHash w files) (otherKeys w).
Proof.
  revert w; induction files as [|file files IH]; intros w Hf Hread.
  - exists w. repeat split; assumption.
  - destruct (load_file_run userHash file w Hf (Hread file (or_introl eq_refl)))
      as (w1 & Hrun1 & Hf1 & Hd1 & Hr1 & Ho1).
    assert (forall f, In f files -> readable_entry userHash f w1) as Hread1.
    { intros f Hin Hends. destruct (Hread f (or_intror Hin) Hends) as (data & t & m & Hn & Hp).
      exists data, t, m. rewrite (node_at_same_disk _ w w1 Hd1). split; assumption. }
    destruct (IH w1 Hf1 Hread1) as (w2 & Hrun2 & Hf2 & Hd2 & Hr2 & Ho2).
    exists w2. cbn [for_of]. unfold bind. rewrite Hrun1, Hrun2.
    split; [reflexivity|]. split; [exact Hf2|]. split; [congruence|].
    rewrite Hr2, Hr1, Ho2, Ho1, (scan_names_same_disk userHash files w w1 Hd1).
    rewrite <- register_all_app, <- register_others_app.
    unfold scan_names. cbn [flat_map]. rewrite app_nil_r. split; reflexivity.
Qed.

Lemma load_user_run (userHash : jsstring) (w : World) (d : Directory) :
  faults w = [] -> dir_lookup userHash (disk w) = Some (RDir d) ->
  (forall file, In file (map fst d) -> readable_entry userHash file w) ->
  exists w',
    load_user userHash w = (Return tt, w') /\
    faults w' = [] /\ disk w' = disk w /\
    publicFilesRegistry w' = register_all (scan_user w userHash) (publicFilesRegistry w) /\
    otherKeys w' = register_others (scan_user w userHash) (otherKeys w).
Proof.
  intros Hf Hd Hread. unfold load_user. unfold bind.
  unfold fs_readdir. rewrite (io_run _ _ Hf). cbn [disk next_call]. rewrite Hd.
  destruct (load_files_run userHash (map fst d) (next_call [] w) eq_refl Hread)
    as (w' & Hrun & Hf' & Hd' & Hr' & Ho').
  exists w'. rewrite Hrun. split; [reflexivity|]. split; [exact Hf'|]. split; [exact Hd'|].
  rewrite Hr', Ho'. unfold scan_user. rewrite Hd. split; reflexivity.
Qed.

Lemma load_users_run (users : list jsstring) (w : World) :
  faults w = [] ->
  (forall userHash, In userHash users ->
     exists d, dir_lookup userHash (disk w) = Some (RDir d) /\
               forall file, In file (map fst d) -> readable_entry userHash file w) ->
  exists w',
    for_of users load_user w = (Return tt, w') /\
    faults w' = [] /\ disk w' = disk w /\
    publicFilesRegistry w' =
      register_all (flat_map (scan_user w) users) (publicFilesRegistry w) /\
    otherKeys w' = register_others (flat_map (scan_user w) users) (otherKeys w).
Proof.
  revert w; induction users as [|userHash users IH]; intros w Hf Hok.
  - exists w. repeat split; assumption.
  - destruct (Hok userHash (or_introl eq_refl)) as (d & Hd & Hread).
    destruct (load_user_run userHash w d Hf Hd Hread)
      as (w1 & Hrun1 & Hf1 & Hd1 & Hr1 & Ho1).
    assert (forall u, In u users ->
              exists d', dir_lookup u (disk w1) = Some (RDir d') /\
                         forall file, In file (map fst d') -> readable_entry u file w1)
      as Hok1.
    { intros u Hin. destruct (Hok u (or_intror Hin)) as (d' & Hd' & Hread').
      exists d'. rewrite Hd1. split; [exact Hd'|].
      intros file Hfile Hends. destruct (Hread' file Hfile Hends) as (data & t & m & Hn & Hp).
      exists data, t, m. rewrite (node_at_same_disk _ w w1 Hd1). split; assumption. }
    destruct (IH w1 Hf1 Hok1) as (w2 & Hrun2 & Hf2 & Hd2 & Hr2 & Ho2).
    exists w2. cbn [for_of]. unfold bind. rewrite Hrun1, Hrun2.
    split; [reflexivity|]. split; [exact Hf2|]. split; [congruence|].
    rewrite Hr2, Hr1, Ho2, Ho1. cbn [flat_map].
    rewrite register_all_app, register_others_app.
    assert (flat_map (scan_user w1) users = flat_map (scan_user w) users) as ->
      by (apply flat_map_ext; intros u; apply scan_user_same_disk; exact Hd1).
    split; reflexivity.
Qed.

Lemma loadPublicFilesRegistry_run (w : World) :
  faults w = [] -> scannable w ->
  exists w',
    loadPublicFilesRegistry w = (Return tt, w') /\
    disk w' = disk w /\
    publicFilesRegistry w' = register_all (scan_disk w) (publicFilesRegistry w) /\
    otherKeys w' = register_others (scan_disk w) (otherKeys w).
Proof.
  intros Hf Hscan. unfold loadPublicFilesRegistry, try_catch. unfold bind at 1.
  unfold fs_readdir_root. rewrite (io_run _ _ Hf). cbn [disk next_call].
  destruct (load_users_run (map fst (disk w)) (next_call [] w) eq_refl Hscan)
    as (w1 & Hrun & Hf1 & Hd1 & Hr1 & Ho1).
  unfold bind at 1. rewrite Hrun. unfold bind, get_world, console_log, modify.
  eexists. split; [reflexivity|]. split; [exact Hd1|].
  cbn [publicFilesRegistry otherKeys emit]. rewrite Hr1, Ho1. split; reflexivity.
Qed.

Lemma in_scan_disk (w : World) (userHash file : jsstring) (d : Directory)
    (found : json_value * PublicEntry) :
  dir_lookup userHash (disk w) = Some (RDir d) -> In file (map fst d) ->
  scanned_entry userHash file w = Some found ->
  In found (scan_disk w).
Proof.
  intros Hd Hfile Hfound. unfold scan_disk. apply in_flat_map.
  exists userHash. split; [apply (dir_lookup_In _ _ _ Hd)|].
  unfold scan_user. rewrite Hd. unfold scan_names. apply in_flat_map.
  exists file. split; [exact Hfile|]. rewrite Hfound. left. reflexivity.
Qed.

Lemma scan_disk_in (w : World) (found : json_value * PublicEntry) :
  In found (scan_disk w) ->
  exists userHash d file,
    dir_lookup userHash (disk w) = Some (RDir d) /\ In file (map fst d) /\
    scanned_entry userHash file w = Some found.
Proof.
  unfold scan_disk. intros H. apply in_flat_map in H as (userHash & _ & H).
  unfold scan_user in H.
  destruct (dir_lookup userHash (disk w)) as [[d|]|] eqn:Hd; try destruct H.
  unfold scan_names in H. apply in_flat_map in H as (file & Hfile & H).
  destruct (scanned_entry userHash file w) as [te|] eqn:Hs; [|destruct H].
  destruct H as [<-|[]]. exists userHash, d, file. repeat split; assumption.
Qed.

Lemma endsWith_sidecar_name (filename : jsstring) :
  endsWith (sidecar_name filename) (lit ".meta.json") = true.
Proof.
  unfold endsWith, sidecar_name. rewrite !length_app.
  change (length (lit ".meta.json")) with 10%nat. change (length (lit ".")) with 1%nat.
  apply andb_true_iff. split; [apply Nat.leb_le; lia|].
  replace (1 + (length filename + 10) - 10)%nat with (length (lit "." ++ filename))
    by (rewrite length_app; change (length (lit ".")) with 1%nat; lia).
  rewrite app_assoc, skipn_app, Nat.sub_diag, skipn_all. apply str_eqb_refl.
Qed.

Lemma slice_sidecar_name (filename : jsstring) :
  slice_from_to_end_minus 1 10 (sidecar_name filename) = filename.
Proof.
  unfold slice_from_to_end_minus, sidecar_name. rewrite !length_app.
  change (length (lit ".meta.json")) with 10%nat. change (length (lit ".")) with 1%nat.
  replace (1 + (length filename + 10) - 10)%nat with (length (lit "." ++ filename))
    by (rewrite length_app; change (length (lit ".")) with 1%nat; lia).
  rewrite app_assoc, firstn_app, Nat.sub_diag, firstn_all. cbn [firstn].
  rewrite app_nil_r. reflexivity.
Qed.

(** The scan reads the sidecar of a public file as that file: its token, the
    identity the sidecar holds and the filename. *)
Lemma scanned_entry_of_sidecar (userId filename : jsstring) (publicId : json_value)
    (owner : option json_value) (w : World) :
  public_token (stored_metadata userId filename w) = Return (Some publicId) ->
  property (stored_metadata userId filename w) (lit "userId") = Return owner ->
  scanned_entry (getUserDataDir userId) (sidecar_name filename) w
  = Some (publicId, {| entry_userId := owner; entry_filename := filename |}).
Proof.
  unfold stored_metadata, scanned_entry, getMetadataPath.
  rewrite endsWith_sidecar_name, slice_sidecar_name.
  destruct (node_at _ w) as [[data t|]|]; try discriminate.
  destruct (JSON_parse (utf8_decode data)) as [m|]; [|discriminate].
  intros -> ->. reflexivity.
Qed.

End Rebuild.

(** Restart recovery.  On a disk that the scan can read (every entry of the
    root is a directory and every name ending in [.meta.json] holds JSON
    other than [null]), the server starts with an empty registry and
    rebuilds it: a file whose sidecar is public, names the owner, and is the
    only sidecar with its token, resolves again to its owner and filename. *)
Theorem restart_recovery {P : Platform} (userId filename token : jsstring) (w : World) :
  faults w = [] -> scannable w ->
  public_token (stored_metadata userId filename w) = Return (Some (JString token)) ->
  property (stored_metadata userId filename w) (lit "userId")
  = Return (Some (JString userId)) ->
  PUBLIC_ID_REGEX_test token = true ->
  (forall userHash d file entry,
      dir_lookup userHash (disk w) = Some (RDir d) -> In file (map fst d) ->
      scanned_entry userHash file w = Some (JString token, entry) ->
      entry = {| entry_userId := Some (JString userId); entry_filename := filename |}) ->
  exists w',
    loadPublicFilesRegistry (set_otherKeys [] (set_registry ∅ w)) = (Return tt, w') /\
    disk w' = disk w /\
    fst (resolvePublic token w')
    = Return (Resolved {| entry_userId := Some (JString userId); entry_filename := filename |}).
Proof.
  intros Hf Hscan Ht Hu Hre Hunique.
  destruct (loadPublicFilesRegistry_run (set_otherKeys [] (set_registry ∅ w)) Hf Hscan)
    as (w' & Hrun & Hd & Hr & _).
  exists w'. split; [exact Hrun|]. split; [exact Hd|].
  apply resolvePublic_registered; [exact Hre|]. rewrite Hr.
  pose proof (scanned_entry_of_sidecar userId filename _ _ w Ht Hu) as Hs.
  assert (exists d, dir_lookup (getUserDataDir userId) (disk w) = Some (RDir d) /\
                    In (sidecar_name filename) (map fst d)) as (d & Hdir & Hin).
  { unfold stored_metadata, node_at in Ht. cbn [getMetadataPath path_dir path_name] in Ht.
    destruct (dir_lookup (getUserDataDir userId) (disk w)) as [[d|]|]; try discriminate Ht.
    exists d. split; [reflexivity|].
    destruct (dir_lookup (sidecar_name filename) d) as [n|] eqn:Hn; [|discriminate Ht].
    apply (dir_lookup_In _ _ _ Hn). }
  apply register_all_lookup.
  - right.
    apply (in_scan_disk (set_otherKeys [] (set_registry ∅ w)) (getUserDataDir userId)
             (sidecar_name filename) d); assumption.
  - intros entry' Hin'. apply scan_disk_in in Hin' as (u' & d' & f' & Hd' & Hf' & Hs').
    apply (Hunique u' d' f' entry' Hd' Hf' Hs').
Qed.

Lemma restart_recovery_toy :
  exists w',
    loadPublicFilesRegistry (P := Toy.platform)
      (set_otherKeys [] (set_registry ∅ Example.shared_world))
    = (Return tt, w') /\
    disk w' = disk Example.shared_world /\
    fst (resolvePublic Example.token w')
    = Return (Resolved {| entry_userId := Some (JString Example.alice);
                          entry_filename := Example.hello_txt |}).
Proof.
  apply (restart_recovery (P := Toy.platform) Example.alice Example.hello_txt Example.token
           Example.shared_world eq_refl).
  - intros userHash Hin. vm_compute in Hin. destruct Hin as [<-|[]].
    eexists. split; [vm_compute; reflexivity|].
    intros file Hfile. vm_compute in Hfile. destruct Hfile as [<-|[<-|[]]].
    + intros Hends. vm_compute in Hends. discriminate Hends.
    + intros _. eexists _, _, _.
      split; [vm_compute; reflexivity|]. split; [vm_compute; reflexivity|]. discriminate.
  - vm_compute. reflexivity.
  - vm_compute. reflexivity.
  - vm_compute. reflexivity.
  - intros userHash d file entry Hd Hfile Hs.
    assert (In (JString Example.token, entry)
              (scan_disk (P := Toy.platform) Example.shared_world))
      as Hin by (apply (in_scan_disk _ userHash file d); assumption).
    vm_compute in Hin. destruct Hin as [Hin|[]]. injection Hin as <-. reflexivity.
Defined.

(** Every token that [share] mints has the format the public lookup asks
    for: 32 characters, each a digit or a letter from [a] to [f]. *)
Theorem generatePublicId_format {P : Platform} (w : World) :
  exists token w',
    generatePublicId w = (Return token, w') /\
    length token = 32%nat /\
    PUBLIC_ID_REGEX_test token = true /\
    Regex.matches PUBLIC_ID_REGEX token.
Proof.
  unfold generatePublicId, randomBytes, bind, ret. eexists _, _. split; [reflexivity|].
  split; [rewrite hex_encode_length, take_bytes_length; reflexivity|].
  split; [apply generated_token|].
  apply PUBLIC_ID_REGEX_test_matches, generated_token.
Qed.

(** ** What the handlers may touch *)

Section Keeps.

Context {R : World -> World -> Prop} `{!PreOrder R}.

Lemma keeps_ret {A : Type} (a : A) : keeps R (ret a).
Proof. intros w. reflexivity. Qed.

Lemma keeps_throw {A : Type} (e : Error) : keeps R (throw (A := A) e).
Proof. intros w. reflexivity. Qed.

Lemma keeps_lift {A : Type} (o : Outcome A) : keeps R (lift o).
Proof. intros w. reflexivity. Qed.

Lemma keeps_get_world : keeps R get_world.
Proof. intros w. reflexivity. Qed.

Lemma keeps_bind {A B : Type} (m : M A) (k : A -> M B) :
  keeps R m -> (forall a, keeps R (k a)) -> keeps R (bind m k).
Proof.
  intros Hm Hk w. unfold bind. specialize (Hm w).
  destruct (m w) as [[a|e] w1]; cbn [snd] in *; [|exact Hm].
  transitivity w1; [exact Hm | apply Hk].
Qed.

Lemma keeps_try_catch {A : Type} (body : M A) (handler : Error -> M A) :
  keeps R body -> (forall e, keeps R (handler e)) -> keeps R (try_catch body handler).
Proof.
  intros Hm Hk w. unfold try_catch. specialize (Hm w).
  destruct (body w) as [[a|e] w1]; cbn [snd] in *; [exact Hm|].
  transitivity w1; [exact Hm | apply Hk].
Qed.

Lemma keeps_for_of {A : Type} (f : A -> M unit) (xs : list A) :
  (forall x, keeps R (f x)) -> keeps R (for_of xs f).
Proof.
  intros Hf. induction xs as [|x xs IH]; cbn [for_of]; [apply keeps_ret|].
  apply keeps_bind; [apply Hf | intros _; exact IH].
Qed.

Lemma keeps_map_all {A B : Type} (f : A -> M B) (xs : list A) :
  (forall x, keeps R (f x)) -> keeps R (map_all f xs).
Proof.
  intros Hf. induction xs as [|x xs IH]; cbn [map_all]; [apply keeps_ret|].
  apply keeps_bind; [apply Hf | intros y].
  apply keeps_bind; [exact IH | intros ys; apply keeps_ret].
Qed.

Lemma keeps_io {A : Type} (op : M A) :
  (forall f w, R w (next_call f w)) -> keeps R op -> keeps R (io op).
Proof.
  intros Hn Hop w. unfold io. destruct (faults w) as [|[|] rest]; cbn [snd].
  - transitivity (next_call [] w); [apply Hn | apply Hop].
  - apply Hn.
  - transitivity (next_call rest w); [apply Hn | apply Hop].
Qed.

Lemma keeps_weaken {A : Type} (R0 : World -> World -> Prop) (m : M A) :
  (forall w w', R0 w w' -> R w w') -> keeps R0 m -> keeps R m.
Proof. intros H Hm w. apply H, Hm. Qed.

End Keeps.

#[global] Instance same_disk_preorder : PreOrder same_disk.
Proof.
  split; [intros w; reflexivity|].
  intros a b c Hab Hbc. unfold same_disk in *. congruence.
Qed.

#[global] Instance same_registry_preorder : PreOrder same_registry.
Proof.
  split; [intros w; split; reflexivity|].
  intros a b c [Hab1 Hab2] [Hbc1 Hbc2]. split; congruence.
Qed.

#[global] Instance touches_only_preorder (dir : jsstring) (names : list jsstring) :
  PreOrder (touches_only dir names).
Proof.
  split.
  - intros w. split; reflexivity.
  - intros a b c [Hab1 Hab2] [Hbc1 Hbc2]. split.
    + intros d Hd. rewrite (Hbc1 d Hd). apply Hab1, Hd.
    + intros name Hn. rewrite (Hbc2 name Hn). apply Hab2, Hn.
Qed.

#[global] Instance registry_shrinks_preorder : PreOrder registry_shrinks.
Proof.
  split; [intros w token entry H; exact H|].
  intros a b c Hab Hbc token entry H. apply Hab, Hbc, H.
Qed.

#[global] Instance registry_grows_for_preorder {P : Platform} (userId : jsstring) :
  PreOrder (registry_grows_for userId).
Proof.
  split; [intros w token entry H; left; exact H|].
  intros a b c Hab Hbc token entry H.
  destruct (Hbc token entry H) as [H'|H']; [apply Hab, H' | right; exact H'].
Qed.

Lemma same_disk_touches_only (dir : jsstring) (names : list jsstring) (w w' : World) :
  same_disk w w' -> touches_only dir names w w'.
Proof.
  unfold same_disk, touches_only, node_at. intros ->. split; reflexivity.
Qed.

Lemma same_registry_shrinks (w w' : World) : same_registry w w' -> registry_shrinks w w'.
Proof. unfold same_registry, registry_shrinks. intros [-> _]. auto. Qed.

Lemma registry_shrinks_grows {P : Platform} (userId : jsstring) (w w' : World) :
  registry_shrinks w w' -> registry_grows_for userId w w'.
Proof. intros H token entry Hl. left. apply H, Hl. Qed.

(** The calls that leave the disk as it is, and those that leave the
    registry as it is. *)
Ltac keeps_call :=
  intros w;
  repeat match goal with
    | |- context [io _ w] => unfold io; destruct (faults w) as [|[|] ?]
    end;
  cbn [snd fst];
  repeat match goal with
    | |- context [match ?x with _ => _ end] => destruct x
    end;
  cbn [snd fst]; first [reflexivity | split; reflexivity].

Lemma fs_readFile_same_disk (p : Path) : keeps same_disk (fs_readFile p).
Proof. unfold fs_readFile. keeps_call. Qed.
Lemma fs_access_same_disk (p : Path) : keeps same_disk (fs_access p).
Proof. unfold fs_access. keeps_call. Qed.
Lemma fs_stat_same_disk (p : Path) : keeps same_disk (fs_stat p).
Proof. unfold fs_stat. keeps_call. Qed.
Lemma fs_readdir_same_disk (dir : jsstring) : keeps same_disk (fs_readdir dir).
Proof. unfold fs_readdir. keeps_call. Qed.
Lemma fs_readdir_root_same_disk : keeps same_disk fs_readdir_root.
Proof. unfold fs_readdir_root. keeps_call. Qed.
Lemma console_log_same_disk (line : jsstring) : keeps same_disk (console_log line).
Proof. intros w. reflexivity. Qed.
Lemma console_error_same_disk (line : jsstring) (e : Error) :
  keeps same_disk (console_error line e).
Proof. intros w. reflexivity. Qed.
Lemma registry_set_same_disk (k : json_value) (e : PublicEntry) :
  keeps same_disk (registry_set k e).
Proof. intros w. destruct k; reflexivity. Qed.
Lemma registry_delete_same_disk (k : json_value) : keeps same_disk (registry_delete k).
Proof. intros w. destruct k; reflexivity. Qed.
Lemma registry_get_same_disk (k : jsstring) : keeps same_disk (registry_get k).
Proof. intros w. reflexivity. Qed.
Lemma randomBytes_same_disk (n : nat) : keeps same_disk (randomBytes n).
Proof. intros w. reflexivity. Qed.

Lemma fs_readFile_same_registry (p : Path) : keeps same_registry (fs_readFile p).
Proof. unfold fs_readFile. keeps_call. Qed.
Lemma fs_access_same_registry (p : Path) : keeps same_registry (fs_access p).
Proof. unfold fs_access. keeps_call. Qed.
Lemma fs_stat_same_registry (p : Path) : keeps same_registry (fs_stat p).
Proof. unfold fs_stat. keeps_call. Qed.
Lemma fs_readdir_same_registry (dir : jsstring) : keeps same_registry (fs_readdir dir).
Proof. unfold fs_readdir. keeps_call. Qed.
Lemma fs_readdir_root_same_registry : keeps same_registry fs_readdir_root.
Proof. unfold fs_readdir_root. keeps_call. Qed.
Lemma fs_mkdir_same_registry (dir : jsstring) : keeps same_registry (fs_mkdir_recursive dir).
Proof. unfold fs_mkdir_recursive. keeps_call. Qed.
Lemma fs_writeFile_same_registry (p : Path) (text : jsstring) :
  keeps same_registry (fs_writeFile p text).
Proof. unfold fs_writeFile. keeps_call. Qed.
Lemma fs_unlink_same_registry (p : Path) : keeps same_registry (fs_unlink p).
Proof. unfold fs_unlink. keeps_call. Qed.
Lemma fs_rename_same_registry (src dst : Path) : keeps same_registry (fs_rename src dst).
Proof. unfold fs_rename. keeps_call. Qed.
Lemma console_log_same_registry (line : jsstring) : keeps same_registry (console_log line).
Proof. intros w. split; reflexivity. Qed.
Lemma console_error_same_registry (line : jsstring) (e : Error) :
  keeps same_registry (console_error line e).
Proof. intros w. split; reflexivity. Qed.
Lemma registry_get_same_registry (k : jsstring) : keeps same_registry (registry_get k).
Proof. intros w. split; reflexivity. Qed.
Lemma randomBytes_same_registry (n : nat) : keeps same_registry (randomBytes n).
Proof. intros w. split; reflexivity. Qed.

Lemma touches_only_put_node (p : Path) (n : Node) (names : list jsstring) (w : World) :
  In (path_name p) names -> touches_only (path_dir p) names w (put_node p n w).
Proof.
  intros Hin. split.
  - intros d Hd. unfold put_node. cbn [disk set_disk].
    destruct (dir_lookup (path_dir p) (disk w)) as [[entries|]|]; try reflexivity.
    apply dir_lookup_put_ne. congruence.
  - intros name Hname. apply node_at_put_ne. right. cbn [path_name].
    intros ->. contradiction.
Qed.

Lemma touches_only_remove_node (p : Path) (names : list jsstring) (w : World) :
  In (path_name p) names -> touches_only (path_dir p) names w (remove_node p w).
Proof.
  intros Hin. split.
  - intros d Hd. unfold remove_node. cbn [disk set_disk].
    destruct (dir_lookup (path_dir p) (disk w)) as [[entries|]|]; try reflexivity.
    apply dir_lookup_put_ne. congruence.
  - intros name Hname. apply node_at_remove_ne. right. cbn [path_name].
    intros ->. contradiction.
Qed.

Section Footprint.

Context (dir : jsstring) (names : list jsstring).

Lemma touches_only_next_call (f : list bool) (w : World) :
  touches_only dir names w (next_call f w).
Proof. apply same_disk_touches_only. reflexivity. Qed.

Lemma touches_only_emit (e : Event) (w w' : World) :
  touches_only dir names w w' -> touches_only dir names w (emit e w').
Proof.
  intros H. transitivity w'; [exact H|]. apply same_disk_touches_only. reflexivity.
Qed.

Lemma fs_mkdir_touches_only : keeps (touches_only dir names) (fs_mkdir_recursive dir).
Proof.
  unfold fs_mkdir_recursive. apply keeps_io; [apply touches_only_next_call|].
  intros w. destruct (dir_lookup dir (disk w)) as [[entries|]|] eqn:E; cbn [snd];
    try reflexivity.
  apply touches_only_emit. split.
  - intros d Hd. cbn [disk set_disk]. apply dir_lookup_put_ne. congruence.
  - intros name _. unfold node_at. cbn [disk set_disk path_dir path_name].
    rewrite dir_lookup_put_eq, E. reflexivity.
Qed.

Lemma fs_writeFile_touches_only (p : Path) (text : jsstring) :
  path_dir p = dir -> In (path_name p) names ->
  keeps (touches_only dir names) (fs_writeFile p text).
Proof.
  intros Hp Hin. unfold fs_writeFile. apply keeps_io; [apply touches_only_next_call|].
  intros w. destruct (dir_lookup (path_dir p) (disk w)) as [[entries|]|]; cbn [snd];
    try reflexivity.
  destruct (dir_lookup (path_name p) entries) as [[|]|]; cbn [snd]; try reflexivity;
    apply touches_only_emit; rewrite <- Hp; apply touches_only_put_node, Hin.
Qed.

Lemma fs_unlink_touches_only (p : Path) :
  path_dir p = dir -> In (path_name p) names ->
  keeps (touches_only dir names) (fs_unlink p).
Proof.
  intros Hp Hin. unfold fs_unlink. apply keeps_io; [apply touches_only_next_call|].
  intros w. destruct (node_at p w) as [[|]|]; cbn [snd]; try reflexivity.
  apply touches_only_emit. rewrite <- Hp. apply touches_only_remove_node, Hin.
Qed.

Lemma fs_rename_touches_only (src dst : Path) :
  path_dir src = dir -> path_dir dst = dir ->
  In (path_name src) names -> In (path_name dst) names ->
  keeps (touches_only dir names) (fs_rename src dst).
Proof.
  intros Hs Hd Hins Hind. unfold fs_rename. apply keeps_io; [apply touches_only_next_call|].
  assert (forall n w, touches_only dir names w (put_node dst n (remove_node src w))) as Hmove.
  { intros n w. transitivity (remove_node src w).
    - rewrite <- Hs. apply touches_only_remove_node, Hins.
    - rewrite <- Hd. apply touches_only_put_node, Hind. }
  intros w. destruct (node_at src w) as [n|]; cbn [snd]; [|reflexivity].
  destruct (str_eqb (path_name src) (path_name dst)); cbn [snd]; [reflexivity|].
  destruct (node_at dst w) as [n'|]; cbn [snd].
  - destruct (same_kind n n'); cbn [snd]; [|reflexivity]. apply touches_only_emit, Hmove.
  - apply touches_only_emit, Hmove.
Qed.

End Footprint.

Lemma registry_delete_shrinks (k : json_value) : keeps registry_shrinks (registry_delete k).
Proof.
  intros w token entry. destruct k; cbn; intros H; try exact H.
  apply lookup_delete_Some in H as [_ H]. exact H.
Qed.

Lemma registry_set_grows {P : Platform} (userId : jsstring) (k : json_value)
    (filename : jsstring) :
  isValidFilename (VString filename) = true ->
  keeps (registry_grows_for userId)
    (registry_set k {| entry_userId := Some (JString userId); entry_filename := filename |}).
Proof.
  intros Hv w token entry. destruct k; cbn; intros H; try (left; exact H).
  apply lookup_insert_Some in H as [[_ <-]|[_ H]];
    [right; split; [reflexivity|exact Hv] | left; exact H].
Qed.

(** A handler is taken apart along its binds, its [try]s and its tests; [call]
    settles the calls it is made of. *)
Ltac keeps_walk call :=
  repeat first
    [ apply keeps_ret | apply keeps_throw | apply keeps_lift | apply keeps_get_world
    | apply keeps_bind; [|intros ?]
    | apply keeps_try_catch; [|intros ?]
    | apply keeps_map_all; intros ?
    | apply keeps_for_of; intros ?
    | call
    | match goal with
      | |- keeps _ (if ?b then _ else _) => destruct b eqn:?
      | |- keeps _ (match ?x with _ => _ end) => destruct x eqn:?
      end ].

Ltac same_disk_call :=
  first [ apply fs_readFile_same_disk | apply fs_access_same_disk | apply fs_stat_same_disk
        | apply fs_readdir_same_disk | apply fs_readdir_root_same_disk
        | apply console_log_same_disk | apply console_error_same_disk
        | apply registry_set_same_disk | apply registry_delete_same_disk
        | apply registry_get_same_disk | apply randomBytes_same_disk ].

Ltac same_registry_call :=
  first [ apply fs_readFile_same_registry | apply fs_access_same_registry
        | apply fs_stat_same_registry | apply fs_readdir_same_registry
        | apply fs_readdir_root_same_registry | apply fs_mkdir_same_registry
        | apply fs_writeFile_same_registry | apply fs_unlink_same_registry
        | apply fs_rename_same_registry
        | apply console_log_same_registry | apply console_error_same_registry
        | apply registry_get_same_registry | apply randomBytes_same_registry ].

Ltac touches_only_call :=
  first [ apply fs_mkdir_touches_only
        | apply fs_writeFile_touches_only; [reflexivity | cbn; tauto]
        | apply fs_unlink_touches_only; [reflexivity | cbn; tauto]
        | apply fs_rename_touches_only; [reflexivity | reflexivity | cbn; tauto | cbn; tauto]
        | apply (keeps_weaken same_disk);
          [apply same_disk_touches_only | same_disk_call] ].

Ltac registry_shrinks_call :=
  first [ apply registry_delete_shrinks
        | apply (keeps_weaken same_registry);
          [apply same_registry_shrinks | same_registry_call] ].

Ltac valid_name :=
  match goal with
  | H : negb _ = false |- _ => apply negb_false_iff in H; exact H
  | H : negb _ || negb _ = false |- _ =>
      apply orb_false_iff in H as [_ H]; apply negb_false_iff in H; exact H
  end.

Ltac registry_grows_call :=
  first [ apply registry_set_grows; valid_name
        | apply (keeps_weaken registry_shrinks);
          [apply registry_shrinks_grows | registry_shrinks_call] ].

Ltac unfold_handlers :=
  unfold list_files, list_entry, read_file, save_file, delete_file, rename_file, share_file,
    unshare_file, public_file, resolvePublic, getFileMetadata, saveFileMetadata,
    generatePublicId, encrypt, parse_json, when_public;
  cbv zeta.

Section HandlersKeep.

Context {P : Platform}.

Lemma read_file_same_disk (userId filename : jsstring) :
  keeps same_disk (read_file userId filename).
Proof. unfold_handlers. keeps_walk same_disk_call. Qed.

Lemma public_file_same_disk (publicId : jsstring) : keeps same_disk (public_file publicId).
Proof. unfold_handlers. keeps_walk same_disk_call. Qed.

Lemma list_files_touches_only (userId : jsstring) :
  keeps (touches_only (getUserDataDir userId) []) (list_files userId).
Proof. unfold_handlers. keeps_walk touches_only_call. Qed.

Lemma save_file_touches_only (userId filename : jsstring) (content : Js.value) :
  keeps (touches_only (getUserDataDir userId) [filename]) (save_file userId filename content).
Proof. unfold_handlers. keeps_walk touches_only_call. Qed.

Lemma delete_file_touches_only (userId filename : jsstring) :
  keeps (touches_only (getUserDataDir userId) [filename; sidecar_name filename])
    (delete_file userId filename).
Proof. unfold_handlers. keeps_walk touches_only_call. Qed.

Lemma rename_file_touches_only (userId oldFilename newName : jsstring) :
  keeps (touches_only (getUserDataDir userId)
           [oldFilename; newName; sidecar_name oldFilename; sidecar_name newName])
    (rename_file userId oldFilename (VString newName)).
Proof. unfold_handlers. keeps_walk touches_only_call. Qed.

Lemma share_file_touches_only (userId filename : jsstring) :
  keeps (touches_only (getUserDataDir userId) [sidecar_name filename])
    (share_file userId filename).
Proof. unfold_handlers. keeps_walk touches_only_call. Qed.

Lemma unshare_file_touches_only (userId filename : jsstring) :
  keeps (touches_only (getUserDataDir userId) [sidecar_name filename])
    (unshare_file userId filename).
Proof. unfold_handlers. keeps_walk touches_only_call. Qed.

Lemma list_files_same_registry (userId : jsstring) : keeps same_registry (list_files userId).
Proof. unfold_handlers. keeps_walk same_registry_call. Qed.

Lemma read_file_same_registry (userId filename : jsstring) :
  keeps same_registry (read_file userId filename).
Proof. unfold_handlers. keeps_walk same_registry_call. Qed.

Lemma save_file_same_registry (userId filename : jsstring) (content : Js.value) :
  keeps same_registry (save_file userId filename content).
Proof. unfold_handlers. keeps_walk same_registry_call. Qed.

Lemma public_file_same_registry (publicId : jsstring) :
  keeps same_registry (public_file publicId).
Proof. unfold_handlers. keeps_walk same_registry_call. Qed.

Lemma delete_file_shrinks (userId filename : jsstring) :
  keeps registry_shrinks (delete_file userId filename).
Proof. unfold_handlers. keeps_walk registry_shrinks_call. Qed.

Lemma unshare_file_shrinks (userId filename : jsstring) :
  keeps registry_shrinks (unshare_file userId filename).
Proof. unfold_handlers. keeps_walk registry_shrinks_call. Qed.

Lemma share_file_grows (userId filename : jsstring) :
  keeps (registry_grows_for userId) (share_file userId filename).
Proof. unfold_handlers. keeps_walk registry_grows_call. Qed.

Lemma rename_file_grows (userId oldFilename : jsstring) (newName : Js.value) :
  keeps (registry_grows_for userId) (rename_file userId oldFilename newName).
Proof. unfold_handlers. keeps_walk registry_grows_call. Qed.

End HandlersKeep.

(** Every handler keeps to the namespace of its user, whatever the request,
    the disk and the device.  Outside the namespace directory nothing of the
    storage root changes.  Inside it, [list] changes no entry (it may create
    the directory), [save] changes at most the file, [share] and [unshare] at
    most its sidecar, [delete] at most the file and its sidecar, [rename] at
    most the two files and their sidecars; [read] and the public route leave
    the whole disk as it is. *)
Theorem handlers_footprint {P : Platform} (userId filename : jsstring) (w : World) :
  let dir := getUserDataDir userId in
  touches_only dir [] w (snd (list_files userId w)) /\
  disk (snd (read_file userId filename w)) = disk w /\
  (forall content,
      touches_only dir [filename] w (snd (save_file userId filename content w))) /\
  touches_only dir [filename; sidecar_name filename] w (snd (delete_file userId filename w)) /\
  (forall newName,
      touches_only dir [filename; newName; sidecar_name filename; sidecar_name newName] w
        (snd (rename_file userId filename (VString newName) w))) /\
  touches_only dir [sidecar_name filename] w (snd (share_file userId filename w)) /\
  touches_only dir [sidecar_name filename] w (snd (unshare_file userId filename w)) /\
  (forall publicId, disk (snd (public_file publicId w)) = disk w).
Proof.
  cbv zeta.
  split; [apply list_files_touches_only|].
  split; [apply read_file_same_disk|].
  split; [intros content; apply save_file_touches_only|].
  split; [apply delete_file_touches_only|].
  split; [intros newName; apply rename_file_touches_only|].
  split; [apply share_file_touches_only|].
  split; [apply unshare_file_touches_only|].
  intros publicId. apply public_file_same_disk.
Qed.

(** What the handlers do to the registry of public links, whatever the
    request, the disk and the device: [list], [read], [save] and the public
    route leave it as it is; [delete] and [unshare] add no link and redirect
    none; and every link that [share] or [rename] adds or redirects names the
    user of the request as the owner of a file with a valid name.  A link is
    an entry under a key that is a string, the only keys a request can name. *)
Theorem handlers_registry {P : Platform} (userId filename : jsstring) (w : World) :
  same_registry w (snd (list_files userId w)) /\
  same_registry w (snd (read_file userId filename w)) /\
  (forall content, same_registry w (snd (save_file userId filename content w))) /\
  (forall publicId, same_registry w (snd (public_file publicId w))) /\
  registry_shrinks w (snd (delete_file userId filename w)) /\
  registry_shrinks w (snd (unshare_file userId filename w)) /\
  registry_grows_for userId w (snd (share_file userId filename w)) /\
  (forall newName,
      registry_grows_for userId w (snd (rename_file userId filename newName w))).
Proof.
  split; [apply list_files_same_registry|].
  split; [apply read_file_same_registry|].
  split; [intros content; apply save_file_same_registry|].
  split; [intros publicId; apply public_file_same_registry|].
  split; [apply delete_file_shrinks|].
  split; [apply unshare_file_shrinks|].
  split; [apply share_file_grows|].
  intros newName. apply rename_file_grows.
Qed.

Section Rejections.

Context {P : Platform}.

Lemma requireAuth_rejects (h : Headers) (next : jsstring -> M Response) (w : World) :
  getUserId h = None ->
  requireAuth h next w = (Return (status_json 401 (BError "Authentication required")), w).
Proof. intros H. unfold requireAuth. rewrite H. reflexivity. Qed.

Lemma requireAuth_passes (h : Headers) (next : jsstring -> M Response) (userId : jsstring) :
  getUserId h = Some userId -> requireAuth h next = next userId.
Proof. intros H. unfold requireAuth. rewrite H. reflexivity. Qed.

Lemma getUserId_truthy (h : Headers) (userId : jsstring) :
  getUserId h = Some userId -> userId <> [].
Proof.
  unfold getUserId.
  destruct (x_auth_request_email h) as [[|c e]|], (x_auth_request_user h) as [[|c' u]|];
    cbn; congruence.
Qed.

End Rejections.

(** A request that fails a check is answered before anything is done: the
    world after it is the world before it (no call of the file system, no
    change of the registry, no line of the log).  This holds of a request
    without identity (401), of an invalid filename in every route that takes
    one (400), of an invalid new name in [rename] (400), of a content that is
    not a string (400) or is longer than the limit (413) in [save], and of a
    token of the wrong format in the public route (400). *)
Theorem rejected_requests_change_nothing {P : Platform}
    (userId filename : jsstring) (w : World) :
  (forall h next,
      getUserId h = None ->
      requireAuth h next w
      = (Return (status_json 401 (BError "Authentication required")), w)) /\
  (isValidFilename (VString filename) = false ->
   let invalid := (Return (status_json 400 (BError "Invalid filename")), w) in
   read_file userId filename w = invalid /\
   (forall content, save_file userId filename content w = invalid) /\
   delete_file userId filename w = invalid /\
   (forall newName, rename_file userId filename newName w = invalid) /\
   share_file userId filename w = invalid /\
   unshare_file userId filename w = invalid) /\
  (forall newName,
      isValidFilename newName = false ->
      rename_file userId filename newName w
      = (Return (status_json 400 (BError "Invalid filename")), w)) /\
  (isValidFilename (VString filename) = true ->
   (forall content,
       (forall text, content <> VString text) ->
       save_file userId filename content w
       = (Return (status_json 400 (BError "Invalid content")), w)) /\
   (forall text,
       (MAX_FILE_SIZE < Z.of_nat (length text))%Z ->
       save_file userId filename (VString text) w
       = (Return (status_json 413 (BError "File too large (max 5MB)")), w))) /\
  (forall publicId,
      PUBLIC_ID_REGEX_test publicId = false ->
      public_file publicId w
      = (Return (status_json 400 (BError "Invalid public ID format")), w)).
Proof.
  split; [intros h next H; apply requireAuth_rejects, H|].
  split.
  { intros Hv. cbv zeta.
    unfold read_file, save_file, delete_file, rename_file, share_file, unshare_file,
      try_catch.
    rewrite Hv. cbn [negb orb]. repeat split; reflexivity. }
  split.
  { intros newName Hv. unfold rename_file, try_catch. rewrite Hv. cbn [negb].
    rewrite orb_true_r. reflexivity. }
  split.
  { intros Hv. split.
    - intros content Hc. unfold save_file, try_catch. rewrite Hv. cbn [negb].
      destruct content; try reflexivity. exfalso. apply (Hc s). reflexivity.
    - intros text Hsize. unfold save_file, try_catch. rewrite Hv. cbn [negb].
      apply Z.ltb_lt in Hsize. rewrite Hsize. reflexivity. }
  intros publicId Hf. unfold public_file, resolvePublic, try_catch, bind. rewrite Hf.
  reflexivity.
Qed.

Lemma rejected_requests_change_nothing_toy :
  isValidFilename (VString (lit "../etc/passwd")) = false /\
  read_file (P := Toy.platform) Example.alice (lit "../etc/passwd") Example.saved_world
  = (Return (status_json 400 (BError "Invalid filename")), Example.saved_world) /\
  delete_file (P := Toy.platform) Example.alice (lit "../etc/passwd") Example.saved_world
  = (Return (status_json 400 (BError "Invalid filename")), Example.saved_world).
Proof.
  split; [reflexivity|].
  destruct (proj1 (proj2 (rejected_requests_change_nothing (P := Toy.platform) Example.alice
                            (lit "../etc/passwd") Example.saved_world)) eq_refl)
    as (Hread & _ & Hdelete & _).
  split; assumption.
Defined.

(** ** The public route *)

Section PublicRoute.

Context {P : Platform}.

(** The public route on a token that the registry has, and [read] for the
    owner: both read the same file and decrypt it under the same identity. *)
Lemma public_file_run (publicId userId filename : jsstring) (w : World) :
  PUBLIC_ID_REGEX_test publicId = true ->
  publicFilesRegistry w !! publicId
  = Some {| entry_userId := Some (JString userId); entry_filename := filename |} ->
  fst (public_file publicId w) =
  Return match fs_readFile (file_path userId filename) w with
         | (Return blob, _) =>
             match decrypt blob userId with
             | Return content => json (BPublicFile filename content)
             | Throw _ =>
                 status_json 404 (BError "Public file not found or no longer available")
             end
         | (Throw _, _) =>
             status_json 404 (BError "Public file not found or no longer available")
         end.
Proof.
  intros Hf Hr. unfold public_file, resolvePublic, try_catch, bind, registry_get, lift, ret.
  rewrite Hf. cbn [negb]. rewrite Hr. cbn [entry_userId entry_filename].
  destruct (fs_readFile (file_path userId filename) w) as [[blob|e] w1]; [|reflexivity].
  destruct (decrypt blob userId); reflexivity.
Qed.

Lemma read_file_any_device (userId filename : jsstring) (w : World) :
  isValidFilename (VString filename) = true ->
  fst (read_file userId filename w) =
  Return match fs_readFile (file_path userId filename) w with
         | (Return blob, _) =>
             match decrypt blob userId with
             | Return content => json (BFile filename content)
             | Throw _ => status_json 404 (BError "File not found")
             end
         | (Throw _, _) => status_json 404 (BError "File not found")
         end.
Proof.
  intros Hv. unfold read_file, try_catch, bind, lift, ret. rewrite Hv. cbn [negb].
  destruct (fs_readFile (file_path userId filename) w) as [[blob|e] w1]; [|reflexivity].
  destruct (decrypt blob userId); reflexivity.
Qed.

End PublicRoute.

(** A public link serves what the owner reads.  For a token of the right
    format that the registry maps to a user and a valid filename, and
    whatever the disk and the device: the public route answers with a
    content exactly when [read] for that user and that file answers with the
    same content, and it answers 404 exactly when [read] does. *)
Theorem public_file_serves_what_owner_reads {P : Platform}
    (publicId userId filename : jsstring) (w : World) :
  PUBLIC_ID_REGEX_test publicId = true ->
  publicFilesRegistry w !! publicId
  = Some {| entry_userId := Some (JString userId); entry_filename := filename |} ->
  isValidFilename (VString filename) = true ->
  (forall content,
      fst (public_file publicId w) = Return (json (BPublicFile filename content)) <->
      fst (read_file userId filename w) = Return (json (BFile filename content))) /\
  (fst (public_file publicId w)
   = Return (status_json 404 (BError "Public file not found or no longer available")) <->
   fst (read_file userId filename w) = Return (status_json 404 (BError "File not found"))).
Proof.
  intros Hf Hr Hv.
  rewrite (public_file_run publicId userId filename w Hf Hr).
  rewrite (read_file_any_device userId filename w Hv).
  destruct (fs_readFile (file_path userId filename) w) as [[blob|e] w1].
  - destruct (decrypt blob userId) as [content|e].
    + split; [intros c; split; intros H; injection H as <-; reflexivity|].
      split; intros H; discriminate H.
    + split; [intros c; split; intros H; discriminate H|]. split; reflexivity.
  - split; [intros c; split; intros H; discriminate H|]. split; reflexivity.
Qed.

Lemma node_at_frame (dir : jsstring) (names : list jsstring) (w w' : World) (p : Path) :
  touches_only dir names w w' ->
  path_dir p <> dir \/ ~ In (path_name p) names ->
  node_at p w' = node_at p w.
Proof.
  intros [Hout Hin] [Hd|Hn].
  - unfold node_at. rewrite (Hout _ Hd). reflexivity.
  - destruct (decide (path_dir p = dir)) as [<-|Hd].
    + destruct p as [d n]. apply Hin, Hn.
    + unfold node_at. rewrite (Hout _ Hd). reflexivity.
Qed.

Lemma stored_metadata_frame {P : Platform} (userId filename : jsstring) (w w' : World) :
  node_at (getMetadataPath userId filename) w' = node_at (getMetadataPath userId filename) w ->
  stored_metadata userId filename w' = stored_metadata userId filename w.
Proof. intros H. unfold stored_metadata. rewrite H. reflexivity. Qed.

Lemma fs_readFile_run (p : Path) (w : World) (data : bytes) (t : Z) :
  faults w = [] -> node_at p w = Some (NFile data t) ->
  fs_readFile p w = (Return (utf8_decode data), next_call [] w).
Proof.
  intros Hf Hn. unfold fs_readFile. rewrite (io_run _ _ Hf), node_at_next_call, Hn.
  reflexivity.
Qed.


Lemma public_file_serves_what_owner_reads_toy :
  PUBLIC_ID_REGEX_test Example.token = true /\
  publicFilesRegistry Example.shared_world !! Example.token
  = Some {| entry_userId := Some (JString Example.alice); entry_filename := Example.hello_txt |} /\
  isValidFilename (VString Example.hello_txt) = true /\
  fst (read_file (P := Toy.platform) Example.alice Example.hello_txt Example.shared_world)
  = Return (json (BFile Example.hello_txt (lit "hi"))) /\
  fst (public_file (P := Toy.platform) Example.token Example.shared_world)
  = Return (json (BPublicFile Example.hello_txt (lit "hi"))).
Proof.
  assert (PUBLIC_ID_REGEX_test Example.token = true) as Hf by (vm_compute; reflexivity).
  assert (publicFilesRegistry Example.shared_world !! Example.token
          = Some {| entry_userId := Some (JString Example.alice);
                    entry_filename := Example.hello_txt |}) as Hr
      by (vm_compute; reflexivity).
  assert (isValidFilename (VString Example.hello_txt) = true) as Hv by reflexivity.
  assert (fst (read_file (P := Toy.platform) Example.alice Example.hello_txt
                 Example.shared_world)
          = Return (json (BFile Example.hello_txt (lit "hi")))) as Hread
      by (vm_compute; reflexivity).
  split; [exact Hf|]. split; [exact Hr|]. split; [exact Hv|]. split; [exact Hread|].
  apply (proj1 (public_file_serves_what_owner_reads (P := Toy.platform) Example.token
                  Example.alice Example.hello_txt Example.shared_world Hf Hr Hv)).
  exact Hread.
Defined.


(** ** Links stay backed *)

#[global] Instance no_new_dirs_preorder : PreOrder no_new_dirs.
Proof.
  split; [intros w p H; exists p; exact H|].
  intros a b c Hab Hbc p H. destruct (Hbc p H) as [q Hq]. apply (Hab q Hq).
Qed.

#[global] Instance calm_preorder : PreOrder calm.
Proof.
  split; [intros w H; exact H|].
  intros a b c Hab Hbc H. apply Hbc, Hab, H.
Qed.

#[global] Instance hands_on_preorder (I : World -> Prop) : PreOrder (hands_on I).
Proof.
  split; [intros w H; exact H|].
  intros a b c Hab Hbc H. apply Hbc, Hab, H.
Qed.

Lemma same_disk_no_new_dirs (w w' : World) : same_disk w w' -> no_new_dirs w w'.
Proof.
  intros H p Hp. exists p. rewrite <- Hp. symmetry. apply node_at_same_disk, H.
Qed.

Lemma no_new_dirs_put_file (p : Path) (data : bytes) (t : Z) (w : World) :
  no_new_dirs w (put_node p (NFile data t) w).
Proof.
  intros q Hq.
  destruct (decide (path_dir q = path_dir p /\ path_name q = path_name p)) as [[Hd Hn]|Hne].
  - exfalso. destruct p as [pd pn], q as [qd qn]. cbn in Hd, Hn. subst qd qn.
    unfold node_at, put_node in Hq. cbn [disk set_disk path_dir path_name] in Hq.
    destruct (dir_lookup pd (disk w)) as [[entries|]|] eqn:E.
    + rewrite dir_lookup_put_eq, dir_lookup_put_eq in Hq. discriminate Hq.
    + rewrite E in Hq. discriminate Hq.
    + rewrite E in Hq. discriminate Hq.
  - exists q. rewrite <- Hq. symmetry. apply node_at_put_ne.
    destruct (decide (path_dir q = path_dir p)) as [Hd|Hd]; [right|left; exact Hd].
    intros Hn. apply Hne. split; assumption.
Qed.

Lemma no_new_dirs_remove (p : Path) (w : World) : no_new_dirs w (remove_node p w).
Proof.
  intros q Hq.
  destruct (decide (path_dir q = path_dir p /\ path_name q = path_name p)) as [[Hd Hn]|Hne].
  - exfalso. destruct p as [pd pn], q as [qd qn]. cbn in Hd, Hn. subst qd qn.
    rewrite node_at_remove_eq in Hq. discriminate Hq.
  - exists q. rewrite <- Hq. symmetry. apply node_at_remove_ne.
    destruct (decide (path_dir q = path_dir p)) as [Hd|Hd]; [right|left; exact Hd].
    intros Hn. apply Hne. split; assumption.
Qed.

Lemma no_new_dirs_move (src dst : Path) (n : Node) (w : World) :
  node_at src w = Some n -> no_new_dirs w (put_node dst n (remove_node src w)).
Proof.
  intros Hsrc. destruct n as [data t|].
  - transitivity (remove_node src w); [apply no_new_dirs_remove | apply no_new_dirs_put_file].
  - intros q _. exists src. exact Hsrc.
Qed.

Lemma no_new_dirs_emit (e : Event) (w w' : World) :
  no_new_dirs w w' -> no_new_dirs w (emit e w').
Proof.
  intros H. transitivity w'; [exact H|]. apply same_disk_no_new_dirs. reflexivity.
Qed.

Lemma no_new_dirs_next_call (f : list bool) (w : World) : no_new_dirs w (next_call f w).
Proof. apply same_disk_no_new_dirs. reflexivity. Qed.

Lemma fs_mkdir_no_new_dirs (dir : jsstring) : keeps no_new_dirs (fs_mkdir_recursive dir).
Proof.
  unfold fs_mkdir_recursive. apply keeps_io; [apply no_new_dirs_next_call|].
  intros w. destruct (dir_lookup dir (disk w)) as [[entries|]|] eqn:E; cbn [snd];
    try reflexivity.
  apply no_new_dirs_emit. intros q Hq.
  unfold node_at in Hq. cbn [disk set_disk] in Hq.
  destruct (decide (path_dir q = dir)) as [Hd|Hd].
  - rewrite Hd, dir_lookup_put_eq in Hq. discriminate Hq.
  - rewrite dir_lookup_put_ne in Hq by congruence. exists q. exact Hq.
Qed.

Lemma fs_writeFile_no_new_dirs (p : Path) (text : jsstring) :
  keeps no_new_dirs (fs_writeFile p text).
Proof.
  unfold fs_writeFile. apply keeps_io; [apply no_new_dirs_next_call|].
  intros w. destruct (dir_lookup (path_dir p) (disk w)) as [[entries|]|]; cbn [snd];
    try reflexivity.
  destruct (dir_lookup (path_name p) entries) as [[|]|]; cbn [snd]; try reflexivity;
    apply no_new_dirs_emit, no_new_dirs_put_file.
Qed.

Lemma fs_unlink_no_new_dirs (p : Path) : keeps no_new_dirs (fs_unlink p).
Proof.
  unfold fs_unlink. apply keeps_io; [apply no_new_dirs_next_call|].
  intros w. destruct (node_at p w) as [[|]|]; cbn [snd]; try reflexivity.
  apply no_new_dirs_emit, no_new_dirs_remove.
Qed.

Lemma fs_rename_no_new_dirs (src dst : Path) : keeps no_new_dirs (fs_rename src dst).
Proof.
  unfold fs_rename. apply keeps_io; [apply no_new_dirs_next_call|].
  intros w. destruct (node_at src w) as [n|] eqn:Hsrc; cbn [snd]; [|reflexivity].
  destruct (str_eqb (path_name src) (path_name dst)); cbn [snd]; [reflexivity|].
  destruct (node_at dst w) as [n'|]; cbn [snd].
  - destruct (same_kind n n'); cbn [snd]; [|reflexivity].
    apply no_new_dirs_emit, no_new_dirs_move, Hsrc.
  - apply no_new_dirs_emit, no_new_dirs_move, Hsrc.
Qed.

Ltac no_new_dirs_call :=
  first [ apply fs_mkdir_no_new_dirs | apply fs_writeFile_no_new_dirs
        | apply fs_unlink_no_new_dirs | apply fs_rename_no_new_dirs
        | apply (keeps_weaken same_disk);
          [apply same_disk_no_new_dirs | same_disk_call] ].

(** The calls leave a device that works working. *)
Lemma io_calm {A : Type} (op : M A) : keeps calm op -> keeps calm (io op).
Proof.
  intros Hop w Hf. unfold io. rewrite Hf. apply Hop. reflexivity.
Qed.

Ltac calm_call :=
  intros w Hf;
  repeat match goal with
    | |- context [io _ w] => unfold io; rewrite Hf
    end;
  cbn [snd fst];
  repeat match goal with
    | |- context [match ?x with _ => _ end] => destruct x
    end;
  cbn [snd fst]; first [reflexivity | exact Hf].

Lemma fs_readFile_calm (p : Path) : keeps calm (fs_readFile p).
Proof. unfold fs_readFile. calm_call. Qed.
Lemma fs_access_calm (p : Path) : keeps calm (fs_access p).
Proof. unfold fs_access. calm_call. Qed.
Lemma fs_stat_calm (p : Path) : keeps calm (fs_stat p).
Proof. unfold fs_stat. calm_call. Qed.
Lemma fs_readdir_calm (dir : jsstring) : keeps calm (fs_readdir dir).
Proof. unfold fs_readdir. calm_call. Qed.
Lemma fs_readdir_root_calm : keeps calm fs_readdir_root.
Proof. unfold fs_readdir_root. calm_call. Qed.
Lemma fs_mkdir_calm (dir : jsstring) : keeps calm (fs_mkdir_recursive dir).
Proof. unfold fs_mkdir_recursive. calm_call. Qed.
Lemma fs_writeFile_calm (p : Path) (text : jsstring) : keeps calm (fs_writeFile p text).
Proof. unfold fs_writeFile. calm_call. Qed.
Lemma fs_unlink_calm (p : Path) : keeps calm (fs_unlink p).
Proof. unfold fs_unlink. calm_call. Qed.
Lemma fs_rename_calm (src dst : Path) : keeps calm (fs_rename src dst).
Proof. unfold fs_rename. calm_call. Qed.
Lemma console_log_calm (line : jsstring) : keeps calm (console_log line).
Proof. intros w H. exact H. Qed.
Lemma console_error_calm (line : jsstring) (e : Error) : keeps calm (console_error line e).
Proof. intros w H. exact H. Qed.
Lemma registry_set_calm (k : json_value) (e : PublicEntry) : keeps calm (registry_set k e).
Proof. intros w H. destruct k; exact H. Qed.
Lemma registry_delete_calm (k : json_value) : keeps calm (registry_delete k).
Proof. intros w H. destruct k; exact H. Qed.
Lemma registry_get_calm (k : jsstring) : keeps calm (registry_get k).
Proof. intros w H. exact H. Qed.
Lemma randomBytes_calm (n : nat) : keeps calm (randomBytes n).
Proof. intros w H. exact H. Qed.

Ltac calm_step :=
  first [ apply fs_readFile_calm | apply fs_access_calm | apply fs_stat_calm
        | apply fs_readdir_calm | apply fs_readdir_root_calm | apply fs_mkdir_calm
        | apply fs_writeFile_calm | apply fs_unlink_calm | apply fs_rename_calm
        | apply console_log_calm | apply console_error_calm
        | apply registry_set_calm | apply registry_delete_calm
        | apply registry_get_calm | apply randomBytes_calm ].

(** What the handlers keep of the sidecars: each one that holds JSON holds an
    object. *)
Lemma records_same_nodes {P : Platform} (w w' : World) :
  (forall p, node_at p w' = node_at p w) -> hands_on sidecars_are_records w w'.
Proof. intros Hd Hrec dir f data t v Hn. rewrite Hd in Hn. exact (Hrec _ _ _ _ _ Hn). Qed.

Lemma same_disk_records {P : Platform} (w w' : World) :
  same_disk w w' -> hands_on sidecars_are_records w w'.
Proof. intros H. apply records_same_nodes. intros p. apply node_at_same_disk, H. Qed.

Lemma records_remove {P : Platform} (p : Path) (w : World) :
  hands_on sidecars_are_records w (remove_node p w).
Proof.
  intros Hrec dir f data t v Hn.
  destruct (decide (dir = path_dir p /\ sidecar_name f = path_name p)) as [[Hd Hm]|Hne].
  - exfalso. destruct p as [pd pn]. cbn [path_dir path_name] in Hd, Hm. subst pd pn.
    rewrite node_at_remove_eq in Hn. discriminate Hn.
  - rewrite node_at_remove_ne in Hn.
    + exact (Hrec _ _ _ _ _ Hn).
    + cbn [path_dir path_name].
      destruct (decide (dir = path_dir p)) as [Hd|Hd]; [right|left; exact Hd].
      intros Hm. apply Hne. split; assumption.
Qed.

Lemma records_put {P : Platform} (p : Path) (n : Node) (w : World) :
  (forall f data t v,
      path_name p = sidecar_name f -> n = NFile data t ->
      JSON_parse (utf8_decode data) = Some v -> exists fields, v = JObject fields) ->
  hands_on sidecars_are_records w (put_node p n w).
Proof.
  intros Hnew Hrec dir f data t v Hn Hp.
  destruct (decide (dir = path_dir p /\ sidecar_name f = path_name p)) as [[Hd Hm]|Hne].
  - destruct p as [pd pn]. cbn [path_dir path_name] in *. subst pd pn.
    unfold node_at, put_node in Hn. cbn [disk set_disk path_dir path_name] in Hn.
    destruct (dir_lookup dir (disk w)) as [[entries|]|] eqn:E.
    + rewrite dir_lookup_put_eq, dir_lookup_put_eq in Hn. injection Hn as ->.
      apply (Hnew f data t v eq_refl eq_refl Hp).
    + rewrite E in Hn. discriminate Hn.
    + rewrite E in Hn. discriminate Hn.
  - rewrite node_at_put_ne in Hn.
    + exact (Hrec _ _ _ _ _ Hn Hp).
    + cbn [path_dir path_name].
      destruct (decide (dir = path_dir p)) as [Hd|Hd]; [right|left; exact Hd].
      intros Hm. apply Hne. split; assumption.
Qed.

Lemma records_move {P : Platform} (src dst : Path) (n : Node) (w : World) :
  node_at src w = Some n ->
  (forall f, path_name dst = sidecar_name f -> exists g, path_name src = sidecar_name g) ->
  hands_on sidecars_are_records w (put_node dst n (remove_node src w)).
Proof.
  intros Hsrc Hside Hrec. apply records_put; [|apply records_remove, Hrec].
  intros f data t v Hf -> Hp. destruct (Hside f Hf) as [g Hg].
  destruct src as [sd sn]. cbn [path_name] in Hg. subst sn.
  exact (Hrec _ _ _ _ _ Hsrc Hp).
Qed.

Lemma records_emit {P : Platform} (e : Event) (w w' : World) :
  hands_on sidecars_are_records w w' -> hands_on sidecars_are_records w (emit e w').
Proof.
  intros H. transitivity w'; [exact H|]. apply same_disk_records. reflexivity.
Qed.

Lemma records_next_call {P : Platform} (f : list bool) (w : World) :
  hands_on sidecars_are_records w (next_call f w).
Proof. apply same_disk_records. reflexivity. Qed.

Lemma fs_mkdir_records {P : Platform} (dir : jsstring) :
  keeps (hands_on sidecars_are_records) (fs_mkdir_recursive dir).
Proof.
  unfold fs_mkdir_recursive. apply keeps_io; [apply records_next_call|].
  intros w. destruct (dir_lookup dir (disk w)) as [[entries|]|] eqn:E; cbn [snd];
    try reflexivity.
  apply records_emit. intros Hrec d f data t v Hn.
  unfold node_at in Hn. cbn [disk set_disk path_dir path_name] in Hn.
  destruct (decide (d = dir)) as [->|Hd].
  - rewrite dir_lookup_put_eq in Hn. discriminate Hn.
  - rewrite dir_lookup_put_ne in Hn by congruence. refine (Hrec d f data t v _). exact Hn.
Qed.

Lemma fs_writeFile_records {P : Platform} (p : Path) (text : jsstring) :
  (forall f, path_name p <> sidecar_name f) ->
  keeps (hands_on sidecars_are_records) (fs_writeFile p text).
Proof.
  intros Hp. unfold fs_writeFile. apply keeps_io; [apply records_next_call|].
  intros w. destruct (dir_lookup (path_dir p) (disk w)) as [[entries|]|]; cbn [snd];
    try reflexivity.
  destruct (dir_lookup (path_name p) entries) as [[|]|]; cbn [snd]; try reflexivity;
    apply records_emit, records_put; intros f ? ? v Hf; destruct (Hp f Hf).
Qed.

Lemma fs_unlink_records {P : Platform} (p : Path) :
  keeps (hands_on sidecars_are_records) (fs_unlink p).
Proof.
  unfold fs_unlink. apply keeps_io; [apply records_next_call|].
  intros w. destruct (node_at p w) as [[|]|]; cbn [snd]; try reflexivity.
  apply records_emit, records_remove.
Qed.

Lemma fs_rename_records {P : Platform} (src dst : Path) :
  (forall f, path_name dst = sidecar_name f -> exists g, path_name src = sidecar_name g) ->
  keeps (hands_on sidecars_are_records) (fs_rename src dst).
Proof.
  intros Hside. unfold fs_rename. apply keeps_io; [apply records_next_call|].
  intros w. destruct (node_at src w) as [n|] eqn:Hsrc; cbn [snd]; [|reflexivity].
  destruct (str_eqb (path_name src) (path_name dst)); cbn [snd]; [reflexivity|].
  destruct (node_at dst w) as [n'|]; cbn [snd].
  - destruct (same_kind n n'); cbn [snd]; [|reflexivity].
    apply records_emit, records_move; assumption.
  - apply records_emit, records_move; assumption.
Qed.

Ltac records_side :=
  cbn [path_name file_path getMetadataPath];
  first [ intros ? ?; eexists; reflexivity
        | intros f Hf; exfalso; symmetry in Hf; revert Hf;
          apply sidecar_name_not_valid; valid_name ].

Ltac records_call :=
  first [ apply fs_mkdir_records | apply fs_unlink_records
        | apply fs_rename_records; records_side
        | apply fs_writeFile_records; records_side
        | apply (keeps_weaken same_disk);
          [apply same_disk_records | same_disk_call] ].

Section HandlersSteady.

Context {P : Platform}.

Lemma list_files_records (userId : jsstring) :
  keeps (hands_on sidecars_are_records) (list_files userId).
Proof. unfold_handlers. keeps_walk records_call. Qed.
Lemma save_file_records (userId filename : jsstring) (content : Js.value) :
  keeps (hands_on sidecars_are_records) (save_file userId filename content).
Proof. unfold_handlers. keeps_walk records_call. Qed.
Lemma delete_file_records (userId filename : jsstring) :
  keeps (hands_on sidecars_are_records) (delete_file userId filename).
Proof. unfold_handlers. keeps_walk records_call. Qed.
Lemma rename_file_records (userId oldFilename newName : jsstring) :
  isValidFilename (VString newName) = true ->
  keeps (hands_on sidecars_are_records) (rename_file userId oldFilename (VString newName)).
Proof. intros Hvn. unfold_handlers. keeps_walk records_call. Qed.

Lemma list_files_no_new_dirs (userId : jsstring) : keeps no_new_dirs (list_files userId).
Proof. unfold_handlers. keeps_walk no_new_dirs_call. Qed.
Lemma save_file_no_new_dirs (userId filename : jsstring) (content : Js.value) :
  keeps no_new_dirs (save_file userId filename content).
Proof. unfold_handlers. keeps_walk no_new_dirs_call. Qed.
Lemma delete_file_no_new_dirs (userId filename : jsstring) :
  keeps no_new_dirs (delete_file userId filename).
Proof. unfold_handlers. keeps_walk no_new_dirs_call. Qed.
Lemma rename_file_no_new_dirs (userId filename : jsstring) (newName : Js.value) :
  keeps no_new_dirs (rename_file userId filename newName).
Proof. unfold_handlers. keeps_walk no_new_dirs_call. Qed.
Lemma share_file_no_new_dirs (userId filename : jsstring) :
  keeps no_new_dirs (share_file userId filename).
Proof. unfold_handlers. keeps_walk no_new_dirs_call. Qed.
Lemma unshare_file_no_new_dirs (userId filename : jsstring) :
  keeps no_new_dirs (unshare_file userId filename).
Proof. unfold_handlers. keeps_walk no_new_dirs_call. Qed.

Lemma list_files_calm (userId : jsstring) : keeps calm (list_files userId).
Proof. unfold_handlers. keeps_walk calm_step. Qed.
Lemma read_file_calm (userId filename : jsstring) : keeps calm (read_file userId filename).
Proof. unfold_handlers. keeps_walk calm_step. Qed.
Lemma save_file_calm (userId filename : jsstring) (content : Js.value) :
  keeps calm (save_file userId filename content).
Proof. unfold_handlers. keeps_walk calm_step. Qed.
Lemma delete_file_calm (userId filename : jsstring) :
  keeps calm (delete_file userId filename).
Proof. unfold_handlers. keeps_walk calm_step. Qed.
Lemma rename_file_calm (userId filename : jsstring) (newName : Js.value) :
  keeps calm (rename_file userId filename newName).
Proof. unfold_handlers. keeps_walk calm_step. Qed.
Lemma share_file_calm (userId filename : jsstring) : keeps calm (share_file userId filename).
Proof. unfold_handlers. keeps_walk calm_step. Qed.
Lemma unshare_file_calm (userId filename : jsstring) :
  keeps calm (unshare_file userId filename).
Proof. unfold_handlers. keeps_walk calm_step. Qed.
Lemma public_file_calm (publicId : jsstring) : keeps calm (public_file publicId).
Proof. unfold_handlers. keeps_walk calm_step. Qed.

End HandlersSteady.

Lemma touches_only_more (dir : jsstring) (names names' : list jsstring) (w w' : World) :
  (forall name, In name names -> In name names') ->
  touches_only dir names w w' -> touches_only dir names' w w'.
Proof.
  intros Hsub [Hout Hin]. split; [exact Hout|].
  intros name Hn. apply Hin. intros H. apply Hn, Hsub, H.
Qed.

Section Sound.

Context {P : Platform} (L : PlatformLaws P).

Lemma same_dir_file (userId userId' filename : jsstring) :
  getUserDataDir userId' = getUserDataDir userId ->
  file_path userId' filename = file_path userId filename.
Proof. intros H. unfold file_path. rewrite H. reflexivity. Qed.

Lemma same_dir_sidecar (userId userId' filename : jsstring) :
  getUserDataDir userId' = getUserDataDir userId ->
  getMetadataPath userId' filename = getMetadataPath userId filename.
Proof. intros H. unfold getMetadataPath. rewrite H. reflexivity. Qed.

Lemma same_dir_stored (userId userId' filename : jsstring) (w : World) :
  getUserDataDir userId' = getUserDataDir userId ->
  stored_metadata userId' filename w = stored_metadata userId filename w.
Proof. intros H. unfold stored_metadata. rewrite (same_dir_sidecar _ _ _ H). reflexivity. Qed.

(** A file and its sidecar are out of the reach of a handler that works on
    other files of the namespace, or in another namespace. *)
Lemma entry_untouched (userId userId' filename' : jsstring) (files : list jsstring)
    (w w' : World) :
  touches_only (getUserDataDir userId) (files ++ map sidecar_name files) w w' ->
  (forall f, In f files -> isValidFilename (VString f) = true) ->
  isValidFilename (VString filename') = true ->
  getUserDataDir userId' <> getUserDataDir userId \/ ~ In filename' files ->
  node_at (file_path userId' filename') w' = node_at (file_path userId' filename') w /\
  node_at (getMetadataPath userId' filename') w'
  = node_at (getMetadataPath userId' filename') w.
Proof.
  intros Hfoot Hfiles Hv' Hout.
  split; apply (node_at_frame _ _ _ _ _ Hfoot); cbn [path_dir path_name file_path
                                                       getMetadataPath];
    (destruct Hout as [Hd|Hn]; [left; exact Hd|right]); rewrite in_app_iff, in_map_iff.
  - intros [H|(g & Hg & _)]; [exact (Hn H)|].
    revert Hg. apply sidecar_name_not_valid, Hv'.
  - intros [H|(g & Hg & Hin)].
    + apply (sidecar_name_not_valid filename' _ (Hfiles _ H)). reflexivity.
    + apply sidecar_name_injective in Hg. subst g. exact (Hn Hin).
Qed.

(** What [backed] asks of one link. *)
Lemma backed_entry_frame (token userId filename : jsstring) (w w' : World) :
  node_at (file_path userId filename) w' = node_at (file_path userId filename) w ->
  node_at (getMetadataPath userId filename) w'
  = node_at (getMetadataPath userId filename) w ->
  (exists n, node_at (file_path userId filename) w = Some n) /\
  public_token (stored_metadata userId filename w) = Return (Some (JString token)) ->
  (exists n, node_at (file_path userId filename) w' = Some n) /\
  public_token (stored_metadata userId filename w') = Return (Some (JString token)).
Proof.
  intros Hfile Hside [Hn Ht]. rewrite Hfile, (stored_metadata_frame _ _ _ _ Hside).
  split; assumption.
Qed.

Lemma no_dirs_kept (w w' : World) :
  no_new_dirs w w' -> (forall p, node_at p w <> Some NDir) ->
  forall p, node_at p w' <> Some NDir.
Proof. intros H Hw p Hp. destruct (H p Hp) as [q Hq]. exact (Hw q Hq). Qed.

(** A sidecar that holds an object is read as one, and so is a sidecar that
    is absent or holds no JSON. *)
Lemma stored_record (userId filename : jsstring) (w : World) :
  sidecars_are_records w -> exists fields, stored_metadata userId filename w = JObject fields.
Proof.
  intros Hrec. unfold stored_metadata, getMetadataPath.
  destruct (node_at _ w) as [[data t|]|] eqn:Hn; try (eexists; reflexivity).
  destruct (JSON_parse (utf8_decode data)) as [v|] eqn:Hp; [|eexists; reflexivity].
  apply (Hrec _ _ _ _ _ Hn Hp).
Qed.

Lemma records_written (userId filename : jsstring) (w w' : World) :
  sidecars_are_records w ->
  touches_only (getUserDataDir userId) [sidecar_name filename] w w' ->
  (exists fields, stored_metadata userId filename w' = JObject fields) ->
  sidecars_are_records w'.
Proof.
  intros Hrec Hfoot [fields Hstored] dir f data t v Hn Hp.
  destruct (decide (dir = getUserDataDir userId /\ f = filename)) as [[-> ->]|Hne].
  - unfold stored_metadata, getMetadataPath in Hstored. rewrite Hn, Hp in Hstored.
    exists fields. exact Hstored.
  - rewrite (node_at_frame _ _ _ _ _ Hfoot) in Hn; [exact (Hrec _ _ _ _ _ Hn Hp)|].
    cbn [path_dir path_name In].
    destruct (decide (dir = getUserDataDir userId)) as [Hd|Hd]; [right|left; exact Hd].
    intros [H|[]]. apply sidecar_name_injective in H. apply Hne.
    split; [exact Hd|symmetry; exact H].
Qed.

Lemma sound_same_nodes (w w' : World) :
  faults w' = [] -> (forall p, node_at p w' = node_at p w) -> same_registry w w' ->
  sound w -> sound w'.
Proof.
  intros Hf Hd [Hr _] [_ (Hnd & Hrec & Hent)]. split; [exact Hf|]. split; [|split].
  - intros p. rewrite Hd. apply Hnd.
  - exact (records_same_nodes w w' Hd Hrec).
  - intros token userId filename Hl. rewrite Hr in Hl.
    destruct (Hent _ _ _ Hl) as (Hv & Hn & Ht). split; [exact Hv|].
    apply (backed_entry_frame token userId filename w w'); [apply Hd | apply Hd |].
    split; assumption.
Qed.

Lemma sound_next_call (w : World) : sound w -> sound (next_call [] w).
Proof.
  intros Hs. apply (sound_same_nodes w); [reflexivity| |split; reflexivity|exact Hs].
  intros p. apply node_at_next_call.
Qed.

Lemma read_file_sound (userId filename : jsstring) :
  keeps (hands_on sound) (read_file userId filename).
Proof.
  intros w Hs. apply (sound_same_nodes w).
  - apply read_file_calm, Hs.
  - intros p. apply node_at_same_disk, read_file_same_disk.
  - apply read_file_same_registry.
  - exact Hs.
Qed.

Lemma public_file_sound (publicId : jsstring) : keeps (hands_on sound) (public_file publicId).
Proof.
  intros w Hs. apply (sound_same_nodes w).
  - apply public_file_calm, Hs.
  - intros p. apply node_at_same_disk, public_file_same_disk.
  - apply public_file_same_registry.
  - exact Hs.
Qed.

Lemma list_files_sound (userId : jsstring) : keeps (hands_on sound) (list_files userId).
Proof.
  intros w Hs. pose proof Hs as [Hf (Hnd & Hrec & Hent)].
  pose proof (list_files_touches_only userId w) as Hfoot.
  split; [apply list_files_calm, Hf|]. split; [|split].
  - apply (no_dirs_kept w); [apply list_files_no_new_dirs | exact Hnd].
  - apply (list_files_records userId w Hrec).
  - intros token userId' filename' Hl.
    rewrite (proj1 (list_files_same_registry userId w)) in Hl.
    destruct (Hent _ _ _ Hl) as (Hv' & Hn' & Ht'). split; [exact Hv'|].
    apply (backed_entry_frame token userId' filename' w); [| |split; assumption];
      apply (node_at_frame _ _ _ _ _ Hfoot); right; intros [].
Qed.

(** [save] keeps the file it writes. *)
Lemma save_file_keeps_node (userId filename : jsstring) (content : Js.value) (w : World)
    (n : Node) :
  faults w = [] -> isValidFilename (VString filename) = true ->
  (forall p, node_at p w <> Some NDir) ->
  node_at (file_path userId filename) w = Some n ->
  exists n', node_at (file_path userId filename) (snd (save_file userId filename content w))
             = Some n'.
Proof.
  intros Hf Hv Hnd Hn.
  assert (forall code b,
             node_at (file_path userId filename)
               (snd (@ret Response (status_json code b) w)) = Some n) as Hsame
      by (intros; exact Hn).
  destruct content as [| |b|z|text|];
    try (exists n; unfold save_file, try_catch; rewrite Hv; apply Hsame).
  destruct (Z.ltb_spec MAX_FILE_SIZE (Z.of_nat (length text))) as [Hbig|Hsmall].
  - exists n. unfold save_file, try_catch. rewrite Hv. cbn [negb].
    apply Z.ltb_lt in Hbig. rewrite Hbig. exact Hn.
  - destruct (save_file_run userId filename text w Hf Hv Hsmall) as (w' & t & Hrun & _ & Hn').
    + destruct (node_at_dir _ _ _ Hn) as [d Hd]. cbn [path_dir file_path] in Hd.
      rewrite Hd. discriminate.
    + apply Hnd.
    + rewrite Hrun. eexists. exact Hn'.
Qed.

Lemma save_file_sound (userId filename : jsstring) (content : Js.value) :
  keeps (hands_on sound) (save_file userId filename content).
Proof.
  intros w Hs. pose proof Hs as [Hf (Hnd & Hrec & Hent)].
  destruct (isValidFilename (VString filename)) eqn:Hv.
  2:{ replace (snd (save_file userId filename content w)) with w; [exact Hs|].
      unfold save_file, try_catch. rewrite Hv. reflexivity. }
  pose proof (save_file_touches_only userId filename content w) as Hfoot.
  split; [apply save_file_calm, Hf|]. split; [|split].
  { apply (no_dirs_kept w); [apply save_file_no_new_dirs | exact Hnd]. }
  { apply (save_file_records userId filename content w Hrec). }
  intros token userId' filename' Hl.
  rewrite (proj1 (save_file_same_registry _ _ _ w)) in Hl.
  destruct (Hent _ _ _ Hl) as (Hv' & [n Hn] & Ht). split; [exact Hv'|].
  assert (node_at (getMetadataPath userId' filename')
            (snd (save_file userId filename content w))
          = node_at (getMetadataPath userId' filename') w) as Hside.
  { apply (node_at_frame _ _ _ _ _ Hfoot). right. cbn [path_name getMetadataPath In].
    intros [H|[]]. symmetry in H. revert H. apply sidecar_name_not_valid, Hv. }
  rewrite (stored_metadata_frame _ _ _ _ Hside). split; [|exact Ht].
  destruct (decide (getUserDataDir userId' = getUserDataDir userId /\ filename' = filename))
    as [[Hd ->]|Hne].
  - rewrite (same_dir_file _ _ _ Hd) in Hn |- *.
    apply (save_file_keeps_node userId filename content w n Hf Hv Hnd Hn).
  - exists n. rewrite <- Hn. apply (node_at_frame _ _ _ _ _ Hfoot).
    cbn [path_dir path_name file_path In].
    destruct (decide (getUserDataDir userId' = getUserDataDir userId)) as [Hd|Hd];
      [right|left; exact Hd].
    intros [H|[]]. apply Hne. split; [exact Hd|]. symmetry. exact H.
Qed.

Lemma delete_file_missing_disk (userId filename : jsstring) (w : World) :
  isValidFilename (VString filename) = true ->
  node_at (file_path userId filename) w = None ->
  disk (snd (delete_file userId filename w)) = disk w.
Proof.
  intros Hv Hn. unfold delete_file. rewrite Hv. cbn [negb].
  unfold try_catch at 1. unfold bind at 1.
  destruct (getFileMetadata_total userId filename w) as (m & w1 & Hm & Hd1 & _).
  rewrite Hm. cbv beta iota. unfold bind at 1. rewrite when_public_run.
  assert (forall w2, disk w2 = disk w ->
            exists e w3, fs_unlink (file_path userId filename) w2 = (Throw e, w3) /\
                         disk w3 = disk w) as Hunlink.
  { intros w2 Hd2. destruct (fs_unlink_missing_any (file_path userId filename) w2)
      as (e & w3 & H & Hd3); [rewrite (node_at_same_disk _ _ _ Hd2); exact Hn|].
    exists e, w3. split; [exact H | congruence]. }
  destruct (public_token m) as [[publicId|]|e].
  - unfold registry_delete, modify. cbv beta iota. unfold bind at 1.
    destruct (Hunlink (emit (RegistryDelete publicId) (registry_remove publicId w1)))
      as (e & w3 & -> & Hd3); [cbn [disk emit]; rewrite disk_registry_remove; exact Hd1|].
    exact Hd3.
  - unfold bind at 1. destruct (Hunlink w1 Hd1) as (e & w3 & -> & Hd3). exact Hd3.
  - exact Hd1.
Qed.

Lemma rename_file_missing (userId oldFilename newName : jsstring) (w : World) :
  faults w = [] ->
  isValidFilename (VString oldFilename) = true -> isValidFilename (VString newName) = true ->
  node_at (file_path userId newName) w = None ->
  node_at (file_path userId oldFilename) w = None ->
  rename_file userId oldFilename (VString newName) w
  = (Return (status_json 500 (BError "Failed to rename file")),
     next_call [] (next_call [] w)).
Proof.
  intros Hf Hvo Hvn Hnew Hold. unfold rename_file. rewrite Hvo, Hvn. cbn [negb orb].
  unfold try_catch at 1. unfold bind at 1. rewrite (found_missing _ _ Hf Hnew).
  cbv beta iota. unfold bind at 1.
  rewrite (fs_rename_missing _ _ (next_call [] w)); [reflexivity|reflexivity|].
  rewrite node_at_next_call. exact Hold.
Qed.

(** A link to the file a handler works on, when its sidecar is not public
    under the token of the link, is no link of a backed registry. *)
Lemma link_of_same_file (userId userId' filename token : jsstring) (w : World) :
  getUserDataDir userId' = getUserDataDir userId ->
  public_token (stored_metadata userId' filename w) = Return (Some (JString token)) ->
  public_token (stored_metadata userId filename w) = Return (Some (JString token)).
Proof. intros Hd H. rewrite <- (same_dir_stored _ _ _ _ Hd). exact H. Qed.

(** The links that are left when the link of [shared] is taken away are
    links of the registry before, and none of them has the token of
    [shared]. *)
Lemma link_left (shared : option json_value) (token : jsstring) (entry : PublicEntry)
    (w : World) :
  publicFilesRegistry (match shared with
                       | Some publicId => registry_remove publicId w
                       | None => w
                       end) !! token = Some entry ->
  publicFilesRegistry w !! token = Some entry /\ shared <> Some (JString token).
Proof.
  destruct shared as [publicId|]; [|intros H; split; [exact H|discriminate]].
  rewrite registry_remove_lookup.
  destruct publicId as [|b|x|key|items|fields]; try (intros H; split; [exact H|discriminate]).
  destruct (decide (key = token)) as [->|Hne]; [discriminate|].
  intros H. split; [exact H|congruence].
Qed.

Lemma share_file_sound (userId filename : jsstring) :
  keeps (hands_on sound) (share_file userId filename).
Proof.
  intros w Hs. pose proof Hs as [Hf (Hnd & Hrec & Hent)].
  destruct (isValidFilename (VString filename)) eqn:Hv.
  2:{ replace (snd (share_file userId filename w)) with w; [exact Hs|].
      unfold share_file, try_catch. rewrite Hv. reflexivity. }
  destruct (node_at (file_path userId filename) w) as [n|] eqn:Hn.
  2:{ rewrite (share_file_missing _ _ _ Hf Hv Hn). apply sound_next_call, Hs. }
  assert (ready userId filename w) as Hready.
  { split; [exact Hf|]. split; [exists n; exact Hn | apply Hnd]. }
  destruct (stored_record userId filename w Hrec) as [fields Hobj].
  destruct (public_token_returns (JObject fields)) as [[old|] Hpub]; [discriminate| |].
  { rewrite (share_file_public userId filename w old Hready Hv)
      by (rewrite Hobj; exact Hpub).
    destruct (to_string old); [apply sound_next_call, sound_next_call, Hs|].
    apply (sound_same_nodes w); [reflexivity| |split; reflexivity|exact Hs].
    intros p. cbn [snd]. rewrite node_at_emit, !node_at_next_call. reflexivity. }
  pose proof (share_file_touches_only userId filename w) as Hfoot.
  pose proof (share_file_no_new_dirs userId filename w) as Hdirs.
  destruct (share_file_mint L userId filename w fields Hready Hv Hobj Hpub)
    as (w' & metadata' & Hrun & Hready' & Hmade & Hstored' & Htok' & Hreg' & _).
  rewrite Hrun in Hfoot, Hdirs |- *. cbn [snd] in Hfoot, Hdirs |- *.
  split; [apply Hready'|]. split; [apply (no_dirs_kept w); assumption|]. split.
  { apply (records_written userId filename w w' Hrec Hfoot). rewrite Hstored'.
    rewrite made_public_object in Hmade. injection Hmade as <-. eexists. reflexivity. }
  intros token userId' filename' Hl. rewrite Hreg' in Hl.
  apply lookup_insert_Some in Hl as [[<- Heq]|[Hne Hl]].
  { injection Heq as <- <-. split; [exact Hv|]. split; [apply Hready' | exact Htok']. }
  destruct (Hent _ _ _ Hl) as (Hv' & Hn' & Ht'). split; [exact Hv'|].
  destruct (entry_untouched userId userId' filename' [filename] w w') as [Hfile Hside];
    [|intros f [<-|[]]; exact Hv|exact Hv'| |].
  - apply (touches_only_more _ [sidecar_name filename]); [|exact Hfoot].
    intros name [<-|[]]. cbn. tauto.
  - destruct (decide (getUserDataDir userId' = getUserDataDir userId)) as [Hd|Hd];
      [right|left; exact Hd].
    intros [<-|[]]. pose proof (link_of_same_file _ _ _ _ _ Hd Ht') as Hx.
    rewrite Hobj, Hpub in Hx. discriminate Hx.
  - apply (backed_entry_frame token userId' filename' w w' Hfile Hside). split; assumption.
Qed.

Lemma unshare_file_sound (userId filename : jsstring) :
  keeps (hands_on sound) (unshare_file userId filename).
Proof.
  intros w Hs. pose proof Hs as [Hf (Hnd & Hrec & Hent)].
  destruct (isValidFilename (VString filename)) eqn:Hv.
  2:{ replace (snd (unshare_file userId filename w)) with w; [exact Hs|].
      unfold unshare_file, try_catch. rewrite Hv. reflexivity. }
  destruct (node_at (file_path userId filename) w) as [n|] eqn:Hn.
  2:{ rewrite (unshare_file_missing _ _ _ Hf Hv Hn). apply sound_next_call, Hs. }
  assert (ready userId filename w) as Hready.
  { split; [exact Hf|]. split; [exists n; exact Hn | apply Hnd]. }
  pose proof (unshare_file_touches_only userId filename w) as Hfoot.
  pose proof (unshare_file_no_new_dirs userId filename w) as Hdirs.
  destruct (stored_record userId filename w Hrec) as [fields Hobj].
  destruct (public_token_returns (JObject fields)) as [shared Hpub]; [discriminate|].
  pose proof (made_private_object fields) as Hmade.
  rewrite <- Hobj in Hpub, Hmade.
  destruct (unshare_file_run L userId filename w shared _ Hready Hv Hpub Hmade)
    as (w' & Hrun & Hready' & Hstored' & Hreg' & _).
  rewrite Hrun in Hfoot, Hdirs |- *. cbn [snd] in Hfoot, Hdirs |- *.
  split; [apply Hready'|]. split; [apply (no_dirs_kept w); assumption|]. split.
  { apply (records_written userId filename w w' Hrec Hfoot). rewrite Hstored'.
    eexists. reflexivity. }
  intros token userId' filename' Hl. rewrite Hreg' in Hl.
  apply link_left in Hl as [Hl' Hnot].
  destruct (Hent _ _ _ Hl') as (Hv' & Hn' & Ht'). split; [exact Hv'|].
  destruct (entry_untouched userId userId' filename' [filename] w w') as [Hfile Hside];
    [|intros f [<-|[]]; exact Hv|exact Hv'| |].
  - apply (touches_only_more _ [sidecar_name filename]); [|exact Hfoot].
    intros name [<-|[]]. cbn. tauto.
  - destruct (decide (getUserDataDir userId' = getUserDataDir userId)) as [Hd|Hd];
      [right|left; exact Hd].
    intros [<-|[]]. apply Hnot. pose proof (link_of_same_file _ _ _ _ _ Hd Ht') as Hx.
    congruence.
  - apply (backed_entry_frame token userId' filename' w w' Hfile Hside). split; assumption.
Qed.

Lemma delete_file_sound (userId filename : jsstring) :
  keeps (hands_on sound) (delete_file userId filename).
Proof.
  intros w Hs. pose proof Hs as [Hf (Hnd & Hrec & Hent)].
  destruct (isValidFilename (VString filename)) eqn:Hv.
  2:{ replace (snd (delete_file userId filename w)) with w; [exact Hs|].
      unfold delete_file, try_catch. rewrite Hv. reflexivity. }
  pose proof (delete_file_touches_only userId filename w) as Hfoot.
  pose proof (delete_file_no_new_dirs userId filename w) as Hdirs.
  pose proof (delete_file_shrinks userId filename w) as Hshrink.
  pose proof (delete_file_calm userId filename w Hf) as Hcalm.
  split; [exact Hcalm|]. split; [apply (no_dirs_kept w); assumption|].
  split; [apply (delete_file_records userId filename w Hrec)|].
  intros token userId' filename' Hl.
  destruct (node_at (file_path userId filename) w) as [[data t|]|] eqn:Hn.
  - destruct (stored_record userId filename w Hrec) as [fields Hobj].
    destruct (delete_file_present userId filename w data t Hf Hv Hn)
      as (shared & w' & Hpub & Hrun & _ & _ & Hreg'); [rewrite Hobj; discriminate|].
    rewrite Hrun in Hfoot, Hl |- *. cbn [snd] in Hfoot, Hl |- *. rewrite Hreg' in Hl.
    apply link_left in Hl as [Hl' Hnot].
    destruct (Hent _ _ _ Hl') as (Hv' & Hn' & Ht'). split; [exact Hv'|].
    destruct (entry_untouched userId userId' filename' [filename] w w') as [Hfile Hside];
      [exact Hfoot|intros f [<-|[]]; exact Hv|exact Hv'| |].
    + destruct (decide (getUserDataDir userId' = getUserDataDir userId)) as [Hd|Hd];
        [right|left; exact Hd].
      intros [<-|[]]. apply Hnot. pose proof (link_of_same_file _ _ _ _ _ Hd Ht') as Hx.
      congruence.
    + apply (backed_entry_frame token userId' filename' w w' Hfile Hside). split; assumption.
  - exfalso. exact (Hnd _ Hn).
  - pose proof (delete_file_missing_disk userId filename w Hv Hn) as Hdisk.
    destruct (Hent _ _ _ (Hshrink _ _ Hl)) as (Hv' & Hn' & Ht'). split; [exact Hv'|].
    apply (backed_entry_frame token userId' filename' w);
      [apply node_at_same_disk, Hdisk | apply node_at_same_disk, Hdisk | split; assumption].
Qed.

Lemma rename_file_sound (userId oldFilename : jsstring) (newName : Js.value) :
  keeps (hands_on sound) (rename_file userId oldFilename newName).
Proof.
  intros w Hs. pose proof Hs as [Hf (Hnd & Hrec & Hent)].
  destruct (negb (isValidFilename (VString oldFilename)) || negb (isValidFilename newName))
    eqn:Hinvalid.
  { replace (snd (rename_file userId oldFilename newName w)) with w; [exact Hs|].
    unfold rename_file, try_catch. rewrite Hinvalid. reflexivity. }
  apply orb_false_iff in Hinvalid as [Hvo Hvn].
  apply negb_false_iff in Hvo, Hvn.
  destruct newName as [| |b|z|new|]; try discriminate Hvn.
  destruct (node_at (file_path userId new) w) as [n'|] eqn:Hnew.
  { rewrite (rename_file_conflict userId oldFilename new w n' Hf Hvo Hvn Hnew).
    apply sound_next_call, Hs. }
  destruct (node_at (file_path userId oldFilename) w) as [n|] eqn:Hold.
  2:{ rewrite (rename_file_missing userId oldFilename new w Hf Hvo Hvn Hnew Hold).
      apply sound_next_call, sound_next_call, Hs. }
  pose proof (rename_file_touches_only userId oldFilename new w) as Hfoot.
  pose proof (rename_file_no_new_dirs userId oldFilename (VString new) w) as Hdirs.
  pose proof (rename_file_calm userId oldFilename (VString new) w Hf) as Hcalm.
  pose proof (rename_file_records userId oldFilename new Hvn w Hrec) as Hrec'.
  destruct (stored_record userId oldFilename w Hrec) as [fields Hobj].
  destruct (public_token_returns (JObject fields)) as [shared Hpub]; [discriminate|].
  rewrite <- Hobj in Hpub.
  destruct (rename_file_moves_run userId oldFilename new w n shared Hf Hvo Hvn Hnew Hold
              (Hnd _) Hpub)
    as (w' & Hrun & Hnew' & _ & Hmoved & Hreg').
  rewrite Hrun in Hfoot, Hdirs, Hcalm, Hrec' |- *.
  cbn [snd] in Hfoot, Hdirs, Hcalm, Hrec' |- *.
  split; [exact Hcalm|]. split; [apply (no_dirs_kept w); assumption|].
  split; [exact Hrec'|].
  intros token userId' filename' Hl. rewrite Hreg' in Hl.
  assert ((token, userId', filename') = (token, userId, new) /\
          shared = Some (JString token) \/
          publicFilesRegistry w !! token
          = Some {| entry_userId := Some (JString userId'); entry_filename := filename' |} /\
          shared <> Some (JString token)) as [[Heq Hshared]|[Hl' Hnot]].
  { destruct shared as [publicId|]; [|right; split; [exact Hl|discriminate]].
    rewrite registry_put_lookup in Hl.
    destruct publicId as [|b|x|key|items|fs]; try (right; split; [exact Hl|discriminate]).
    destruct (decide (key = token)) as [->|Hne].
    - left. injection Hl as <- <-. split; reflexivity.
    - right. split; [exact Hl|congruence]. }
  - injection Heq as -> ->. split; [exact Hvn|]. split; [exists n; exact Hnew'|].
    rewrite Hshared in Hpub.
    unfold stored_metadata in Hpub |- *.
    destruct (node_at (getMetadataPath userId oldFilename) w) as [[data t|]|] eqn:Hside;
      try discriminate Hpub.
    destruct (Hmoved data t eq_refl) as [Hside' _]. rewrite Hside'. exact Hpub.
  - destruct (Hent _ _ _ Hl') as (Hv' & Hn' & Ht'). split; [exact Hv'|].
    destruct (entry_untouched userId userId' filename' [oldFilename; new] w w')
      as [Hfile Hside];
      [exact Hfoot|intros f [<-|[<-|[]]]; assumption|exact Hv'| |].
    + destruct (decide (getUserDataDir userId' = getUserDataDir userId)) as [Hd|Hd];
        [right|left; exact Hd].
      intros [<-|[<-|[]]].
      * apply Hnot. pose proof (link_of_same_file _ _ _ _ _ Hd Ht') as Hx. congruence.
      * destruct Hn' as [m Hm]. rewrite (same_dir_file _ _ _ Hd), Hnew in Hm.
        discriminate Hm.
    + apply (backed_entry_frame token userId' filename' w w' Hfile Hside). split; assumption.
Qed.

Lemma requireAuth_sound (h : Headers) (next : jsstring -> M Response) :
  (forall userId, keeps (hands_on sound) (next userId)) ->
  keeps (hands_on sound) (requireAuth h next).
Proof.
  intros Hnext. unfold requireAuth. destruct (getUserId h) as [userId|].
  - apply Hnext.
  - apply keeps_ret.
Qed.

Lemma handle_sound (r : Request) : keeps (hands_on sound) (handle r).
Proof.
  destruct r; cbn [handle]; try (apply requireAuth_sound; intros userId).
  - apply list_files_sound.
  - apply read_file_sound.
  - apply save_file_sound.
  - apply delete_file_sound.
  - apply rename_file_sound.
  - apply share_file_sound.
  - apply unshare_file_sound.
  - apply public_file_sound.
Qed.

End Sound.

Lemma sound_fresh_store {P : Platform} (w : World) :
  faults w = [] -> disk w = [] -> publicFilesRegistry w = ∅ -> sound w.
Proof.
  intros Hf Hd Hr. split; [exact Hf|]. split; [|split].
  - intros p. unfold node_at. rewrite Hd. discriminate.
  - intros dir f data t v Hn. unfold node_at in Hn. rewrite Hd in Hn. discriminate Hn.
  - intros token userId filename Hl. rewrite Hr, lookup_empty in Hl. discriminate Hl.
Qed.



(** ** What the routes answer *)

Section Answers.

Context (codes : list Z).

Lemma yields_ret (r : Response) : In (status r) codes -> yields codes (ret r).
Proof. intros H w r' w' E. injection E as <- _. exact H. Qed.

Lemma yields_throw (e : Error) : yields codes (throw e).
Proof. intros w r w' E. discriminate E. Qed.

Lemma yields_bind {A : Type} (m : M A) (k : A -> M Response) :
  (forall a, yields codes (k a)) -> yields codes (bind m k).
Proof.
  intros Hk w r w' E. unfold bind in E.
  destruct (m w) as [[a|e] w1]; [exact (Hk a w1 r w' E) | discriminate E].
Qed.

Lemma answers_ret (r : Response) : In (status r) codes -> answers codes (ret r).
Proof. intros H w. exists r, w. split; [reflexivity|exact H]. Qed.

Lemma answers_reported (line : jsstring) (e : Error) (r : Response) :
  In (status r) codes -> answers codes (console_error line e ;; ret r).
Proof. intros H w. eexists r, _. split; [reflexivity|exact H]. Qed.

Lemma answers_try_catch (body : M Response) (handler : Error -> M Response) :
  yields codes body -> (forall e, answers codes (handler e)) ->
  answers codes (try_catch body handler).
Proof.
  intros Hb Hh w. unfold try_catch. destruct (body w) as [[r|e] w1] eqn:E.
  - exists r, w1. split; [reflexivity|]. exact (Hb w r w1 E).
  - apply Hh.
Qed.

Lemma answers_requireAuth {P : Platform} (h : Headers) (next : jsstring -> M Response) :
  In 401%Z codes -> (forall userId, answers codes (next userId)) ->
  answers codes (requireAuth h next).
Proof.
  intros H401 Hnext. unfold requireAuth. destruct (getUserId h) as [userId|].
  - apply Hnext.
  - apply answers_ret. exact H401.
Qed.

End Answers.

Ltac yields_walk :=
  repeat first
    [ apply yields_ret; cbn; tauto
    | apply yields_throw
    | apply yields_bind; intros ?
    | match goal with
      | |- yields _ (if ?b then _ else _) => destruct b
      | |- yields _ (match ?x with _ => _ end) => destruct x
      end ].

Ltac answers_route :=
  unfold_handlers;
  apply answers_try_catch;
  [ yields_walk
  | intros ?; first [apply answers_ret | apply answers_reported]; cbn; tauto ].

(** Every route answers.  Whatever the request, the disk and the device, no
    exception leaves a handler: each route returns a response, and its status
    is one of those listed here.  [list] answers 200 whatever happens; [read]
    and the public route never answer 500. *)
Theorem routes_always_answer {P : Platform} (h : Headers) (filename : jsstring) :
  answers [200; 401]%Z (handle (GetFiles h)) /\
  answers [200; 400; 401; 404]%Z (handle (GetFile h filename)) /\
  (forall content, answers [200; 400; 401; 413; 500]%Z (handle (PostFile h filename content))) /\
  answers [200; 400; 401; 500]%Z (handle (DeleteFile h filename)) /\
  (forall newName,
      answers [200; 400; 401; 409; 500]%Z (handle (PutRename h filename newName))) /\
  answers [200; 400; 401; 404; 500]%Z (handle (PostShare h filename)) /\
  answers [200; 400; 401; 404; 500]%Z (handle (PostUnshare h filename)) /\
  (forall publicId, answers [200; 400; 404]%Z (handle (GetPublic publicId))).
Proof.
  assert (forall codes (next : jsstring -> M Response),
             In 401%Z codes -> (forall userId, answers codes (next userId)) ->
             answers codes (requireAuth h next)) as Hauth
      by (intros; apply answers_requireAuth; assumption).
  split; [apply Hauth; [cbn; tauto|intros userId; answers_route]|].
  split; [apply Hauth; [cbn; tauto|intros userId; answers_route]|].
  split; [intros content; apply Hauth; [cbn; tauto|intros userId; answers_route]|].
  split; [apply Hauth; [cbn; tauto|intros userId; answers_route]|].
  split; [intros newName; apply Hauth; [cbn; tauto|intros userId; answers_route]|].
  split; [apply Hauth; [cbn; tauto|intros userId; answers_route]|].
  split; [apply Hauth; [cbn; tauto|intros userId; answers_route]|].
  intros publicId. cbn [handle]. answers_route.
Qed.

(** ** The rate limiter *)

Lemma window_positive : (0 < RATE_LIMIT_WINDOW)%Z.
Proof. reflexivity. Qed.

(** The entry of the client after a run of the limiter, and the answer. *)
Lemma rateLimit_own (req : Connection) (s : Stamp) (m : gmap jsstring ClientData) :
  let before :=
    default {| count := 0; resetTime := now s + RATE_LIMIT_WINDOW |} (m !! clientIp req) in
  let after :=
    if (resetTime before <? now s)%Z
    then {| count := 1; resetTime := now s + RATE_LIMIT_WINDOW |}
    else {| count := count before + 1; resetTime := resetTime before |} in
  fst (rateLimit req s m) !! clientIp req = Some after /\
  snd (rateLimit req s m)
  = if (RATE_LIMIT_MAX_REQUESTS <? count after)%Z then Some too_many else None.
Proof.
  cbv zeta. unfold rateLimit.
  set (before := default _ (m !! clientIp req)).
  set (after := if (resetTime before <? now s)%Z then _ else _).
  assert (~ (resetTime after < now s)%Z) as Hkeep.
  { unfold after. destruct (Z.ltb_spec (resetTime before) (now s)); cbn [resetTime].
    - pose proof window_positive. lia.
    - lia. }
  split.
  - destruct (RATE_LIMIT_MAX_REQUESTS <? count after)%Z; cbn [fst];
      destruct (cleanup_due (random s));
      first [ apply map_lookup_filter_Some_2; [apply lookup_insert_eq | exact Hkeep]
            | apply lookup_insert_eq ].
  - destruct (RATE_LIMIT_MAX_REQUESTS <? count after)%Z; reflexivity.
Qed.

(** The entry of another client after a run of the limiter: as it was, or
    removed when it had run out. *)
Lemma rateLimit_other (req : Connection) (s : Stamp) (m : gmap jsstring ClientData)
    (ip : jsstring) :
  clientIp req <> ip ->
  fst (rateLimit req s m) !! ip = m !! ip \/
  (fst (rateLimit req s m) !! ip = None /\
   exists data, m !! ip = Some data /\ (resetTime data < now s)%Z).
Proof.
  intros Hne. unfold rateLimit.
  set (after := if (resetTime _ <? now s)%Z then _ else _).
  assert (fst (if (RATE_LIMIT_MAX_REQUESTS <? count after)%Z
               then (if cleanup_due (random s)
                     then filter (fun entry => ~ (resetTime (snd entry) < now s)%Z)
                            (<[clientIp req := after]> m)
                     else <[clientIp req := after]> m, Some too_many)
               else (if cleanup_due (random s)
                     then filter (fun entry => ~ (resetTime (snd entry) < now s)%Z)
                            (<[clientIp req := after]> m)
                     else <[clientIp req := after]> m, None))
          = if cleanup_due (random s)
            then filter (fun entry => ~ (resetTime (snd entry) < now s)%Z)
                   (<[clientIp req := after]> m)
            else <[clientIp req := after]> m) as ->
      by (destruct (RATE_LIMIT_MAX_REQUESTS <? count after)%Z; reflexivity).
  destruct (cleanup_due (random s)).
  - destruct (m !! ip) as [data|] eqn:E.
    + destruct (decide (resetTime data < now s)%Z) as [Hold|Hlive].
      * right. split; [|exists data; split; [reflexivity|exact Hold]].
        apply map_lookup_filter_None. right. intros x Hx.
        rewrite lookup_insert_ne, E in Hx by exact Hne. injection Hx as <-.
        cbn [snd]. intros H. exact (H Hold).
      * left. apply map_lookup_filter_Some_2; [|exact Hlive].
        rewrite lookup_insert_ne by exact Hne. exact E.
    + left. apply map_lookup_filter_None. left.
      rewrite lookup_insert_ne by exact Hne. exact E.
  - left. apply lookup_insert_ne, Hne.
Qed.

(** One run of the limiter inside the window: a request of the client is
    counted and answered by the count; a request of another client leaves
    the count as it is. *)
Lemma rateLimit_counted (t0 : Z) (ip : jsstring) (c : Z) (m : gmap jsstring ClientData)
    (req : Connection) (s : Stamp) :
  counted t0 ip c m -> (t0 <= now s <= t0 + RATE_LIMIT_WINDOW)%Z ->
  (clientIp req = ip ->
   counted t0 ip (c + 1) (fst (rateLimit req s m)) /\
   snd (rateLimit req s m)
   = if (RATE_LIMIT_MAX_REQUESTS <? c + 1)%Z then Some too_many else None) /\
  (clientIp req <> ip -> counted t0 ip c (fst (rateLimit req s m))).
Proof.
  intros Hc Hnow. split.
  - intros <-. destruct (rateLimit_own req s m) as [Hl Ha]. cbv zeta in Hl, Ha.
    destruct Hc as [[-> Hidle]|[Hpos (r & Hr & Hend)]].
    + unfold idle in Hidle. change (0 + 1)%Z with 1%Z.
      destruct (m !! clientIp req) as [data|] eqn:E; cbn [from_option id resetTime count] in Hl, Ha.
      * destruct (Z.ltb_spec (resetTime data) (now s)) as [_|Hge]; [|lia].
        cbn [count] in Ha. split; [|exact Ha].
        right. split; [lia|]. eexists. split; [exact Hl|]. lia.
      * pose proof window_positive.
        destruct (Z.ltb_spec (now s + RATE_LIMIT_WINDOW) (now s)) as [Hlt|_]; [lia|].
        cbn [count] in Ha. change (0 + 1)%Z with 1%Z in Hl, Ha. split; [|exact Ha].
        right. split; [lia|]. eexists. split; [exact Hl|]. lia.
    + rewrite Hr in Hl, Ha. cbn [from_option id resetTime count] in Hl, Ha.
      destruct (Z.ltb_spec r (now s)) as [Hlt|_]; [lia|]. cbn [count] in Ha.
      split; [|exact Ha]. right. split; [lia|]. exists r. split; [exact Hl|exact Hend].
  - intros Hne.
    destruct (rateLimit_other req s m ip Hne) as [Hsame|[Hgone (data & Hdata & Hold)]].
    + destruct Hc as [[-> Hidle]|[Hpos (r & Hr & Hend)]].
      * left. split; [reflexivity|]. unfold idle in *. rewrite Hsame. exact Hidle.
      * right. split; [exact Hpos|]. exists r. rewrite Hsame. split; assumption.
    + destruct Hc as [[-> Hidle]|[Hpos (r & Hr & Hend)]].
      * left. split; [reflexivity|]. unfold idle. rewrite Hgone. exact I.
      * exfalso. rewrite Hr in Hdata. injection Hdata as <-. cbn [resetTime] in Hold. lia.
Qed.

Lemma requests_of_cons {A : Type} (from : A -> Connection) (ip : jsstring) (a : A)
    (l : list A) :
  requests_of from ip (a :: l)
  = ((if str_eqb (clientIp (from a)) ip then 1 else 0) + requests_of from ip l)%Z.
Proof.
  unfold requests_of. cbn [List.filter].
  destruct (str_eqb (clientIp (from a)) ip); cbn [length]; lia.
Qed.

Lemma requests_of_nil {A : Type} (from : A -> Connection) (ip : jsstring) :
  requests_of from ip [] = 0%Z.
Proof. reflexivity. Qed.

Lemma requests_of_nonneg {A : Type} (from : A -> Connection) (ip : jsstring) (l : list A) :
  (0 <= requests_of from ip l)%Z.
Proof. unfold requests_of. lia. Qed.

Lemma rateLimit_all_counted (t0 : Z) (ip : jsstring) (hits : list (Connection * Stamp)) :
  forall (c : Z) (m : gmap jsstring ClientData),
    counted t0 ip c m ->
    (forall req s, In (req, s) hits -> (t0 <= now s <= t0 + RATE_LIMIT_WINDOW)%Z) ->
    forall (i : nat) (req : Connection) (s : Stamp),
      hits !! i = Some (req, s) -> clientIp req = ip ->
      rateLimit_all hits m !! i
      = Some (if (RATE_LIMIT_MAX_REQUESTS <? c + requests_of fst ip (take (S i) hits))%Z
              then Some too_many else None).
Proof.
  induction hits as [|[req0 s0] rest IH]; intros c m Hc Hwin i req s Hi Hip;
    [discriminate Hi|].
  cbn [rateLimit_all].
  destruct (rateLimit req0 s0 m) as [m' answer] eqn:E.
  assert (t0 <= now s0 <= t0 + RATE_LIMIT_WINDOW)%Z as Hnow0
      by (apply (Hwin req0 s0); left; reflexivity).
  destruct (rateLimit_counted t0 ip c m req0 s0 Hc Hnow0) as [Hown Hother].
  rewrite E in Hown, Hother. cbn [fst snd] in Hown, Hother.
  destruct i as [|i].
  - injection Hi as -> ->. destruct (Hown Hip) as [_ ->].
    change (take 1 ((req, s) :: rest)) with [(req, s)].
    rewrite requests_of_cons, requests_of_nil. cbn [fst].
    rewrite Hip, str_eqb_refl. replace (c + (1 + 0))%Z with (c + 1)%Z by lia. reflexivity.
  - change (rest !! i = Some (req, s)) in Hi.
    change ((answer :: rateLimit_all rest m') !! S i) with (rateLimit_all rest m' !! i).
    change (take (S (S i)) ((req0, s0) :: rest))
      with ((req0, s0) :: take (S i) rest).
    rewrite requests_of_cons. cbn [fst].
    assert (forall req' s', In (req', s') rest ->
                            (t0 <= now s' <= t0 + RATE_LIMIT_WINDOW)%Z) as Hwin'
        by (intros req' s' Hin; apply (Hwin req' s'); right; exact Hin).
    destruct (str_eqb (clientIp req0) ip) eqn:Hfrom.
    + apply str_eqb_eq in Hfrom. destruct (Hown Hfrom) as [Hc' _].
      rewrite (IH (c + 1)%Z m' Hc' Hwin' i req s Hi Hip).
      replace (c + 1 + requests_of fst ip (take (S i) rest))%Z
        with (c + (1 + requests_of fst ip (take (S i) rest)))%Z by lia. reflexivity.
    + apply str_eqb_neq in Hfrom.
      rewrite (IH c m' (Hother Hfrom) Hwin' i req s Hi Hip).
      replace (c + (0 + requests_of fst ip (take (S i) rest)))%Z
        with (c + requests_of fst ip (take (S i) rest))%Z by lia. reflexivity.
Qed.

(** The limit of a window.  Take a client that is idle at [t0] (no entry, or
    one that has run out) and requests of any clients whose runs of the
    limiter all fall between [t0] and the end of the window that begins
    there.  Then a request of the client is let through exactly when it is
    among its first 100 in the list, whatever the other clients ask and
    whatever the random draws that decide on the cleanup. *)
Theorem rateLimit_window (t0 : Z) (ip : jsstring) (hits : list (Connection * Stamp))
    (m : gmap jsstring ClientData) :
  idle t0 m ip ->
  (forall req s, In (req, s) hits -> (t0 <= now s <= t0 + RATE_LIMIT_WINDOW)%Z) ->
  forall (i : nat) (req : Connection) (s : Stamp),
    hits !! i = Some (req, s) -> clientIp req = ip ->
    rateLimit_all hits m !! i
    = Some (if (RATE_LIMIT_MAX_REQUESTS <? requests_of fst ip (take (S i) hits))%Z
            then Some too_many else None).
Proof.
  intros Hidle Hwin i req s Hi Hip.
  rewrite (rateLimit_all_counted t0 ip hits 0 m (or_introl (conj eq_refl Hidle)) Hwin
             i req s Hi Hip).
  reflexivity.
Qed.

Section LimitedRoutes.

Context {P : Platform}.

Lemma public_file_answers (publicId : jsstring) :
  answers [200; 400; 404]%Z (public_file publicId).
Proof. answers_route. Qed.

(** A request of another client, whatever it asks, leaves the count of the
    client as it is. *)
Lemma api_other (t0 : Z) (ip : jsstring) (c : Z) (a : Arrival)
    (m : gmap jsstring ClientData) (w : World) :
  counted t0 ip c m ->
  (t0 <= now (arrival_first a) <= t0 + RATE_LIMIT_WINDOW)%Z ->
  (t0 <= now (arrival_second a) <= t0 + RATE_LIMIT_WINDOW)%Z ->
  clientIp (arrival_from a) <> ip ->
  counted t0 ip c (fst (snd (api a (m, w)))).
Proof.
  intros Hc H1 H2 Hne. unfold api.
  pose proof (proj2 (rateLimit_counted t0 ip c m (arrival_from a) (arrival_first a) Hc H1)
                Hne) as Hc1.
  destruct (rateLimit (arrival_from a) (arrival_first a) m) as [m1 [answer|]];
    cbn [fst snd] in Hc1 |- *; [exact Hc1|].
  destruct (arrival_request a);
    try (destruct (handle _ w) as [answer w']; exact Hc1).
  pose proof (proj2 (rateLimit_counted t0 ip c m1 (arrival_from a) (arrival_second a) Hc1 H2)
                Hne) as Hc2.
  destruct (rateLimit (arrival_from a) (arrival_second a) m1) as [m2 [answer|]];
    cbn [fst snd] in Hc2 |- *; [exact Hc2|].
  destruct (public_file publicId w) as [answer w']. exact Hc2.
Qed.

(** A request of the client for a public link: the limiter runs once and
    stops it, or runs twice. *)
Lemma api_public (t0 : Z) (ip : jsstring) (c : Z) (a : Arrival) (publicId : jsstring)
    (m : gmap jsstring ClientData) (w : World) :
  counted t0 ip c m ->
  (t0 <= now (arrival_first a) <= t0 + RATE_LIMIT_WINDOW)%Z ->
  (t0 <= now (arrival_second a) <= t0 + RATE_LIMIT_WINDOW)%Z ->
  clientIp (arrival_from a) = ip -> arrival_request a = GetPublic publicId ->
  ((RATE_LIMIT_MAX_REQUESTS < c + 1)%Z ->
   fst (api a (m, w)) = Return too_many /\
   counted t0 ip (c + 1) (fst (snd (api a (m, w))))) /\
  ((c + 2 <= RATE_LIMIT_MAX_REQUESTS)%Z ->
   (exists r, fst (api a (m, w)) = Return r /\ status r <> 429%Z) /\
   counted t0 ip (c + 2) (fst (snd (api a (m, w))))).
Proof.
  intros Hc H1 H2 Hip Hreq. unfold api. rewrite Hreq.
  destruct (proj1 (rateLimit_counted t0 ip c m (arrival_from a) (arrival_first a) Hc H1) Hip)
    as [Hc1 Ha1].
  destruct (rateLimit (arrival_from a) (arrival_first a) m) as [m1 answer1].
  cbn [fst snd] in Hc1, Ha1. subst answer1.
  destruct (Z.ltb_spec RATE_LIMIT_MAX_REQUESTS (c + 1)) as [Hover|Hunder].
  { split; [intros _; split; [reflexivity|exact Hc1] | intros H; lia]. }
  split; [intros H; lia|]. intros Hroom.
  destruct (proj1 (rateLimit_counted t0 ip (c + 1) m1 (arrival_from a) (arrival_second a)
                     Hc1 H2) Hip) as [Hc2 Ha2].
  destruct (rateLimit (arrival_from a) (arrival_second a) m1) as [m2 answer2].
  cbn [fst snd] in Hc2, Ha2. subst answer2.
  replace (c + 1 + 1)%Z with (c + 2)%Z in * by lia.
  destruct (Z.ltb_spec RATE_LIMIT_MAX_REQUESTS (c + 2)) as [Hover|_]; [lia|].
  destruct (public_file_answers publicId w) as (r & w' & Hrun & Hstatus).
  rewrite Hrun. cbn [fst snd]. split; [|exact Hc2].
  exists r. split; [reflexivity|]. intros E. rewrite E in Hstatus.
  cbn in Hstatus. intuition discriminate.
Qed.

Lemma api_all_counted (t0 : Z) (ip : jsstring) (arrivals : list Arrival) :
  forall (k c : Z) (m : gmap jsstring ClientData) (w : World),
    (0 <= k)%Z -> (k <= 50 /\ c = 2 * k \/ 50 < k /\ c = 50 + k)%Z ->
    counted t0 ip c m ->
    (forall a, In a arrivals ->
               (t0 <= now (arrival_first a) <= t0 + RATE_LIMIT_WINDOW)%Z /\
               (t0 <= now (arrival_second a) <= t0 + RATE_LIMIT_WINDOW)%Z) ->
    (forall a, In a arrivals -> clientIp (arrival_from a) = ip ->
               exists publicId, arrival_request a = GetPublic publicId) ->
    forall (i : nat) (a : Arrival),
      arrivals !! i = Some a -> clientIp (arrival_from a) = ip ->
      exists r,
        api_all arrivals (m, w) !! i = Some (Return r) /\
        (status r = 429%Z <->
         (50 < k + requests_of arrival_from ip (take (S i) arrivals))%Z).
Proof.
  induction arrivals as [|a0 rest IH]; intros k c m w Hk Hkc Hc Hwin Hpub i a Hi Hip;
    [discriminate Hi|].
  cbn [api_all].
  destruct (Hwin a0 (or_introl eq_refl)) as [H1 H2].
  assert (forall a', In a' rest ->
                     (t0 <= now (arrival_first a') <= t0 + RATE_LIMIT_WINDOW)%Z /\
                     (t0 <= now (arrival_second a') <= t0 + RATE_LIMIT_WINDOW)%Z) as Hwin'
      by (intros a' Hin; apply Hwin; right; exact Hin).
  assert (forall a', In a' rest -> clientIp (arrival_from a') = ip ->
                     exists publicId, arrival_request a' = GetPublic publicId) as Hpub'
      by (intros a' Hin; apply Hpub; right; exact Hin).
  pose proof (requests_of_nonneg arrival_from ip (take (S (pred i)) rest)) as Hnonneg.
  destruct (str_eqb (clientIp (arrival_from a0)) ip) eqn:Hfrom.
  - pose proof Hfrom as Hip0. apply str_eqb_eq in Hip0.
    destruct (Hpub a0 (or_introl eq_refl) Hip0) as [publicId Hreq].
    destruct (api_public t0 ip c a0 publicId m w Hc H1 H2 Hip0 Hreq) as [Hover Hroom].
    destruct (api a0 (m, w)) as [answer [m' w']]. cbn [fst snd] in Hover, Hroom.
    unfold RATE_LIMIT_MAX_REQUESTS in Hover, Hroom.
    destruct (Z_lt_le_dec k 50) as [Hlow|Hhigh].
    + destruct Hroom as [(r & -> & Hr) Hc']; [lia|].
      destruct i as [|i].
      * exists r. split; [reflexivity|].
        change (take 1 (a0 :: rest)) with [a0].
        rewrite requests_of_cons, requests_of_nil, Hfrom. split; [intros E; contradiction|lia].
      * change (rest !! i = Some a) in Hi.
        destruct (IH (k + 1)%Z (c + 2)%Z m' w' ltac:(lia) ltac:(lia) Hc' Hwin' Hpub' i a Hi Hip)
          as (r' & Hr' & Hiff).
        exists r'. split; [exact Hr'|].
        change (take (S (S i)) (a0 :: rest)) with (a0 :: take (S i) rest).
        rewrite requests_of_cons, Hfrom. rewrite Hiff. lia.
    + destruct Hover as [-> Hc']; [lia|].
      destruct i as [|i].
      * exists too_many. split; [reflexivity|].
        change (take 1 (a0 :: rest)) with [a0].
        rewrite requests_of_cons, requests_of_nil, Hfrom. split; [intros _; lia|reflexivity].
      * change (rest !! i = Some a) in Hi.
        destruct (IH (k + 1)%Z (c + 1)%Z m' w' ltac:(lia) ltac:(lia) Hc' Hwin' Hpub' i a Hi Hip)
          as (r' & Hr' & Hiff).
        exists r'. split; [exact Hr'|].
        change (take (S (S i)) (a0 :: rest)) with (a0 :: take (S i) rest).
        rewrite requests_of_cons, Hfrom. rewrite Hiff. lia.
  - pose proof Hfrom as Hne. apply str_eqb_neq in Hne.
    pose proof (api_other t0 ip c a0 m w Hc H1 H2 Hne) as Hc'.
    destruct (api a0 (m, w)) as [answer [m' w']]. cbn [fst snd] in Hc'.
    destruct i as [|i].
    + injection Hi as ->. contradiction.
    + change (rest !! i = Some a) in Hi.
      destruct (IH k c m' w' Hk Hkc Hc' Hwin' Hpub' i a Hi Hip) as (r' & Hr' & Hiff).
      exists r'. split; [exact Hr'|].
      change (take (S (S i)) (a0 :: rest)) with (a0 :: take (S i) rest).
      rewrite requests_of_cons, Hfrom. rewrite Hiff. lia.
Qed.

End LimitedRoutes.

(** The public route is counted twice.  [rateLimit] stands before every
    route below [/api] and once more before the handler of the public
    route, so a request for a public link that reaches its handler has been
    counted twice.  Take a client that is idle at [t0] and asks for nothing
    but public links, among requests of any clients whose runs of the
    limiter fall into the window that begins at [t0]: a request of the
    client is answered 429 exactly when it is not among its first 50. *)
Theorem public_route_is_counted_twice {P : Platform} (t0 : Z) (ip : jsstring)
    (arrivals : list Arrival) (m : gmap jsstring ClientData) (w : World) :
  idle t0 m ip ->
  (forall a, In a arrivals ->
             (t0 <= now (arrival_first a) <= t0 + RATE_LIMIT_WINDOW)%Z /\
             (t0 <= now (arrival_second a) <= t0 + RATE_LIMIT_WINDOW)%Z) ->
  (forall a, In a arrivals -> clientIp (arrival_from a) = ip ->
             exists publicId, arrival_request a = GetPublic publicId) ->
  forall (i : nat) (a : Arrival),
    arrivals !! i = Some a -> clientIp (arrival_from a) = ip ->
    exists r,
      api_all arrivals (m, w) !! i = Some (Return r) /\
      (status r = 429%Z <-> (50 < requests_of arrival_from ip (take (S i) arrivals))%Z).
Proof.
  intros Hidle Hwin Hpub i a Hi Hip.
  destruct (api_all_counted t0 ip arrivals 0 0 m w ltac:(lia) ltac:(lia)
              (or_introl (conj eq_refl Hidle)) Hwin Hpub i a Hi Hip) as (r & Hr & Hiff).
  exists r. split; [exact Hr|]. rewrite Hiff. lia.
Qed.

Lemma rateLimit_window_toy :
  clientIp Example.client = lit "203.0.113.7" /\
  rateLimit_all (repeat (Example.client, Example.noon) 101) ∅ !! 99%nat = Some None /\
  rateLimit_all (repeat (Example.client, Example.noon) 101) ∅ !! 100%nat
  = Some (Some too_many).
Proof.
  assert (idle 0 (∅ : gmap jsstring ClientData) (lit "203.0.113.7")) as Hidle.
  { unfold idle. rewrite lookup_empty. exact I. }
  assert (forall req s, In (req, s) (repeat (Example.client, Example.noon) 101) ->
                        (0 <= now s <= 0 + RATE_LIMIT_WINDOW)%Z) as Hwin.
  { intros req s Hin. apply repeat_spec in Hin. injection Hin as -> ->.
    vm_compute. split; discriminate. }
  split; [reflexivity|]. split.
  - rewrite (rateLimit_window 0 (lit "203.0.113.7") _ ∅ Hidle Hwin 99
               Example.client Example.noon eq_refl eq_refl).
    reflexivity.
  - rewrite (rateLimit_window 0 (lit "203.0.113.7") _ ∅ Hidle Hwin 100
               Example.client Example.noon eq_refl eq_refl).
    reflexivity.
Defined.

Lemma public_route_is_counted_twice_toy :
  exists r,
    api_all (P := Toy.platform) (repeat Example.visit 51) (∅, Example.shared_world) !! 50%nat
    = Some (Return r) /\
    status r = 429%Z.
Proof.
  assert (idle 0 (∅ : gmap jsstring ClientData) (lit "203.0.113.7")) as Hidle.
  { unfold idle. rewrite lookup_empty. exact I. }
  destruct (public_route_is_counted_twice (P := Toy.platform) 0 (lit "203.0.113.7")
              (repeat Example.visit 51) ∅ Example.shared_world Hidle) with (i := 50%nat)
      (a := Example.visit) as (r & Hr & Hiff).
  - intros a Hin. apply repeat_spec in Hin. subst a. vm_compute. repeat split; discriminate.
  - intros a Hin _. apply repeat_spec in Hin. subst a. eexists. reflexivity.
  - reflexivity.
  - reflexivity.
  - exists r. split; [exact Hr|]. apply Hiff. vm_compute. reflexivity.
Defined.

(** ** The cleanup of the limiter *)

Lemma live_live (t t' : Z) (o : option ClientData) :
  (t <= t')%Z -> live t' (live t o) = live t' o.
Proof.
  intros Hle. destruct o as [data|]; [|reflexivity]. cbn [live].
  destruct (Z.ltb_spec (resetTime data) t) as [Hold|Hnew]; [|reflexivity].
  cbn [live]. destruct (Z.ltb_spec (resetTime data) t'); [reflexivity|lia].
Qed.

Lemma alike_later (t t' : Z) (m1 m2 : gmap jsstring ClientData) :
  (t <= t')%Z -> alike t m1 m2 -> alike t' m1 m2.
Proof.
  intros Hle H ip. rewrite <- (live_live t t' (m1 !! ip) Hle), (H ip).
  apply live_live, Hle.
Qed.

(** What the limiter makes of the entry of the client depends on the entry
    as far as it is live. *)
Lemma rateLimit_own_live (req : Connection) (s : Stamp) (m : gmap jsstring ClientData) :
  let after :=
    match live (now s) (m !! clientIp req) with
    | Some data => {| count := count data + 1; resetTime := resetTime data |}
    | None => {| count := 1; resetTime := now s + RATE_LIMIT_WINDOW |}
    end in
  fst (rateLimit req s m) !! clientIp req = Some after /\
  snd (rateLimit req s m)
  = if (RATE_LIMIT_MAX_REQUESTS <? count after)%Z then Some too_many else None.
Proof.
  cbv zeta. destruct (rateLimit_own req s m) as [Hl Ha]. cbv zeta in Hl, Ha.
  assert ((if (resetTime
                 (default {| count := 0; resetTime := now s + RATE_LIMIT_WINDOW |}
                    (m !! clientIp req)) <? now s)%Z
           then {| count := 1; resetTime := now s + RATE_LIMIT_WINDOW |}
           else {| count :=
                     count (default {| count := 0; resetTime := now s + RATE_LIMIT_WINDOW |}
                              (m !! clientIp req)) + 1;
                   resetTime :=
                     resetTime (default {| count := 0;
                                           resetTime := now s + RATE_LIMIT_WINDOW |}
                                  (m !! clientIp req)) |})
          = match live (now s) (m !! clientIp req) with
            | Some data => {| count := count data + 1; resetTime := resetTime data |}
            | None => {| count := 1; resetTime := now s + RATE_LIMIT_WINDOW |}
            end) as E.
  { destruct (m !! clientIp req) as [data|]; cbn [from_option id live resetTime count].
    - destruct (resetTime data <? now s)%Z; reflexivity.
    - pose proof window_positive.
      destruct (Z.ltb_spec (now s + RATE_LIMIT_WINDOW) (now s)); [lia|reflexivity]. }
  rewrite E in Hl, Ha. split; assumption.
Qed.

Lemma rateLimit_other_live (req : Connection) (s : Stamp) (m : gmap jsstring ClientData)
    (ip : jsstring) :
  clientIp req <> ip ->
  live (now s) (fst (rateLimit req s m) !! ip) = live (now s) (m !! ip).
Proof.
  intros Hne.
  destruct (rateLimit_other req s m ip Hne) as [->|[-> (data & -> & Hold)]]; [reflexivity|].
  cbn [live]. apply Z.ltb_lt in Hold. rewrite Hold. reflexivity.
Qed.

(** One run of the limiter on two maps that are alike: the same answer, and
    maps that are alike, whatever the two draws. *)
Lemma rateLimit_alike (req : Connection) (s1 s2 : Stamp) (m1 m2 : gmap jsstring ClientData) :
  now s1 = now s2 -> alike (now s1) m1 m2 ->
  snd (rateLimit req s1 m1) = snd (rateLimit req s2 m2) /\
  alike (now s1) (fst (rateLimit req s1 m1)) (fst (rateLimit req s2 m2)).
Proof.
  intros Hnow Halike.
  destruct (rateLimit_own_live req s1 m1) as [Hl1 Ha1].
  destruct (rateLimit_own_live req s2 m2) as [Hl2 Ha2].
  cbv zeta in Hl1, Ha1, Hl2, Ha2.
  rewrite <- Hnow in Hl2, Ha2. rewrite <- (Halike (clientIp req)) in Hl2, Ha2.
  split; [rewrite Ha1, Ha2; reflexivity|].
  intros ip. destruct (decide (clientIp req = ip)) as [<-|Hne].
  - rewrite Hl1, Hl2. reflexivity.
  - rewrite (rateLimit_other_live req s1 m1 ip Hne).
    rewrite Hnow, (rateLimit_other_live req s2 m2 ip Hne), <- Hnow. apply Halike.
Qed.

Lemma rateLimit_all_alike (hits1 hits2 : list (Connection * Stamp)) :
  same_requests hits1 hits2 ->
  forall (t : Z) (m1 m2 : gmap jsstring ClientData),
    clock_runs_on t hits1 -> alike t m1 m2 ->
    rateLimit_all hits1 m1 = rateLimit_all hits2 m2.
Proof.
  induction 1 as [|[req1 s1] [req2 s2] hits1 hits2 [Hreq Hnow] Hrest IH];
    intros t m1 m2 Hclock Halike; [reflexivity|].
  cbn [fst snd] in Hreq, Hnow. subst req2. cbn [rateLimit_all].
  destruct Hclock as [Hle Hclock].
  destruct (rateLimit_alike req1 s1 s2 m1 m2 Hnow (alike_later t (now s1) m1 m2 Hle Halike))
    as [Hanswer Hmaps].
  destruct (rateLimit req1 s1 m1) as [m1' a1], (rateLimit req1 s2 m2) as [m2' a2].
  cbn [fst snd] in Hanswer, Hmaps. subst a2. f_equal.
  apply (IH (now s1)); assumption.
Qed.

(** The cleanup is not observable.  When the clock does not go back, the
    answers of the limiter to a list of requests do not depend on the random
    draws: two runs on the same requests at the same times give the same
    answers, whichever of them clean the map up and when. *)
Theorem cleanup_is_not_observable (t : Z) (hits1 hits2 : list (Connection * Stamp))
    (m : gmap jsstring ClientData) :
  same_requests hits1 hits2 -> clock_runs_on t hits1 ->
  rateLimit_all hits1 m = rateLimit_all hits2 m.
Proof.
  intros Hsame Hclock.
  apply (rateLimit_all_alike hits1 hits2 Hsame t m m Hclock). intros ip. reflexivity.
Qed.

Lemma cleanup_is_not_observable_toy :
  cleanup_due (random Example.noon_cleanup) = true /\
  cleanup_due (random Example.noon) = false /\
  rateLimit_all (repeat (Example.client, Example.noon_cleanup) 3) ∅
  = rateLimit_all (repeat (Example.client, Example.noon) 3) ∅.
Proof.
  split; [reflexivity|]. split; [reflexivity|].
  apply (cleanup_is_not_observable 0).
  - repeat constructor.
  - cbn. repeat split; discriminate.
Defined.

(** ** Who is signed in *)

(** The user route and [requireAuth] agree.  [/api/user] answers 401 exactly
    when [requireAuth] does, that is when neither header names a user; and
    when it answers, the identity under which [requireAuth] runs the
    handlers is the email it reports, or the username when it reports no
    email.  That identity is never the empty string, no field of the answer
    is an empty string, there is an avatar exactly when there is a username,
    and a display name unless both the username and the preferred username
    are missing. *)
Theorem user_route_agrees_with_requireAuth {P : Platform} (h : Headers)
    (preferred_username : option jsstring) :
  (get_user h preferred_username = NotAuthenticated <-> getUserId h = None) /\
  (forall next w,
      get_user h preferred_username = NotAuthenticated ->
      requireAuth h next w
      = (Return (status_json 401 (BError "Authentication required")), w)) /\
  (forall info,
      get_user h preferred_username = SignedIn info ->
      (exists userId,
          getUserId h = Some userId /\ userId <> [] /\
          (forall next, requireAuth h next = next userId) /\
          Some userId = match email info with
                        | Some e => Some e
                        | None => username info
                        end) /\
      null_or_filled (username info) /\ null_or_filled (email info) /\
      null_or_filled (displayName info) /\ null_or_filled (avatarUrl info) /\
      (avatarUrl info = None <-> username info = None) /\
      (displayName info = None <->
       username info = None /\ truthy_opt preferred_username = false)).
Proof.
  unfold get_user, getUserId, requireAuth, getUserId, or_else.
  destruct h as [[[|c e]|] [[|c' u]|]]; cbn;
    destruct preferred_username as [[|c'' p]|]; cbn;
    (split; [split; intros H; first [reflexivity | discriminate H]|]);
    (split; [intros next w H; first [reflexivity | discriminate H]|]);
    intros info H; try discriminate H; injection H as <-; cbn;
    (split; [eexists; split; [reflexivity|]; split; [discriminate|];
             split; [reflexivity|reflexivity]|]);
    repeat split; try discriminate; try reflexivity; try (intros E; discriminate E);
    try (intros [E1 E2]; discriminate).
Qed.

Lemma user_route_agrees_with_requireAuth_toy :
  exists info,
    get_user Example.alice_headers None = SignedIn info /\
    email info = Some Example.alice /\
    getUserId Example.alice_headers = Some Example.alice.
Proof.
  eexists. split; [reflexivity|]. split; [reflexivity|].
  destruct (proj2 (proj2 (user_route_agrees_with_requireAuth (P := Toy.platform)
                            Example.alice_headers None)) _ eq_refl)
    as ((userId & Hid & _ & _ & Heq) & _).
  rewrite Hid. exact Heq.
Defined.

(** ** The scan at startup on any disk and any device *)

Lemma registered_nothing (w w' : World) :
  disk w' = disk w -> publicFilesRegistry w' = publicFilesRegistry w ->
  otherKeys w' = otherKeys w -> trace w' = trace w ->
  registered [] w w'.
Proof.
  intros Hd Hr Ho Ht. split; [exact Hd|]. split; [exact Hr|]. split; [exact Ho|].
  cbn [map]. rewrite app_nil_r. exact Ht.
Qed.

Lemma registered_one (publicId : json_value) (entry : PublicEntry) (f : list bool)
    (w : World) :
  registered [(publicId, entry)] w
    (emit (RegistrySet publicId entry) (registry_put publicId entry (next_call f w))).
Proof.
  destruct (register_one publicId entry (next_call f w)) as [Hr Ho].
  split; [|split; [|split]].
  - cbn [disk emit]. rewrite disk_registry_put. reflexivity.
  - exact Hr.
  - exact Ho.
  - cbn [trace emit]. rewrite trace_registry_put. reflexivity.
Qed.

Lemma registered_trans (a b : list (json_value * PublicEntry)) (w w1 w2 : World) :
  registered a w w1 -> registered b w1 w2 -> registered (a ++ b) w w2.
Proof.
  intros (Hd1 & Hr1 & Ho1 & Ht1) (Hd2 & Hr2 & Ho2 & Ht2). split; [congruence|].
  split; [|split].
  - rewrite Hr2, Hr1. symmetry. apply register_all_app.
  - rewrite Ho2, Ho1. symmetry. apply register_others_app.
  - rewrite Ht2, Ht1, map_app, app_assoc. reflexivity.
Qed.

(** A call of the file system runs on the next state of the device, or the
    device fails it. *)
Lemma io_any {A : Type} (op : M A) (w : World) :
  (exists f, io op w = op (next_call f w)) \/
  (exists rest, io op w = (Throw EIO, next_call rest w)).
Proof.
  unfold io. destruct (faults w) as [|[|] rest].
  - left. exists []. reflexivity.
  - right. exists rest. reflexivity.
  - left. exists rest. reflexivity.
Qed.

Section ScanAnyDevice.

Context {P : Platform}.

Lemma scan_names_app (userHash : jsstring) (w : World) (a b : list jsstring) :
  scan_names userHash w (a ++ b) = scan_names userHash w a ++ scan_names userHash w b.
Proof. unfold scan_names. apply flat_map_app. Qed.

Lemma load_file_any (userHash file : jsstring) (w : World) :
  match load_file userHash file w with
  | (Return _, w') => registered (scan_names userHash w [file]) w w'
  | (Throw _, w') => registered [] w w'
  end.
Proof.
  unfold load_file, scan_names, scanned_entry. cbn [flat_map]. rewrite app_nil_r.
  destruct (endsWith file (lit ".meta.json")).
  2:{ apply registered_nothing; reflexivity. }
  unfold bind at 1. unfold fs_readFile.
  destruct (io_any (fun w0 =>
                      match node_at {| path_dir := userHash; path_name := file |} w0 with
                      | Some (NFile data _) => (Return (utf8_decode data), w0)
                      | Some NDir => (Throw EISDIR, w0)
                      | None => (Throw ENOENT, w0)
                      end) w) as [[f E]|[rest E]]; rewrite E; clear E.
  2:{ apply registered_nothing; reflexivity. }
  rewrite node_at_next_call.
  destruct (node_at {| path_dir := userHash; path_name := file |} w) as [[data t|]|];
    try (apply registered_nothing; reflexivity).
  unfold bind at 1. unfold parse_json.
  destruct (JSON_parse (utf8_decode data)) as [meta|];
    [|apply registered_nothing; reflexivity].
  unfold ret at 1. unfold bind at 1. unfold lift at 1.
  destruct (public_token meta) as [[publicId|]|e];
    try (apply registered_nothing; reflexivity).
  unfold bind, lift. destruct (property meta (lit "userId")) as [userId|e];
    [|apply registered_nothing; reflexivity].
  apply registered_one.
Qed.

Lemma load_files_any (userHash : jsstring) (files : list jsstring) (w : World) :
  match for_of files (load_file userHash) w with
  | (Return _, w') => registered (scan_names userHash w files) w w'
  | (Throw _, w') =>
      exists done rest, files = done ++ rest /\ registered (scan_names userHash w done) w w'
  end.
Proof.
  revert w. induction files as [|file files IH]; intros w.
  { apply registered_nothing; reflexivity. }
  cbn [for_of]. unfold bind.
  pose proof (load_file_any userHash file w) as Hfile.
  destruct (load_file userHash file w) as [[[]|e] w1].
  - assert (disk w1 = disk w) as Hd by apply Hfile.
    specialize (IH w1).
    destruct (for_of files (load_file userHash) w1) as [[[]|e] w2].
    + rewrite (scan_names_same_disk userHash _ w w1 Hd) in IH.
      change (file :: files) with ([file] ++ files). rewrite scan_names_app.
      apply (registered_trans _ _ w w1 w2); assumption.
    + destruct IH as (done & rest & Hsplit & Hreg).
      rewrite (scan_names_same_disk userHash _ w w1 Hd) in Hreg.
      exists (file :: done), rest. split; [rewrite Hsplit; reflexivity|].
      change (file :: done) with ([file] ++ done). rewrite scan_names_app.
      apply (registered_trans _ _ w w1 w2); assumption.
  - exists [], (file :: files). split; [reflexivity|exact Hfile].
Qed.

Lemma load_user_any (userHash : jsstring) (w : World) :
  match load_user userHash w with
  | (Return _, w') => registered (scan_user w userHash) w w'
  | (Throw _, w') =>
      exists found rest, scan_user w userHash = found ++ rest /\ registered found w w'
  end.
Proof.
  unfold load_user, fs_readdir, bind.
  destruct (io_any (fun w0 =>
                      match dir_lookup userHash (disk w0) with
                      | None => (Throw ENOENT, w0)
                      | Some RFile => (Throw ENOTDIR, w0)
                      | Some (RDir d) => (Return (map fst d), w0)
                      end) w) as [[f E]|[rest E]]; rewrite E; clear E.
  2:{ exists [], (scan_user w userHash). split; [reflexivity|].
      apply registered_nothing; reflexivity. }
  unfold scan_user. cbn [disk next_call].
  destruct (dir_lookup userHash (disk w)) as [[d|]|].
  - pose proof (load_files_any userHash (map fst d) (next_call f w)) as Hfiles.
    rewrite (scan_names_same_disk userHash _ w (next_call f w) eq_refl) in Hfiles.
    destruct (for_of (map fst d) (load_file userHash) (next_call f w)) as [[[]|e] w'].
    + exact Hfiles.
    + destruct Hfiles as (done & rest & Hsplit & Hreg).
      rewrite (scan_names_same_disk userHash _ w (next_call f w) eq_refl) in Hreg.
      exists (scan_names userHash w done), (scan_names userHash w rest).
      split; [rewrite Hsplit; apply scan_names_app|exact Hreg].
  - exists [], []. split; [reflexivity|]. apply registered_nothing; reflexivity.
  - exists [], []. split; [reflexivity|]. apply registered_nothing; reflexivity.
Qed.

Lemma load_users_any (users : list jsstring) (w : World) :
  match for_of users load_user w with
  | (Return _, w') => registered (flat_map (scan_user w) users) w w'
  | (Throw _, w') =>
      exists found rest,
        flat_map (scan_user w) users = found ++ rest /\ registered found w w'
  end.
Proof.
  revert w. induction users as [|userHash users IH]; intros w.
  { apply registered_nothing; reflexivity. }
  cbn [for_of flat_map]. unfold bind.
  pose proof (load_user_any userHash w) as Huser.
  destruct (load_user userHash w) as [[[]|e] w1].
  - assert (disk w1 = disk w) as Hd by apply Huser.
    specialize (IH w1).
    assert (flat_map (scan_user w1) users = flat_map (scan_user w) users) as Hscan
        by (apply flat_map_ext; intros u; apply scan_user_same_disk, Hd).
    rewrite Hscan in IH.
    destruct (for_of users load_user w1) as [[[]|e] w2].
    + apply (registered_trans _ _ w w1 w2); assumption.
    + destruct IH as (found & rest & Hsplit & Hreg).
      exists (scan_user w userHash ++ found), rest.
      split; [rewrite Hsplit; apply app_assoc|].
      apply (registered_trans _ _ w w1 w2); assumption.
  - destruct Huser as (found & rest & Hsplit & Hreg).
    exists found, (rest ++ flat_map (scan_user w) users).
    split; [rewrite Hsplit; symmetry; apply app_assoc|exact Hreg].
Qed.

End ScanAnyDevice.

Lemma register_all_found (found : list (json_value * PublicEntry))
    (registry : gmap jsstring PublicEntry) (token : jsstring) (entry : PublicEntry) :
  register_all found registry !! token = Some entry ->
  registry !! token = Some entry \/ In (JString token, entry) found.
Proof.
  revert registry. induction found as [|[k1 e1] found IH]; intros registry H.
  - left. exact H.
  - cbn [register_all fold_left fst snd] in H. destruct (IH _ H) as [Hl|Hin].
    + destruct k1 as [|b|x|t1|items|fields]; try (left; exact Hl).
      apply lookup_insert_Some in Hl as [[<- <-]|[_ Hl]].
      * right. left. reflexivity.
      * left. exact Hl.
    + right. right. exact Hin.
Qed.

Lemma scanned_entry_declared {P : Platform} (userHash file : jsstring) (w : World)
    (publicId : json_value) (entry : PublicEntry) :
  scanned_entry userHash file w = Some (publicId, entry) ->
  endsWith file (lit ".meta.json") = true /\
  exists data t fields,
    node_at {| path_dir := userHash; path_name := file |} w = Some (NFile data t) /\
    JSON_parse (utf8_decode data) = Some (JObject fields) /\
    truthy (dir_lookup (lit "isPublic") fields) = true /\
    dir_lookup (lit "publicId") fields = Some publicId /\
    entry = {| entry_userId := dir_lookup (lit "userId") fields;
               entry_filename := slice_from_to_end_minus 1 10 file |}.
Proof.
  unfold scanned_entry. destruct (endsWith file (lit ".meta.json")); [|discriminate].
  destruct (node_at {| path_dir := userHash; path_name := file |} w) as [[data t|]|] eqn:Hn;
    try discriminate.
  destruct (JSON_parse (utf8_decode data)) as [meta|] eqn:Hparse; [|discriminate].
  destruct (public_token meta) as [[tok|]|e] eqn:Htok; try discriminate.
  destruct (public_token_object meta tok Htok) as (fields & -> & Hp & Hid & _).
  cbn [property]. intros H. injection H as <- <-. split; [reflexivity|].
  exists data, t, fields. repeat split; first [assumption|reflexivity].
Qed.

(** The scan registers an initial segment of what the disk declares.
    Whatever the disk and the device, [loadPublicFilesRegistry] returns,
    leaves the disk as it is, and has added to the registry, one after the
    other, the entries of an initial segment of the public sidecars of the
    disk in the order of the scan.  So it registers nothing that the disk
    does not declare: a link that is in the registry after the scan was
    there before it, or a file of the disk whose name ends in [.meta.json]
    holds JSON with [isPublic] true and that token as its [publicId].  The
    scan has logged the number of links when it came to its end, and then
    the segment is the whole; or it has reported the error that stopped
    it. *)
Theorem loader_registers_a_prefix {P : Platform} (w : World) :
  exists found rest w',
    loadPublicFilesRegistry w = (Return tt, w') /\
    disk w' = disk w /\
    scan_disk w = found ++ rest /\
    publicFilesRegistry w' = register_all found (publicFilesRegistry w) /\
    otherKeys w' = register_others found (otherKeys w) /\
    (forall token entry,
        publicFilesRegistry w' !! token = Some entry ->
        publicFilesRegistry w !! token = Some entry \/
        exists userHash file data t fields,
          endsWith file (lit ".meta.json") = true /\
          node_at {| path_dir := userHash; path_name := file |} w = Some (NFile data t) /\
          JSON_parse (utf8_decode data) = Some (JObject fields) /\
          truthy (dir_lookup (lit "isPublic") fields) = true /\
          dir_lookup (lit "publicId") fields = Some (JString token)) /\
    (rest = [] /\
     trace w' = trace w ++ map (fun te => RegistrySet (fst te) (snd te)) found
                  ++ [ConsoleLog (lit "Loaded " ++ decimal (registry_size w')
                                    ++ lit " public files")]
     \/
     exists e,
       trace w' = trace w ++ map (fun te => RegistrySet (fst te) (snd te)) found
                    ++ [ConsoleError (lit "Error loading public files registry:") e]).
Proof.
  assert (forall found rest (w' : World),
             scan_disk w = found ++ rest ->
             publicFilesRegistry w' = register_all found (publicFilesRegistry w) ->
             forall token entry,
               publicFilesRegistry w' !! token = Some entry ->
               publicFilesRegistry w !! token = Some entry \/
               exists userHash file data t fields,
                 endsWith file (lit ".meta.json") = true /\
                 node_at {| path_dir := userHash; path_name := file |} w
                 = Some (NFile data t) /\
                 JSON_parse (utf8_decode data) = Some (JObject fields) /\
                 truthy (dir_lookup (lit "isPublic") fields) = true /\
                 dir_lookup (lit "publicId") fields = Some (JString token)) as Hdeclared.
  { intros found rest w' Hsplit Hr token entry Hl. rewrite Hr in Hl.
    destruct (register_all_found _ _ _ _ Hl) as [Hold|Hin]; [left; exact Hold|right].
    assert (In (JString token, entry) (scan_disk w)) as Hscan
        by (rewrite Hsplit; apply in_or_app; left; exact Hin).
    destruct (scan_disk_in w _ Hscan) as (userHash & d & file & _ & _ & Hs).
    destruct (scanned_entry_declared _ _ _ _ _ Hs)
      as (Hends & data & t & fields & Hn & Hparse & Hp & Hid & _).
    exists userHash, file, data, t, fields. repeat split; assumption. }
  unfold loadPublicFilesRegistry, try_catch, fs_readdir_root.
  unfold bind at 1. unfold bind at 1.
  destruct (io_any (fun w0 => (Return (map fst (disk w0)), w0)) w) as [[f E]|[rest E]];
    rewrite E; clear E.
  2:{ exists [], (scan_disk w). eexists. split; [reflexivity|]. split; [reflexivity|].
      split; [reflexivity|]. split; [reflexivity|]. split; [reflexivity|].
      split; [intros token entry H; left; exact H|]. right. exists EIO. reflexivity. }
  pose proof (load_users_any (map fst (disk w)) (next_call f w)) as Hscan.
  cbn [disk next_call].
  assert (flat_map (scan_user (next_call f w)) (map fst (disk w)) = scan_disk w) as Hsame
      by (apply flat_map_ext; intros u; apply scan_user_same_disk; reflexivity).
  rewrite Hsame in Hscan.
  destruct (for_of (map fst (disk w)) load_user (next_call f w)) as [[[]|e] w1].
  - destruct Hscan as (Hd & Hr & Ho & Ht).
    exists (scan_disk w), []. eexists. split; [reflexivity|].
    cbn [disk emit publicFilesRegistry otherKeys trace].
    split; [exact Hd|]. split; [symmetry; apply app_nil_r|]. split; [exact Hr|].
    split; [exact Ho|].
    split; [apply (Hdeclared (scan_disk w) [] w1); [symmetry; apply app_nil_r|exact Hr]|].
    left. split; [reflexivity|]. rewrite Ht, <- app_assoc. reflexivity.
  - destruct Hscan as (found & rest & Hsplit & Hd & Hr & Ho & Ht).
    exists found, rest. eexists. split; [reflexivity|].
    cbn [disk emit publicFilesRegistry otherKeys trace].
    split; [exact Hd|]. split; [exact Hsplit|]. split; [exact Hr|]. split; [exact Ho|].
    split; [apply (Hdeclared found rest w1); assumption|].
    right. exists e. rewrite Ht, <- app_assoc. reflexivity.
Qed.

(** ** The listing on a device that works *)

Lemma dir_lookup_NoDup {V : Type} (d : list (jsstring * V)) (name : jsstring) (v : V) :
  List.NoDup (map fst d) -> In (name, v) d -> dir_lookup name d = Some v.
Proof.
  induction d as [|[n v0] d IH]; intros Hnd Hin; [destruct Hin|].
  cbn [map fst] in Hnd. apply List.NoDup_cons_iff in Hnd as [Hfresh Hnd].
  cbn [dir_lookup]. destruct Hin as [Heq|Hin].
  - injection Heq as -> ->. rewrite str_eqb_refl. reflexivity.
  - destruct (str_eqb n name) eqn:E.
    + apply str_eqb_eq in E. subst n. exfalso. apply Hfresh.
      apply in_map_iff. exists (name, v). split; [reflexivity|exact Hin].
    + apply IH; assumption.
Qed.

Lemma fs_stat_run (p : Path) (w : World) (n : Node) :
  faults w = [] -> node_at p w = Some n ->
  fs_stat p w
  = (Return match n with
            | NFile data t => {| st_isFile := true; st_size := length data; st_mtime := t |}
            | NDir => {| st_isFile := false; st_size := 0; st_mtime := 0 |}
            end, next_call [] w).
Proof.
  intros Hf Hn. unfold fs_stat. rewrite (io_run _ _ Hf), node_at_next_call, Hn.
  destruct n; reflexivity.
Qed.

Section ListingRuns.

Context {P : Platform}.

Lemma stored_metadata_same_disk (userId filename : jsstring) (w w' : World) :
  disk w' = disk w -> stored_metadata userId filename w' = stored_metadata userId filename w.
Proof. intros H. apply stored_metadata_frame, node_at_same_disk, H. Qed.

Lemma listing_of_same_disk (userId : jsstring) (w w' : World) (entry : jsstring * Node) :
  disk w' = disk w -> listing_of userId w' entry = listing_of userId w entry.
Proof.
  intros H. unfold listing_of. rewrite (stored_metadata_same_disk _ _ _ _ H). reflexivity.
Qed.

Lemma list_entry_run (userId : jsstring) (entry : jsstring * Node) (w : World) :
  faults w = [] -> node_at (file_path userId (fst entry)) w = Some (snd entry) ->
  exists w',
    list_entry userId (fst entry) w = (listing_of userId w entry, w') /\
    faults w' = [] /\ disk w' = disk w.
Proof.
  intros Hf Hn. unfold list_entry, listing_of.
  destruct (startsWith (fst entry) (lit ".") && endsWith (fst entry) (lit ".meta.json")).
  { exists w. split; [reflexivity|]. split; [exact Hf|reflexivity]. }
  unfold bind at 1. rewrite (fs_stat_run _ w _ Hf Hn).
  destruct (snd entry) as [data t|]; cbn [st_isFile st_size st_mtime].
  - unfold bind at 1. rewrite getFileMetadata_run by reflexivity.
    rewrite (stored_metadata_same_disk userId (fst entry) w (next_call [] w) eq_refl).
    unfold bind, lift, ret.
    destruct (property (stored_metadata userId (fst entry) w) (lit "isPublic"));
      destruct (property (stored_metadata userId (fst entry) w) (lit "publicId"));
      eexists; (split; [reflexivity|]); split; reflexivity.
  - eexists. split; [reflexivity|]. split; reflexivity.
Qed.

Lemma map_all_list_entry_run (userId : jsstring) (entries : list (jsstring * Node)) :
  forall w,
    faults w = [] ->
    (forall entry, In entry entries ->
                   node_at (file_path userId (fst entry)) w = Some (snd entry)) ->
    exists w',
      map_all (list_entry userId) (map fst entries) w
      = (all_outcomes (map (listing_of userId w) entries), w') /\
      faults w' = [] /\ disk w' = disk w.
Proof.
  induction entries as [|entry entries IH]; intros w Hf Hnodes.
  { exists w. split; [reflexivity|]. split; [exact Hf|reflexivity]. }
  cbn [map map_all all_outcomes]. unfold bind at 1.
  destruct (list_entry_run userId entry w Hf (Hnodes entry (or_introl eq_refl)))
    as (w1 & Hrun & Hf1 & Hd1).
  rewrite Hrun.
  destruct (listing_of userId w entry) as [details|e];
    [|exists w1; split; [reflexivity|]; split; assumption].
  destruct (IH w1 Hf1) as (w2 & Hrun2 & Hf2 & Hd2).
  { intros e Hin. rewrite (node_at_same_disk _ w w1 Hd1). apply Hnodes. right. exact Hin. }
  unfold bind. rewrite Hrun2. unfold ret.
  assert (map (listing_of userId w1) entries = map (listing_of userId w) entries) as ->
    by (apply map_ext; intros e; apply listing_of_same_disk, Hd1).
  exists w2. split; [|split; [exact Hf2|congruence]].
  destruct (all_outcomes (map (listing_of userId w) entries)); reflexivity.
Qed.

Lemma list_files_run (userId : jsstring) (w : World) (d : Directory) :
  faults w = [] -> dir_lookup (getUserDataDir userId) (disk w) = Some (RDir d) ->
  List.NoDup (map fst d) ->
  fst (list_files userId w) = Return (json (BFiles (listing userId w d))).
Proof.
  intros Hf Hd Hnd. unfold list_files, try_catch. unfold bind at 1.
  unfold fs_mkdir_recursive. rewrite (io_run _ _ Hf). cbn [disk next_call]. rewrite Hd.
  unfold bind at 1. unfold fs_readdir. rewrite (io_run _ (next_call [] w) eq_refl).
  cbn [disk next_call]. rewrite Hd. unfold bind at 1.
  destruct (map_all_list_entry_run userId d (next_call [] (next_call [] w)) eq_refl)
    as (w' & Hrun & _ & _).
  { intros [name node] Hin. unfold node_at.
    cbn [disk next_call path_dir path_name file_path fst snd].
    rewrite Hd. apply dir_lookup_NoDup; assumption. }
  rewrite Hrun. unfold listing.
  assert (map (listing_of userId (next_call [] (next_call [] w))) d
          = map (listing_of userId w) d) as ->
    by (apply map_ext; intros e; apply listing_of_same_disk; reflexivity).
  destruct (all_outcomes (map (listing_of userId w) d)); reflexivity.
Qed.

(** When every entry has an outcome, so has the list, and conversely. *)
Lemma all_outcomes_returns {A : Type} (l : list (Outcome A)) :
  (forall o, In o l -> exists a, o = Return a) ->
  exists results, all_outcomes l = Return results /\ map Return results = l.
Proof.
  induction l as [|o l IH]; intros Hall; [exists []; split; reflexivity|].
  destruct (Hall o (or_introl eq_refl)) as [a ->].
  destruct IH as (results & Hrest & Hmap); [intros o Hin; apply Hall; right; exact Hin|].
  exists (a :: results). cbn [all_outcomes map]. rewrite Hrest, Hmap. split; reflexivity.
Qed.

Lemma all_outcomes_throws {A : Type} (l : list (Outcome A)) (e : Error) :
  In (Throw e) l -> exists e', all_outcomes l = Throw e'.
Proof.
  induction l as [|o l IH]; intros Hin; [destruct Hin|].
  destruct o as [a|e0]; [|exists e0; reflexivity].
  destruct Hin as [Heq|Hin]; [discriminate Heq|].
  destruct (IH Hin) as [e' He']. exists e'. cbn [all_outcomes]. rewrite He'. reflexivity.
Qed.

Lemma listing_of_returns (userId : jsstring) (w : World) (entry : jsstring * Node) :
  (forall data t, snd entry = NFile data t -> stored_metadata userId (fst entry) w <> JNull) ->
  exists details, listing_of userId w entry = Return details.
Proof.
  intros Hnull. unfold listing_of.
  destruct (startsWith (fst entry) (lit ".") && endsWith (fst entry) (lit ".meta.json"));
    [eexists; reflexivity|].
  destruct (snd entry) as [data t|]; [|eexists; reflexivity].
  specialize (Hnull data t eq_refl).
  destruct (stored_metadata userId (fst entry) w); try contradiction;
    eexists; reflexivity.
Qed.

End ListingRuns.

(** The listing is complete.  On a device that works, for a namespace
    directory whose names are distinct, [list] answers with the listing of
    the directory: one entry for every regular file whose name is not that
    of a sidecar, in the order of the directory, each with its size, its time
    and the two fields of what its sidecar holds, when no sidecar of a file
    holds [null]; then every file with a valid name is listed.  When the
    sidecar of a file that is not itself a sidecar holds [null], the answer
    is the empty list.  A namespace that does not exist yet is created and
    listed as empty. *)
Theorem list_files_complete {P : Platform} (userId : jsstring) (w : World) :
  faults w = [] ->
  (forall d,
      dir_lookup (getUserDataDir userId) (disk w) = Some (RDir d) -> List.NoDup (map fst d) ->
      fst (list_files userId w) = Return (json (BFiles (listing userId w d))) /\
      ((forall name data t,
           In (name, NFile data t) d -> stored_metadata userId name w <> JNull) ->
       exists details,
         map (listing_of userId w) d = map Return details /\
         listing userId w d = filter_Boolean details /\
         forall name data t,
           In (name, NFile data t) d -> isValidFilename (VString name) = true ->
           exists isPublic publicId,
             property (stored_metadata userId name w) (lit "isPublic") = Return isPublic /\
             property (stored_metadata userId name w) (lit "publicId") = Return publicId /\
             In {| fd_name := name; fd_size := length data; fd_modified := t;
                   fd_isPublic := isPublic; fd_publicId := publicId |}
               (listing userId w d)) /\
      (forall name data t,
          In (name, NFile data t) d ->
          startsWith name (lit ".") && endsWith name (lit ".meta.json") = false ->
          stored_metadata userId name w = JNull ->
          listing userId w d = [])) /\
  (dir_lookup (getUserDataDir userId) (disk w) = None ->
   fst (list_files userId w) = Return (json (BFiles [])) /\
   dir_lookup (getUserDataDir userId) (disk (snd (list_files userId w))) = Some (RDir [])).
Proof.
  intros Hf. split.
  - intros d Hd Hnd. split; [apply list_files_run; assumption|]. split.
    + intros Hnull.
      destruct (all_outcomes_returns (map (listing_of userId w) d)) as (details & Hall & Hmap).
      { intros o Hin. apply in_map_iff in Hin as ([name node] & <- & Hin).
        apply listing_of_returns. cbn [fst snd]. intros data t ->. apply (Hnull _ _ _ Hin). }
      exists details. split; [symmetry; exact Hmap|].
      assert (listing userId w d = filter_Boolean details) as Hlisting
        by (unfold listing; rewrite Hall; reflexivity).
      split; [exact Hlisting|].
      intros name data t Hin Hv.
      destruct (public_token_returns (stored_metadata userId name w) (Hnull _ _ _ Hin))
        as [shared Hshared].
      assert (exists isPublic publicId,
                 property (stored_metadata userId name w) (lit "isPublic") = Return isPublic /\
                 property (stored_metadata userId name w) (lit "publicId") = Return publicId)
        as (isPublic & publicId & HisPublic & HpublicId).
      { pose proof (Hnull _ _ _ Hin) as Hn.
        destruct (stored_metadata userId name w); try contradiction;
          eexists _, _; split; reflexivity. }
      exists isPublic, publicId. split; [exact HisPublic|]. split; [exact HpublicId|].
      rewrite Hlisting. unfold filter_Boolean. apply in_flat_map.
      eexists (Some _). split; [|left; reflexivity].
      assert (In (listing_of userId w (name, NFile data t)) (map Return details)) as Hmem
        by (rewrite Hmap; apply in_map, Hin).
      unfold listing_of in Hmem. cbn [fst snd] in Hmem.
      pose proof (regex_no_leading_dot name (isValidFilename_regex name Hv)) as Hdot.
      apply orb_false_iff in Hdot as [Hdot _]. apply orb_false_iff in Hdot as [Hdot _].
      rewrite Hdot, HisPublic, HpublicId in Hmem. cbn [andb] in Hmem.
      apply in_map_iff in Hmem as (o & Ho & Hin'). injection Ho as ->. exact Hin'.
    + intros name data t Hin Hside Hnull. unfold listing.
      destruct (all_outcomes_throws (map (listing_of userId w) d) TypeError) as [e ->];
        [|reflexivity].
      apply in_map_iff. exists (name, NFile data t). split; [|exact Hin].
      unfold listing_of. cbn [fst snd]. rewrite Hside, Hnull. reflexivity.
  - intros Hd.
    assert (exists w',
               list_files userId w = (Return (json (BFiles [])), w') /\
               dir_lookup (getUserDataDir userId) (disk w') = Some (RDir [])) as (w' & -> & Hd').
    { unfold list_files, try_catch, bind, fs_mkdir_recursive.
      rewrite (io_run _ _ Hf). cbn [disk next_call]. rewrite Hd. unfold fs_readdir.
      rewrite (io_run _ (emit (FsMkdir (getUserDataDir userId))
                           (set_disk (dir_put (getUserDataDir userId) (RDir []) (disk w))
                              (next_call [] w))) eq_refl).
      cbn [disk next_call emit set_disk]. rewrite dir_lookup_put_eq.
      cbn [map map_all]. unfold ret. eexists. split; [reflexivity|].
      cbn [disk next_call emit set_disk]. apply dir_lookup_put_eq. }
    split; [reflexivity|exact Hd'].
Qed.

Lemma list_files_complete_toy :
  faults Example.shared_world = [] /\
  exists d,
    dir_lookup (getUserDataDir (P := Toy.platform) Example.alice) (disk Example.shared_world)
    = Some (RDir d) /\
    List.NoDup (map fst d) /\
    fst (list_files (P := Toy.platform) Example.alice Example.shared_world)
    = Return (json (BFiles (listing (P := Toy.platform) Example.alice
                              Example.shared_world d))) /\
    map fd_name (listing (P := Toy.platform) Example.alice Example.shared_world d)
    = [Example.hello_txt].
Proof.
  split; [reflexivity|]. eexists.
  assert (forall X Y : Prop, X -> (X -> Y) -> X /\ Y) as Hcut by tauto.
  apply Hcut; [vm_compute; reflexivity|intros Hd].
  apply Hcut; [|intros Hnd].
  { vm_compute. repeat (constructor; [cbn; intuition discriminate|]). constructor. }
  split.
  - apply (proj1 (list_files_complete (P := Toy.platform) Example.alice Example.shared_world
                    eq_refl) _ Hd Hnd).
  - vm_compute. reflexivity.
Defined.

(** ** A deleted file leaves nothing behind *)

#[global] Instance no_new_root_files_preorder : PreOrder no_new_root_files.
Proof.
  split; [intros w dir H; exact H|].
  intros a b c Hab Hbc dir H. apply Hab, Hbc, H.
Qed.

Lemma same_disk_no_new_root_files (w w' : World) :
  same_disk w w' -> no_new_root_files w w'.
Proof. unfold same_disk. intros H dir Hd. rewrite H in Hd. exact Hd. Qed.

Lemma no_new_root_files_put (p : Path) (n : Node) (w : World) :
  no_new_root_files w (put_node p n w).
Proof.
  intros dir. unfold put_node. cbn [disk set_disk].
  destruct (dir_lookup (path_dir p) (disk w)) as [[entries|]|] eqn:E; try (intros H; exact H).
  destruct (decide (path_dir p = dir)) as [<-|Hne].
  - rewrite dir_lookup_put_eq. discriminate.
  - rewrite dir_lookup_put_ne by exact Hne. intros H. exact H.
Qed.

Lemma no_new_root_files_remove (p : Path) (w : World) :
  no_new_root_files w (remove_node p w).
Proof.
  intros dir. unfold remove_node. cbn [disk set_disk].
  destruct (dir_lookup (path_dir p) (disk w)) as [[entries|]|] eqn:E; try (intros H; exact H).
  destruct (decide (path_dir p = dir)) as [<-|Hne].
  - rewrite dir_lookup_put_eq. discriminate.
  - rewrite dir_lookup_put_ne by exact Hne. intros H. exact H.
Qed.

Lemma no_new_root_files_emit (e : Event) (w w' : World) :
  no_new_root_files w w' -> no_new_root_files w (emit e w').
Proof. intros H. exact H. Qed.

Lemma no_new_root_files_next_call (f : list bool) (w : World) :
  no_new_root_files w (next_call f w).
Proof. intros dir H. exact H. Qed.

Lemma fs_mkdir_no_new_root_files (dir : jsstring) :
  keeps no_new_root_files (fs_mkdir_recursive dir).
Proof.
  unfold fs_mkdir_recursive. apply keeps_io; [apply no_new_root_files_next_call|].
  intros w. destruct (dir_lookup dir (disk w)) as [[entries|]|] eqn:E; cbn [snd];
    try reflexivity.
  intros d. cbn [disk emit set_disk]. destruct (decide (dir = d)) as [<-|Hne].
  - rewrite dir_lookup_put_eq. discriminate.
  - rewrite dir_lookup_put_ne by exact Hne. intros H. exact H.
Qed.

Lemma fs_writeFile_no_new_root_files (p : Path) (text : jsstring) :
  keeps no_new_root_files (fs_writeFile p text).
Proof.
  unfold fs_writeFile. apply keeps_io; [apply no_new_root_files_next_call|].
  intros w. destruct (dir_lookup (path_dir p) (disk w)) as [[entries|]|]; cbn [snd];
    try reflexivity.
  destruct (dir_lookup (path_name p) entries) as [[|]|]; cbn [snd]; try reflexivity;
    apply no_new_root_files_emit, no_new_root_files_put.
Qed.

Lemma fs_unlink_no_new_root_files (p : Path) : keeps no_new_root_files (fs_unlink p).
Proof.
  unfold fs_unlink. apply keeps_io; [apply no_new_root_files_next_call|].
  intros w. destruct (node_at p w) as [[|]|]; cbn [snd]; try reflexivity.
  apply no_new_root_files_emit, no_new_root_files_remove.
Qed.

Lemma fs_rename_no_new_root_files (src dst : Path) :
  keeps no_new_root_files (fs_rename src dst).
Proof.
  unfold fs_rename. apply keeps_io; [apply no_new_root_files_next_call|].
  assert (forall n w, no_new_root_files w (put_node dst n (remove_node src w))) as Hmove.
  { intros n w. transitivity (remove_node src w);
      [apply no_new_root_files_remove | apply no_new_root_files_put]. }
  intros w. destruct (node_at src w) as [n|]; cbn [snd]; [|reflexivity].
  destruct (str_eqb (path_name src) (path_name dst)); cbn [snd]; [reflexivity|].
  destruct (node_at dst w) as [n'|]; cbn [snd].
  - destruct (same_kind n n'); cbn [snd]; [|reflexivity].
    apply no_new_root_files_emit, Hmove.
  - apply no_new_root_files_emit, Hmove.
Qed.

Ltac no_new_root_files_call :=
  first [ apply fs_mkdir_no_new_root_files | apply fs_writeFile_no_new_root_files
        | apply fs_unlink_no_new_root_files | apply fs_rename_no_new_root_files
        | apply (keeps_weaken same_disk);
          [apply same_disk_no_new_root_files | same_disk_call] ].

Section DeleteThenSave.

Context {P : Platform}.

Lemma delete_file_no_new_root_files (userId filename : jsstring) :
  keeps no_new_root_files (delete_file userId filename).
Proof. unfold_handlers. keeps_walk no_new_root_files_call. Qed.

Lemma scanned_entry_missing (userHash file : jsstring) (w : World) :
  node_at {| path_dir := userHash; path_name := file |} w = None ->
  scanned_entry userHash file w = None.
Proof.
  intros H. unfold scanned_entry. rewrite H.
  destruct (endsWith file (lit ".meta.json")); reflexivity.
Qed.

Lemma stored_metadata_missing (userId filename : jsstring) (w : World) :
  node_at (getMetadataPath userId filename) w = None ->
  stored_metadata userId filename w = default_metadata.
Proof. intros H. unfold stored_metadata. rewrite H. reflexivity. Qed.

End DeleteThenSave.

(** A deleted file leaves nothing behind.  On a device that works, after the
    [delete] of a shared file and the [save] of a new file under the same
    name: the new file has no sidecar, so it is private; the token of the old
    file is in no entry of the registry; and the scan at startup finds
    nothing to register for the file. *)
Theorem delete_then_save_is_private {P : Platform}
    (userId filename text token : jsstring) (w : World) (data : bytes) (t : Z) :
  faults w = [] -> isValidFilename (VString filename) = true ->
  node_at (file_path userId filename) w = Some (NFile data t) ->
  node_at (getMetadataPath userId filename) w <> Some NDir ->
  public_token (stored_metadata userId filename w) = Return (Some (JString token)) ->
  (Z.of_nat (length text) <= MAX_FILE_SIZE)%Z ->
  exists w1 w2,
    delete_file userId filename w = (Return (json BSuccess), w1) /\
    save_file userId filename (VString text) w1 = (Return (json (BSaved filename)), w2) /\
    node_at (getMetadataPath userId filename) w2 = None /\
    stored_metadata userId filename w2 = default_metadata /\
    publicFilesRegistry w2 !! token = None /\
    scanned_entry (getUserDataDir userId) (sidecar_name filename) w2 = None.
Proof.
  intros Hf Hv Hn Hside Htoken Hsize.
  destruct (delete_file_present userId filename w data t Hf Hv Hn)
    as (shared & w1 & Hshared & Hdel & Hgone & Hside1 & Hreg1).
  { intros Hnull. rewrite Hnull in Htoken. discriminate Htoken. }
  specialize (Hside1 Hside). rewrite Htoken in Hshared. injection Hshared as <-.
  pose proof (delete_file_calm userId filename w Hf) as Hf1.
  pose proof (delete_file_no_new_root_files userId filename w) as Hroot.
  rewrite Hdel in Hf1, Hroot. cbn [snd] in Hf1, Hroot.
  destruct (save_file_run userId filename text w1 Hf1 Hv Hsize) as (w2 & t2 & Hsave & _ & _).
  { intros H. apply Hroot in H. destruct (node_at_dir _ _ _ Hn) as [d Hd].
    cbn [path_dir file_path] in Hd. rewrite Hd in H. discriminate H. }
  { rewrite Hgone. discriminate. }
  pose proof (save_file_touches_only userId filename (VString text) w1) as Hfoot.
  pose proof (save_file_same_registry userId filename (VString text) w1) as [Hreg2 _].
  rewrite Hsave in Hfoot, Hreg2. cbn [snd] in Hfoot, Hreg2.
  assert (node_at (getMetadataPath userId filename) w2 = None) as Hside2.
  { rewrite <- Hside1. apply (node_at_frame _ _ _ _ _ Hfoot). right.
    cbn [path_name getMetadataPath In]. intros [H|[]]. symmetry in H. revert H.
    apply sidecar_name_not_valid, Hv. }
  exists w1, w2. split; [exact Hdel|]. split; [exact Hsave|]. split; [exact Hside2|].
  split; [apply stored_metadata_missing, Hside2|]. split.
  - rewrite Hreg2, Hreg1. apply lookup_delete_eq.
  - apply scanned_entry_missing. exact Hside2.
Qed.

Lemma delete_then_save_is_private_toy :
  exists w1 w2,
    delete_file (P := Toy.platform) Example.alice Example.hello_txt Example.shared_world
    = (Return (json BSuccess), w1) /\
    save_file (P := Toy.platform) Example.alice Example.hello_txt (VString (lit "new")) w1
    = (Return (json (BSaved Example.hello_txt)), w2) /\
    stored_metadata (P := Toy.platform) Example.alice Example.hello_txt w2 = default_metadata /\
    publicFilesRegistry w2 !! Example.token = None.
Proof.
  assert (exists data t,
             node_at (file_path (P := Toy.platform) Example.alice Example.hello_txt)
               Example.shared_world = Some (NFile data t)) as (data & t & Hn)
      by (eexists _, _; vm_compute; reflexivity).
  destruct (delete_then_save_is_private (P := Toy.platform) Example.alice Example.hello_txt
              (lit "new") Example.token Example.shared_world data t eq_refl eq_refl Hn)
    as (w1 & w2 & Hdel & Hsave & _ & Hmeta & Hreg & _).
  - vm_compute. discriminate.
  - vm_compute. reflexivity.
  - vm_compute. discriminate.
  - exists w1, w2. repeat split; assumption.
Defined.

(** ** Sidecars and names *)

(** Sidecars are out of reach.  The name of a sidecar is never a valid
    filename, so no route that takes a filename can name a sidecar, and the
    path of a sidecar is the path of no file with a valid name.  [list]
    hides every sidecar and hides no file with a valid name.  Two files have
    the same sidecar only when they are the same file, and the scan at
    startup recovers the filename from the name of the sidecar. *)
Theorem sidecars_are_out_of_reach {P : Platform} (userId filename other : jsstring) :
  isValidFilename (VString other) = true ->
  isValidFilename (VString (sidecar_name filename)) = false /\
  getMetadataPath userId filename <> file_path userId other /\
  startsWith (sidecar_name filename) (lit ".")
  && endsWith (sidecar_name filename) (lit ".meta.json") = true /\
  startsWith other (lit ".") && endsWith other (lit ".meta.json") = false /\
  (forall g, sidecar_name filename = sidecar_name g -> filename = g) /\
  slice_from_to_end_minus 1 10 (sidecar_name filename) = filename.
Proof.
  intros Hv. split.
  { destruct (isValidFilename (VString (sidecar_name filename))) eqn:E; [|reflexivity].
    exfalso. apply (sidecar_name_not_valid filename _ E). reflexivity. }
  split.
  { intros H. injection H as H. revert H. apply sidecar_name_not_valid, Hv. }
  split.
  { rewrite endsWith_sidecar_name. reflexivity. }
  split.
  { pose proof (regex_no_leading_dot other (isValidFilename_regex other Hv)) as Hdot.
    apply orb_false_iff in Hdot as [Hdot _]. apply orb_false_iff in Hdot as [Hdot _].
    rewrite Hdot. reflexivity. }
  split; [intros g; apply sidecar_name_injective|apply slice_sidecar_name].
Qed.

Lemma sidecars_are_out_of_reach_toy :
  isValidFilename (VString Example.hello_txt) = true /\
  isValidFilename (VString (sidecar_name Example.hello_txt)) = false /\
  getMetadataPath (P := Toy.platform) Example.alice Example.hello_txt
  <> file_path (P := Toy.platform) Example.alice Example.hello_txt.
Proof.
  split; [reflexivity|].
  destruct (sidecars_are_out_of_reach (P := Toy.platform) Example.alice Example.hello_txt
              Example.hello_txt eq_refl) as (H1 & H2 & _).
  split; assumption.
Defined.

(** ** The client and the links of the server *)

Lemma publicMatch_matches (path id : jsstring) :
  publicMatch path = Some id <->
  path = lit "/public/" ++ id /\ Regex.matches PUBLIC_PATH_ID id.
Proof.
  unfold publicMatch, PUBLIC_PATH_ID. split.
  - destruct (startsWith path (lit "/public/")) eqn:Hs; [|discriminate].
    apply startsWith_prefix in Hs as [post ->].
    change (skipn 8 (lit "/public/" ++ post)) with post.
    destruct post as [|c post]; [discriminate|]. cbn [truthy_string andb forallb].
    destruct (Regex.alnum c) eqn:Hc; [|discriminate]. cbn [andb].
    destruct (forallb Regex.alnum post) eqn:Hall; [|discriminate].
    intros H. injection H as <-. split; [reflexivity|].
    change (c :: post) with ([c] ++ post). constructor.
    + constructor. exact Hc.
    + apply star_class_forallb. exact Hall.
  - intros [-> Hm]. inversion Hm as [| r1 r2 s1 s2 H1 H2 | | | |]; subst.
    inversion H1 as [p c Hc | | | | |]; subst.
    apply star_class_forallb in H2.
    assert (startsWith (lit "/public/" ++ [c] ++ s2) (lit "/public/") = true) as ->
        by (apply startsWith_prefix; eexists; reflexivity).
    change (skipn 8 (lit "/public/" ++ [c] ++ s2)) with (c :: s2).
    cbn [truthy_string andb forallb]. rewrite Hc, H2. reflexivity.
Qed.

Lemma lower_hex_alnum (c : Z) : Regex.lower_hex c = true -> Regex.alnum c = true.
Proof.
  unfold Regex.lower_hex, Regex.alnum, Regex.in_range. intros H.
  apply orb_true_iff in H as [H|H]; apply andb_true_iff in H as [H1 H2];
    apply Z.leb_le in H1; apply Z.leb_le in H2;
    repeat match goal with
      | |- context [(?a <=? ?b)%Z] => destruct (Z.leb_spec a b)
      end; try reflexivity; lia.
Qed.

Lemma render_public (id : jsstring) :
  id <> [] -> forallb Regex.alnum id = true ->
  render (publicUrl id) = PublicViewer id.
Proof.
  intros Hne Hall.
  assert (publicMatch (publicUrl id) = Some id) as Hm.
  { unfold publicMatch, publicUrl.
    assert (startsWith (lit "/public/" ++ id) (lit "/public/") = true) as ->
        by (apply startsWith_prefix; eexists; reflexivity).
    change (skipn 8 (lit "/public/" ++ id)) with id. rewrite Hall.
    destruct id; [contradiction|reflexivity]. }
  unfold render, isInvalidPublicPath. rewrite Hm, andb_false_r. reflexivity.
Qed.

(** A link of the server opens in the viewer.  The client takes a path
    [/public/id] with a non-empty id of letters and digits to the viewer of
    public files with that id, and to nothing else; every token of the
    format the server asks for is such an id, so the [publicUrl] that
    [share] answers with a token it has minted opens in the viewer, which
    then asks the public route for that same token in the format the route
    accepts. *)
Theorem share_link_opens_in_viewer {P : Platform} :
  (forall path id,
      publicMatch path = Some id <->
      path = lit "/public/" ++ id /\ Regex.matches PUBLIC_PATH_ID id) /\
  (forall publicId,
      PUBLIC_ID_REGEX_test publicId = true ->
      render (publicUrl publicId) = PublicViewer publicId) /\
  (forall w,
      exists token w',
        generatePublicId w = (Return token, w') /\
        render (publicUrl token) = PublicViewer token /\
        fetchPublicFile token = lit "/api/public/" ++ token /\
        PUBLIC_ID_REGEX_test token = true).
Proof.
  assert (forall publicId,
             PUBLIC_ID_REGEX_test publicId = true ->
             render (publicUrl publicId) = PublicViewer publicId) as Hopen.
  { intros publicId Hre. unfold PUBLIC_ID_REGEX_test in Hre.
    apply andb_true_iff in Hre as [Hlen Hall]. apply Nat.eqb_eq in Hlen.
    apply render_public.
    - intros ->. discriminate Hlen.
    - apply forallb_forall. intros c Hc. apply lower_hex_alnum.
      apply (proj1 (forallb_forall _ _) Hall c Hc). }
  split; [apply publicMatch_matches|]. split; [exact Hopen|].
  intros w. unfold generatePublicId, randomBytes, bind, ret. eexists _, _.
  split; [reflexivity|].
  pose proof (generated_token (entropy w)) as [Hre _].
  split; [apply Hopen, Hre|]. split; [reflexivity|exact Hre].
Qed.

Lemma share_link_opens_in_viewer_toy :
  PUBLIC_ID_REGEX_test Example.token = true /\
  render (publicUrl Example.token) = PublicViewer Example.token.
Proof.
  assert (PUBLIC_ID_REGEX_test Example.token = true) as Hre by (vm_compute; reflexivity).
  split; [exact Hre|].
  apply (proj1 (proj2 (share_link_opens_in_viewer (P := Toy.platform))) Example.token Hre).
Defined.

(** ** One user and another *)

Section Users.

Context {P : Platform}.

(** What a request may touch: the namespace of the user it is served for. *)
Lemma handle_touches_only (r : Request) (w : World) :
  match requester r with
  | Some userId => exists names, touches_only (getUserDataDir userId) names w (snd (handle r w))
  | None => disk (snd (handle r w)) = disk w
  end.
Proof.
  destruct r as [h|h f|h f c|h f|h f n|h f|h f|publicId]; cbn [requester handle];
    try (unfold requireAuth; destruct (getUserId h) as [userId|]; [|reflexivity]).
  - eexists. apply list_files_touches_only.
  - exists []. apply same_disk_touches_only, read_file_same_disk.
  - eexists. apply save_file_touches_only.
  - eexists. apply delete_file_touches_only.
  - destruct n as [| |b|z|newName|];
      try (exists []; apply same_disk_touches_only; unfold same_disk, rename_file, try_catch;
           cbn [isValidFilename negb]; rewrite orb_true_r; reflexivity).
    eexists. apply rename_file_touches_only.
  - eexists. apply share_file_touches_only.
  - eexists. apply unshare_file_touches_only.
  - apply public_file_same_disk.
Qed.

Lemma handle_calm (r : Request) : keeps calm (handle r).
Proof.
  destruct r as [h|h f|h f c|h f|h f n|h f|h f|publicId]; cbn [handle];
    try (unfold requireAuth; destruct (getUserId h) as [userId|]; [|apply keeps_ret]).
  - apply list_files_calm.
  - apply read_file_calm.
  - apply save_file_calm.
  - apply delete_file_calm.
  - apply rename_file_calm.
  - apply share_file_calm.
  - apply unshare_file_calm.
  - apply public_file_calm.
Qed.

End Users.

(** Users do not interfere.  On a device that works, a request served for
    one user, whatever it is, changes nothing in the namespace of a user
    with another namespace directory, and so does not change what [read]
    answers that user for any of his files; nor does a request served for
    nobody. *)
Theorem users_do_not_interfere {P : Platform} (r : Request) (userId filename : jsstring)
    (w : World) :
  faults w = [] ->
  (forall other, requester r = Some other -> getUserDataDir other <> getUserDataDir userId) ->
  let w' := snd (handle r w) in
  dir_lookup (getUserDataDir userId) (disk w') = dir_lookup (getUserDataDir userId) (disk w) /\
  fst (read_file userId filename w') = fst (read_file userId filename w).
Proof.
  intros Hf Hother. cbv zeta.
  assert (dir_lookup (getUserDataDir userId) (disk (snd (handle r w)))
          = dir_lookup (getUserDataDir userId) (disk w)) as Hdir.
  { pose proof (handle_touches_only r w) as Hfoot.
    destruct (requester r) as [other|].
    - destruct Hfoot as [names [Hout _]]. apply Hout. intros E.
      apply (Hother other eq_refl). symmetry. exact E.
    - rewrite Hfoot. reflexivity. }
  split; [exact Hdir|].
  destruct (isValidFilename (VString filename)) eqn:Hv.
  - rewrite (read_file_run userId filename _ (handle_calm r w Hf) Hv).
    rewrite (read_file_run userId filename w Hf Hv).
    unfold node_at. cbn [path_dir path_name file_path]. rewrite Hdir. reflexivity.
  - unfold read_file, try_catch. rewrite Hv. reflexivity.
Qed.

Lemma users_do_not_interfere_toy :
  faults Example.saved_world = [] /\
  getUserDataDir (P := Toy.platform) Example.bob
  <> getUserDataDir (P := Toy.platform) Example.alice /\
  fst (read_file (P := Toy.platform) Example.alice Example.hello_txt
         (snd (handle (P := Toy.platform)
                 (DeleteFile {| x_auth_request_email := Some Example.bob;
                                x_auth_request_user := None |} Example.hello_txt)
                 Example.saved_world)))
  = Return (json (BFile Example.hello_txt (lit "hi"))).
Proof.
  assert (getUserDataDir (P := Toy.platform) Example.bob
          <> getUserDataDir (P := Toy.platform) Example.alice) as Hne
      by (vm_compute; discriminate).
  split; [reflexivity|]. split; [exact Hne|].
  rewrite (proj2 (users_do_not_interfere (P := Toy.platform)
                    (DeleteFile {| x_auth_request_email := Some Example.bob;
                                   x_auth_request_user := None |} Example.hello_txt)
                    Example.alice Example.hello_txt Example.saved_world eq_refl
                    (fun other H => ltac:(injection H as <-; exact Hne)))).
  vm_compute. reflexivity.
Defined.
